(* ===== verification/_CoqProject ===== *)
-Q . S2P
Prelude.v
Threads.v
GoInt.v
GoString.v
Numeric.v
EpochMath.v
Models.v
World.v
TasksRepo.v
BlacklistRepo.v
OperatorsRepo.v
ConsensusRepo.v
Queries.v
Sql.v
Tables.v
Schema.v
EthLib.v
Signer.v
KeyGen.v
Config.v
Chain.v
Watch.v
Task.v
TaskInv.v
TaskToy.v
TaskConsensus.v
Shared.v
SharedInv.v
SharedProps.v
Responses.v
TaskProps.v
Liveness.v
TaskJobs.v
Gater.v
Epoch.v
Listener.v
BlockTime.v
Api.v
Router.v
Network.v
Sight.v
Node.v
Backed.v
Quorum.v
Cache.v
Framing.v
Dumps.v
P2PNode.v
Setup.v
Command.v
Init.v
App.v
