(* ===== verification/Prelude.v ===== *)
(** * Spotted Network: a verification library for the operator node

    An operator node of the Spotted network answers questions of the form
    "what value does this contract store under this key at this block of this
    chain".  A user posts a request; the node reads the value from the chain,
    stores a task, signs the value, gossips the signed response, collects the
    responses of the other operators and, when the weights of those who
    answered reach the threshold of the epoch, stores a consensus response
    with their signatures.  Who is an operator, with which keys and which
    weight, comes from the registry contract, through events and through a
    refresh at every epoch.

    ** How the parts interact

    - [Api] ([pkg/operator/api/handlers.go], [helpers.go]) takes requests:
      [SendRequest] validates, converts a timestamp ([BlockTime]), reads the
      state through the chain client ([Chain]), names the task by
      [generateTaskID], creates it ([TasksRepo]) and hands it to
      [Task.ProcessTask]; two handlers look consensus responses up
      ([ConsensusRepo]).  [Router] ([router.go], [server.go]) registers the
      routes and makes the server that calls the handlers.
    - [Task] ([pkg/operator/task]) is the task processor.  [ProcessTask]
      ([task.go]) signs ([Signer]) and broadcasts; [processResponse]
      ([response.go]) authenticates a peer's response against the operator
      table ([OperatorsRepo]) and counts violations ([BlacklistRepo]);
      [checkConsensus] ([consensus.go]) sums weights and stores the result;
      [checkTimeouts], [checkConfirmations] and [periodicCleanup]
      ([check.go]) are the periodic jobs.  [Shared] has the same functions as
      programs of goroutines, [Responses] the loop of [handleResponses] that
      starts one for each message.
    - [Epoch] ([pkg/operator/epoch]) refreshes weights, keys and activity of
      all operators in one transaction when the epoch ([EpochMath]) changes.
    - [Listener] ([pkg/operator/event]) turns the events that [Watch]
      ([chain_client.go], the two Watch methods) polls into operator rows.
    - [Gater] ([pkg/operator/gater]) admits libp2p peers that are active
      operators and not blacklisted; [Network] ([pkg/operator/health],
      [pkg/operator/node/disconnect.go]) pings and disconnects them.
    - [Config] ([pkg/config/config.go]) is what the node is started with;
      [Init] ([cmd/operator/cmd/init.go]) asks for it and writes it, [Command]
      ([cmd/operator/cmd]) reads it, [App] ([cmd/operator/app/app.go]) builds
      the components in order, starts their goroutines and shuts them down,
      over the connections of [Setup] ([internal/database], [internal/goodns]).
      [KeyGen] ([scripts/gen_keys]) makes the keys of the operators.
    - [P2PNode] ([pkg/operator/node]) is the libp2p node: construction,
      reconnection to bootstrap peers, discovery, the routing table.
    - [Cache] ([internal/database/cache/cache.go]) is the read-through cache
      over Redis; [Dumps] ([pkg/repos], Dump and Load) saves and restores the
      tables; [Framing] ([pkg/common/utils.go]) puts messages on a stream.
    - [Numeric] and [BlockTime] are the conversions of
      [pkg/common/utils.go]; [EthLib] holds [PeerIDToP2PKey].

    ** How it is modelled

    A Go call returns a [res]: a value, an error ([error], with its chain of
    causes), or a panic.  A method with effects is a computation [M W A] on a
    state [W]; [try] is [x, err := ...], [recovered] is [recover].  The state
    of a call on a node is [World C] ([World]): the database ([Models]: four
    tables, finite maps from their primary keys), the cache, the callbacks a
    transaction has deferred, the number of external calls made so far, and
    the memory [C] of the component, reached through a lens ([HasTask],
    [HasEpoch]).

    Code outside the repository is a parameter: PostgreSQL's driver, clock,
    cache, hash and goroutine scheduler are the class [Env]; go-ethereum's
    functions [EthLib]; libp2p's [P2PLib], [Host], [AddrLib]; protobuf and
    the gossip topic [PubSub]; JSON [HttpLib]; the RPC client and contract
    bindings [EthNode].  Each call gets the index of the call, so that a
    theorem for every instance covers every schedule of failures, lost
    answers, evictions and clock readings.  The classes whose names end in
    [Ok] state the documented laws that some theorems need; the toy instances
    ([toy_env], [toy_eth], ...; [TaskToy] builds a node of two operators)
    show that the laws can hold, and the witnesses run on them.  The
    interfaces between components are classes too ([EpochStateQuerier],
    [OperatorSigner], [ChainManager]), discharged by [Epoch], [Signer] and
    [Chain].

    A generated query ([TasksRepo], [OperatorsRepo], [BlacklistRepo],
    [ConsensusRepo]) is the meaning of its SQL text under the constraints of
    the schema (keys, NOT NULL, widths, CHECKs), run by [pg_call], and around
    it the caching and invalidation code of the Go method; an invalidation
    goroutine assigns the shared [err], the scheduler says which is last.
    The schemas ([db.go]) are data of a small SQL, and the statements that
    write are also given as its syntax ([Sql], [Tables]); [Queries] has the
    constructors of [db.go].
    Machine integers are [Z] with the wrap-around written out ([GoInt]);
    decimal and hexadecimal text is executable ([GoString]); floats are
    [SpecFloat].  Times are microseconds of one clock.

    Concurrency: a handler's critical sections are [locked]; handlers are
    interleaved at the granularity of whole handlers by the step relations
    [tp_step] (the processor, [TaskInv]) and [node_step] (the whole node,
    [Node]; a run is a [history] of states), and the inputs of the listener's [select] are any list.  Inside
    the handlers of the task processor, [Shared] cuts their programs at every
    call, at every critical section and at every step of a range over a map;
    the maps are objects of a store, shared by reference as in the code, and a
    range may miss or see what others add and delete meanwhile.  The
    read-through cache has programs of the same kind.  [pool_reach]
    ([Threads]) lets any number of programs take their steps in any order,
    under a rely-guarantee logic with credits ([psafe]); the rest of the node
    takes part as steps that may do anything to what the processor does not
    own ([elsewhere]).  [Schema] lets single statements follow each other in
    any order.  Goroutines that loop for ever ([P2PNode], [Task], [Epoch],
    [Network]) are modelled by one iteration of their loop, the loop over the
    messages ([Responses]) as a step relation.

    ** What is shown

    - The node ([Schema], [Node], [Backed]): in every state a node can reach,
      the tables conform to the schemas they are declared with (types,
      widths, NOT NULL, CHECK, PRIMARY KEY, UNIQUE), with one consensus row
      per task and per request; each statement that writes does what its SQL
      text does ([Tables]); a stored consensus never changes; each response
      held verifies, and each signature of each stored consensus verifies, for
      what its response stated, against the signing key of an active operator
      that was in the operator table during the run (the node's own key, of
      the operator it is registered as); [Sight] follows the rows of that
      table through the cache.
    - Authentication and consensus ([TaskInv], [TaskProps], [TaskConsensus]):
      only an active, known operator's response for the current epoch is
      accepted; a consensus row appears only when the summed weights reach
      the threshold, with the signatures and addresses of the responses held;
      a node's own answer passes the verification of its peers.  The weights
      of different values are summed together, as the code does.
    - Liveness ([Liveness]): where nothing fails, once the votes of operators
      whose weights reach the threshold have been handled, in any order, the
      consensus is stored.  In between the node may do what leaves the
      operators, the epoch, the threshold and the ballot alone (messages
      about other requests do).  The handlers of this theorem are whole.
    - Interleavings ([Shared], [SharedInv], [SharedProps], [Responses]): with
      any number of handlers, ticks and requests running at once, a stored
      consensus still has the signatures of responses that were stored for
      its task and whose weights reached a threshold in force; a handler that
      is not interrupted is the one of [Task]; the loop runs at most
      [maxConcurrent] handlers.  Two goroutines can reach a map one of them
      reads outside the lock ([checkConsensus_races]), and a task can be
      answered twice ([ProcessTask_answers_twice]).
    - Refinement ([Quorum]): [spec_step] says what a node promises, without
      messages, caches, retries or tasks: votes are collected and forgotten,
      the threshold only changes to one the contract reported, and when the
      weights of the votes held reach it one answer is published for good.
      Every run of a node follows a run of it, so every stored consensus has
      a quorum of valid votes, each with the weight of its operator.
    - Jobs ([TaskJobs]): a pending task is completed or gone after three
      ticks, each counting one retry, with messages and other tasks handled
      in between; a confirming task is processed only once its block is deep
      enough.
    - Requests ([Api], [BlockTime]): validation is exactly its specification;
      a 200 answer means the one row the request asks for was added, pending
      exactly when the client of its chain reports the block deep enough, or
      was there; the timestamp search terminates and finds the nearest block,
      block 0 apart; the server dispatches every method and path as the table
      [answer] says, and a handler's panic ends in a reply ([Router]).  Task IDs collide, keys are read in another base than
      they are validated in, chain IDs are truncated, as the code does.
    - Operators ([EpochMath], [Epoch], [Listener], [Watch]): the epoch
      arithmetic and its wrap-around; a refresh is all or nothing in the
      table, not in memory; an operator is active exactly from its effective
      registration to its effective exit; an epoch whose refresh fails is
      answered all the same; the poller delivers every event
      once; replayed histories can lose an exit.
    - Peers ([Gater], [BlacklistRepo], [Network]): the gater refuses on every
      error and after three recorded violations; a health check clears
      exactly the peers that fail.
    - Start and stop ([Init], [Command], [Config], [Setup], [App]): what
      [init] writes, [start] loads, each answer in the field its question is
      about; a configuration is accepted exactly when it is well formed;
      [Run] gets to its wait exactly when the calls it depends on succeed,
      with every field set and every goroutine started; [Shutdown] closes the
      connections and, through the node's [cancel], ends the loops of the
      node and no other goroutine.  A goroutine is ended by the context it
      watches ([App.watches]).
    - Support ([Cache], [Dumps], [Framing], [P2PNode]): between two expirations
      of a lock the source of a key is called a bounded number of times, and a
      caller gets only what the source or a setter gave; a dump, loaded under
      the declared schema, restores its table; a reader in step with the
      writer reads what was written; a bootstrap tick ends, within a bound,
      and dials only peers that are away.
    - Foundations ([Numeric], [Signer], [Chain], [KeyGen]): number/text round
      trips under any driver exponent, an injective signed message within its
      range and its aliases outside, the life of the chain manager; a
      generated P2P key is read back by the node, with the address its peers
      look it up by, and a generated signing key signs for the address that
      was printed.

    ** Bounds

    Fuel occurs in [GoString.dec_digits] (one more than the binary logarithm),
    and in the three loops of [BlockTime.TimestampToBlockNumber] (one more than
    the distance each loop can still move), where
    [TimestampToBlockNumber_terminates] shows that it is never used up; in the
    waiting loop of [Cache.Get] ([get_fuel], enough by
    [read_through_answers]); and in the prompts of [Init], which repeat as
    long as the answers are empty ([ask_peers_ends]).  The retry loops
    ([state_attempts], [subscribe_attempts]) recurse on the number of attempts
    left, as the code counts them.

    ** What is not modelled, and the plan

    Logging and metrics (calls of zerolog and prometheus that nothing reads
    back); contexts and deadlines (a call that times out is a call that
    fails), except where a context ends a goroutine ([P2PNode], [App]); JSON,
    YAML and protobuf coding (parameters, with the round trip as their law
    where it is needed); the nil entries YAML can make in the map of chains; chi, its middlewares and net/http (the
    interfaces of [Router], with their documented laws; the throttle either
    runs a request or refuses it, how many it lets in is chi's); the abigen
    contract bindings and the protobuf messages, which are generated; the
    script that prints a constant address.  Open: liveness is shown for whole
    handlers, not for their interleavings; the specification of [Quorum] has
    no reads and no uniqueness per request. *)

From Stdlib Require Export ZArith Lia Ascii String.
From stdpp Require Export base numbers gmap strings fin_maps sorting option.
From stdpp Require Export list_basics list_relations list_monad list_misc list_tactics list_numbers list.

#[export] Set Default Goal Selector "!".

Abbreviation length := List.length.
Abbreviation concat := List.concat.

Declare Scope go_scope.
Delimit Scope go_scope with go.

(** ** Go errors

    A Go [error] is a message, possibly wrapping a cause
    ([fmt.Errorf("...: %w", err)]). *)

Inductive error :=
  | Errorf (msg : string)
  | Wrapf (msg : string) (cause : error).

#[export] Instance error_eq_dec : EqDecision error.
Proof. solve_decision. Defined.

(** [err.Error()]: the text of the message and of its causes. *)
Fixpoint Error (e : error) : string :=
  match e with
  | Errorf m => m
  | Wrapf m c => m +:+ ": " +:+ Error c
  end.

(** [strings.Contains(s, sub)] *)
Definition strings_Contains (s sub : string) : bool :=
  match String.index 0 sub s with Some _ => true | None => false end.

(** ** Outcomes

    What a Go call ends with: a value, a non-nil error, or a panic (a nil
    dereference, [log.Fatal], ...), which no caller inspects but [recover]. *)

Inductive res (A : Type) :=
  | Ok (a : A)
  | Err (e : error)
  | Panic (why : string).
Arguments Ok {A} a.
Arguments Err {A} e.
Arguments Panic {A} why.

Definition res_bind {A B} (r : res A) (k : A -> res B) : res B :=
  match r with Ok a => k a | Err e => Err e | Panic s => Panic s end.

(** [return nil, fmt.Errorf("msg: %w", err)] *)
Definition wrap {A} (msg : string) (r : res A) : res A :=
  match r with Err e => Err (Wrapf msg e) | _ => r end.

Definition is_ok {A} (r : res A) : bool :=
  match r with Ok _ => true | _ => false end.

(** A guard clause, [if cond { return err }]. *)
Lemma guard_Ok {A} (b : bool) e (r : res A) (a : A) :
  (if b then Err e else r) = Ok a <-> b = false /\ r = Ok a.
Proof. destruct b; naive_solver. Qed.

Lemma guard_decide_Ok {A} (P : Prop) `{Decision P} e (r : res A) (a : A) :
  (if decide P then Err e else r) = Ok a <-> ~ P /\ r = Ok a.
Proof. destruct (decide P); naive_solver. Qed.

Lemma res_bind_Ok {A B} (r : res A) (k : A -> res B) b :
  res_bind r k = Ok b <-> exists a, r = Ok a /\ k a = Ok b.
Proof. destruct r; simpl; naive_solver. Qed.

Lemma wrap_Ok {A} msg (r : res A) a : wrap msg r = Ok a <-> r = Ok a.
Proof. destruct r; simpl; naive_solver. Qed.

(** ** Stateful computations

    A method with a receiver and side effects: it takes the state it may
    touch and returns the state it leaves with its outcome.  Effects made
    before an error or a panic stay. *)

Definition M (W A : Type) : Type := W -> W * res A.

Definition ret {W A} (a : A) : M W A := fun w => (w, Ok a).
Definition throw {W A} (e : error) : M W A := fun w => (w, Err e).
Definition panic {W A} (why : string) : M W A := fun w => (w, Panic why).
Definition lift {W A} (r : res A) : M W A := fun w => (w, r).
Definition gets {W A} (f : W -> A) : M W A := fun w => (w, Ok (f w)).
Definition modify {W} (f : W -> W) : M W unit := fun w => (f w, Ok tt).

Definition bind {W A B} (m : M W A) (k : A -> M W B) : M W B :=
  fun w => match m w with
           | (w', Ok a) => k a w'
           | (w', Err e) => (w', Err e)
           | (w', Panic s) => (w', Panic s)
           end.

(** [r, err := m]: the error becomes a value the code branches on; a panic
    still unwinds. *)
Definition try {W A} (m : M W A) : M W (A + error) :=
  fun w => match m w with
           | (w', Ok a) => (w', Ok (inl a))
           | (w', Err e) => (w', Ok (inr e))
           | (w', Panic s) => (w', Panic s)
           end.

(** [if err != nil { return fmt.Errorf("msg: %w", err) }] around a call *)
Definition wrapM {W A} (msg : string) (m : M W A) : M W A :=
  fun w => let '(w', r) := m w in (w', wrap msg r).

(** [fmt.Errorf("msg: %v", err)]: the text of the cause, without the cause *)
Definition text_res {A} (msg : string) (r : res A) : res A :=
  match r with Err e => Err (Errorf (msg +:+ ": " +:+ Error e)) | _ => r end.

Definition textM {W A} (msg : string) (m : M W A) : M W A :=
  fun w => let '(w', r) := m w in (w', text_res msg r).

(** [defer func() { recover() }()]: the panic ends here. *)
Definition recovered {W} (m : M W unit) : M W unit :=
  fun w => match m w with
           | (w', Panic _) => (w', Ok tt)
           | p => p
           end.

Notation "'let!' p ':=' m 'in' k" := (bind m (fun p => k))
  (at level 10, p strict pattern, m at level 100, k at level 200,
   format "'[v' 'let!'  p  ':='  m  'in' '/' k ']'") : go_scope.
Notation "'do!' m 'in' k" := (bind m (fun _ => k))
  (at level 10, m at level 100, k at level 200,
   format "'[v' 'do!'  m  'in' '/' k ']'") : go_scope.
Notation "'let?' p ':=' r 'in' k" := (res_bind r (fun p => k))
  (at level 10, p strict pattern, r at level 100, k at level 200,
   format "'[v' 'let?'  p  ':='  r  'in' '/' k ']'") : go_scope.

#[global] Open Scope string_scope.
#[global] Open Scope list_scope.
#[global] Open Scope Z_scope.
#[global] Open Scope go_scope.

(** [for _, x := range l { body(x) }] where an error of the body is logged
    and the loop goes on ([continue]); a panic unwinds. *)
Fixpoint for_each {W A} (l : list A) (body : A -> M W unit) : M W unit :=
  match l with
  | [] => ret tt
  | x :: l' =>
      let! _ := try (body x) in
      for_each l' body
  end.

(** [for _, x := range l { if err := body(x); err != nil { return err } }] *)
Fixpoint for_all {W A} (l : list A) (body : A -> M W unit) : M W unit :=
  match l with
  | [] => ret tt
  | x :: l' => do! body x in for_all l' body
  end.

(** ** Reasoning about computations: weakest preconditions *)

(** [wp m Q w]: running [m] from [w] ends in a state and outcome in [Q]. *)
Definition wp {W A} (m : M W A) (Q : W -> res A -> Prop) (w : W) : Prop :=
  Q (m w).1 (m w).2.

Section wp_rules.
Context {W : Type}.
Implicit Types w : W.

Lemma wp_mono {A} (m : M W A) (Q Q' : W -> res A -> Prop) w :
  wp m Q w -> (forall w' r, Q w' r -> Q' w' r) -> wp m Q' w.
Proof. unfold wp. auto. Qed.

Lemma wp_ret {A} (a : A) (Q : W -> res A -> Prop) w :
  Q w (Ok a) -> wp (ret a) Q w.
Proof. done. Qed.

Lemma wp_throw {A} e (Q : W -> res A -> Prop) w :
  Q w (Err e) -> wp (throw e) Q w.
Proof. done. Qed.

Lemma wp_panic {A} s (Q : W -> res A -> Prop) w :
  Q w (Panic s) -> wp (panic s) Q w.
Proof. done. Qed.

Lemma wp_lift {A} (r : res A) (Q : W -> res A -> Prop) w :
  Q w r -> wp (lift r) Q w.
Proof. done. Qed.

Lemma wp_gets {A} (f : W -> A) (Q : W -> res A -> Prop) w :
  Q w (Ok (f w)) -> wp (gets f) Q w.
Proof. done. Qed.

Lemma wp_modify (f : W -> W) (Q : W -> res unit -> Prop) w :
  Q (f w) (Ok tt) -> wp (modify f) Q w.
Proof. done. Qed.

Lemma wp_bind {A B} (m : M W A) (k : A -> M W B) (Q : W -> res B -> Prop) w :
  wp m (fun w' r => match r with
                    | Ok a => wp (k a) Q w'
                    | Err e => Q w' (Err e)
                    | Panic s => Q w' (Panic s)
                    end) w ->
  wp (bind m k) Q w.
Proof. unfold wp, bind. by destruct (m w) as [w' [a|e|s]]. Qed.

Lemma wp_try {A} (m : M W A) (Q : W -> res (A + error) -> Prop) w :
  wp m (fun w' r => match r with
                    | Ok a => Q w' (Ok (inl a))
                    | Err e => Q w' (Ok (inr e))
                    | Panic s => Q w' (Panic s)
                    end) w ->
  wp (try m) Q w.
Proof. unfold wp, try. by destruct (m w) as [w' [a|e|s]]. Qed.

Lemma wp_wrapM {A} msg (m : M W A) (Q : W -> res A -> Prop) w :
  wp m (fun w' r => Q w' (wrap msg r)) w -> wp (wrapM msg m) Q w.
Proof. unfold wp, wrapM. by destruct (m w) as [w' r]. Qed.

Lemma wp_recovered (m : M W unit) (Q : W -> res unit -> Prop) w :
  wp m (fun w' r => match r with Panic _ => Q w' (Ok tt) | _ => Q w' r end) w ->
  wp (recovered m) Q w.
Proof. unfold wp, recovered. by destruct (m w) as [w' [a|e|s]]. Qed.

(** The outcome of a run is what its weakest precondition says. *)
Lemma wp_run {A} (m : M W A) (Q : W -> res A -> Prop) w w' r :
  wp m Q w -> m w = (w', r) -> Q w' r.
Proof. unfold wp. intros H E. by rewrite E in H. Qed.

Lemma wp_intro {A} (m : M W A) (Q : W -> res A -> Prop) w :
  (forall w' r, m w = (w', r) -> Q w' r) -> wp m Q w.
Proof. unfold wp. intros H. apply H. by destruct (m w). Qed.
End wp_rules.

(** ** Invariants

    [preserves I m]: whatever the outcome, [m] leaves a state in [I] when it
    starts in one. *)
Definition preserves {W A} (I : W -> Prop) (m : M W A) : Prop :=
  forall w, I w -> I (m w).1.

Create HintDb go_inv.

Section preserves_rules.
Context {W : Type} (I : W -> Prop).

Lemma preserves_ret {A} (a : A) : preserves I (ret a).
Proof. by intros w. Qed.
Lemma preserves_throw {A} e : preserves I (throw (A:=A) e).
Proof. by intros w. Qed.
Lemma preserves_panic {A} s : preserves I (panic (A:=A) s).
Proof. by intros w. Qed.
Lemma preserves_lift {A} (r : res A) : preserves I (lift r).
Proof. by intros w. Qed.
Lemma preserves_gets {A} (f : W -> A) : preserves I (gets f).
Proof. by intros w. Qed.
Lemma preserves_modify f : (forall w, I w -> I (f w)) -> preserves I (modify f).
Proof. by intros H w Hw; apply H. Qed.
Lemma preserves_bind {A B} (m : M W A) (k : A -> M W B) :
  preserves I m -> (forall a, preserves I (k a)) -> preserves I (bind m k).
Proof.
  intros Hm Hk w Hw. specialize (Hm w Hw). unfold bind.
  destruct (m w) as [w' [a|e|s]]; simpl in *; [by apply Hk | done | done].
Qed.
Lemma preserves_try {A} (m : M W A) : preserves I m -> preserves I (try m).
Proof.
  intros Hm w Hw. specialize (Hm w Hw). unfold try.
  by destruct (m w) as [w' [a|e|s]].
Qed.
Lemma preserves_wrapM {A} s (m : M W A) : preserves I m -> preserves I (wrapM s m).
Proof.
  intros Hm w Hw. specialize (Hm w Hw). unfold wrapM. by destruct (m w).
Qed.
Lemma preserves_recovered m : preserves I m -> preserves I (recovered m).
Proof.
  intros Hm w Hw. specialize (Hm w Hw). unfold recovered.
  by destruct (m w) as [w' [a|e|s]].
Qed.
Lemma preserves_for_each {A} (l : list A) body :
  (forall x, preserves I (body x)) -> preserves I (for_each l body).
Proof.
  intros Hb. induction l as [|x l IH]; simpl; [apply preserves_ret|].
  apply preserves_bind; [by apply preserves_try | done].
Qed.
Lemma preserves_for_all {A} (l : list A) body :
  (forall x, preserves I (body x)) -> preserves I (for_all l body).
Proof.
  intros Hb. induction l as [|x l IH]; simpl; [apply preserves_ret|].
  by apply preserves_bind.
Qed.
Lemma preserves_run {A} (m : M W A) w w' r :
  preserves I m -> m w = (w', r) -> I w -> I w'.
Proof. intros Hm E Hw. specialize (Hm w Hw). by rewrite E in Hm. Qed.
End preserves_rules.

(** [ensures I m Q]: [m] keeps [I], and a value it returns satisfies [Q]. *)
Definition ensures {W A} (I : W -> Prop) (m : M W A) (Q : A -> Prop) : Prop :=
  forall w, I w -> I (m w).1 /\ forall a, (m w).2 = Ok a -> Q a.

Section ensures_rules.
Context {W : Type} (I : W -> Prop).

Lemma ensures_preserves {A} (m : M W A) Q : ensures I m Q -> preserves I m.
Proof. intros H w Hw. by apply H. Qed.
Lemma preserves_ensures {A} (m : M W A) : preserves I m -> ensures I m (fun _ => True).
Proof. intros H w Hw. split; [by apply H | done]. Qed.
Lemma ensures_weaken {A} (m : M W A) (Q Q' : A -> Prop) :
  ensures I m Q -> (forall a, Q a -> Q' a) -> ensures I m Q'.
Proof. intros H HQ w Hw. destruct (H w Hw) as [? Hm]. split; eauto. Qed.
Lemma ensures_ret {A} (a : A) (Q : A -> Prop) : Q a -> ensures I (ret a) Q.
Proof. intros H w Hw. split; [done|]. by intros ? [= <-]. Qed.
Lemma ensures_throw {A} e (Q : A -> Prop) : ensures I (throw e) Q.
Proof. by intros w Hw. Qed.
Lemma ensures_panic {A} s (Q : A -> Prop) : ensures I (panic s) Q.
Proof. by intros w Hw. Qed.
Lemma ensures_lift {A} (r : res A) (Q : A -> Prop) :
  (forall a, r = Ok a -> Q a) -> ensures I (lift r) Q.
Proof. by intros H w Hw. Qed.
Lemma ensures_bind {A B} (m : M W A) (k : A -> M W B) (Q : A -> Prop) (R : B -> Prop) :
  ensures I m Q -> (forall a, Q a -> ensures I (k a) R) -> ensures I (bind m k) R.
Proof.
  intros Hm Hk w Hw. destruct (Hm w Hw) as [Hw' Hq]. unfold bind.
  destruct (m w) as [w' [a|e|s]]; simpl in *; [|done|done]. apply Hk; eauto.
Qed.
Lemma ensures_try {A} (m : M W A) (Q : A -> Prop) :
  ensures I m Q -> ensures I (try m) (fun r => match r with inl a => Q a | inr _ => True end).
Proof.
  intros Hm w Hw. destruct (Hm w Hw) as [Hw' Hq]. unfold try.
  destruct (m w) as [w' [a|e|s]]; simpl in *; split; try done; intros ? [= <-]; eauto.
Qed.
Lemma ensures_wrapM {A} s (m : M W A) Q : ensures I m Q -> ensures I (wrapM s m) Q.
Proof.
  intros Hm w Hw. destruct (Hm w Hw) as [Hw' Hq]. unfold wrapM.
  destruct (m w) as [w' [a|e|s']]; simpl in *; split; eauto; by intros.
Qed.
Lemma preserves_bind_ensures {A B} (m : M W A) (k : A -> M W B) (Q : A -> Prop) :
  ensures I m Q -> (forall a, Q a -> preserves I (k a)) -> preserves I (bind m k).
Proof.
  intros Hm Hk. apply (ensures_preserves _ (fun _ => True)). eapply ensures_bind; [done|].
  intros a Ha. by apply preserves_ensures, Hk.
Qed.
Lemma preserves_for_each_in {A} (l : list A) body :
  (forall x, x ∈ l -> preserves I (body x)) -> preserves I (for_each l body).
Proof.
  intros Hb. induction l as [|x l IH]; simpl; [apply preserves_ret|].
  apply preserves_bind; [apply preserves_try, Hb; by left|].
  intros _. apply IH. intros y Hy. apply Hb. by right.
Qed.
End ensures_rules.

(** An invariant and a postcondition, as a weakest precondition. *)
Lemma wp_ensures {W A} (I : W -> Prop) (m : M W A) (P : A -> Prop) (Q : W -> res A -> Prop) w :
  ensures I m P -> I w ->
  (forall w' a, I w' -> P a -> Q w' (Ok a)) ->
  (forall w' e, I w' -> Q w' (Err e)) ->
  (forall w' s, I w' -> Q w' (Panic s)) ->
  wp m Q w.
Proof.
  intros Hm Hw Hok Herr Hpan. destruct (Hm w Hw) as [Hi Hp]. unfold wp.
  destruct (m w) as [w' [a|e|s]]; simpl in *; eauto.
Qed.

Lemma wp_preserves {W A} (I : W -> Prop) (m : M W A) (Q : W -> res A -> Prop) w :
  preserves I m -> I w -> (forall w' r, I w' -> Q w' r) -> wp m Q w.
Proof. intros Hm Hw HQ. unfold wp. apply HQ. by apply Hm. Qed.

Lemma ensures_and {W A} (I J : W -> Prop) (m : M W A) Q :
  ensures I m Q -> preserves J m -> ensures (fun w => I w /\ J w) m Q.
Proof. intros HI HJ w [Hi Hj]. destruct (HI w Hi). split; [split; [done|by apply HJ]|done]. Qed.

(** Two invariants at once. *)
Lemma preserves_and {W A} (I J : W -> Prop) (m : M W A) :
  preserves I m -> preserves J m -> preserves (fun w => I w /\ J w) m.
Proof. intros HI HJ w [? ?]. split; [by apply HI | by apply HJ]. Qed.

#[export] Hint Resolve preserves_ret preserves_throw preserves_panic preserves_lift
  preserves_gets preserves_try preserves_wrapM preserves_recovered
  preserves_for_each preserves_for_all : go_inv.

(** Walks through a computation, splitting binds and case distinctions, and
    closes the leaves with the hints of the components. *)
Ltac preserves_step :=
  match goal with
  | |- forall _, _ => intros ?
  | |- preserves _ (bind _ _) => apply preserves_bind
  | |- preserves _ (try _) => apply preserves_try
  | |- preserves _ (wrapM _ _) => apply preserves_wrapM
  | |- preserves _ (recovered _) => apply preserves_recovered
  | |- preserves _ (for_each _ _) => apply preserves_for_each
  | |- preserves _ (for_all _ _) => apply preserves_for_all
  | |- preserves _ (match ?x with _ => _ end) => destruct x
  | |- preserves _ _ => solve [eauto with go_inv]
  end.
Ltac solve_preserves := repeat preserves_step.

(** ** Runs that succeed *)

Section success.
Context {W : Type}.

Lemma bind_Ok {A B} (m : M W A) (k : A -> M W B) w w' b :
  bind m k w = (w', Ok b) <-> exists w1 a, m w = (w1, Ok a) /\ k a w1 = (w', Ok b).
Proof.
  unfold bind. destruct (m w) as [w1 [a|e|s]].
  - split; [eauto|]. by intros (? & ? & [= <- <-] & ?).
  - split; [done|]. by intros (? & ? & ? & ?).
  - split; [done|]. by intros (? & ? & ? & ?).
Qed.

Lemma lift_Ok {A} (r : res A) (w w' : W) a : lift r w = (w', Ok a) <-> w' = w /\ r = Ok a.
Proof. unfold lift. split; [by intros [= <- ->]|by intros [-> ->]]. Qed.

Lemma textM_Ok {A} s (m : M W A) w w' a :
  textM s m w = (w', Ok a) <-> m w = (w', Ok a).
Proof. unfold textM. destruct (m w) as [w1 [x|e|p]]; split; intros E; by inversion E. Qed.

Lemma wrapM_Ok {A} s (m : M W A) w w' a :
  wrapM s m w = (w', Ok a) <-> m w = (w', Ok a).
Proof. unfold wrapM. destruct (m w) as [w1 [x|e|p]]; split; intros E; by inversion E. Qed.

Lemma for_all_cons_Ok {A} (x : A) l body (w w' : W) :
  for_all (x :: l) body w = (w', Ok tt) <->
  exists w1, body x w = (w1, Ok tt) /\ for_all l body w1 = (w', Ok tt).
Proof.
  cbn [for_all]. rewrite bind_Ok. split.
  - intros (w1 & [] & ? & ?). eauto.
  - intros (w1 & ? & ?). eauto.
Qed.
End success.

(** ** Finite runs of a step relation *)

Section steps.
Context {S : Type} (step : S -> S -> Prop).

Inductive reachable (init : S -> Prop) : S -> Prop :=
  | reach_init s : init s -> reachable init s
  | reach_step s s' : reachable init s -> step s s' -> reachable init s'.

Lemma reachable_invariant (init I : S -> Prop) :
  (forall s, init s -> I s) ->
  (forall s s', I s -> step s s' -> I s') ->
  forall s, reachable init s -> I s.
Proof. intros Hi Hs s. induction 1; eauto. Qed.

(** A run as the list of its states, the last one first. *)
Inductive history (init : S -> Prop) : list S -> Prop :=
  | history_init s : init s -> history init [s]
  | history_step s s' l : history init (s :: l) -> step s s' -> history init (s' :: s :: l).

Lemma history_start (init : S -> Prop) l : history init l -> exists s, s ∈ l /\ init s.
Proof.
  induction 1 as [s Hs|s s' l _ (s0 & Hin & Hs0) _]; [exists s; split; [by left|done]|].
  exists s0. split; [by right|done].
Qed.

Lemma history_mono (init init' : S -> Prop) l : (forall s, init s -> init' s) ->
  history init l -> history init' l.
Proof. intros Hi. induction 1; constructor; auto. Qed.

(** An invariant may use that all the states are those of the run. *)
Lemma history_invariant (init I : S -> Prop) l : history init l ->
  (forall s, s ∈ l -> init s -> I s) ->
  (forall s s', s ∈ l -> s' ∈ l -> I s -> step s s' -> I s') ->
  forall s, s ∈ l -> I s.
Proof.
  induction 1 as [s0 Hs0|s0 s1 l Hl IH Hstep]; intros Hi Hs s.
  - intros ->%list_elem_of_singleton. apply Hi; [by left|done].
  - assert (forall s, s ∈ s0 :: l -> I s) as Hold.
    { apply IH; [intros; apply Hi; [by right|done]|]. intros s2 s2' ? ?. apply Hs; by right. }
    intros [->|Hin]%elem_of_cons; [|by apply Hold].
    apply (Hs s0); [by right; left|by left|apply Hold; by left|done].
Qed.

Lemma history_tail (init : S -> Prop) s1 l : history init (s1 :: l) -> l <> [] ->
  history init l /\ exists s0 l0, l = s0 :: l0 /\ step s0 s1.
Proof. inversion 1; subst; [done|]. intros _. eauto. Qed.

(** The same from one of the states on. *)
Lemma history_from (init I : S -> Prop) l1 s l2 : history init (l1 ++ s :: l2) -> I s ->
  (forall s1 s2, s1 ∈ l1 ++ s :: l2 -> s2 ∈ l1 ++ s :: l2 -> I s1 -> step s1 s2 -> I s2) ->
  forall s', s' ∈ l1 ++ [s] -> I s'.
Proof.
  intros Hl Hs Hstep. induction l1 as [|s1 l1 IH].
  - by intros s' ->%list_elem_of_singleton.
  - destruct (history_tail init s1 (l1 ++ s :: l2) Hl) as [Hl' (s0 & l0 & E & H01)];
      [by destruct l1|].
    assert (forall s', s' ∈ l1 ++ [s] -> I s') as Hold.
    { apply IH; [done|]. intros a b Ha Hb. apply Hstep; by right. }
    intros s' [->|Hin]%elem_of_cons; [|by apply Hold].
    apply (Hstep s0); [|by left|apply Hold|done].
    + simpl. rewrite E. by right; left.
    + destruct l1 as [|s2 l1]; simplify_eq/=; by left.
Qed.
End steps.
