(* ===== verification/Threads.v ===== *)
(** * Goroutines: computations that other goroutines can interrupt

    [prog W A] is a computation cut at the points where another goroutine can
    run: between two [atom]s anything the others do can happen.  [run] puts
    the pieces together again, so that a goroutine that is alone is the
    computation it was cut from ([run_pbind], [run_atom]).  [pool_reach] lets the
    goroutines of a pool take their steps in any order, new ones starting at
    any time.

    [psafe] is a rely-guarantee logic over programs: an invariant [I] that
    holds between steps, a preorder [R] that every step of every goroutine
    respects, and an account [acct] that no goroutine overdraws: one that
    holds [n] credits may lower the account by [n], and gains what it adds. *)

From S2P Require Import Prelude.

Inductive prog (W A : Type) : Type :=
  | Done (r : res A)
  | Step (f : W -> W * prog W A).
Arguments Done {W A} r.
Arguments Step {W A} f.

(** One piece: nobody else runs while it does. *)
Definition atom {W A} (m : M W A) : prog W A :=
  Step (fun w => let '(w', r) := m w in (w', Done r)).

Fixpoint pbind {W A B} (p : prog W A) (k : A -> prog W B) : prog W B :=
  match p with
  | Done (Ok a) => k a
  | Done (Err e) => Done (Err e)
  | Done (Panic s) => Done (Panic s)
  | Step f => Step (fun w => ((f w).1, pbind (f w).2 k))
  end.

Fixpoint ptry {W A} (p : prog W A) : prog W (A + error) :=
  match p with
  | Done (Ok a) => Done (Ok (inl a))
  | Done (Err e) => Done (Ok (inr e))
  | Done (Panic s) => Done (Panic s)
  | Step f => Step (fun w => ((f w).1, ptry (f w).2))
  end.

Fixpoint pwrap {W A} (msg : string) (p : prog W A) : prog W A :=
  match p with
  | Done r => Done (wrap msg r)
  | Step f => Step (fun w => ((f w).1, pwrap msg (f w).2))
  end.

Fixpoint precovered {W} (p : prog W unit) : prog W unit :=
  match p with
  | Done (Panic s) => Done (Ok tt)
  | Done r => Done r
  | Step f => Step (fun w => ((f w).1, precovered (f w).2))
  end.

Notation "'let&' p ':=' m 'in' k" := (pbind m (fun p => k))
  (at level 10, p strict pattern, m at level 100, k at level 200,
   format "'[v' 'let&'  p  ':='  m  'in' '/' k ']'") : go_scope.
Notation "'do&' m 'in' k" := (pbind m (fun _ => k))
  (at level 10, m at level 100, k at level 200,
   format "'[v' 'do&'  m  'in' '/' k ']'") : go_scope.

(** [for _, x := range l { body(x) }], an error of the body being logged *)
Fixpoint pfor_each {W A} (l : list A) (body : A -> prog W unit) : prog W unit :=
  match l with
  | [] => Done (Ok tt)
  | x :: l' => let& _ := ptry (body x) in pfor_each l' body
  end.

(** ** A goroutine that is alone *)

Fixpoint run {W A} (p : prog W A) : M W A :=
  match p with
  | Done r => fun w => (w, r)
  | Step f => fun w => run (f w).2 (f w).1
  end.

(** Computations that do the same from every state. *)
Definition same {W A} (m m' : M W A) : Prop := forall w, m w = m' w.
Infix "≈" := same (at level 70) : go_scope.

Section sequential.
Context {W : Type}.

#[export] Instance same_equivalence {A} : Equivalence (@same W A).
Proof.
  split; [by intros m w | by intros m m' E w | intros m1 m2 m3 E E' w].
  by rewrite E.
Qed.

#[export] Instance bind_same {A B} :
  Proper (same ==> pointwise_relation A same ==> same) (@bind W A B).
Proof.
  intros m m' E k k' Ek w. unfold bind. rewrite E.
  destruct (m' w) as [w' [a|e|s]]; [apply Ek | done | done].
Qed.

#[export] Instance try_same {A} : Proper (same ==> same) (@try W A).
Proof. intros m m' E w. unfold try. by rewrite E. Qed.

#[export] Instance wrapM_same {A} s : Proper (same ==> same) (@wrapM W A s).
Proof. intros m m' E w. unfold wrapM. by rewrite E. Qed.

#[export] Instance recovered_same : Proper (same ==> same) (@recovered W).
Proof. intros m m' E w. unfold recovered. by rewrite E. Qed.

Lemma run_atom {A} (m : M W A) : run (atom m) ≈ m.
Proof. intros w. simpl. by destruct (m w). Qed.

Lemma run_done {A} (r : res A) : run (Done r) ≈ lift (W:=W) r.
Proof. by intros w. Qed.

Lemma run_pbind {A B} (p : prog W A) (k : A -> prog W B) :
  run (pbind p k) ≈ bind (run p) (fun a => run (k a)).
Proof.
  revert p. fix IH 1. intros [[a|e|s]|f] w; [done|done|done|].
  cbn [run pbind]. exact (IH (f w).2 (f w).1).
Qed.

Lemma run_ptry {A} (p : prog W A) : run (ptry p) ≈ try (run p).
Proof.
  revert p. fix IH 1. intros [[a|e|s]|f] w; [done|done|done|].
  cbn [run ptry]. exact (IH (f w).2 (f w).1).
Qed.

Lemma run_pwrap {A} s (p : prog W A) : run (pwrap s p) ≈ wrapM s (run p).
Proof.
  revert p. fix IH 1. intros [r|f] w; [done|].
  cbn [run pwrap]. exact (IH (f w).2 (f w).1).
Qed.

Lemma run_precovered (p : prog W unit) : run (precovered p) ≈ recovered (run p).
Proof.
  revert p. fix IH 1. intros [[a|e|s]|f] w; [done|done|done|].
  cbn [run precovered]. exact (IH (f w).2 (f w).1).
Qed.

Lemma run_pfor_each {A} (l : list A) (body : A -> prog W unit) (body' : A -> M W unit) :
  (forall x, run (body x) ≈ body' x) -> run (pfor_each l body) ≈ for_each l body'.
Proof.
  intros Hb. induction l as [|x l IH]; [done|]. cbn [pfor_each for_each].
  rewrite run_pbind, run_ptry. apply bind_same; [by rewrite Hb | by intros _].
Qed.
End sequential.

(** ** A pool of goroutines *)

Section pool.
Context {W A : Type}.
Context (allowed : prog W A -> Prop)    (** what may be started *)
        (env : W -> W -> Prop).         (** what happens outside *)

Definition Pool : Type := W * list (prog W A).

Inductive pool_step : Pool -> Pool -> Prop :=
  | pool_run w ps i f :
      ps !! i = Some (Step f) -> pool_step (w, ps) ((f w).1, <[i := (f w).2]> ps)
  | pool_spawn w ps p : allowed p -> pool_step (w, ps) (w, ps ++ [p])
  | pool_env w w' ps : env w w' -> pool_step (w, ps) (w', ps).

Definition pool_reach (w0 : W) : Pool -> Prop :=
  reachable pool_step (fun s => s = (w0, [])).

(** The pool after a schedule: the goroutine at each index takes a step. *)
Fixpoint pool_exec (sched : list nat) (s : Pool) : Pool :=
  match sched with
  | [] => s
  | i :: sched' =>
      match s.2 !! i with
      | Some (Step f) => pool_exec sched' ((f s.1).1, <[i := (f s.1).2]> s.2)
      | _ => pool_exec sched' s
      end
  end.

Lemma pool_exec_reach w0 sched s : pool_reach w0 s -> pool_reach w0 (pool_exec sched s).
Proof.
  revert s. induction sched as [|i sched IH]; intros [w ps] Hs; [done|]. simpl.
  destruct (ps !! i) as [[r|f]|] eqn:E; try by apply IH.
  apply IH. eapply reach_step; [exact Hs|]. by apply pool_run.
Qed.

Lemma pool_spawn_reach w0 ps' : Forall allowed ps' -> pool_reach w0 (w0, ps').
Proof.
  intros Hall. apply (rev_ind (fun l => Forall allowed l -> pool_reach w0 (w0, l))); [| |done].
  - intros _. by apply reach_init.
  - intros p l IH [Hl Hp]%Forall_app. eapply reach_step; [by apply IH|].
    apply pool_spawn. by inversion Hp.
Qed.
End pool.

(** ** Rely and guarantee, with credits *)

Section safety.
Context {W : Type} (I : W -> Prop) (R : W -> W -> Prop) (acct : W -> Z).
Context `{Hpre : !PreOrder R}.

(** What one step of a goroutine with [n] credits must do: keep the
    invariant, respect [R], and pay for what it takes from the account. *)
Definition good_step (n n' : Z) (w w' : W) : Prop :=
  I w' /\ R w w' /\ n' - n <= acct w' - acct w.

Fixpoint psafe {A} (Q : Z -> res A -> W -> Prop) (n : Z) (p : prog W A) (w : W) : Prop :=
  match p with
  | Done r => 0 <= n /\ forall w', R w w' -> Q n r w'
  | Step f => 0 <= n /\ forall w', R w w' -> I w' ->
      exists n', good_step n n' w' (f w').1 /\ psafe Q n' (f w').2 (f w').1
  end.

Lemma psafe_credits {A} Q n (p : prog W A) w : psafe Q n p w -> 0 <= n.
Proof. by destruct p; intros [? _]. Qed.

(** What the others do does not matter. *)
Lemma psafe_stable {A} Q n (p : prog W A) w w' : psafe Q n p w -> R w w' -> psafe Q n p w'.
Proof.
  destruct p as [r|f]; intros [Hn H] HR; (split; [done|]); intros w2 HR2.
  - apply H. by transitivity w'.
  - apply H. by transitivity w'.
Qed.

Lemma psafe_mono {A} (Q Q' : Z -> res A -> W -> Prop) :
  (forall n r w, 0 <= n -> Q n r w -> Q' n r w) ->
  forall p n w, psafe Q n p w -> psafe Q' n p w.
Proof.
  intros HQ. fix IH 1. intros [r|f] n w [Hn H]; (split; [done|]); intros w' HR.
  - by apply HQ, H.
  - intros HI. destruct (H w' HR HI) as (n' & Hstep & Hsafe). exists n'. split; [done|].
    exact (IH (f w').2 n' _ Hsafe).
Qed.

Lemma psafe_weaken {A} (Q Q' : Z -> res A -> W -> Prop) p n w :
  psafe Q n p w -> (forall n r w, 0 <= n -> Q n r w -> Q' n r w) -> psafe Q' n p w.
Proof. intros Hp HQ. exact (psafe_mono Q Q' HQ p n w Hp). Qed.

(** Where a program ends is where it could get from where it started. *)
Lemma psafe_rely_from {A} (Q : Z -> res A -> W -> Prop) w0 : forall p n w,
  R w0 w -> psafe (fun n r w' => R w0 w' -> Q n r w') n p w -> psafe Q n p w.
Proof.
  fix IH 1. intros [r|f] n w H0 [Hn H]; (split; [done|]); intros w' HR.
  - apply H; [done|]. by transitivity w.
  - intros HI. destruct (H w' HR HI) as (n' & Hstep & Hsafe). exists n'. split; [done|].
    apply (IH (f w').2 n' (f w').1); [|exact Hsafe].
    destruct Hstep as (_ & HR' & _). transitivity w'; [|done]. by transitivity w.
Qed.

Lemma psafe_rely {A} (Q : Z -> res A -> W -> Prop) p n w :
  psafe (fun n r w' => R w w' -> Q n r w') n p w -> psafe Q n p w.
Proof. by apply psafe_rely_from. Qed.

Lemma psafe_done {A} (Q : Z -> res A -> W -> Prop) n r w :
  0 <= n -> (forall w', R w w' -> Q n r w') -> psafe Q n (Done r) w.
Proof. done. Qed.

Lemma psafe_atom {A} (m : M W A) (Q : Z -> res A -> W -> Prop) n w :
  0 <= n ->
  (forall w', R w w' -> I w' -> exists n', 0 <= n' /\ good_step n n' w' (m w').1 /\
     forall w2, R (m w').1 w2 -> Q n' (m w').2 w2) ->
  psafe Q n (atom m) w.
Proof.
  intros Hn H. split; [done|]. intros w' HR HI.
  destruct (H w' HR HI) as (n' & ? & ? & ?). exists n'.
  destruct (m w') as [w2 r]. by split_and!.
Qed.

(** What is known of a program that returned, and what the rest is owed. *)
Definition bind_post {A B} (Q : Z -> res B -> W -> Prop) (k : A -> prog W B) :
    Z -> res A -> W -> Prop :=
  fun n r w => match r with
               | Ok a => psafe Q n (k a) w
               | Err e => forall w', R w w' -> Q n (Err e) w'
               | Panic s => forall w', R w w' -> Q n (Panic s) w'
               end.

Lemma psafe_pbind {A B} (k : A -> prog W B) Q :
  forall p n w, psafe (bind_post Q k) n p w -> psafe Q n (pbind p k) w.
Proof.
  fix IH 1. intros [r|f] n w.
  - intros [Hn H]. specialize (H w (reflexivity w)).
    destruct r as [a|e|s]; [exact H | split; [done|exact H] | split; [done|exact H]].
  - intros [Hn H]. cbn [pbind psafe]. split; [done|]. intros w' HR HI.
    destruct (H w' HR HI) as (n' & Hstep & Hsafe). exists n'. split; [exact Hstep|].
    cbn [fst snd]. exact (IH (f w').2 n' _ Hsafe).
Qed.

Lemma psafe_ptry {A} (Q : Z -> res (A + error) -> W -> Prop) :
  forall (p : prog W A) n w,
  psafe (fun n r w => match r with
                      | Ok a => Q n (Ok (inl a)) w
                      | Err e => Q n (Ok (inr e)) w
                      | Panic s => Q n (Panic s) w
                      end) n p w ->
  psafe Q n (ptry p) w.
Proof.
  fix IH 1. intros [r|f] n w [Hn H].
  - destruct r as [a|e|s]; (split; [done|exact H]).
  - cbn [ptry psafe]. split; [done|]. intros w' HR HI.
    destruct (H w' HR HI) as (n' & Hstep & Hsafe). exists n'. split; [exact Hstep|].
    cbn [fst snd]. exact (IH (f w').2 n' _ Hsafe).
Qed.

Lemma psafe_pwrap {A} s (Q : Z -> res A -> W -> Prop) :
  forall (p : prog W A) n w,
  psafe (fun n r w => Q n (wrap s r) w) n p w -> psafe Q n (pwrap s p) w.
Proof.
  fix IH 1. intros [r|f] n w [Hn H].
  - split; [done|exact H].
  - cbn [pwrap psafe]. split; [done|]. intros w' HR HI.
    destruct (H w' HR HI) as (n' & Hstep & Hsafe). exists n'. split; [exact Hstep|].
    cbn [fst snd]. exact (IH (f w').2 n' _ Hsafe).
Qed.

Lemma psafe_precovered (Q : Z -> res unit -> W -> Prop) :
  forall (p : prog W unit) n w,
  psafe (fun n r w => match r with Panic _ => Q n (Ok tt) w | _ => Q n r w end) n p w ->
  psafe Q n (precovered p) w.
Proof.
  fix IH 1. intros [r|f] n w [Hn H].
  - destruct r as [a|e|s]; (split; [done|exact H]).
  - cbn [precovered psafe]. split; [done|]. intros w' HR HI.
    destruct (H w' HR HI) as (n' & Hstep & Hsafe). exists n'. split; [exact Hstep|].
    cbn [fst snd]. exact (IH (f w').2 n' _ Hsafe).
Qed.

(** [r, err := p] and what comes after. *)
Lemma psafe_try_bind {A B} (k : A + error -> prog W B) (Q : Z -> res B -> W -> Prop) p n w :
  psafe (fun n r w => match r with
                      | Ok a => psafe Q n (k (inl a)) w
                      | Err e => psafe Q n (k (inr e)) w
                      | Panic s => forall w', R w w' -> Q n (Panic s) w'
                      end) n p w ->
  psafe Q n (pbind (ptry p) k) w.
Proof. intros H. apply psafe_pbind, psafe_ptry. eapply psafe_mono, H. by intros n' [a|e|s] w' _. Qed.

(** ** Pools of safe goroutines *)

Context {A : Type} (Q : Z -> res A -> W -> Prop).
Context (allowed : prog W A -> Prop) (env : W -> W -> Prop).

Definition total_credits (ns : list Z) : Z := foldr Z.add 0 ns.

Definition pool_safe (s : W * list (prog W A)) : Prop :=
  I s.1 /\ exists ns, Forall2 (fun n p => psafe Q n p s.1) ns s.2 /\
    total_credits ns <= acct s.1.

Lemma total_credits_insert ns i n n' :
  ns !! i = Some n -> total_credits (<[i := n']> ns) = total_credits ns + (n' - n).
Proof.
  unfold total_credits. revert i. induction ns as [|x ns IH]; intros [|i] E; simplify_eq/=; [lia|].
  rewrite (IH i E). lia.
Qed.

Lemma total_credits_app ns n : total_credits (ns ++ [n]) = total_credits ns + n.
Proof. unfold total_credits. induction ns as [|x ns IH]; simpl; lia. Qed.

Lemma total_credits_nonneg ns (ps : list (prog W A)) w :
  Forall2 (fun n p => psafe Q n p w) ns ps -> 0 <= total_credits ns.
Proof.
  unfold total_credits. induction 1 as [|n p ns ps Hp _ IH]; simpl; [lia|].
  apply psafe_credits in Hp. lia.
Qed.

Lemma Forall2_stable ns (ps : list (prog W A)) w w' : R w w' ->
  Forall2 (fun n p => psafe Q n p w) ns ps -> Forall2 (fun n p => psafe Q n p w') ns ps.
Proof. intros HR H. eapply Forall2_impl; [exact H|]. intros n p Hp.
  exact (psafe_stable Q n p w w' Hp HR). Qed.

Hypothesis spawn_safe : forall p w, allowed p -> I w -> psafe Q 0 p w.
Hypothesis env_safe : forall w w', env w w' -> I w -> good_step 0 0 w w'.

Lemma pool_step_safe s s' : pool_safe s -> pool_step allowed env s s' -> pool_safe s'.
Proof.
  intros [HI (ns & Hps & Hacct)] Hstep.
  destruct Hstep as [w ps i f Hi|w ps p Hp|w w' ps He]; simpl in *.
  - destruct (Forall2_lookup_r _ _ _ _ _ Hps Hi) as (n & Hni & Hn & Hsafe).
    destruct (Hsafe w (reflexivity w) HI) as (n' & (HI' & HR & Hpay) & Hsafe').
    split; [done|]. exists (<[i := n']> ns). split.
    + apply Forall2_insert; [by eapply Forall2_stable | exact Hsafe'].
    + rewrite (total_credits_insert ns i n n' Hni). cbn [fst]. lia.
  - split; [done|]. exists (ns ++ [0]). split.
    + apply Forall2_app; [done|]. constructor; [|constructor]. by apply spawn_safe.
    + rewrite total_credits_app. cbn [fst]. lia.
  - destruct (env_safe _ _ He HI) as (HI' & HR & Hpay). split; [done|].
    exists ns. split; [by eapply Forall2_stable | cbn [fst]; lia].
Qed.

(** Whatever the order of the steps: the invariant holds, the account is not
    overdrawn, and what has returned satisfies its postcondition. *)
Lemma pool_sound w0 w ps :
  I w0 -> 0 <= acct w0 -> pool_reach allowed env w0 (w, ps) ->
  I w /\ 0 <= acct w /\ forall r, Done r ∈ ps -> exists n, 0 <= n /\ Q n r w.
Proof.
  intros HI Hacct Hreach.
  assert (pool_safe (w, ps)) as [Hw (ns & Hps & Hle)].
  { revert Hreach. apply reachable_invariant.
    - intros s ->. split; [done|]. exists []. by split; [constructor|].
    - intros s s' Hs Hstep. by eapply pool_step_safe. }
  split; [done|]. simpl in *. split.
  { pose proof (total_credits_nonneg _ _ _ Hps). lia. }
  intros r (i & Hi)%list_elem_of_lookup.
  destruct (Forall2_lookup_r _ _ _ _ _ Hps Hi) as (n & _ & Hn & HQ).
  exists n. split; [done|]. by apply HQ.
Qed.
End safety.

(** ** Where a goroutine is *)

(** [p] is about to do [q]: it is [q] with what comes after around it. *)
Inductive inside {W A} (q : prog W A) : forall {B}, prog W B -> Prop :=
  | in_here : inside q q
  | in_bind {B D} (p : prog W B) (k : B -> prog W D) : inside q p -> inside q (pbind p k)
  | in_try {B} (p : prog W B) : inside q p -> inside q (ptry p)
  | in_wrap {B} s (p : prog W B) : inside q p -> inside q (pwrap s p)
  | in_recovered (p : prog W unit) : inside q p -> inside q (precovered p).

(** Some steps of one goroutine, nobody else taking any. *)
Inductive goes {W A} : W -> prog W A -> W -> prog W A -> Prop :=
  | goes_refl w p : goes w p w p
  | goes_step w f w' p' : goes (f w).1 (f w).2 w' p' -> goes w (Step f) w' p'.

Section goes.
Context {W : Type}.

Lemma goes_bind {A B} (p p' : prog W A) (k : A -> prog W B) w w' :
  goes w p w' p' -> goes w (pbind p k) w' (pbind p' k).
Proof. induction 1 as [|w f w' p' _ IH]; [apply goes_refl|]. by apply goes_step. Qed.

Lemma goes_bind_done {A B} (p : prog W A) a (k : A -> prog W B) w w1 w' p' :
  goes w p w1 (Done (Ok a)) -> goes w1 (k a) w' p' -> goes w (pbind p k) w' p'.
Proof.
  intros Hp Hk. remember (Done (Ok a)) as q eqn:Eq. induction Hp as [w p|w f w1 q Hp IH].
  - by subst p.
  - cbn [pbind]. apply goes_step. by apply IH.
Qed.

Lemma goes_try {A} (p p' : prog W A) w w' : goes w p w' p' -> goes w (ptry p) w' (ptry p').
Proof. induction 1 as [|w f w' p' _ IH]; [apply goes_refl|]. by apply goes_step. Qed.

Lemma goes_wrap {A} s (p p' : prog W A) w w' : goes w p w' p' -> goes w (pwrap s p) w' (pwrap s p').
Proof. induction 1 as [|w f w' p' _ IH]; [apply goes_refl|]. by apply goes_step. Qed.

Lemma goes_recovered (p p' : prog W unit) w w' :
  goes w p w' p' -> goes w (precovered p) w' (precovered p').
Proof. induction 1 as [|w f w' p' _ IH]; [apply goes_refl|]. by apply goes_step. Qed.

Lemma goes_run {A} (p : prog W A) w : goes w p (run p w).1 (Done (run p w).2).
Proof.
  revert p w. fix IH 1. intros [r|f] w; [apply goes_refl|]. apply goes_step. exact (IH (f w).2 _).
Qed.

(** A part that ends well, run to its end *)
Lemma goes_part {A B} (p : prog W A) a (k : A -> prog W B) w w' p' :
  (run p w).2 = Ok a -> goes (run p w).1 (k a) w' p' -> goes w (pbind p k) w' p'.
Proof. intros Ea Hk. eapply goes_bind_done; [|exact Hk]. rewrite <- Ea. apply goes_run. Qed.

Lemma pool_goes {A} (allowed : prog W A -> Prop) env w0 w w' ps i p p' :
  pool_reach allowed env w0 (w, ps) -> ps !! i = Some p -> goes w p w' p' ->
  pool_reach allowed env w0 (w', <[i := p']> ps).
Proof.
  intros Hr Hi Hg. revert ps Hr Hi. induction Hg as [w p|w f w' p' _ IH]; intros ps Hr Hi.
  - by rewrite list_insert_id.
  - rewrite <- (list_insert_insert_eq ps i p' (f w).2). apply IH.
    + eapply reach_step; [exact Hr|]. by apply pool_run.
    + rewrite list_lookup_insert_eq; [done|]. by eapply lookup_lt_Some.
Qed.
End goes.

(** Applies a rule for [psafe], finding the preorder of the relation. *)
Tactic Notation "rule" uconstr(L) := apply L; [exact _|].
