(* ===== verification/GoInt.v ===== *)
(** * Go integers and bytes

    Machine integers are [Z] with the wrap-around of their width written out;
    [*big.Int] values are [Z], and a [*big.Int] that may be nil is an
    [option Z].  A byte is a [Z] below 256 and a byte slice a [list Z].
    [be_bytes] is the fixed-width big-endian encoding of
    [binary.BigEndian.PutUint32]/[PutUint64], [big_Bytes] the minimal one of
    [big.Int.Bytes]. *)

From S2P Require Import Prelude.

Definition u8 (x : Z) : Z := x mod 2 ^ 8.
Definition u16 (x : Z) : Z := x mod 2 ^ 16.
Definition u32 (x : Z) : Z := x mod 2 ^ 32.
Definition u64 (x : Z) : Z := x mod 2 ^ 64.

(** [int64(x)] and [int32(x)]: two's complement *)
Definition i64 (x : Z) : Z := (x + 2 ^ 63) mod 2 ^ 64 - 2 ^ 63.
Definition i32 (x : Z) : Z := (x + 2 ^ 31) mod 2 ^ 32 - 2 ^ 31.

Definition is_u16 (x : Z) : Prop := 0 <= x < 2 ^ 16.
Definition is_u32 (x : Z) : Prop := 0 <= x < 2 ^ 32.
Definition is_u64 (x : Z) : Prop := 0 <= x < 2 ^ 64.

(** [lia] with quotients and remainders. *)
Ltac div_lia := Z.to_euclidean_division_equations; lia.

(** Unfolds the widths and the powers of two for [lia]. *)
Ltac word_solve :=
  unfold is_u16, is_u32, is_u64, u8, u16, u32, u64, i32, i64 in *;
  change (2 ^ 8) with 256 in *; change (2 ^ 16) with 65536 in *;
  change (2 ^ 31) with 2147483648 in *; change (2 ^ 32) with 4294967296 in *;
  change (2 ^ 63) with 9223372036854775808 in *;
  change (2 ^ 64) with 18446744073709551616 in *;
  div_lia.

Lemma u32_id x : is_u32 x -> u32 x = x.
Proof. word_solve. Qed.
Lemma u64_id x : is_u64 x -> u64 x = x.
Proof. word_solve. Qed.
Lemma u32_range x : is_u32 (u32 x).
Proof. word_solve. Qed.
Lemma u64_range x : is_u64 (u64 x).
Proof. word_solve. Qed.
Lemma i64_id x : 0 <= x < 2 ^ 63 -> i64 x = x.
Proof. word_solve. Qed.
Lemma i64_neg x : 2 ^ 63 <= x < 2 ^ 64 -> i64 x = x - 2 ^ 64.
Proof. word_solve. Qed.

Create HintDb go_int.
Create Rewrite HintDb go_int_rw.
#[export] Hint Resolve u32_range u64_range : go_int.
#[export] Hint Rewrite u32_id u64_id i64_id using assumption : go_int_rw.

(** ** Bytes *)

Abbreviation bytes := (list Z).

Definition is_byte (b : Z) : Prop := 0 <= b < 256.

(** The value of a big-endian byte string. *)
Definition be_val (bs : bytes) : Z := fold_left (fun acc b => acc * 256 + b) bs 0.

(** [n] bytes, most significant first. *)
Fixpoint be_bytes (n : nat) (x : Z) : bytes :=
  match n with
  | O => []
  | S n' => be_bytes n' (x / 256) ++ [x mod 256]
  end.

(** How many bytes the magnitude of [x] needs. *)
Definition byte_len (x : Z) : nat :=
  if x =? 0 then O else S (Z.to_nat (Z.log2 (Z.abs x) / 8)).

(** [big.Int.Bytes]: the absolute value, big-endian, no leading zero. *)
Definition big_Bytes (x : Z) : bytes := be_bytes (byte_len x) (Z.abs x).

Lemma be_val_snoc bs b : be_val (bs ++ [b]) = be_val bs * 256 + b.
Proof. unfold be_val. by rewrite fold_left_app. Qed.

Lemma be_bytes_length n x : length (be_bytes n x) = n.
Proof.
  revert x. induction n as [|n IH]; intros x; simpl; [done|].
  rewrite length_app, IH. simpl. lia.
Qed.

Lemma be_bytes_val n x : 0 <= x < 256 ^ Z.of_nat n -> be_val (be_bytes n x) = x.
Proof.
  revert x. induction n as [|n IH]; intros x Hx; cbn [be_bytes].
  { change (256 ^ Z.of_nat 0) with 1 in Hx. unfold be_val. simpl. lia. }
  rewrite be_val_snoc, IH; [div_lia|].
  rewrite Nat2Z.inj_succ, Z.pow_succ_r in Hx by lia.
  split; [apply Z.div_pos; lia | apply Z.div_lt_upper_bound; lia].
Qed.

Lemma be_bytes_bytes n x : Forall is_byte (be_bytes n x).
Proof.
  revert x. induction n as [|n IH]; intros x; simpl; [done|].
  apply Forall_app. split; [done|]. repeat constructor; unfold is_byte; div_lia.
Qed.

Lemma be_val_app a b :
  be_val (a ++ b) = be_val a * 256 ^ Z.of_nat (length b) + be_val b.
Proof.
  induction b as [|x b IH] using rev_ind.
  { rewrite app_nil_r. simpl. unfold be_val at 3. simpl. lia. }
  rewrite app_assoc, !be_val_snoc, IH, length_app. simpl length.
  rewrite Nat2Z.inj_add, Z.pow_add_r by lia. simpl. lia.
Qed.

(** A byte string of a given length is determined by its value. *)
Lemma be_bytes_be_val bs :
  Forall is_byte bs -> be_bytes (length bs) (be_val bs) = bs.
Proof.
  induction bs as [|b bs IH] using rev_ind; intros Hb; [done|].
  apply Forall_app in Hb as [Hbs Hb%Forall_cons_1]. destruct Hb as [Hb _].
  rewrite length_app, be_val_snoc. simpl. rewrite Nat.add_1_r. cbn [be_bytes].
  unfold is_byte in Hb.
  replace ((be_val bs * 256 + b) / 256) with (be_val bs) by div_lia.
  replace ((be_val bs * 256 + b) mod 256) with b by div_lia.
  by rewrite IH.
Qed.

Lemma byte_len_bound x : Z.abs x < 256 ^ Z.of_nat (byte_len x).
Proof.
  unfold byte_len. destruct (Z.eqb_spec x 0) as [->|Hx]; [done|].
  pose proof (Z.log2_spec (Z.abs x)) as [_ Hl]; [lia|].
  pose proof (Z.log2_nonneg (Z.abs x)).
  eapply Z.lt_le_trans; [exact Hl|].
  change 256 with (2 ^ 8). rewrite <- Z.pow_mul_r by lia.
  apply Z.pow_le_mono_r; [lia|].
  rewrite Nat2Z.inj_succ, Z2Nat.id by (apply Z.div_pos; lia).
  div_lia.
Qed.

Lemma big_Bytes_val x : be_val (big_Bytes x) = Z.abs x.
Proof. apply be_bytes_val. pose proof (byte_len_bound x). lia. Qed.

Lemma big_Bytes_bytes x : Forall is_byte (big_Bytes x).
Proof. apply be_bytes_bytes. Qed.

(** A magnitude below [256 ^ n] fits in [n] bytes. *)
Lemma big_Bytes_length_le n x :
  Z.abs x < 256 ^ Z.of_nat n -> (length (big_Bytes x) <= n)%nat.
Proof.
  unfold big_Bytes, byte_len. rewrite be_bytes_length. intros Hx.
  destruct (Z.eqb_spec x 0) as [->|Hnz]; [lia|].
  pose proof (Z.log2_spec (Z.abs x)) as [Hl _]; [lia|].
  pose proof (Z.log2_nonneg (Z.abs x)).
  change 256 with (2 ^ 8) in Hx. rewrite <- Z.pow_mul_r in Hx by lia.
  assert (Z.log2 (Z.abs x) < 8 * Z.of_nat n) as Hlt.
  { apply (Z.pow_lt_mono_r_iff 2); lia. }
  assert (Z.log2 (Z.abs x) / 8 < Z.of_nat n); [|lia].
  apply Z.div_lt_upper_bound; lia.
Qed.

(** Zero bytes in front do not change the value. *)
Lemma be_val_zeros k bs : be_val (replicate k 0 ++ bs) = be_val bs.
Proof.
  rewrite be_val_app. assert (be_val (replicate k 0) = 0) as ->; [|lia].
  induction k as [|k IH]; [done|].
  rewrite replicate_S_end, be_val_snoc, IH. done.
Qed.

#[export] Hint Resolve be_bytes_bytes big_Bytes_bytes : go_int.
#[export] Hint Rewrite be_bytes_length big_Bytes_val : go_int_rw.
