(* ===== verification/GoString.v ===== *)
(** * Numbers as text: what the code uses of math/big, strconv, encoding/hex

    [big_String] is [big.Int.String], [SetString] is [big.Int.SetString] in
    base 10 or 0 (sign, base prefix, underscores between digits in base 0),
    [ParseUint64] is [strconv.ParseUint(s, 10, 64)], [Atoi] is
    [strconv.Atoi], [hex_EncodeToString] is [hex.EncodeToString].  The main
    fact is that decimal text reads back as the number it prints. *)

From S2P Require Import Prelude GoInt.

(** ** Decimal output *)

(** Decimal digits of [x], most significant first; [fuel] bounds their number. *)
Fixpoint dec_digits (fuel : nat) (x : Z) : list Z :=
  match fuel with
  | O => []
  | S f => if x <? 10 then [x] else dec_digits f (x / 10) ++ [x mod 10]
  end.

Definition dec_fuel (x : Z) : nat := S (Z.to_nat (Z.log2 x)).

Definition digit_ascii (d : Z) : ascii := ascii_of_nat (48 + Z.to_nat d).

Definition chars (s : string) : list ascii := list_ascii_of_string s.
Definition of_chars (l : list ascii) : string := string_of_list_ascii l.

(** [big.Int.String] *)
Definition big_String (x : Z) : string :=
  of_chars (if x <? 0 then "-"%char :: map digit_ascii (dec_digits (dec_fuel (- x)) (- x))
            else map digit_ascii (dec_digits (dec_fuel x) x)).

(** ** Number input *)

(** The value of a digit character; [63] ([MaxBase + 1]) for any other. *)
Definition digit_val (c : ascii) : Z :=
  let n := Z.of_nat (nat_of_ascii c) in
  if (48 <=? n) && (n <=? 57) then n - 48
  else if (97 <=? n) && (n <=? 122) then n - 97 + 10
  else if (65 <=? n) && (n <=? 90) then n - 65 + 10
  else 63.

(** An optional sign, and what follows it. *)
Definition scan_sign (l : list ascii) : bool * list ascii :=
  match l with
  | "-"%char :: l' => (true, l')
  | "+"%char :: l' => (false, l')
  | _ => (false, l)
  end.

(** What the digit loop of [nat.scan] last consumed. *)
Inductive scan_prev := PrevNone | PrevDigit | PrevSep.

Record scan_state := mkScan {
  sc_acc : Z;
  sc_count : nat;
  sc_prev : scan_prev;
  sc_invalSep : bool;
}.

Fixpoint scan_digits (b : Z) (sepOk : bool) (l : list ascii) (st : scan_state) :
    scan_state * list ascii :=
  match l with
  | [] => (st, [])
  | c :: l' =>
      if sepOk && bool_decide (c = "_"%char) then
        let bad := match sc_prev st with PrevDigit => false | _ => true end in
        scan_digits b sepOk l'
          (mkScan (sc_acc st) (sc_count st) PrevSep (sc_invalSep st || bad))
      else
        let d := digit_val c in
        if b <=? d then (st, c :: l')
        else scan_digits b sepOk l'
               (mkScan (sc_acc st * b + d) (S (sc_count st)) PrevDigit (sc_invalSep st))
  end.

(** The base, whether the prefix was a bare [0], the state after the prefix
    and what is left to read. *)
Definition scan_prefix (base : Z) (l : list ascii) : Z * bool * scan_state * list ascii :=
  let st0 := mkScan 0 0 PrevNone false in
  let st1 := mkScan 0 0 PrevDigit false in
  if base =? 0 then
    match l with
    | "0"%char :: [] => (10, false, mkScan 0 1 PrevDigit false, [])
    | "0"%char :: c :: l' =>
        if bool_decide (c = "b"%char \/ c = "B"%char) then (2, false, st1, l')
        else if bool_decide (c = "o"%char \/ c = "O"%char) then (8, false, st1, l')
        else if bool_decide (c = "x"%char \/ c = "X"%char) then (16, false, st1, l')
        else (8, true, st1, c :: l')
    | _ => (10, false, st0, l)
    end
  else (base, false, st0, l).

(** [nat.scan] *)
Definition nat_scan (base : Z) (l : list ascii) : option (Z * list ascii) :=
  let '(b, zeroPrefix, st0, l') := scan_prefix base l in
  let '(st, rest) := scan_digits b (base =? 0) l' st0 in
  if sc_invalSep st || match sc_prev st with PrevSep => true | _ => false end then None
  else if decide (sc_count st = O) then if zeroPrefix then Some (0, rest) else None
  else Some (sc_acc st, rest).

(** [x, ok := new(big.Int).SetString(s, base)] for base 10 or 0 *)
Definition SetString (s : string) (base : Z) : option Z :=
  let '(neg, l) := scan_sign (chars s) in
  match nat_scan base l with
  | Some (v, []) => Some (if neg : bool then - v else v)
  | _ => None
  end.

(** Characters that are all decimal digits, read in base 10. *)
Definition dec_value (l : list ascii) : option Z :=
  match l with
  | [] => None
  | _ => if forallb (fun c => digit_val c <? 10) l
         then Some (fold_left (fun acc c => acc * 10 + digit_val c) l 0)
         else None
  end.

(** [strconv.ParseUint(s, 10, 64)]; the error carries no more than its fact. *)
Definition ParseUint64 (s : string) : option Z :=
  match dec_value (chars s) with
  | Some v => if v <? 2 ^ 64 then Some v else None
  | None => None
  end.

(** [strconv.Atoi] *)
Definition Atoi (s : string) : option Z :=
  let '(neg, l) := scan_sign (chars s) in
  match dec_value l with
  | Some v => let v' := if neg : bool then - v else v in
              if (- 2 ^ 63 <=? v') && (v' <? 2 ^ 63) then Some v' else None
  | None => None
  end.

(** ** Hexadecimal output and letter case *)

Definition hex_digit (d : Z) : ascii :=
  if d <? 10 then ascii_of_nat (48 + Z.to_nat d) else ascii_of_nat (87 + Z.to_nat d).

(** [hex.EncodeToString] *)
Definition hex_EncodeToString (bs : bytes) : string :=
  of_chars (flat_map (fun b => [hex_digit (b / 16); hex_digit (b mod 16)]) bs).

Definition lower_ascii (c : ascii) : ascii :=
  let n := nat_of_ascii c in
  if (Nat.leb 65 n && Nat.leb n 90)%bool then ascii_of_nat (n + 32) else c.

(** [strings.ToLower] and SQL's [LOWER] on ASCII text *)
Definition ToLower (s : string) : string := of_chars (map lower_ascii (chars s)).

(** The bytes of a string, [[]byte(s)]. *)
Definition string_bytes (s : string) : bytes :=
  map (fun c => Z.of_nat (nat_of_ascii c)) (chars s).

Example big_String_ex : big_String (-120) = "-120". Proof. reflexivity. Qed.
Example SetString_ex0 : SetString "0x1F" 0 = Some 31. Proof. reflexivity. Qed.
Example SetString_ex1 : SetString "0x1F" 10 = None. Proof. reflexivity. Qed.
Example SetString_ex2 : SetString "1_000" 0 = Some 1000. Proof. reflexivity. Qed.
Example SetString_ex3 : SetString "1__0" 0 = None. Proof. reflexivity. Qed.
Example SetString_ex4 : SetString "09" 0 = None. Proof. reflexivity. Qed.
Example SetString_ex5 : SetString "017" 0 = Some 15. Proof. reflexivity. Qed.
Example ParseUint64_ex : ParseUint64 "18446744073709551616" = None. Proof. reflexivity. Qed.

(** ** Decimal text reads back *)

Definition is_digit (d : Z) : Prop := 0 <= d < 10.

(** Case analysis on a decimal digit. *)
Ltac digit_cases d :=
  let H := fresh in
  assert (d = 0 \/ d = 1 \/ d = 2 \/ d = 3 \/ d = 4 \/
          d = 5 \/ d = 6 \/ d = 7 \/ d = 8 \/ d = 9) as H
    by (unfold is_digit in *; lia);
  destruct_or! H; subst d.

Lemma digit_val_ascii d : is_digit d -> digit_val (digit_ascii d) = d.
Proof. intros Hd. digit_cases d; reflexivity. Qed.

Lemma digit_ascii_not_sep d : is_digit d -> digit_ascii d <> "_"%char.
Proof. intros Hd. digit_cases d; discriminate. Qed.

Lemma scan_sign_digit d l :
  is_digit d -> scan_sign (digit_ascii d :: l) = (false, digit_ascii d :: l).
Proof. intros Hd. by digit_cases d. Qed.

Definition dec_val (ds : list Z) (acc : Z) : Z := fold_left (fun a d => a * 10 + d) ds acc.

Lemma dec_digits_digits fuel x : 0 <= x -> Forall is_digit (dec_digits fuel x).
Proof.
  revert x. induction fuel as [|f IH]; intros x Hx; cbn [dec_digits]; [done|].
  destruct (Z.ltb_spec x 10).
  { constructor; [unfold is_digit; lia | done]. }
  apply Forall_app; split; [apply IH; div_lia|].
  constructor; [unfold is_digit; div_lia | done].
Qed.

Lemma dec_digits_val fuel x :
  0 <= x < 10 ^ Z.of_nat fuel -> dec_val (dec_digits fuel x) 0 = x.
Proof.
  revert x. induction fuel as [|f IH]; intros x Hx; cbn [dec_digits].
  { change (10 ^ Z.of_nat 0) with 1 in Hx. unfold dec_val. simpl. lia. }
  rewrite Nat2Z.inj_succ, Z.pow_succ_r in Hx by lia.
  destruct (Z.ltb_spec x 10).
  { unfold dec_val. simpl. lia. }
  unfold dec_val in *. rewrite fold_left_app, IH by div_lia. simpl. div_lia.
Qed.

Lemma dec_digits_nonempty f x : dec_digits (S f) x <> [].
Proof.
  cbn [dec_digits]. case_match; [done|]. by destruct (dec_digits f (x / 10)).
Qed.

(** No leading zero but in the text of zero itself. *)
Lemma dec_digits_head fuel x ds :
  0 <= x < 10 ^ Z.of_nat fuel -> dec_digits fuel x = 0 :: ds -> ds = [] /\ x = 0.
Proof.
  revert x ds. induction fuel as [|f IH]; intros x ds Hx; cbn [dec_digits]; [done|].
  destruct (Z.ltb_spec x 10); [by intros [= -> <-]|].
  rewrite Nat2Z.inj_succ, Z.pow_succ_r in Hx by lia.
  assert (0 <= x / 10 < 10 ^ Z.of_nat f) as Hq by div_lia.
  intros E. destruct (dec_digits f (x / 10)) as [|d' ds'] eqn:E'.
  { destruct f as [|f]; [change (10 ^ Z.of_nat 0) with 1 in Hq; div_lia|].
    by apply dec_digits_nonempty in E'. }
  injection E as -> <-. apply IH in E' as [_ Hz]; [div_lia|done].
Qed.

Lemma dec_fuel_enough x : 0 <= x -> x < 10 ^ Z.of_nat (dec_fuel x).
Proof.
  intros Hx. unfold dec_fuel. destruct (decide (x = 0)) as [->|Hnz]; [done|].
  pose proof (Z.log2_spec x) as [_ Hl]; [lia|].
  pose proof (Z.log2_nonneg x).
  rewrite Nat2Z.inj_succ, Z2Nat.id by lia.
  apply (Z.lt_le_trans _ _ _ Hl), Z.pow_le_mono_l. lia.
Qed.

(** The digit loop consumes a run of decimal digits whole. *)
Lemma scan_digits_dec b sep ds rest st :
  10 <= b -> Forall is_digit ds ->
  scan_digits b sep (map digit_ascii ds ++ rest) st =
  scan_digits b sep rest
    (mkScan (fold_left (fun a d => a * b + d) ds (sc_acc st))
            (sc_count st + length ds)
            (match ds with [] => sc_prev st | _ => PrevDigit end)
            (sc_invalSep st)).
Proof.
  intros Hb. revert st. induction ds as [|d ds IH]; intros st Hds.
  { simpl. destruct st; simpl. by rewrite Nat.add_0_r. }
  apply Forall_cons_1 in Hds as [Hd Hds]. cbn [map app scan_digits].
  rewrite bool_decide_eq_false_2 by by apply digit_ascii_not_sep.
  rewrite andb_false_r, digit_val_ascii by done.
  destruct (Z.leb_spec b d); [unfold is_digit in Hd; lia|].
  rewrite IH by done. f_equal. simpl. f_equal; [lia|by destruct ds].
Qed.

Lemma scan_prefix_dec base d ds :
  base = 10 \/ base = 0 -> is_digit d -> (d = 0 -> ds = []) ->
  (base = 0 /\ d = 0 /\
     scan_prefix base (map digit_ascii (d :: ds)) = (10, false, mkScan 0 1 PrevDigit false, []))
  \/ scan_prefix base (map digit_ascii (d :: ds)) =
     (10, false, mkScan 0 0 PrevNone false, map digit_ascii (d :: ds)).
Proof.
  intros [-> | ->] Hd H0; [by right|].
  destruct (decide (d = 0)) as [->|Hnz]; [left; by rewrite H0|right].
  digit_cases d; done.
Qed.

(** The digits of a non-negative number scan to it, in base 10 and in the
    base that the text chooses. *)
Lemma nat_scan_dec base x :
  base = 10 \/ base = 0 -> 0 <= x ->
  nat_scan base (map digit_ascii (dec_digits (dec_fuel x) x)) = Some (x, []).
Proof.
  intros Hb Hx. pose proof (dec_fuel_enough x Hx) as Hf.
  pose proof (dec_digits_digits (dec_fuel x) x Hx) as Hds.
  pose proof (dec_digits_val (dec_fuel x) x (conj Hx Hf)) as Hv.
  destruct (dec_digits (dec_fuel x) x) as [|d ds] eqn:E.
  { by apply dec_digits_nonempty in E. }
  assert (d = 0 -> ds = []) as H0.
  { intros ->. by apply dec_digits_head in E as [-> _]. }
  pose proof Hds as [Hd _]%Forall_cons_1. unfold nat_scan.
  destruct (scan_prefix_dec base d ds Hb Hd H0) as [(-> & -> & ->)| ->].
  { rewrite H0 in Hv by done. unfold dec_val in Hv. simpl in *. by subst x. }
  rewrite <- (app_nil_r (map digit_ascii (d :: ds))).
  rewrite scan_digits_dec by (done || lia). cbn [scan_digits].
  unfold dec_val in Hv. simpl. by rewrite <- Hv.
Qed.

Lemma chars_app s t : chars (s +:+ t) = chars s ++ chars t.
Proof. unfold chars. induction s as [|c s IH]; simpl; [done|]. by rewrite IH. Qed.

Lemma of_chars_chars s : of_chars (chars s) = s.
Proof. apply string_of_list_ascii_of_string. Qed.

Lemma chars_of_chars l : chars (of_chars l) = l.
Proof. apply list_ascii_of_string_of_list_ascii. Qed.

(** What [String] prints, [SetString] reads, sign included. *)
Lemma SetString_big_String base x :
  base = 10 \/ base = 0 -> SetString (big_String x) base = Some x.
Proof.
  intros Hb. unfold SetString, big_String. rewrite chars_of_chars.
  destruct (Z.ltb_spec x 0).
  { cbn [scan_sign]. rewrite nat_scan_dec by (done || lia). f_equal. lia. }
  pose proof (nat_scan_dec base x Hb ltac:(lia)) as Hs.
  destruct (dec_digits (dec_fuel x) x) as [|d ds] eqn:E.
  { by apply dec_digits_nonempty in E. }
  pose proof (dec_digits_digits (dec_fuel x) x ltac:(lia)) as Hds.
  rewrite E in Hds. apply Forall_cons_1 in Hds as [Hd _].
  cbn [map] in *. by rewrite scan_sign_digit, Hs.
Qed.

Lemma big_String_inj x y : big_String x = big_String y -> x = y.
Proof.
  intros E. pose proof (SetString_big_String 10 x ltac:(by left)) as Hx.
  rewrite E, SetString_big_String in Hx by by left. by injection Hx.
Qed.

Lemma big_String_nonempty x : big_String x <> "".
Proof.
  intros E. pose proof (SetString_big_String 10 x ltac:(by left)) as Hx.
  by rewrite E in Hx.
Qed.

(** ** Case folding *)

Lemma lower_ascii_idemp c : lower_ascii (lower_ascii c) = lower_ascii c.
Proof. destruct c as [[] [] [] [] [] [] [] []]; reflexivity. Qed.

Lemma ToLower_idemp s : ToLower (ToLower s) = ToLower s.
Proof.
  unfold ToLower. rewrite chars_of_chars, map_map. f_equal.
  apply map_ext. apply lower_ascii_idemp.
Qed.

#[export] Hint Resolve big_String_nonempty : go_int.

(** [string(b)] of a byte slice *)
Definition bytes_string (bs : bytes) : string :=
  of_chars (map (fun b => ascii_of_nat (Z.to_nat b)) bs).

Lemma bytes_string_bytes s : bytes_string (string_bytes s) = s.
Proof.
  unfold bytes_string, string_bytes, of_chars, chars. rewrite map_map.
  induction s as [|c s IH]; [done|]. cbn [list_ascii_of_string map string_of_list_ascii].
  by rewrite Nat2Z.id, ascii_nat_embedding, IH.
Qed.
