(* ===== verification/Numeric.v ===== *)
(** * pkg/common/utils.go: numbers between PostgreSQL, big.Int and text

    [Numeric] is the part of [pgtype.Numeric] the code reads: a coefficient
    that may be nil, a decimal exponent and the validity flag.  A
    [*big.Int] result is an [option Z] ([None] for nil); a nil receiver
    panics. *)

From S2P Require Import Prelude GoInt GoString.

Record Numeric := mkNumeric {
  nInt : option Z;
  nExp : Z;
  nValid : bool;
}.

#[export] Instance Numeric_eq_dec : EqDecision Numeric.
Proof. solve_decision. Defined.

(** [new(big.Int).Exp(x, y, nil)]: 1 for a negative exponent *)
Definition big_Exp (x y : Z) : Z := if y <=? 0 then 1 else x ^ y.

Definition NumericToString (n : Numeric) : string :=
  match nValid n, nInt n with
  | true, Some i =>
      if 0 <? nExp n then big_String (i * big_Exp 10 (nExp n))
      else if nExp n <? 0 then big_String (i / big_Exp 10 (i32 (- nExp n)))
      else big_String i
  | _, _ => "0"
  end.

Definition NumericToBigInt (n : Numeric) : res (option Z) :=
  if nExp n =? 0 then Ok (nInt n)
  else
    match nInt n with
    | None => Panic "num.Set(n.Int): nil pointer dereference"
    | Some num =>
        if 0 <? nExp n then Ok (Some (num * big_Exp 10 (nExp n)))
        else
          let div := big_Exp 10 (i32 (- nExp n)) in
          if num mod div =? 0 then Ok (Some (num / div))
          else Err (Errorf "cannot convert to integer")
    end.

Definition StringToBigInt (s : string) : option Z :=
  if decide (s = "") then Some 0 else SetString s 10.

Definition BigIntToNumeric (x : option Z) : Numeric := mkNumeric x 0 true.

Definition StringToNumeric (s : string) : Numeric := BigIntToNumeric (StringToBigInt s).

Definition Uint64ToBytes (i : Z) : bytes := be_bytes 8 i.

(** ** The integer a numeric stands for *)

(** [n] is a representation of the integer [x]: [coefficient * 10 ^ exponent = x]. *)
Definition represents (n : Numeric) (x : Z) : Prop :=
  nValid n = true /\ - 2 ^ 31 < nExp n < 2 ^ 31 /\
  exists i, nInt n = Some i /\
    (0 <= nExp n -> x = i * 10 ^ nExp n) /\
    (nExp n < 0 -> i = x * 10 ^ (- nExp n)).

Lemma i32_neg_exp e : - 2 ^ 31 < e < 0 -> i32 (- e) = - e.
Proof. word_solve. Qed.

Lemma big_Exp_pos y : 0 < y -> big_Exp 10 y = 10 ^ y.
Proof. intros. unfold big_Exp. destruct (Z.leb_spec y 0); lia. Qed.

Lemma pow10_pos y : 0 <= y -> 0 < 10 ^ y.
Proof. intros. by apply Z.pow_pos_nonneg. Qed.

(** Whatever exponent the driver chose, the conversion finds the integer. *)
Lemma NumericToBigInt_represents n x :
  represents n x -> NumericToBigInt n = Ok (Some x).
Proof.
  intros (_ & He & i & Hi & Hpos & Hneg). unfold NumericToBigInt. rewrite Hi.
  destruct (Z.eqb_spec (nExp n) 0) as [E|Hnz].
  { rewrite E in Hpos. rewrite Hpos by done. by rewrite Z.mul_1_r. }
  destruct (Z.ltb_spec 0 (nExp n)).
  { by rewrite big_Exp_pos, Hpos by lia. }
  rewrite i32_neg_exp, big_Exp_pos by lia. rewrite (Hneg ltac:(lia)).
  pose proof (pow10_pos (- nExp n) ltac:(lia)).
  by rewrite Z.mod_mul, Z.div_mul by lia.
Qed.

Lemma NumericToString_represents n x :
  represents n x -> NumericToString n = big_String x.
Proof.
  intros (Hv & He & i & Hi & Hpos & Hneg). unfold NumericToString. rewrite Hv, Hi.
  destruct (Z.ltb_spec 0 (nExp n)).
  { by rewrite big_Exp_pos, Hpos by lia. }
  destruct (Z.ltb_spec (nExp n) 0).
  { rewrite i32_neg_exp, big_Exp_pos by lia. rewrite (Hneg ltac:(lia)).
    pose proof (pow10_pos (- nExp n) ltac:(lia)). by rewrite Z.div_mul by lia. }
  assert (nExp n = 0) as E by lia. rewrite E in Hpos.
  rewrite Hpos by done. by rewrite Z.mul_1_r.
Qed.

Lemma represents_BigIntToNumeric x : represents (BigIntToNumeric (Some x)) x.
Proof.
  split; [done|]. split; [done|]. exists x. simpl. split; [done|].
  split; intros; lia.
Qed.

Lemma represents_inj n x y : represents n x -> represents n y -> x = y.
Proof.
  intros Hx%NumericToBigInt_represents Hy%NumericToBigInt_represents. congruence.
Qed.

Lemma StringToBigInt_big_String x : StringToBigInt (big_String x) = Some x.
Proof.
  unfold StringToBigInt. rewrite decide_False by apply big_String_nonempty.
  apply SetString_big_String. by left.
Qed.

Lemma StringToBigInt_empty : StringToBigInt "" = Some 0.
Proof. done. Qed.

Create Rewrite HintDb go_num.
#[export] Hint Rewrite StringToBigInt_big_String : go_num.
#[export] Hint Resolve represents_BigIntToNumeric NumericToBigInt_represents
  NumericToString_represents : go_int.

(** ** Properties *)

(** C38: printing a numeric and reading the text back gives the integer it
    stands for, whatever exponent the database driver returned. *)
Theorem numeric_text_roundtrip n x :
  represents n x ->
  StringToBigInt (NumericToString n) = Some x /\
  NumericToBigInt n = Ok (StringToBigInt (NumericToString n)) /\
  represents (StringToNumeric (NumericToString n)) x.
Proof.
  intros Hn. rewrite (NumericToString_represents n x Hn).
  unfold StringToNumeric. rewrite StringToBigInt_big_String.
  eauto using NumericToBigInt_represents, represents_BigIntToNumeric.
Qed.

Lemma numeric_text_roundtrip_witness :
  represents (mkNumeric (Some 15) 2 true) 1500 /\
  StringToBigInt (NumericToString (mkNumeric (Some 15) 2 true)) = Some 1500.
Proof.
  assert (represents (mkNumeric (Some 15) 2 true) 1500) as H.
  { split; [done|]. split; [done|]. exists 15. simpl. split; [done|]. split; intros; lia. }
  split; [exact H|]. apply (numeric_text_roundtrip _ _ H).
Defined.

(** A conversion that is not exact is an error, never a rounded value:
    [NumericToBigInt] succeeds on a negative exponent only when the number
    is an integer. *)
Theorem NumericToBigInt_exact n i r :
  nInt n = Some i -> - 2 ^ 31 < nExp n < 0 ->
  NumericToBigInt n = Ok r ->
  exists x, r = Some x /\ i = x * 10 ^ (- nExp n).
Proof.
  intros Hi He. unfold NumericToBigInt. rewrite Hi.
  destruct (Z.eqb_spec (nExp n) 0); [lia|]. destruct (Z.ltb_spec 0 (nExp n)); [lia|].
  rewrite i32_neg_exp, big_Exp_pos by lia.
  destruct (Z.eqb_spec (i mod 10 ^ (- nExp n)) 0) as [Hm|]; [|done].
  intros [= <-]. eexists. split; [done|].
  pose proof (pow10_pos (- nExp n) ltac:(lia)).
  pose proof (Z.div_mod i (10 ^ (- nExp n)) ltac:(lia)). lia.
Qed.

Lemma NumericToBigInt_exact_witness :
  exists x, Some 25 = Some x /\ 2500 = x * 10 ^ (- (-2)).
Proof.
  apply (NumericToBigInt_exact (mkNumeric (Some 2500) (-2) true) 2500 (Some 25));
    [reflexivity | simpl; lia | reflexivity].
Defined.
