(* ===== verification/EpochMath.v ===== *)
(** * Epochs: pkg/operator/constants, the epoch arithmetic of
    pkg/common/utils.go and the activity test of pkg/operator/epoch/helpers.go

    Block numbers are uint64 and epochs uint32; every operation wraps as Go's
    does. *)

From S2P Require Import Prelude GoInt.

Definition GenesisBlock : Z := 7698497.
Definition EpochPeriod : Z := 12.
Definition GracePeriod : Z := 3.

(** The exit epoch of an operator that has not deregistered. *)
Definition NoExitEpoch : Z := 4294967295.

(** The status is a Go string: the three constants, and the zero value of a
    task built in memory. *)
Inductive TaskStatus :=
  | TaskStatusPending | TaskStatusCompleted | TaskStatusConfirming | TaskStatusZero.

#[export] Instance TaskStatus_eq_dec : EqDecision TaskStatus.
Proof. solve_decision. Defined.

(** [string(status)] *)
Definition TaskStatus_string (s : TaskStatus) : string :=
  match s with
  | TaskStatusPending => "pending"
  | TaskStatusCompleted => "completed"
  | TaskStatusConfirming => "confirming"
  | TaskStatusZero => ""
  end.

Definition CalculateCurrentEpochNumber (blockNumber : Z) : Z :=
  u32 (u64 (blockNumber - GenesisBlock) / EpochPeriod).

Definition GetEffectiveEpochByBlockNumber (currentBlockNumber : Z) : Z :=
  let blocksSinceGenesis := u64 (currentBlockNumber - GenesisBlock) in
  let absoluteEpoch := u32 (blocksSinceGenesis / EpochPeriod) in
  let epochStartBlock := u64 (GenesisBlock + u64 (absoluteEpoch * EpochPeriod)) in
  let epochEndBlock := u64 (epochStartBlock + EpochPeriod) in
  let isGracePeriod := u64 (epochEndBlock - GracePeriod) <=? currentBlockNumber in
  if isGracePeriod then u32 (absoluteEpoch + 2) else u32 (absoluteEpoch + 1).

Definition IsOperatorActive (currentBlock activeEpoch exitEpoch : Z) : bool :=
  let activeEpochStartBlock := u64 (GenesisBlock + u64 (activeEpoch * EpochPeriod)) in
  let exitEpochStartBlock := u64 (GenesisBlock + u64 (exitEpoch * EpochPeriod)) in
  if activeEpoch =? exitEpoch then false
  else if exitEpoch =? NoExitEpoch then
    if activeEpochStartBlock <=? currentBlock then true else false
  else if activeEpoch <? exitEpoch then
    if (activeEpochStartBlock <=? currentBlock) && (currentBlock <? exitEpochStartBlock)
    then true else false
  else
    if currentBlock <? exitEpochStartBlock then true
    else if (exitEpochStartBlock <=? currentBlock) && (currentBlock <=? activeEpochStartBlock)
    then false
    else true.

Lemma effective_epoch_u32 b : is_u32 (GetEffectiveEpochByBlockNumber b).
Proof. unfold GetEffectiveEpochByBlockNumber. case_match; apply u32_range. Qed.

(** ** The intended reading, on unbounded integers *)

(** The first block of an epoch. *)
Definition epoch_start (e : Z) : Z := GenesisBlock + e * EpochPeriod.

(** The blocks whose epoch the code can name: from genesis until epoch
    numbers would reach [NoExitEpoch]. *)
Definition in_epoch_range (b : Z) : Prop := GenesisBlock <= b < epoch_start (2 ^ 32 - 3).

Ltac epoch_lia :=
  unfold CalculateCurrentEpochNumber, GetEffectiveEpochByBlockNumber, in_epoch_range,
    epoch_start, GenesisBlock, EpochPeriod, GracePeriod, NoExitEpoch in *; word_solve.

Lemma current_epoch_eq b :
  in_epoch_range b -> CalculateCurrentEpochNumber b = (b - GenesisBlock) / EpochPeriod.
Proof.
  intros Hb. unfold CalculateCurrentEpochNumber.
  rewrite u64_id, u32_id; [done|epoch_lia|epoch_lia].
Qed.

Lemma epoch_start_u64 e :
  is_u32 e -> u64 (GenesisBlock + u64 (e * EpochPeriod)) = epoch_start e.
Proof. intros He. epoch_lia. Qed.

Lemma effective_epoch_eq b :
  in_epoch_range b ->
  GetEffectiveEpochByBlockNumber b =
    let e := CalculateCurrentEpochNumber b in
    if epoch_start (e + 1) - GracePeriod <=? b then e + 2 else e + 1.
Proof.
  intros Hb. cbv zeta. unfold GetEffectiveEpochByBlockNumber.
  fold (CalculateCurrentEpochNumber b).
  pose proof (current_epoch_eq b Hb) as He.
  assert (0 <= CalculateCurrentEpochNumber b <= 2 ^ 32 - 4) as Hr by (rewrite He; epoch_lia).
  generalize dependent (CalculateCurrentEpochNumber b). intros e _ Hr.
  rewrite epoch_start_u64 by word_solve.
  replace (u64 (u64 (epoch_start e + EpochPeriod) - GracePeriod))
    with (epoch_start (e + 1) - GracePeriod) by epoch_lia.
  case_match; epoch_lia.
Qed.

(** ** Properties *)

Lemma current_epoch_spec b b' :
  in_epoch_range b -> in_epoch_range b' ->
  let e := CalculateCurrentEpochNumber b in
  is_u32 e /\ epoch_start e <= b < epoch_start (e + 1) /\
  (b <= b' -> e <= CalculateCurrentEpochNumber b').
Proof.
  intros Hb Hb'. cbv zeta. rewrite !current_epoch_eq by done.
  split_and!; [epoch_lia..|]. intros Hle. apply Z.div_le_mono; epoch_lia.
Qed.

(** Every block from genesis on lies inside the epoch the code computes
    for it, and later blocks never get an earlier epoch. *)
Theorem current_epoch_contains_block b b' :
  in_epoch_range b -> in_epoch_range b' ->
  let e := CalculateCurrentEpochNumber b in
  is_u32 e /\ epoch_start e <= b < epoch_start (e + 1) /\
  (b <= b' -> e <= CalculateCurrentEpochNumber b').
Proof. exact (current_epoch_spec b b'). Qed.

Lemma current_epoch_contains_block_witness :
  CalculateCurrentEpochNumber 7698520 = 1 /\ epoch_start 1 <= 7698520 < epoch_start 2.
Proof.
  split; [reflexivity|].
  apply (current_epoch_contains_block 7698520 7698520);
    unfold in_epoch_range, epoch_start, GenesisBlock, EpochPeriod; lia.
Defined.

Lemma effective_epoch_spec b :
  in_epoch_range b ->
  let e := GetEffectiveEpochByBlockNumber b in
  is_u32 e /\
  b + GracePeriod < epoch_start e <= b + GracePeriod + EpochPeriod /\
  forall e', b + GracePeriod < epoch_start e' -> e <= e'.
Proof.
  intros Hb. cbv zeta. rewrite effective_epoch_eq by done. cbv zeta.
  pose proof (current_epoch_spec b b Hb Hb) as (Hu & He & _).
  cbv zeta in *. generalize dependent (CalculateCurrentEpochNumber b).
  intros e Hu He. unfold in_epoch_range in Hb.
  destruct (Z.leb_spec (epoch_start (e + 1) - GracePeriod) b);
    unfold is_u32, epoch_start, GenesisBlock, EpochPeriod, GracePeriod in *;
    split_and!; intros; lia.
Qed.

(** C37: the effective epoch of a registration (or exit) at block [b] is the
    first epoch that starts more than [GracePeriod] blocks after [b], and it
    starts at most [EpochPeriod + GracePeriod] blocks after [b]. *)
Theorem effective_epoch_least b :
  in_epoch_range b ->
  let e := GetEffectiveEpochByBlockNumber b in
  is_u32 e /\
  b + GracePeriod < epoch_start e <= b + GracePeriod + EpochPeriod /\
  forall e', b + GracePeriod < epoch_start e' -> e <= e'.
Proof. exact (effective_epoch_spec b). Qed.

Lemma effective_epoch_least_witness :
  GetEffectiveEpochByBlockNumber 7698506 = 2 /\
  7698506 + GracePeriod < epoch_start 2 <= 7698506 + GracePeriod + EpochPeriod.
Proof.
  split; [reflexivity|].
  apply (effective_epoch_least 7698506).
  unfold in_epoch_range, epoch_start, GenesisBlock, EpochPeriod; lia.
Defined.

Lemma effective_epoch_mono b b' :
  in_epoch_range b -> in_epoch_range b' -> b <= b' ->
  GetEffectiveEpochByBlockNumber b <= GetEffectiveEpochByBlockNumber b'.
Proof.
  intros Hb Hb' Hle. apply (effective_epoch_spec b Hb).
  pose proof (effective_epoch_spec b' Hb') as (_ & Hs & _). lia.
Qed.

(** The activity test, case by case, on the block intervals it compares. *)
Lemma IsOperatorActive_iff cur a e :
  is_u32 a -> is_u32 e ->
  IsOperatorActive cur a e = true <->
  a <> e /\
  ((e = NoExitEpoch /\ epoch_start a <= cur) \/
   (e <> NoExitEpoch /\ a < e /\ epoch_start a <= cur < epoch_start e) \/
   (e <> NoExitEpoch /\ e < a /\ (cur < epoch_start e \/ epoch_start a < cur))).
Proof.
  intros Ha He. unfold IsOperatorActive. rewrite !epoch_start_u64 by done.
  assert (a < e -> epoch_start a < epoch_start e) by (unfold epoch_start, EpochPeriod; lia).
  assert (e < a -> epoch_start e < epoch_start a) by (unfold epoch_start, EpochPeriod; lia).
  destruct (Z.eqb_spec a e); [split; [done|lia]|].
  destruct (Z.eqb_spec e NoExitEpoch).
  { destruct (Z.leb_spec (epoch_start a) cur); split; try done; lia. }
  destruct (Z.ltb_spec a e).
  { destruct (Z.leb_spec (epoch_start a) cur), (Z.ltb_spec cur (epoch_start e));
      simpl; split; try done; lia. }
  destruct (Z.ltb_spec cur (epoch_start e)); [split; [lia|done]|].
  destruct (Z.leb_spec (epoch_start e) cur), (Z.leb_spec cur (epoch_start a));
    simpl; split; try done; lia.
Qed.

Lemma IsOperatorActive_no_exit cur a :
  is_u32 a -> a <> NoExitEpoch ->
  IsOperatorActive cur a NoExitEpoch = true <-> epoch_start a <= cur.
Proof.
  intros Ha Hne. rewrite IsOperatorActive_iff by (done || word_solve).
  unfold NoExitEpoch in *. lia.
Qed.

(** An operator that leaves in a later epoch is active in between. *)
Lemma IsOperatorActive_interval cur a e :
  is_u32 a -> is_u32 e -> a <= e -> e <> NoExitEpoch ->
  IsOperatorActive cur a e = true <-> epoch_start a <= cur < epoch_start e.
Proof.
  intros Ha He Hle Hne. rewrite IsOperatorActive_iff by done.
  assert (a = e -> epoch_start a = epoch_start e) by (by intros ->). lia.
Qed.

Lemma effective_epoch_exit b :
  in_epoch_range b -> GetEffectiveEpochByBlockNumber b <> NoExitEpoch.
Proof.
  intros Hb. pose proof (effective_epoch_spec b Hb) as (Hu & Hs & _).
  unfold NoExitEpoch, in_epoch_range, epoch_start, GenesisBlock, EpochPeriod, GracePeriod in *. lia.
Qed.

(** The life cycle of an operator that registers at block [rb] and
    deregisters at a later block [db]: it is active exactly from the first
    block of the effective epoch of [rb] until the first block of the
    effective epoch of [db], an empty interval when the two epochs agree; in
    particular it is inactive for at least [GracePeriod] blocks after
    registering and still active for as many after deregistering. *)
Theorem operator_active_interval rb db cur :
  in_epoch_range rb -> in_epoch_range db -> rb <= db ->
  let a := GetEffectiveEpochByBlockNumber rb in
  let e := GetEffectiveEpochByBlockNumber db in
  (IsOperatorActive cur a e = true <-> epoch_start a <= cur < epoch_start e) /\
  (IsOperatorActive cur a e = true -> rb + GracePeriod < cur) /\
  (epoch_start a <= cur <= db + GracePeriod -> IsOperatorActive cur a e = true).
Proof.
  intros Hr Hd Hle. cbv zeta.
  pose proof (effective_epoch_mono rb db Hr Hd Hle) as Hmono.
  pose proof (effective_epoch_spec rb Hr) as (Hua & Hsa & _).
  pose proof (effective_epoch_spec db Hd) as (Hue & Hse & _).
  assert (GetEffectiveEpochByBlockNumber db <> NoExitEpoch) as Hne.
  { unfold NoExitEpoch, in_epoch_range, epoch_start, GenesisBlock, EpochPeriod, GracePeriod in *. lia. }
  rewrite IsOperatorActive_iff by done.
  generalize dependent (GetEffectiveEpochByBlockNumber db). intros e ? ? ? ?.
  generalize dependent (GetEffectiveEpochByBlockNumber rb). intros a ? ? ?.
  assert (a = e -> epoch_start a = epoch_start e) by (by intros ->).
  split_and!; lia.
Qed.

Lemma operator_active_interval_witness :
  let a := GetEffectiveEpochByBlockNumber 7698500 in
  let e := GetEffectiveEpochByBlockNumber 7698530 in
  IsOperatorActive 7698510 a e = true <-> epoch_start a <= 7698510 < epoch_start e.
Proof.
  cbv zeta. apply (operator_active_interval 7698500 7698530 7698510);
    unfold in_epoch_range, epoch_start, GenesisBlock, EpochPeriod; lia.
Defined.

(** Before genesis the unsigned subtraction wraps: the epoch is not zero
    but (close to) the quotient of [2^64] by the period, truncated to 32 bits. *)
Theorem epoch_before_genesis_wraps b :
  0 <= b < GenesisBlock ->
  CalculateCurrentEpochNumber b = u32 ((2 ^ 64 - (GenesisBlock - b)) / EpochPeriod) /\
  1000000000 < CalculateCurrentEpochNumber b.
Proof.
  intros Hb. unfold CalculateCurrentEpochNumber.
  assert (u64 (b - GenesisBlock) = 2 ^ 64 - (GenesisBlock - b)) as -> by epoch_lia.
  split; [done|].
  assert (1537228672808632771 - 641541 <= (2 ^ 64 - (GenesisBlock - b)) / EpochPeriod
          <= 1537228672809129301) as Hq by epoch_lia.
  generalize dependent ((2 ^ 64 - (GenesisBlock - b)) / EpochPeriod). intros q Hq.
  word_solve.
Qed.

Lemma epoch_before_genesis_wraps_witness :
  CalculateCurrentEpochNumber 0 = u32 ((2 ^ 64 - GenesisBlock) / EpochPeriod).
Proof.
  apply (epoch_before_genesis_wraps 0). unfold GenesisBlock. lia.
Defined.

(** At its activation block an operator that never left is active, one whose
    exit epoch lies before its activation epoch is not. *)
Lemma activation_boundary a e :
  is_u32 a -> is_u32 e -> e < a -> a <> NoExitEpoch ->
  IsOperatorActive (epoch_start a) a NoExitEpoch = true /\
  IsOperatorActive (epoch_start a) a e = false.
Proof.
  intros Ha He Hlt Hne. split; [by apply IsOperatorActive_no_exit; [..|lia]|].
  apply not_true_is_false. rewrite IsOperatorActive_iff by done.
  unfold is_u32, NoExitEpoch, epoch_start, EpochPeriod in *. lia.
Qed.
