(* ===== verification/Models.v ===== *)
(** * The rows of the four tables (pkg/repos/*/models.go) and the database

    A table is a finite map from its primary key to its rows.  Times are
    microseconds on one clock. *)

From S2P Require Import Prelude GoInt Numeric EpochMath.

Record Tasks := mkTasks {
  t_TaskID : string;
  t_ChainID : Z;
  t_TargetAddress : string;
  t_Key : Numeric;
  t_BlockNumber : Z;
  t_Value : Numeric;
  t_Epoch : Z;
  t_Status : TaskStatus;
  t_RequiredConfirmations : Z;
  t_RetryCount : Z;
  t_CreatedAt : Z;
  t_UpdatedAt : Z;
}.

Record Operators := mkOperators {
  o_Address : string;
  o_SigningKey : string;
  o_P2pKey : string;
  o_RegisteredAtBlockNumber : Z;
  o_ActiveEpoch : Z;
  o_ExitEpoch : Z;
  o_IsActive : bool;
  o_Weight : Numeric;
  o_CreatedAt : Z;
  o_UpdatedAt : Z;
}.

Record Blacklist := mkBlacklist {
  b_PeerID : string;
  b_ViolationCount : Z;
  b_CreatedAt : Z;
  b_UpdatedAt : Z;
  b_ExpiresAt : option Z;
}.

Record ConsensusResponse := mkConsensusResponse {
  c_TaskID : string;
  c_Epoch : Z;
  c_ChainID : Z;
  c_TargetAddress : string;
  c_BlockNumber : Z;
  c_Key : Numeric;
  c_Value : Numeric;
  c_AggregatedSignatures : list bytes;
  c_OperatorAddresses : list string;
  c_CreatedAt : Z;
  c_UpdatedAt : Z;
}.

#[export] Instance Tasks_eq_dec : EqDecision Tasks.
Proof. solve_decision. Defined.
#[export] Instance Operators_eq_dec : EqDecision Operators.
Proof. solve_decision. Defined.
#[export] Instance Blacklist_eq_dec : EqDecision Blacklist.
Proof. solve_decision. Defined.
#[export] Instance ConsensusResponse_eq_dec : EqDecision ConsensusResponse.
Proof. solve_decision. Defined.

(** The PostgreSQL database of one operator node. *)
Record DB := mkDB {
  db_tasks : gmap string Tasks;
  db_operators : gmap string Operators;
  db_blacklist : gmap string Blacklist;
  db_consensus : gmap string ConsensusResponse;
}.

Definition db_set_tasks (m : gmap string Tasks) (d : DB) : DB :=
  mkDB m (db_operators d) (db_blacklist d) (db_consensus d).
Definition db_set_operators (m : gmap string Operators) (d : DB) : DB :=
  mkDB (db_tasks d) m (db_blacklist d) (db_consensus d).
Definition db_set_blacklist (m : gmap string Blacklist) (d : DB) : DB :=
  mkDB (db_tasks d) (db_operators d) m (db_consensus d).
Definition db_set_consensus (m : gmap string ConsensusResponse) (d : DB) : DB :=
  mkDB (db_tasks d) (db_operators d) (db_blacklist d) m.

Definition empty_db : DB := mkDB ∅ ∅ ∅ ∅.

(** The rows of a table, in the order the table hands them out. *)
Definition table_rows {A} (m : gmap string A) : list A := (map_to_list m).*2.

Lemma elem_of_table_rows {A} (m : gmap string A) x :
  x ∈ table_rows m <-> exists k, m !! k = Some x.
Proof.
  unfold table_rows. rewrite list_elem_of_fmap. split.
  - intros ([k y] & -> & Hy%elem_of_map_to_list). by exists k.
  - intros (k & Hk%elem_of_map_to_list). by exists (k, x).
Qed.

(** The first row, in table order, that satisfies a condition: what [QueryRow]
    scans when several rows match. *)
Definition first_row {A} (P : A -> bool) (m : gmap string A) : option A :=
  head (List.filter P (table_rows m)).

Lemma first_row_Some {A} (P : A -> bool) m (x : A) :
  first_row P m = Some x -> P x = true /\ exists k, m !! k = Some x.
Proof.
  unfold first_row. destruct (List.filter P (table_rows m)) as [|y l] eqn:E; [done|].
  intros [= ->]. assert (In x (List.filter P (table_rows m))) as Hin.
  { rewrite E. by left. }
  apply filter_In in Hin as [Hin HP]. split; [done|].
  by apply elem_of_table_rows, list_elem_of_In.
Qed.

Lemma first_row_None {A} (P : A -> bool) m :
  first_row P m = None -> forall k (x : A), m !! k = Some x -> P x = false.
Proof.
  unfold first_row. destruct (List.filter P (table_rows m)) as [|y l] eqn:E; [|done].
  intros _ k x Hk. apply not_true_is_false. intros HP.
  assert (In x (List.filter P (table_rows m))) as Hin.
  { apply filter_In. split; [|done]. apply list_elem_of_In, elem_of_table_rows. eauto. }
  by rewrite E in Hin.
Qed.

Lemma first_row_unique {A} (P : A -> bool) m k (x : A) :
  m !! k = Some x -> P x = true ->
  (forall k' y, m !! k' = Some y -> P y = true -> y = x) ->
  first_row P m = Some x.
Proof.
  intros Hk HP Huniq. destruct (first_row P m) as [y|] eqn:E.
  - apply first_row_Some in E as [HPy [k' Hk']]. f_equal. eauto.
  - by rewrite (first_row_None P m E k x Hk) in HP.
Qed.

Definition key_le {A} (key : A -> Z) : relation A := fun x y => key x <= key y.

#[export] Instance key_le_dec {A} (key : A -> Z) x y : Decision (key_le key x y) :=
  Z.le_dec (key x) (key y).

(** [ORDER BY]: a stable sort of the rows by a time. *)
Definition order_asc {A} (key : A -> Z) : list A -> list A :=
  merge_sort (key_le key).
Definition order_desc {A} (key : A -> Z) : list A -> list A :=
  merge_sort (key_le (fun x => - key x)).

Lemma elem_of_order_asc {A} (key : A -> Z) l x : x ∈ order_asc key l <-> x ∈ l.
Proof. unfold order_asc. by rewrite (merge_sort_Permutation _ l). Qed.
Lemma elem_of_order_desc {A} (key : A -> Z) l x : x ∈ order_desc key l <-> x ∈ l.
Proof. unfold order_desc. by rewrite (merge_sort_Permutation _ l). Qed.

Create Rewrite HintDb go_db.
#[export] Hint Rewrite @elem_of_table_rows @elem_of_order_asc @elem_of_order_desc : go_db.
