(* ===== verification/World.v ===== *)
(** * The node's surroundings and the state its methods run on

    [Env] gathers the third-party code the repositories call: the clock, the
    PostgreSQL driver (whether a statement ran, failed, or ran and lost its
    answer), the driver's choice of numeric representation, the cache
    (stumble/dcache), SHA-256 and the scheduler of the invalidation
    goroutines.  Each is a function of the number of external calls made so
    far, so that a theorem for every [Env] covers every schedule of faults,
    evictions and clock readings.  [EnvOk] states the documented behaviour
    the code relies on.

    [World C] is the state of a method call: the database, the cache, the
    call counter, the invalidations a running transaction has deferred, and
    the in-memory state [C] of the component. *)

From S2P Require Import Prelude GoInt GoString Numeric EpochMath Models.

(** What the driver reports for one statement. *)
Inductive PgOutcome :=
  | PgDone
  | PgFailed (e : error)   (** the statement did not run *)
  | PgLost (e : error).    (** it ran, but the caller sees an error (deadline, connection) *)

(** What the cache stores: a row or a verdict, either of which may be nil. *)
Inductive CacheVal :=
  | COperator (o : option Operators)
  | CVerdict (b : option bool).

Class Env := {
  env_now : nat -> Z;
  env_pg : nat -> PgOutcome;
  env_scan_numeric : Numeric -> Numeric;
  env_nil_numeric : res Numeric;   (** sending a valid numeric with a nil Int *)
  env_sched : nat -> nat;          (** which goroutine writes a shared variable last *)
  sha256_Sum256 : bytes -> bytes;
  dc_present : bool;
  dc_state : Type;
  dc_lookup : nat -> dc_state -> string -> option CacheVal;
  dc_store : nat -> string -> Z -> CacheVal -> dc_state -> dc_state;
  dc_invalidate : nat -> string -> dc_state -> dc_state * option error;
}.

Class EnvOk `{Env} := {
  env_scan_represents : forall n x, represents n x -> represents (env_scan_numeric n) x;
  dc_lookup_store : forall i j k ttl v c,
    dc_lookup i (dc_store j k ttl v c) k = None \/
    dc_lookup i (dc_store j k ttl v c) k = Some v;
  dc_lookup_store_ne : forall i j k k' ttl v c v', k <> k' ->
    dc_lookup i (dc_store j k ttl v c) k' = Some v' -> dc_lookup i c k' = Some v';
  dc_lookup_invalidate : forall i j k c c',
    dc_invalidate j k c = (c', None) -> dc_lookup i c' k = None;
  dc_lookup_invalidate_ne : forall i j k k' c, k <> k' ->
    dc_lookup i (dc_invalidate j k c).1 k' = dc_lookup i c k';
  dc_lookup_invalidate_old : forall i j k c v,
    dc_lookup i (dc_invalidate j k c).1 k = Some v -> dc_lookup i c k = Some v;
}.

Section world.
Context `{Env}.

Record World (C : Type) := mkWorld {
  w_step : nat;
  w_db : DB;
  w_cache : dc_state;
  w_pending : list string;
  w_mem : C;
}.

Definition set_step {C} n (w : World C) :=
  mkWorld C n (w_db C w) (w_cache C w) (w_pending C w) (w_mem C w).
Definition set_db {C} d (w : World C) :=
  mkWorld C (w_step C w) d (w_cache C w) (w_pending C w) (w_mem C w).
Definition set_cache {C} c (w : World C) :=
  mkWorld C (w_step C w) (w_db C w) c (w_pending C w) (w_mem C w).
Definition set_pending {C} p (w : World C) :=
  mkWorld C (w_step C w) (w_db C w) (w_cache C w) p (w_mem C w).
Definition set_mem {C} m (w : World C) :=
  mkWorld C (w_step C w) (w_db C w) (w_cache C w) (w_pending C w) m.
End world.
Arguments mkWorld {_ C}.
Arguments w_step {_ C}.
Arguments w_db {_ C}.
Arguments w_cache {_ C}.
Arguments w_pending {_ C}.
Arguments w_mem {_ C}.

Section primitives.
Context `{Env} {C : Type}.

(** The index of this external call. *)
Definition tick : M (World C) nat :=
  fun w => (set_step (S (w_step w)) w, Ok (w_step w)).

(** A call to code outside the repository that only reads. *)
Definition extern {A} (f : nat -> res A) : M (World C) A :=
  let! i := tick in lift (f i).

(** [time.Now()] *)
Definition time_Now : M (World C) Z := extern (fun i => Ok (env_now i)).

(** Running one SQL statement through the driver; a statement that PostgreSQL
    rejects has no effect. *)
Definition pg_call {A} (stmt : Z -> DB -> res (DB * A)) : M (World C) A :=
  let! i := tick in
  fun w =>
    match env_pg i, stmt (env_now i) (w_db w) with
    | PgFailed e, _ => (w, Err e)
    | PgDone, Ok (d, a) => (set_db d w, Ok a)
    | PgLost e, Ok (d, _) => (set_db d w, Err e)
    | _, Err e => (w, Err e)
    | _, Panic s => (w, Panic s)
    end.

(** A connection of the pool, or a transaction ([Queries.WithTx]). *)
Inductive Conn := WConn | WTx.

(** [hashIfLong] of the generated repositories *)
Definition hashIfLong (v : string) : string :=
  if Nat.ltb 64 (String.length v)
  then "h(" +:+ hex_EncodeToString (sha256_Sum256 (string_bytes v)) +:+ ")"
  else v.

(** [q.GetCache().Invalidate(ctx, key)] *)
Definition Invalidate (key : string) : M (World C) (option error) :=
  if dc_present then
    let! i := tick in
    fun w => let '(c, e) := dc_invalidate i key (w_cache w) in (set_cache c w, Ok e)
  else panic "Invalidate on a nil cache".

(** The invalidation goroutines: each assigns the captured variable [err];
    the scheduler decides whose assignment is last. *)
Fixpoint invalidate_all (keys : list string) : M (World C) (list (option error)) :=
  match keys with
  | [] => ret []
  | k :: ks =>
      let! e := Invalidate k in
      let! es := invalidate_all ks in
      ret (e :: es)
  end.

(** [q.GetConn().PostExec(...)] followed by a read of [err]: on a pool
    connection the callback runs now, in a transaction after the commit. *)
Definition PostExec (q : Conn) (keys : list string) : M (World C) (option error) :=
  match q with
  | WTx => do! modify (fun w => set_pending (w_pending w ++ keys) w) in ret None
  | WConn =>
      let! es := invalidate_all keys in
      let! i := tick in
      ret (match es with
           | [] => None
           | _ => default None (es !! (env_sched i `mod` length es)%nat)
           end)
  end.

(** [q.GetCache().GetWithTtl(ctx, key, &v, dbRead, false, false)]: serve the
    key from the cache, or read it and store what was read. *)
Definition GetWithTtl (key : string) (dbRead : M (World C) (CacheVal * Z)) :
    M (World C) CacheVal :=
  let! i := tick in
  let! c := gets w_cache in
  match dc_lookup i c key with
  | Some v => ret v
  | None =>
      let! (v, ttl) := dbRead in
      let! j := tick in
      do! modify (fun w => set_cache (dc_store j key ttl v (w_cache w)) w) in
      ret v
  end.

(** The two ways a cached query runs: through the cache, or straight to the
    database when the repository has none. *)
Definition cached (key : string) (dbRead : M (World C) (CacheVal * Z)) :
    M (World C) CacheVal :=
  if dc_present then GetWithTtl key dbRead
  else let! (v, _) := dbRead in ret v.

Definition as_operator (v : CacheVal) : M (World C) (option Operators) :=
  match v with COperator o => ret o | CVerdict _ => throw (Errorf "cache: wrong type") end.
Definition as_verdict (v : CacheVal) : M (World C) (option bool) :=
  match v with CVerdict b => ret b | COperator _ => throw (Errorf "cache: wrong type") end.

(** [db.Transact(ctx, opts, f)]: the statements of [f] take effect together
    or not at all; the callbacks it deferred run after a commit. *)
Definition Transact {A} (f : M (World C) A) : M (World C) A :=
  fun w =>
    let d0 := w_db w in
    match f (set_pending [] w) with
    | (w', Ok a) =>
        let keys := w_pending w' in
        (let! i := tick in
         fun w1 =>
           match env_pg i with
           | PgDone => (let! _ := invalidate_all keys in ret a) w1
           | PgFailed e => (set_db d0 w1, Err e)
           | PgLost e => (w1, Err e)
           end) (set_pending (w_pending w) w')
    | (w', Err e) => (set_pending (w_pending w) (set_db d0 w'), Err e)
    | (w', Panic s) => (set_pending (w_pending w) (set_db d0 w'), Panic s)
    end.

(** A numeric as a statement's argument: [None] is SQL's NULL. *)
Definition numeric_arg (n : Numeric) : res (option Numeric) :=
  match nValid n, nInt n with
  | false, _ => Ok None
  | true, Some _ => Ok (Some n)
  | true, None => let? m := env_nil_numeric in Ok (Some m)
  end.

(** What the driver stores for a nil integer, if it stores anything, is an
    integer. *)
Definition nil_is_integer : Prop := forall m, env_nil_numeric = Ok m -> exists x, represents m x.

(** A NULL numeric scans to the invalid one. *)
Definition scan_numeric (n : Numeric) : Numeric :=
  if nValid n then env_scan_numeric n else mkNumeric None 0 false.
End primitives.

(** ** What the primitives leave alone *)

(** A property of the component's memory, of the database, of both the call
    counter's past and nothing else. *)
Definition mem_pred `{Env} {C} (P : C -> Prop) (w : World C) : Prop := P (w_mem w).
Definition db_pred `{Env} {C} (P : DB -> Prop) (w : World C) : Prop := P (w_db w).

Section frames.
Context `{Env} {C : Type}.
Implicit Types (P : C -> Prop) (D : DB -> Prop) (w : World C).

Lemma tick_mem P : preserves (mem_pred P) (tick (C:=C)).
Proof. by intros w. Qed.
Lemma tick_db D : preserves (db_pred D) (tick (C:=C)).
Proof. by intros w. Qed.

Lemma extern_mem {A} P (f : nat -> res A) : preserves (mem_pred P) (extern f).
Proof. by intros w. Qed.
Lemma extern_db {A} D (f : nat -> res A) : preserves (db_pred (C:=C) D) (extern f).
Proof. by intros w. Qed.

Lemma pg_call_mem {A} P (s : Z -> DB -> res (DB * A)) : preserves (mem_pred P) (pg_call s).
Proof.
  intros w Hw. unfold pg_call, bind, tick. simpl.
  destruct (s (env_now (w_step w)) (w_db w)) as [[d a]|e'|m], (env_pg (w_step w)); done.
Qed.
Lemma pg_call_db {A} D (s : Z -> DB -> res (DB * A)) :
  (forall now d d' a, D d -> s now d = Ok (d', a) -> D d') ->
  preserves (db_pred (C:=C) D) (pg_call s).
Proof.
  intros Hs w Hw. unfold pg_call, bind, tick. simpl.
  destruct (s (env_now (w_step w)) (w_db w)) as [[d a]|e'|m] eqn:E, (env_pg (w_step w));
    try done; by eapply Hs.
Qed.

Lemma Invalidate_mem P k : preserves (mem_pred (C:=C) P) (Invalidate k).
Proof.
  intros w Hw. unfold Invalidate. destruct dc_present; [|done].
  unfold bind, tick. simpl. by destruct (dc_invalidate _ _ _).
Qed.
Lemma Invalidate_db D k : preserves (db_pred (C:=C) D) (Invalidate k).
Proof.
  intros w Hw. unfold Invalidate. destruct dc_present; [|done].
  unfold bind, tick. simpl. by destruct (dc_invalidate _ _ _).
Qed.
End frames.

#[export] Hint Resolve tick_mem tick_db extern_mem extern_db pg_call_mem pg_call_db
  Invalidate_mem Invalidate_db : go_inv.

(** Takes apart the run of a statement that PostgreSQL accepted. *)
Ltac sql_inv :=
  repeat match goal with
  | H : res_bind _ _ = Ok _ |- _ => apply res_bind_Ok in H as (? & ? & ?)
  | H : (if ?b then _ else _) = Ok _ |- _ => destruct b eqn:?; try discriminate H
  | H : match ?x with _ => _ end = Ok _ |- _ => destruct x eqn:?; try discriminate H
  | H : Ok _ = Ok _ |- _ => injection H as <- <-
  end.

(** Predicates on one table of the database. *)
Definition on_tasks (P : gmap string Tasks -> Prop) (d : DB) : Prop := P (db_tasks d).
Definition on_operators (P : gmap string Operators -> Prop) (d : DB) : Prop := P (db_operators d).
Definition on_blacklist (P : gmap string Blacklist -> Prop) (d : DB) : Prop := P (db_blacklist d).
Definition on_consensus (P : gmap string ConsensusResponse -> Prop) (d : DB) : Prop :=
  P (db_consensus d).

Ltac head_of t := match t with ?f _ => head_of f | _ => t end.

(** Unfolds the statement that ran, then takes its run apart. *)
Ltac sql_unfold :=
  match goal with
  | H : ?t = Ok _ |- _ => let h := head_of t in unfold h in H
  end.

(** A statement that leaves a table alone. *)
Ltac solve_stmt :=
  intros; unfold on_tasks, on_operators, on_blacklist, on_consensus in *;
  repeat (sql_inv; try sql_unfold); simpl; done.
#[export] Hint Extern 2 (preserves (db_pred _) (pg_call _)) =>
  (apply pg_call_db; solve_stmt) : go_inv.

Section composite_frames.
Context `{Env} {C : Type}.
Implicit Types (P : C -> Prop) (D : DB -> Prop) (w : World C).

Lemma invalidate_all_mem P ks : preserves (mem_pred (C:=C) P) (invalidate_all ks).
Proof. induction ks; simpl; solve_preserves. Qed.
Lemma invalidate_all_db D ks : preserves (db_pred (C:=C) D) (invalidate_all ks).
Proof. induction ks; simpl; solve_preserves. Qed.

Lemma PostExec_mem P q ks : preserves (mem_pred (C:=C) P) (PostExec q ks).
Proof.
  destruct q; simpl; solve_preserves; eauto using invalidate_all_mem, preserves_modify.
Qed.
Lemma PostExec_db D q ks : preserves (db_pred (C:=C) D) (PostExec q ks).
Proof.
  destruct q; simpl; solve_preserves; eauto using invalidate_all_db, preserves_modify.
Qed.

Lemma cached_mem P k (m : M (World C) (CacheVal * Z)) :
  preserves (mem_pred P) m -> preserves (mem_pred P) (cached k m).
Proof.
  intros Hm. unfold cached, GetWithTtl. solve_preserves.
Qed.
Lemma cached_db D k (m : M (World C) (CacheVal * Z)) :
  preserves (db_pred D) m -> preserves (db_pred D) (cached k m).
Proof.
  intros Hm. unfold cached, GetWithTtl. solve_preserves.
Qed.

Lemma as_operator_any (I : World C -> Prop) v : preserves I (as_operator v).
Proof. destruct v; simpl; solve_preserves. Qed.
Lemma as_verdict_any (I : World C -> Prop) v : preserves I (as_verdict v).
Proof. destruct v; simpl; solve_preserves. Qed.

(** A transaction keeps what its body keeps of the memory ... *)
Lemma Transact_mem {A} P (f : M (World C) A) :
  preserves (mem_pred P) f -> preserves (mem_pred P) (Transact f).
Proof.
  intros Hf w Hw. specialize (Hf (set_pending [] w) Hw). unfold Transact.
  destruct (f (set_pending [] w)) as [w' [a|e|s]]; simpl in *; [|done|done].
  unfold bind, tick. simpl. destruct (env_pg _); [|done|done].
  pose proof (invalidate_all_mem P (w_pending w')
    (set_step (S (w_step w')) (set_pending (w_pending w) w')) Hf) as Hi.
  by destruct (invalidate_all _ _) as [w2 [?|?|?]].
Qed.
(** ... and of the database, whether it commits or rolls back. *)
Lemma Transact_db {A} D (f : M (World C) A) :
  preserves (db_pred D) f -> preserves (db_pred D) (Transact f).
Proof.
  intros Hf w Hw. specialize (Hf (set_pending [] w) Hw). unfold Transact.
  destruct (f (set_pending [] w)) as [w' [a|e|s]]; simpl in *; [|done|done].
  unfold bind, tick. simpl. destruct (env_pg _); [|done|done].
  pose proof (invalidate_all_db D (w_pending w')
    (set_step (S (w_step w')) (set_pending (w_pending w) w')) Hf) as Hi.
  by destruct (invalidate_all _ _) as [w2 [?|?|?]].
Qed.
End composite_frames.

#[export] Hint Resolve invalidate_all_mem invalidate_all_db PostExec_mem PostExec_db
  cached_mem cached_db as_operator_any as_verdict_any Transact_mem Transact_db : go_inv.

#[export] Hint Extern 2 (preserves (mem_pred _) (cached _ _)) =>
  (apply cached_mem; solve_preserves) : go_inv.
#[export] Hint Extern 2 (preserves (db_pred _) (cached _ _)) =>
  (apply cached_db; solve_preserves) : go_inv.
#[export] Hint Extern 2 (preserves (mem_pred _) (Transact _)) =>
  (apply Transact_mem; solve_preserves) : go_inv.
#[export] Hint Extern 2 (preserves (db_pred _) (Transact _)) =>
  (apply Transact_db; solve_preserves) : go_inv.

Section success.
Context `{Env} {C : Type}.

Lemma extern_Ok {A} (f : nat -> res A) (w w' : World C) a :
  extern f w = (w', Ok a) <-> w' = set_step (S (w_step w)) w /\ f (w_step w) = Ok a.
Proof.
  unfold extern, bind, tick, lift. split; [by intros [= <- ->]|by intros [-> ->]].
Qed.

Lemma pg_call_Ok {A} (s : Z -> DB -> res (DB * A)) (w w' : World C) a :
  pg_call s w = (w', Ok a) ->
  exists d, s (env_now (w_step w)) (w_db w) = Ok (d, a) /\
    w' = set_db d (set_step (S (w_step w)) w).
Proof.
  unfold pg_call, bind, tick. simpl.
  destruct (s (env_now (w_step w)) (w_db w)) as [[d x]|e|m], (env_pg (w_step w)); try done.
  intros [= <- <-]. eauto.
Qed.

(** Inside a transaction the invalidations only wait. *)
Lemma PostExec_tx keys (w : World C) :
  PostExec WTx keys w = (set_pending (w_pending w ++ keys) w, Ok None).
Proof. done. Qed.
End success.

Section wp_primitives.
Context `{Env} {C : Type}.

Lemma wp_tick (Q : World C -> res nat -> Prop) w :
  Q (set_step (S (w_step w)) w) (Ok (w_step w)) -> wp tick Q w.
Proof. done. Qed.

Lemma wp_extern {A} (f : nat -> res A) (Q : World C -> res A -> Prop) w :
  Q (set_step (S (w_step w)) w) (f (w_step w)) -> wp (extern f) Q w.
Proof. done. Qed.

(** What can happen to a statement: it runs, it runs and its answer is
    lost, PostgreSQL refuses it, or it never reaches PostgreSQL. *)
Lemma wp_pg_call {A} (s : Z -> DB -> res (DB * A)) (Q : World C -> res A -> Prop) w :
  let w1 := set_step (S (w_step w)) w in
  let out := s (env_now (w_step w)) (w_db w) in
  (forall d a, out = Ok (d, a) -> Q (set_db d w1) (Ok a)) ->
  (forall d a e, out = Ok (d, a) -> Q (set_db d w1) (Err e)) ->
  (forall e, Q w1 (Err e)) ->
  (forall m, out = Panic m -> Q w1 (Panic m)) ->
  wp (pg_call s) Q w.
Proof.
  cbv zeta. intros. unfold wp, pg_call, bind, tick. simpl.
  destruct (s (env_now (w_step w)) (w_db w)) as [[d a]|e'|m], (env_pg (w_step w));
    simpl in *; eauto.
Qed.
End wp_primitives.

(** A concrete environment for the examples: a clock that counts calls, a
    driver that never fails, a cache that keeps everything until it is
    invalidated. *)
Definition toy_env : Env := {|
  env_now := fun i => Z.of_nat i;
  env_pg := fun _ => PgDone;
  env_scan_numeric := fun n => n;
  env_nil_numeric := Panic "nil Int";
  env_sched := fun _ => O;
  sha256_Sum256 := fun bs => bs;
  dc_present := true;
  dc_state := gmap string CacheVal;
  dc_lookup := fun _ c k => c !! k;
  dc_store := fun _ k _ v c => <[k := v]> c;
  dc_invalidate := fun _ k c => (delete k c, None);
|}.

#[export] Instance toy_env_ok : @EnvOk toy_env.
Proof.
  constructor; simpl; intros.
  - done.
  - right. apply lookup_insert_eq.
  - by rewrite lookup_insert_ne in *.
  - simplify_eq. apply lookup_delete_eq.
  - by apply lookup_delete_ne.
  - by rewrite lookup_delete_eq in *.
Qed.

Definition toy_world {C} (d : DB) (c : C) : @World toy_env C :=
  @mkWorld toy_env C 0 d (∅ : gmap string CacheVal) [] c.
