(* ===== verification/TasksRepo.v ===== *)
(** * pkg/repos/tasks: the task table and its generated queries

    [sql_*] is the meaning of an embedded SQL statement on the database, with
    the schema's constraints (primary key, NOT NULL, integer widths, VARCHAR
    lengths); the functions are the generated Go methods, which run it
    through the driver and scan the row. *)

From S2P Require Import Prelude GoInt GoString Numeric EpochMath Models World.

Record CreateTaskParams := mkCreateTaskParams {
  ct_TaskID : string;
  ct_TargetAddress : string;
  ct_ChainID : Z;
  ct_BlockNumber : Z;
  ct_Epoch : Z;
  ct_Key : Numeric;
  ct_Value : Numeric;
  ct_Status : TaskStatus;
  ct_RequiredConfirmations : Z;
}.

Definition ErrDuplicateKey : error := Errorf "duplicate key value violates unique constraint".
Definition ErrNotNull : error := Errorf "null value violates not-null constraint".
Definition ErrRange : error := Errorf "value out of range".
(** A text too long for its column, or not text *)
Definition ErrTooLong : error := Errorf "value too long for type character varying".
Definition ErrCheck : error := Errorf "new row violates check constraint".

(** [if !cond { return err }], for the checks PostgreSQL makes on a row *)
Definition require (cond : bool) (e : error) : res unit :=
  if cond then Ok tt else Err e.

(** A byte as a number, and whether it continues a UTF-8 sequence. *)
Definition code (c : ascii) : Z := Z.of_nat (nat_of_ascii c).
Definition byte_in (lo hi : Z) (c : ascii) : bool := (lo <=? code c) && (code c <=? hi).
Definition continues (c : ascii) : bool := byte_in 128 191 c.

(** Whether [c1] may follow the lead byte [c] of a sequence of three or four:
    no overlong forms, no surrogates, nothing beyond U+10FFFF. *)
Definition second_of (c c1 : ascii) : bool :=
  if code c =? 224 then byte_in 160 191 c1
  else if code c =? 237 then byte_in 128 159 c1
  else if code c =? 240 then byte_in 144 191 c1
  else if code c =? 244 then byte_in 128 143 c1
  else continues c1.

(** The characters of a text as PostgreSQL counts them in a UTF-8 database;
    [None] for bytes that are not UTF-8, and for a NUL byte, which no text
    holds. *)
Fixpoint utf8_length (l : list ascii) : option nat :=
  match l with
  | [] => Some O
  | c :: l1 =>
      if byte_in 1 127 c then S <$> utf8_length l1
      else
        match l1 with
        | [] => None
        | c1 :: l2 =>
            if byte_in 194 223 c && continues c1 then S <$> utf8_length l2
            else
              match l2 with
              | [] => None
              | c2 :: l3 =>
                  if byte_in 224 239 c && second_of c c1 && continues c2 then S <$> utf8_length l3
                  else
                    match l3 with
                    | [] => None
                    | c3 :: l4 =>
                        if byte_in 240 244 c && second_of c c1 && continues c2 && continues c3
                        then S <$> utf8_length l4 else None
                    end
              end
        end
  end.

(** A value for a [VARCHAR(n)] column: text of at most [n] characters.  (A
    longer one whose excess is blank is refused here; PostgreSQL cuts it.) *)
Definition fits_varchar (n : nat) (s : string) : bool :=
  match utf8_length (chars s) with Some k => Nat.leb k n | None => false end.

Example fits_varchar_accent : fits_varchar 1 (of_chars (map ascii_of_nat [195; 169]%nat)) = true.
Proof. reflexivity. Qed.
Example fits_varchar_nul : fits_varchar 9 (of_chars (map ascii_of_nat [97; 0]%nat)) = false.
Proof. reflexivity. Qed.
Example fits_varchar_overlong : fits_varchar 9 (of_chars (map ascii_of_nat [192; 175]%nat)) = false.
Proof. reflexivity. Qed.
Definition fits_int2 (x : Z) : bool := (- 2 ^ 15 <=? x) && (x <? 2 ^ 15).
Definition fits_int4 (x : Z) : bool := (- 2 ^ 31 <=? x) && (x <? 2 ^ 31).
Definition fits_int8 (x : Z) : bool := (- 2 ^ 63 <=? x) && (x <? 2 ^ 63).

Lemma require_Ok b e u : require b e = Ok u -> b = true.
Proof. by destruct b. Qed.

(** Task rows with other numerics, status, retry count or update time. *)
Definition task_with_status (s : TaskStatus) (now : Z) (t : Tasks) : Tasks :=
  mkTasks (t_TaskID t) (t_ChainID t) (t_TargetAddress t) (t_Key t) (t_BlockNumber t)
    (t_Value t) (t_Epoch t) s (t_RequiredConfirmations t) (t_RetryCount t) (t_CreatedAt t) now.
Definition task_with_retry (n : Z) (now : Z) (t : Tasks) : Tasks :=
  mkTasks (t_TaskID t) (t_ChainID t) (t_TargetAddress t) (t_Key t) (t_BlockNumber t)
    (t_Value t) (t_Epoch t) (t_Status t) (t_RequiredConfirmations t) n (t_CreatedAt t) now.

Section tasks.
Context `{Env} {C : Type}.

Definition sql_createTask (arg : CreateTaskParams) (now : Z) (d : DB) : res (DB * Tasks) :=
  let? key := numeric_arg (ct_Key arg) in
  let? value := numeric_arg (ct_Value arg) in
  let? _ := require (fits_int4 (ct_ChainID arg) && fits_int8 (ct_BlockNumber arg) &&
                     fits_int4 (ct_Epoch arg) && fits_int2 (ct_RequiredConfirmations arg))
                    ErrRange in
  let? _ := require (fits_varchar 66 (ct_TaskID arg) && fits_varchar 42 (ct_TargetAddress arg))
                    ErrTooLong in
  let? _ := require (bool_decide (ct_Status arg <> TaskStatusZero)) ErrCheck in
  match key with
  | None => Err ErrNotNull
  | Some k =>
      let row := mkTasks (ct_TaskID arg) (ct_ChainID arg) (ct_TargetAddress arg) k
                   (ct_BlockNumber arg) (default (mkNumeric None 0 false) value)
                   (ct_Epoch arg) (ct_Status arg) (ct_RequiredConfirmations arg) 0 now now in
      match db_tasks d !! ct_TaskID arg with
      | Some _ => Err ErrDuplicateKey
      | None => Ok (db_set_tasks (<[ct_TaskID arg := row]> (db_tasks d)) d, row)
      end
  end.

Definition sql_getTaskByID (taskID : string) (now : Z) (d : DB) : res (DB * option Tasks) :=
  Ok (d, db_tasks d !! taskID).

Definition sql_deleteTaskByID (taskID : string) (now : Z) (d : DB) : res (DB * unit) :=
  Ok (db_set_tasks (delete taskID (db_tasks d)) d, tt).

Definition sql_incrementRetryCount (taskID : string) (now : Z) (d : DB) :
    res (DB * option Tasks) :=
  match db_tasks d !! taskID with
  | None => Ok (d, None)
  | Some t =>
      let? _ := require (fits_int2 (t_RetryCount t + 1)) ErrRange in
      let t' := task_with_retry (t_RetryCount t + 1) now t in
      Ok (db_set_tasks (<[taskID := t']> (db_tasks d)) d, Some t')
  end.

Definition sql_updateStatus (s : TaskStatus) (taskID : string) (now : Z) (d : DB) :
    res (DB * unit) :=
  Ok (db_set_tasks (alter (task_with_status s now) taskID (db_tasks d)) d, tt).

Definition sql_updateTaskToCompleted := sql_updateStatus TaskStatusCompleted.
Definition sql_updateTaskToPending := sql_updateStatus TaskStatusPending.

(** [INTERVAL '24 hours'] in microseconds *)
Definition day_us : Z := 24 * 3600 * 1000000.

Definition sql_cleanupOldTasks (now : Z) (d : DB) : res (DB * unit) :=
  Ok (db_set_tasks
        (filter (fun kt : string * Tasks =>
           ~ (t_CreatedAt kt.2 < now - day_us /\ t_Status kt.2 = TaskStatusCompleted))
           (db_tasks d)) d, tt).

Definition has_status (s : TaskStatus) (t : Tasks) : bool := bool_decide (t_Status t = s).

Definition sql_listAllTasks (now : Z) (d : DB) : res (DB * list Tasks) :=
  Ok (d, order_desc t_CreatedAt (table_rows (db_tasks d))).
Definition sql_listConfirmingTasks (now : Z) (d : DB) : res (DB * list Tasks) :=
  Ok (d, order_desc t_CreatedAt
           (List.filter (has_status TaskStatusConfirming) (table_rows (db_tasks d)))).
Definition sql_listPendingTasks (now : Z) (d : DB) : res (DB * list Tasks) :=
  Ok (d, order_asc t_CreatedAt
           (List.filter (has_status TaskStatusPending) (table_rows (db_tasks d)))).

(** [row.Scan] of a task *)
Definition scan_Tasks (t : Tasks) : Tasks :=
  mkTasks (t_TaskID t) (t_ChainID t) (t_TargetAddress t) (scan_numeric (t_Key t))
    (t_BlockNumber t) (scan_numeric (t_Value t)) (t_Epoch t) (t_Status t)
    (t_RequiredConfirmations t) (t_RetryCount t) (t_CreatedAt t) (t_UpdatedAt t).

Definition CleanupOldTasks : M (World C) unit := pg_call sql_cleanupOldTasks.

Definition CreateTask (arg : CreateTaskParams) : M (World C) (option Tasks) :=
  let! row := pg_call (sql_createTask arg) in ret (Some (scan_Tasks row)).

Definition DeleteTaskByID (taskID : string) : M (World C) unit :=
  pg_call (sql_deleteTaskByID taskID).

Definition GetTaskByID (taskID : string) : M (World C) (option Tasks) :=
  let! row := pg_call (sql_getTaskByID taskID) in ret (scan_Tasks <$> row).

Definition IncrementRetryCount (taskID : string) : M (World C) (option Tasks) :=
  let! row := pg_call (sql_incrementRetryCount taskID) in ret (scan_Tasks <$> row).

Definition ListAllTasks : M (World C) (list Tasks) :=
  let! rows := pg_call sql_listAllTasks in ret (scan_Tasks <$> rows).
Definition ListConfirmingTasks : M (World C) (list Tasks) :=
  let! rows := pg_call sql_listConfirmingTasks in ret (scan_Tasks <$> rows).
Definition ListPendingTasks : M (World C) (list Tasks) :=
  let! rows := pg_call sql_listPendingTasks in ret (scan_Tasks <$> rows).

Definition UpdateTaskToCompleted (taskID : string) : M (World C) unit :=
  pg_call (sql_updateTaskToCompleted taskID).
Definition UpdateTaskToPending (taskID : string) : M (World C) unit :=
  pg_call (sql_updateTaskToPending taskID).
End tasks.

(** ** What the methods leave alone *)

Section frames.
Context `{Env} {C : Type}.

Lemma CleanupOldTasks_mem P : preserves (mem_pred (C:=C) P) CleanupOldTasks.
Proof. unfold CleanupOldTasks. solve_preserves. Qed.
Lemma CleanupOldTasks_operators P : preserves (db_pred (C:=C) (on_operators P)) CleanupOldTasks.
Proof. unfold CleanupOldTasks. solve_preserves. Qed.
Lemma CleanupOldTasks_blacklist P : preserves (db_pred (C:=C) (on_blacklist P)) CleanupOldTasks.
Proof. unfold CleanupOldTasks. solve_preserves. Qed.
Lemma CleanupOldTasks_consensus P : preserves (db_pred (C:=C) (on_consensus P)) CleanupOldTasks.
Proof. unfold CleanupOldTasks. solve_preserves. Qed.
Lemma CreateTask_mem P arg : preserves (mem_pred (C:=C) P) (CreateTask arg).
Proof. unfold CreateTask. solve_preserves. Qed.
Lemma CreateTask_operators P arg : preserves (db_pred (C:=C) (on_operators P)) (CreateTask arg).
Proof. unfold CreateTask. solve_preserves. Qed.
Lemma CreateTask_blacklist P arg : preserves (db_pred (C:=C) (on_blacklist P)) (CreateTask arg).
Proof. unfold CreateTask. solve_preserves. Qed.
Lemma CreateTask_consensus P arg : preserves (db_pred (C:=C) (on_consensus P)) (CreateTask arg).
Proof. unfold CreateTask. solve_preserves. Qed.
Lemma DeleteTaskByID_mem P id : preserves (mem_pred (C:=C) P) (DeleteTaskByID id).
Proof. unfold DeleteTaskByID. solve_preserves. Qed.
Lemma DeleteTaskByID_operators P id : preserves (db_pred (C:=C) (on_operators P)) (DeleteTaskByID id).
Proof. unfold DeleteTaskByID. solve_preserves. Qed.
Lemma DeleteTaskByID_blacklist P id : preserves (db_pred (C:=C) (on_blacklist P)) (DeleteTaskByID id).
Proof. unfold DeleteTaskByID. solve_preserves. Qed.
Lemma DeleteTaskByID_consensus P id : preserves (db_pred (C:=C) (on_consensus P)) (DeleteTaskByID id).
Proof. unfold DeleteTaskByID. solve_preserves. Qed.
Lemma GetTaskByID_mem P id : preserves (mem_pred (C:=C) P) (GetTaskByID id).
Proof. unfold GetTaskByID. solve_preserves. Qed.
Lemma GetTaskByID_tasks P id : preserves (db_pred (C:=C) (on_tasks P)) (GetTaskByID id).
Proof. unfold GetTaskByID. solve_preserves. Qed.
Lemma GetTaskByID_operators P id : preserves (db_pred (C:=C) (on_operators P)) (GetTaskByID id).
Proof. unfold GetTaskByID. solve_preserves. Qed.
Lemma GetTaskByID_blacklist P id : preserves (db_pred (C:=C) (on_blacklist P)) (GetTaskByID id).
Proof. unfold GetTaskByID. solve_preserves. Qed.
Lemma GetTaskByID_consensus P id : preserves (db_pred (C:=C) (on_consensus P)) (GetTaskByID id).
Proof. unfold GetTaskByID. solve_preserves. Qed.
Lemma IncrementRetryCount_mem P id : preserves (mem_pred (C:=C) P) (IncrementRetryCount id).
Proof. unfold IncrementRetryCount. solve_preserves. Qed.
Lemma IncrementRetryCount_operators P id : preserves (db_pred (C:=C) (on_operators P)) (IncrementRetryCount id).
Proof. unfold IncrementRetryCount. solve_preserves. Qed.
Lemma IncrementRetryCount_blacklist P id : preserves (db_pred (C:=C) (on_blacklist P)) (IncrementRetryCount id).
Proof. unfold IncrementRetryCount. solve_preserves. Qed.
Lemma IncrementRetryCount_consensus P id : preserves (db_pred (C:=C) (on_consensus P)) (IncrementRetryCount id).
Proof. unfold IncrementRetryCount. solve_preserves. Qed.
Lemma ListAllTasks_mem P : preserves (mem_pred (C:=C) P) ListAllTasks.
Proof. unfold ListAllTasks. solve_preserves. Qed.
Lemma ListAllTasks_tasks P : preserves (db_pred (C:=C) (on_tasks P)) ListAllTasks.
Proof. unfold ListAllTasks. solve_preserves. Qed.
Lemma ListAllTasks_operators P : preserves (db_pred (C:=C) (on_operators P)) ListAllTasks.
Proof. unfold ListAllTasks. solve_preserves. Qed.
Lemma ListAllTasks_blacklist P : preserves (db_pred (C:=C) (on_blacklist P)) ListAllTasks.
Proof. unfold ListAllTasks. solve_preserves. Qed.
Lemma ListAllTasks_consensus P : preserves (db_pred (C:=C) (on_consensus P)) ListAllTasks.
Proof. unfold ListAllTasks. solve_preserves. Qed.
Lemma ListConfirmingTasks_mem P : preserves (mem_pred (C:=C) P) ListConfirmingTasks.
Proof. unfold ListConfirmingTasks. solve_preserves. Qed.
Lemma ListConfirmingTasks_tasks P : preserves (db_pred (C:=C) (on_tasks P)) ListConfirmingTasks.
Proof. unfold ListConfirmingTasks. solve_preserves. Qed.
Lemma ListConfirmingTasks_operators P : preserves (db_pred (C:=C) (on_operators P)) ListConfirmingTasks.
Proof. unfold ListConfirmingTasks. solve_preserves. Qed.
Lemma ListConfirmingTasks_blacklist P : preserves (db_pred (C:=C) (on_blacklist P)) ListConfirmingTasks.
Proof. unfold ListConfirmingTasks. solve_preserves. Qed.
Lemma ListConfirmingTasks_consensus P : preserves (db_pred (C:=C) (on_consensus P)) ListConfirmingTasks.
Proof. unfold ListConfirmingTasks. solve_preserves. Qed.
Lemma ListPendingTasks_mem P : preserves (mem_pred (C:=C) P) ListPendingTasks.
Proof. unfold ListPendingTasks. solve_preserves. Qed.
Lemma ListPendingTasks_tasks P : preserves (db_pred (C:=C) (on_tasks P)) ListPendingTasks.
Proof. unfold ListPendingTasks. solve_preserves. Qed.
Lemma ListPendingTasks_operators P : preserves (db_pred (C:=C) (on_operators P)) ListPendingTasks.
Proof. unfold ListPendingTasks. solve_preserves. Qed.
Lemma ListPendingTasks_blacklist P : preserves (db_pred (C:=C) (on_blacklist P)) ListPendingTasks.
Proof. unfold ListPendingTasks. solve_preserves. Qed.
Lemma ListPendingTasks_consensus P : preserves (db_pred (C:=C) (on_consensus P)) ListPendingTasks.
Proof. unfold ListPendingTasks. solve_preserves. Qed.
Lemma UpdateTaskToCompleted_mem P id : preserves (mem_pred (C:=C) P) (UpdateTaskToCompleted id).
Proof. unfold UpdateTaskToCompleted. solve_preserves. Qed.
Lemma UpdateTaskToCompleted_operators P id : preserves (db_pred (C:=C) (on_operators P)) (UpdateTaskToCompleted id).
Proof. unfold UpdateTaskToCompleted. solve_preserves. Qed.
Lemma UpdateTaskToCompleted_blacklist P id : preserves (db_pred (C:=C) (on_blacklist P)) (UpdateTaskToCompleted id).
Proof. unfold UpdateTaskToCompleted. solve_preserves. Qed.
Lemma UpdateTaskToCompleted_consensus P id : preserves (db_pred (C:=C) (on_consensus P)) (UpdateTaskToCompleted id).
Proof. unfold UpdateTaskToCompleted. solve_preserves. Qed.
Lemma UpdateTaskToPending_mem P id : preserves (mem_pred (C:=C) P) (UpdateTaskToPending id).
Proof. unfold UpdateTaskToPending. solve_preserves. Qed.
Lemma UpdateTaskToPending_operators P id : preserves (db_pred (C:=C) (on_operators P)) (UpdateTaskToPending id).
Proof. unfold UpdateTaskToPending. solve_preserves. Qed.
Lemma UpdateTaskToPending_blacklist P id : preserves (db_pred (C:=C) (on_blacklist P)) (UpdateTaskToPending id).
Proof. unfold UpdateTaskToPending. solve_preserves. Qed.
Lemma UpdateTaskToPending_consensus P id : preserves (db_pred (C:=C) (on_consensus P)) (UpdateTaskToPending id).
Proof. unfold UpdateTaskToPending. solve_preserves. Qed.
End frames.

#[export] Hint Resolve
  CleanupOldTasks_mem CleanupOldTasks_operators CleanupOldTasks_blacklist
  CleanupOldTasks_consensus CreateTask_mem CreateTask_operators CreateTask_blacklist
  CreateTask_consensus DeleteTaskByID_mem DeleteTaskByID_operators DeleteTaskByID_blacklist
  DeleteTaskByID_consensus GetTaskByID_mem GetTaskByID_tasks GetTaskByID_operators
  GetTaskByID_blacklist GetTaskByID_consensus IncrementRetryCount_mem
  IncrementRetryCount_operators IncrementRetryCount_blacklist IncrementRetryCount_consensus
  ListAllTasks_mem ListAllTasks_tasks ListAllTasks_operators ListAllTasks_blacklist
  ListAllTasks_consensus ListConfirmingTasks_mem ListConfirmingTasks_tasks
  ListConfirmingTasks_operators ListConfirmingTasks_blacklist ListConfirmingTasks_consensus
  ListPendingTasks_mem ListPendingTasks_tasks ListPendingTasks_operators
  ListPendingTasks_blacklist ListPendingTasks_consensus UpdateTaskToCompleted_mem
  UpdateTaskToCompleted_operators UpdateTaskToCompleted_blacklist
  UpdateTaskToCompleted_consensus UpdateTaskToPending_mem UpdateTaskToPending_operators
  UpdateTaskToPending_blacklist UpdateTaskToPending_consensus : go_inv.
