(* ===== verification/BlacklistRepo.v ===== *)
(** * pkg/repos/blacklist: violation counts and the block verdict *)

From S2P Require Import Prelude GoInt GoString Numeric EpochMath Models World TasksRepo.

Record IncrementViolationCountParams := mkIncrementViolationCountParams {
  iv_PeerID : string;
  iv_ViolationCount : Z;
  iv_ExpiresAt : option Z;
}.

(** The row constraints: VARCHAR(128), INT, [violation_count >= 0] and
    [expires_at > created_at]. *)
Definition blacklist_row_ok (b : Blacklist) : res unit :=
  let? _ := require (fits_varchar 128 (b_PeerID b)) ErrTooLong in
  let? _ := require (fits_int4 (b_ViolationCount b)) ErrRange in
  require ((0 <=? b_ViolationCount b) &&
           match b_ExpiresAt b with Some x => b_CreatedAt b <? x | None => true end) ErrCheck.

(** [violation_count >= 3 AND (expires_at IS NULL OR expires_at > NOW())] *)
Definition row_blocks (now : Z) (b : Blacklist) : bool :=
  (3 <=? b_ViolationCount b) &&
  match b_ExpiresAt b with Some x => now <? x | None => true end.

(** [expires_at < NOW()], which is not true of a NULL *)
Definition expired (now : Z) (b : Blacklist) : bool :=
  match b_ExpiresAt b with Some x => x <? now | None => false end.

Section blacklist.
Context `{Env} {C : Type}.

Definition sql_cleanExpiredBlocks (now : Z) (d : DB) : res (DB * unit) :=
  Ok (db_set_blacklist
        (filter (fun kb : string * Blacklist => expired now kb.2 = false)
           (db_blacklist d)) d, tt).

Definition sql_incrementViolationCount (arg : IncrementViolationCountParams)
    (now : Z) (d : DB) : res (DB * Blacklist) :=
  let new := mkBlacklist (iv_PeerID arg) (iv_ViolationCount arg) now now (iv_ExpiresAt arg) in
  let? _ := blacklist_row_ok new in
  let? row := match db_blacklist d !! iv_PeerID arg with
              | None => Ok new
              | Some old =>
                  let upd := mkBlacklist (b_PeerID old)
                               (b_ViolationCount old + iv_ViolationCount arg)
                               (b_CreatedAt old) now (iv_ExpiresAt arg) in
                  let? _ := blacklist_row_ok upd in Ok upd
              end in
  Ok (db_set_blacklist (<[iv_PeerID arg := row]> (db_blacklist d)) d, row).

Definition sql_isBlocked (peerID : string) (now : Z) (d : DB) : res (DB * bool) :=
  Ok (d, match db_blacklist d !! peerID with
         | Some b => row_blocks now b
         | None => false
         end).

Definition sql_listBlacklist (offset limit : Z) (now : Z) (d : DB) :
    res (DB * list Blacklist) :=
  let? _ := require ((0 <=? limit) && (0 <=? offset))
                    (Errorf "LIMIT or OFFSET must not be negative") in
  let rows := order_desc b_CreatedAt
    (List.filter (fun b => match b_ExpiresAt b with Some x => now <? x | None => true end)
       (table_rows (db_blacklist d))) in
  Ok (d, take (Z.to_nat limit) (drop (Z.to_nat offset) rows)).

Definition sql_unblockNode (peerID : string) (now : Z) (d : DB) : res (DB * unit) :=
  Ok (db_set_blacklist (delete peerID (db_blacklist d)) d, tt).

(** The key under which the verdict on a peer is cached. *)
Definition isBlockedKey (peerID : string) : string :=
  "blacklist:IsBlocked:" +:+ hashIfLong peerID.

Definition isBlockedKeys (isBlocked : option string) : list string :=
  match isBlocked with Some p => [isBlockedKey p] | None => [] end.

Definition CleanExpiredBlocks (isBlocked : option string) : M (World C) unit :=
  do! pg_call sql_cleanExpiredBlocks in
  do! PostExec WConn (isBlockedKeys isBlocked) in
  ret tt.

(** The error of the invalidation, when it runs at once, is the method's. *)
Definition IncrementViolationCount (q : Conn) (arg : IncrementViolationCountParams)
    (isBlocked : option string) : M (World C) (option Blacklist) :=
  let! row := pg_call (sql_incrementViolationCount arg) in
  let! err := PostExec q (isBlockedKeys isBlocked) in
  match err with Some e => throw e | None => ret (Some row) end.

(** 24 hours, in microseconds *)
Definition isBlockedTtl : Z := 86400000 * 1000.

Definition IsBlocked (peerID : string) : M (World C) (option bool) :=
  let! v := cached (isBlockedKey peerID)
              (let! b := pg_call (sql_isBlocked peerID) in
               ret (CVerdict (Some b), isBlockedTtl)) in
  as_verdict v.

Definition ListBlacklist (offset limit : Z) : M (World C) (list Blacklist) :=
  pg_call (sql_listBlacklist offset limit).

Definition UnblockNode (peerID : string) (isBlocked : option string) : M (World C) unit :=
  do! pg_call (sql_unblockNode peerID) in
  do! PostExec WConn (isBlockedKeys isBlocked) in
  ret tt.
End blacklist.

(** ** What the methods leave alone *)

Section frames.
Context `{Env} {C : Type}.

Lemma CleanExpiredBlocks_mem P k : preserves (mem_pred (C:=C) P) (CleanExpiredBlocks k).
Proof. unfold CleanExpiredBlocks. solve_preserves. Qed.
Lemma CleanExpiredBlocks_tasks P k : preserves (db_pred (C:=C) (on_tasks P)) (CleanExpiredBlocks k).
Proof. unfold CleanExpiredBlocks. solve_preserves. Qed.
Lemma CleanExpiredBlocks_operators P k : preserves (db_pred (C:=C) (on_operators P)) (CleanExpiredBlocks k).
Proof. unfold CleanExpiredBlocks. solve_preserves. Qed.
Lemma CleanExpiredBlocks_consensus P k : preserves (db_pred (C:=C) (on_consensus P)) (CleanExpiredBlocks k).
Proof. unfold CleanExpiredBlocks. solve_preserves. Qed.
Lemma IncrementViolationCount_mem P q arg k : preserves (mem_pred (C:=C) P) (IncrementViolationCount q arg k).
Proof. unfold IncrementViolationCount. solve_preserves. Qed.
Lemma IncrementViolationCount_tasks P q arg k : preserves (db_pred (C:=C) (on_tasks P)) (IncrementViolationCount q arg k).
Proof. unfold IncrementViolationCount. solve_preserves. Qed.
Lemma IncrementViolationCount_operators P q arg k : preserves (db_pred (C:=C) (on_operators P)) (IncrementViolationCount q arg k).
Proof. unfold IncrementViolationCount. solve_preserves. Qed.
Lemma IncrementViolationCount_consensus P q arg k : preserves (db_pred (C:=C) (on_consensus P)) (IncrementViolationCount q arg k).
Proof. unfold IncrementViolationCount. solve_preserves. Qed.
Lemma IsBlocked_mem P p : preserves (mem_pred (C:=C) P) (IsBlocked p).
Proof. unfold IsBlocked. solve_preserves. Qed.
Lemma IsBlocked_tasks P p : preserves (db_pred (C:=C) (on_tasks P)) (IsBlocked p).
Proof. unfold IsBlocked. solve_preserves. Qed.
Lemma IsBlocked_operators P p : preserves (db_pred (C:=C) (on_operators P)) (IsBlocked p).
Proof. unfold IsBlocked. solve_preserves. Qed.
Lemma IsBlocked_blacklist P p : preserves (db_pred (C:=C) (on_blacklist P)) (IsBlocked p).
Proof. unfold IsBlocked. solve_preserves. Qed.
Lemma IsBlocked_consensus P p : preserves (db_pred (C:=C) (on_consensus P)) (IsBlocked p).
Proof. unfold IsBlocked. solve_preserves. Qed.
Lemma ListBlacklist_mem P o l : preserves (mem_pred (C:=C) P) (ListBlacklist o l).
Proof. unfold ListBlacklist. solve_preserves. Qed.
Lemma ListBlacklist_tasks P o l : preserves (db_pred (C:=C) (on_tasks P)) (ListBlacklist o l).
Proof. unfold ListBlacklist. solve_preserves. Qed.
Lemma ListBlacklist_operators P o l : preserves (db_pred (C:=C) (on_operators P)) (ListBlacklist o l).
Proof. unfold ListBlacklist. solve_preserves. Qed.
Lemma ListBlacklist_blacklist P o l : preserves (db_pred (C:=C) (on_blacklist P)) (ListBlacklist o l).
Proof. unfold ListBlacklist. solve_preserves. Qed.
Lemma ListBlacklist_consensus P o l : preserves (db_pred (C:=C) (on_consensus P)) (ListBlacklist o l).
Proof. unfold ListBlacklist. solve_preserves. Qed.
Lemma UnblockNode_mem P p k : preserves (mem_pred (C:=C) P) (UnblockNode p k).
Proof. unfold UnblockNode. solve_preserves. Qed.
Lemma UnblockNode_tasks P p k : preserves (db_pred (C:=C) (on_tasks P)) (UnblockNode p k).
Proof. unfold UnblockNode. solve_preserves. Qed.
Lemma UnblockNode_operators P p k : preserves (db_pred (C:=C) (on_operators P)) (UnblockNode p k).
Proof. unfold UnblockNode. solve_preserves. Qed.
Lemma UnblockNode_consensus P p k : preserves (db_pred (C:=C) (on_consensus P)) (UnblockNode p k).
Proof. unfold UnblockNode. solve_preserves. Qed.
End frames.

#[export] Hint Resolve
  CleanExpiredBlocks_mem CleanExpiredBlocks_tasks CleanExpiredBlocks_operators
  CleanExpiredBlocks_consensus IncrementViolationCount_mem IncrementViolationCount_tasks
  IncrementViolationCount_operators IncrementViolationCount_consensus IsBlocked_mem
  IsBlocked_tasks IsBlocked_operators IsBlocked_blacklist IsBlocked_consensus
  ListBlacklist_mem ListBlacklist_tasks ListBlacklist_operators ListBlacklist_blacklist
  ListBlacklist_consensus UnblockNode_mem UnblockNode_tasks UnblockNode_operators
  UnblockNode_consensus : go_inv.
