(* ===== verification/OperatorsRepo.v ===== *)
(** * pkg/repos/operators: the operator table, its cached lookups and the
    invalidation keys of its updates *)

From S2P Require Import Prelude GoInt GoString Numeric EpochMath Models World TasksRepo.

Record UpdateOperatorExitEpochParams := mkUpdateOperatorExitEpochParams {
  ue_Address : string;
  ue_ExitEpoch : Z;
}.

Record UpdateOperatorStateParams := mkUpdateOperatorStateParams {
  us_Address : string;
  us_IsActive : bool;
  us_Weight : Numeric;
  us_SigningKey : string;
  us_P2pKey : string;
}.

Record UpsertOperatorParams := mkUpsertOperatorParams {
  up_Address : string;
  up_SigningKey : string;
  up_P2pKey : string;
  up_RegisteredAtBlockNumber : Z;
  up_ActiveEpoch : Z;
  up_ExitEpoch : Z;
  up_IsActive : bool;
  up_Weight : Numeric;
}.

(** The four optional cache keys an update is asked to invalidate. *)
Record InvalidateKeys := mkInvalidateKeys {
  ik_byAddress : option string;
  ik_bySigningKey : option string;
  ik_byP2PKey : option string;
  ik_isActive : option string;
}.

Definition with_exit_epoch (e now : Z) (o : Operators) : Operators :=
  mkOperators (o_Address o) (o_SigningKey o) (o_P2pKey o) (o_RegisteredAtBlockNumber o)
    (o_ActiveEpoch o) e (o_IsActive o) (o_Weight o) (o_CreatedAt o) now.

Definition with_state (a : bool) (w : Numeric) (sk pk : string) (now : Z) (o : Operators) :
    Operators :=
  mkOperators (o_Address o) sk pk (o_RegisteredAtBlockNumber o) (o_ActiveEpoch o)
    (o_ExitEpoch o) a w (o_CreatedAt o) now.

Section operators.
Context `{Env} {C : Type}.

Definition sql_getOperatorByAddress (address : string) (now : Z) (d : DB) :
    res (DB * option Operators) :=
  Ok (d, db_operators d !! address).

Definition sql_getOperatorByP2PKey (lower : string) (now : Z) (d : DB) :
    res (DB * option Operators) :=
  Ok (d, first_row (fun o => bool_decide (ToLower (o_P2pKey o) = ToLower lower))
           (db_operators d)).

Definition sql_getOperatorBySigningKey (signingKey : string) (now : Z) (d : DB) :
    res (DB * option Operators) :=
  Ok (d, first_row (fun o => bool_decide (o_SigningKey o = signingKey)) (db_operators d)).

Definition sql_isActiveOperator (lower : string) (now : Z) (d : DB) : res (DB * bool) :=
  Ok (d, existsb (fun o => bool_decide (ToLower (o_P2pKey o) = ToLower lower) && o_IsActive o)
           (table_rows (db_operators d))).

Definition sql_listActiveOperators (now : Z) (d : DB) : res (DB * list Operators) :=
  Ok (d, List.filter o_IsActive (table_rows (db_operators d))).

Definition sql_listAllOperators (now : Z) (d : DB) : res (DB * list Operators) :=
  Ok (d, table_rows (db_operators d)).

Definition sql_updateOperatorExitEpoch (arg : UpdateOperatorExitEpochParams) (now : Z) (d : DB) :
    res (DB * option Operators) :=
  match db_operators d !! ue_Address arg with
  | None => Ok (d, None)
  | Some o =>
      let o' := with_exit_epoch (ue_ExitEpoch arg) now o in
      Ok (db_set_operators (<[ue_Address arg := o']> (db_operators d)) d, Some o')
  end.

Definition sql_updateOperatorState (arg : UpdateOperatorStateParams) (now : Z) (d : DB) :
    res (DB * option Operators) :=
  let? weight := numeric_arg (us_Weight arg) in
  match db_operators d !! us_Address arg with
  | None => Ok (d, None)
  | Some o =>
      let? _ := require (fits_varchar 42 (us_SigningKey arg) && fits_varchar 42 (us_P2pKey arg))
                        ErrTooLong in
      match weight with
      | None => Err ErrNotNull
      | Some wt =>
          let o' := with_state (us_IsActive arg) wt (us_SigningKey arg) (us_P2pKey arg) now o in
          Ok (db_set_operators (<[us_Address arg := o']> (db_operators d)) d, Some o')
      end
  end.

Definition sql_upsertOperator (arg : UpsertOperatorParams) (now : Z) (d : DB) :
    res (DB * Operators) :=
  let? weight := numeric_arg (up_Weight arg) in
  let? _ := require (fits_int8 (up_RegisteredAtBlockNumber arg)) ErrRange in
  let? _ := require (fits_varchar 42 (up_Address arg) && fits_varchar 42 (up_SigningKey arg) &&
                     fits_varchar 42 (up_P2pKey arg)) ErrTooLong in
  match weight with
  | None => Err ErrNotNull
  | Some wt =>
      let created := match db_operators d !! up_Address arg with
                     | Some o => o_CreatedAt o
                     | None => now
                     end in
      let row := mkOperators (up_Address arg) (up_SigningKey arg) (up_P2pKey arg)
                   (up_RegisteredAtBlockNumber arg) (up_ActiveEpoch arg) (up_ExitEpoch arg)
                   (up_IsActive arg) wt created now in
      Ok (db_set_operators (<[up_Address arg := row]> (db_operators d)) d, row)
  end.

Definition scan_Operators (o : Operators) : Operators :=
  mkOperators (o_Address o) (o_SigningKey o) (o_P2pKey o) (o_RegisteredAtBlockNumber o)
    (o_ActiveEpoch o) (o_ExitEpoch o) (o_IsActive o) (scan_numeric (o_Weight o))
    (o_CreatedAt o) (o_UpdatedAt o).

Definition byAddressKey (v : string) : string :=
  "operators:GetOperatorByAddress:" +:+ hashIfLong v.
Definition byP2PKeyKey (v : string) : string :=
  "operators:GetOperatorByP2PKey:" +:+ hashIfLong v.
Definition bySigningKeyKey (v : string) : string :=
  "operators:GetOperatorBySigningKey:" +:+ hashIfLong v.
Definition isActiveKey (v : string) : string :=
  "operators:IsActiveOperator:" +:+ hashIfLong v.

Definition invalidation_keys (k : InvalidateKeys) : list string :=
  option_list (byAddressKey <$> ik_byAddress k) ++
  option_list (bySigningKeyKey <$> ik_bySigningKey k) ++
  option_list (byP2PKeyKey <$> ik_byP2PKey k) ++
  option_list (isActiveKey <$> ik_isActive k).

(** 10 seconds, in microseconds *)
Definition operatorTtl : Z := 10000 * 1000.

(** A [:one] lookup with [cache: 10s]. *)
Definition cached_operator (key : string) (stmt : Z -> DB -> res (DB * option Operators)) :
    M (World C) (option Operators) :=
  let! v := cached key
              (let! o := pg_call stmt in
               ret (COperator (scan_Operators <$> o), operatorTtl)) in
  as_operator v.

Definition GetOperatorByAddress (address : string) : M (World C) (option Operators) :=
  cached_operator (byAddressKey address) (sql_getOperatorByAddress address).

Definition GetOperatorByP2PKey (lower : string) : M (World C) (option Operators) :=
  cached_operator (byP2PKeyKey lower) (sql_getOperatorByP2PKey lower).

Definition GetOperatorBySigningKey (signingKey : string) : M (World C) (option Operators) :=
  cached_operator (bySigningKeyKey signingKey) (sql_getOperatorBySigningKey signingKey).

Definition IsActiveOperator (lower : string) : M (World C) (option bool) :=
  let! v := cached (isActiveKey lower)
              (let! b := pg_call (sql_isActiveOperator lower) in
               ret (CVerdict (Some b), operatorTtl)) in
  as_verdict v.

Definition ListActiveOperators : M (World C) (list Operators) :=
  let! rows := pg_call sql_listActiveOperators in ret (scan_Operators <$> rows).

Definition ListAllOperators : M (World C) (list Operators) :=
  let! rows := pg_call sql_listAllOperators in ret (scan_Operators <$> rows).

(** [UPDATE ... RETURNING] of at most one row, then the invalidations; no row
    returns nil before any invalidation. *)
Definition update_returning (q : Conn) (keys : InvalidateKeys)
    (stmt : Z -> DB -> res (DB * option Operators)) : M (World C) (option Operators) :=
  let! row := pg_call stmt in
  match row with
  | None => ret None
  | Some o =>
      let! err := PostExec q (invalidation_keys keys) in
      match err with
      | Some e => throw e
      | None => ret (Some (scan_Operators o))
      end
  end.

Definition UpdateOperatorExitEpoch (q : Conn) (arg : UpdateOperatorExitEpochParams)
    (keys : InvalidateKeys) : M (World C) (option Operators) :=
  update_returning q keys (sql_updateOperatorExitEpoch arg).

Definition UpdateOperatorState (q : Conn) (arg : UpdateOperatorStateParams)
    (keys : InvalidateKeys) : M (World C) (option Operators) :=
  update_returning q keys (sql_updateOperatorState arg).

Definition UpsertOperator (q : Conn) (arg : UpsertOperatorParams)
    (keys : InvalidateKeys) : M (World C) (option Operators) :=
  update_returning q keys (fun now d =>
    let? (d', o) := sql_upsertOperator arg now d in Ok (d', Some o)).
End operators.

(** An update that returns a value ran its statement, and nothing after the
    statement touches the database. *)
Lemma update_returning_Ok `{Env} {C} q keys stmt (w w' : World C) out :
  update_returning q keys stmt w = (w', Ok out) ->
  exists now d' row, stmt now (w_db w) = Ok (d', row) /\ w_db w' = d'.
Proof.
  unfold update_returning. rewrite bind_Ok.
  intros (w1 & row & Hpg & Hrun). apply pg_call_Ok in Hpg as (d & Hs & ->).
  exists (env_now (w_step w)), d, row. split; [done|].
  destruct row as [o|]; [|by injection Hrun as <- _].
  apply bind_Ok in Hrun as (w2 & e & Hp & Hrun).
  pose proof (preserves_run _ _ _ _ _ (PostExec_db (eq d) q _) Hp eq_refl) as Hd.
  destruct e; [done|]. by injection Hrun as <- _.
Qed.

(** ** What the methods leave alone *)

Section frames.
Context `{Env} {C : Type}.

Lemma GetOperatorByAddress_mem P a : preserves (mem_pred (C:=C) P) (GetOperatorByAddress a).
Proof. unfold GetOperatorByAddress, cached_operator. solve_preserves. Qed.
Lemma GetOperatorByAddress_tasks P a : preserves (db_pred (C:=C) (on_tasks P)) (GetOperatorByAddress a).
Proof. unfold GetOperatorByAddress, cached_operator. solve_preserves. Qed.
Lemma GetOperatorByAddress_operators P a : preserves (db_pred (C:=C) (on_operators P)) (GetOperatorByAddress a).
Proof. unfold GetOperatorByAddress, cached_operator. solve_preserves. Qed.
Lemma GetOperatorByAddress_blacklist P a : preserves (db_pred (C:=C) (on_blacklist P)) (GetOperatorByAddress a).
Proof. unfold GetOperatorByAddress, cached_operator. solve_preserves. Qed.
Lemma GetOperatorByAddress_consensus P a : preserves (db_pred (C:=C) (on_consensus P)) (GetOperatorByAddress a).
Proof. unfold GetOperatorByAddress, cached_operator. solve_preserves. Qed.
Lemma GetOperatorByP2PKey_mem P k : preserves (mem_pred (C:=C) P) (GetOperatorByP2PKey k).
Proof. unfold GetOperatorByP2PKey, cached_operator. solve_preserves. Qed.
Lemma GetOperatorByP2PKey_tasks P k : preserves (db_pred (C:=C) (on_tasks P)) (GetOperatorByP2PKey k).
Proof. unfold GetOperatorByP2PKey, cached_operator. solve_preserves. Qed.
Lemma GetOperatorByP2PKey_operators P k : preserves (db_pred (C:=C) (on_operators P)) (GetOperatorByP2PKey k).
Proof. unfold GetOperatorByP2PKey, cached_operator. solve_preserves. Qed.
Lemma GetOperatorByP2PKey_blacklist P k : preserves (db_pred (C:=C) (on_blacklist P)) (GetOperatorByP2PKey k).
Proof. unfold GetOperatorByP2PKey, cached_operator. solve_preserves. Qed.
Lemma GetOperatorByP2PKey_consensus P k : preserves (db_pred (C:=C) (on_consensus P)) (GetOperatorByP2PKey k).
Proof. unfold GetOperatorByP2PKey, cached_operator. solve_preserves. Qed.
Lemma GetOperatorBySigningKey_mem P k : preserves (mem_pred (C:=C) P) (GetOperatorBySigningKey k).
Proof. unfold GetOperatorBySigningKey, cached_operator. solve_preserves. Qed.
Lemma GetOperatorBySigningKey_tasks P k : preserves (db_pred (C:=C) (on_tasks P)) (GetOperatorBySigningKey k).
Proof. unfold GetOperatorBySigningKey, cached_operator. solve_preserves. Qed.
Lemma GetOperatorBySigningKey_operators P k : preserves (db_pred (C:=C) (on_operators P)) (GetOperatorBySigningKey k).
Proof. unfold GetOperatorBySigningKey, cached_operator. solve_preserves. Qed.
Lemma GetOperatorBySigningKey_blacklist P k : preserves (db_pred (C:=C) (on_blacklist P)) (GetOperatorBySigningKey k).
Proof. unfold GetOperatorBySigningKey, cached_operator. solve_preserves. Qed.
Lemma GetOperatorBySigningKey_consensus P k : preserves (db_pred (C:=C) (on_consensus P)) (GetOperatorBySigningKey k).
Proof. unfold GetOperatorBySigningKey, cached_operator. solve_preserves. Qed.
Lemma IsActiveOperator_mem P k : preserves (mem_pred (C:=C) P) (IsActiveOperator k).
Proof. unfold IsActiveOperator. solve_preserves. Qed.
Lemma IsActiveOperator_tasks P k : preserves (db_pred (C:=C) (on_tasks P)) (IsActiveOperator k).
Proof. unfold IsActiveOperator. solve_preserves. Qed.
Lemma IsActiveOperator_operators P k : preserves (db_pred (C:=C) (on_operators P)) (IsActiveOperator k).
Proof. unfold IsActiveOperator. solve_preserves. Qed.
Lemma IsActiveOperator_blacklist P k : preserves (db_pred (C:=C) (on_blacklist P)) (IsActiveOperator k).
Proof. unfold IsActiveOperator. solve_preserves. Qed.
Lemma IsActiveOperator_consensus P k : preserves (db_pred (C:=C) (on_consensus P)) (IsActiveOperator k).
Proof. unfold IsActiveOperator. solve_preserves. Qed.
Lemma ListActiveOperators_mem P : preserves (mem_pred (C:=C) P) ListActiveOperators.
Proof. unfold ListActiveOperators. solve_preserves. Qed.
Lemma ListActiveOperators_tasks P : preserves (db_pred (C:=C) (on_tasks P)) ListActiveOperators.
Proof. unfold ListActiveOperators. solve_preserves. Qed.
Lemma ListActiveOperators_operators P : preserves (db_pred (C:=C) (on_operators P)) ListActiveOperators.
Proof. unfold ListActiveOperators. solve_preserves. Qed.
Lemma ListActiveOperators_blacklist P : preserves (db_pred (C:=C) (on_blacklist P)) ListActiveOperators.
Proof. unfold ListActiveOperators. solve_preserves. Qed.
Lemma ListActiveOperators_consensus P : preserves (db_pred (C:=C) (on_consensus P)) ListActiveOperators.
Proof. unfold ListActiveOperators. solve_preserves. Qed.
Lemma ListAllOperators_mem P : preserves (mem_pred (C:=C) P) ListAllOperators.
Proof. unfold ListAllOperators. solve_preserves. Qed.
Lemma ListAllOperators_tasks P : preserves (db_pred (C:=C) (on_tasks P)) ListAllOperators.
Proof. unfold ListAllOperators. solve_preserves. Qed.
Lemma ListAllOperators_operators P : preserves (db_pred (C:=C) (on_operators P)) ListAllOperators.
Proof. unfold ListAllOperators. solve_preserves. Qed.
Lemma ListAllOperators_blacklist P : preserves (db_pred (C:=C) (on_blacklist P)) ListAllOperators.
Proof. unfold ListAllOperators. solve_preserves. Qed.
Lemma ListAllOperators_consensus P : preserves (db_pred (C:=C) (on_consensus P)) ListAllOperators.
Proof. unfold ListAllOperators. solve_preserves. Qed.
Lemma UpdateOperatorExitEpoch_mem P q arg k : preserves (mem_pred (C:=C) P) (UpdateOperatorExitEpoch q arg k).
Proof. unfold UpdateOperatorExitEpoch, update_returning. solve_preserves. Qed.
Lemma UpdateOperatorExitEpoch_tasks P q arg k : preserves (db_pred (C:=C) (on_tasks P)) (UpdateOperatorExitEpoch q arg k).
Proof. unfold UpdateOperatorExitEpoch, update_returning. solve_preserves. Qed.
Lemma UpdateOperatorExitEpoch_blacklist P q arg k : preserves (db_pred (C:=C) (on_blacklist P)) (UpdateOperatorExitEpoch q arg k).
Proof. unfold UpdateOperatorExitEpoch, update_returning. solve_preserves. Qed.
Lemma UpdateOperatorExitEpoch_consensus P q arg k : preserves (db_pred (C:=C) (on_consensus P)) (UpdateOperatorExitEpoch q arg k).
Proof. unfold UpdateOperatorExitEpoch, update_returning. solve_preserves. Qed.
Lemma UpdateOperatorState_mem P q arg k : preserves (mem_pred (C:=C) P) (UpdateOperatorState q arg k).
Proof. unfold UpdateOperatorState, update_returning. solve_preserves. Qed.
Lemma UpdateOperatorState_tasks P q arg k : preserves (db_pred (C:=C) (on_tasks P)) (UpdateOperatorState q arg k).
Proof. unfold UpdateOperatorState, update_returning. solve_preserves. Qed.
Lemma UpdateOperatorState_blacklist P q arg k : preserves (db_pred (C:=C) (on_blacklist P)) (UpdateOperatorState q arg k).
Proof. unfold UpdateOperatorState, update_returning. solve_preserves. Qed.
Lemma UpdateOperatorState_consensus P q arg k : preserves (db_pred (C:=C) (on_consensus P)) (UpdateOperatorState q arg k).
Proof. unfold UpdateOperatorState, update_returning. solve_preserves. Qed.
Lemma UpsertOperator_mem P q arg k : preserves (mem_pred (C:=C) P) (UpsertOperator q arg k).
Proof. unfold UpsertOperator, update_returning. solve_preserves. Qed.
Lemma UpsertOperator_tasks P q arg k : preserves (db_pred (C:=C) (on_tasks P)) (UpsertOperator q arg k).
Proof. unfold UpsertOperator, update_returning. solve_preserves. Qed.
Lemma UpsertOperator_blacklist P q arg k : preserves (db_pred (C:=C) (on_blacklist P)) (UpsertOperator q arg k).
Proof. unfold UpsertOperator, update_returning. solve_preserves. Qed.
Lemma UpsertOperator_consensus P q arg k : preserves (db_pred (C:=C) (on_consensus P)) (UpsertOperator q arg k).
Proof. unfold UpsertOperator, update_returning. solve_preserves. Qed.
End frames.

#[export] Hint Resolve
  GetOperatorByAddress_mem GetOperatorByAddress_tasks GetOperatorByAddress_operators
  GetOperatorByAddress_blacklist GetOperatorByAddress_consensus GetOperatorByP2PKey_mem
  GetOperatorByP2PKey_tasks GetOperatorByP2PKey_operators GetOperatorByP2PKey_blacklist
  GetOperatorByP2PKey_consensus GetOperatorBySigningKey_mem GetOperatorBySigningKey_tasks
  GetOperatorBySigningKey_operators GetOperatorBySigningKey_blacklist
  GetOperatorBySigningKey_consensus IsActiveOperator_mem IsActiveOperator_tasks
  IsActiveOperator_operators IsActiveOperator_blacklist IsActiveOperator_consensus
  ListActiveOperators_mem ListActiveOperators_tasks ListActiveOperators_operators
  ListActiveOperators_blacklist ListActiveOperators_consensus ListAllOperators_mem
  ListAllOperators_tasks ListAllOperators_operators ListAllOperators_blacklist
  ListAllOperators_consensus UpdateOperatorExitEpoch_mem UpdateOperatorExitEpoch_tasks
  UpdateOperatorExitEpoch_blacklist UpdateOperatorExitEpoch_consensus
  UpdateOperatorState_mem UpdateOperatorState_tasks UpdateOperatorState_blacklist
  UpdateOperatorState_consensus UpsertOperator_mem UpsertOperator_tasks
  UpsertOperator_blacklist UpsertOperator_consensus : go_inv.
