(* ===== verification/ConsensusRepo.v ===== *)
(** * pkg/repos/consensus_responses: the stored consensus results

    The schema keeps at most one row per task and at most one per request
    (target address, chain, block, key). *)

From S2P Require Import Prelude GoInt GoString Numeric EpochMath Models World TasksRepo.

Record CreateConsensusResponseParams := mkCreateConsensusResponseParams {
  cp_TaskID : string;
  cp_Epoch : Z;
  cp_Value : Numeric;
  cp_Key : Numeric;
  cp_ChainID : Z;
  cp_BlockNumber : Z;
  cp_TargetAddress : string;
  cp_AggregatedSignatures : list bytes;
  cp_OperatorAddresses : list string;
}.

Record GetConsensusResponseByRequestParams := mkGetConsensusResponseByRequestParams {
  gr_TargetAddress : string;
  gr_ChainID : Z;
  gr_BlockNumber : Z;
  gr_Key : Numeric;
}.

(** SQL equality of two NUMERICs: the same number, whatever the scale. *)
Definition numeric_eqb (n m : Numeric) : bool :=
  match nValid n, nInt n, nValid m, nInt m with
  | true, Some i, true, Some j =>
      let e := Z.min (nExp n) (nExp m) in
      i * 10 ^ (nExp n - e) =? j * 10 ^ (nExp m - e)
  | _, _, _, _ => false
  end.

Definition same_request (addr : string) (chain block : Z) (key : Numeric)
    (c : ConsensusResponse) : bool :=
  bool_decide (c_TargetAddress c = addr) && (c_ChainID c =? chain) &&
  (c_BlockNumber c =? block) && numeric_eqb (c_Key c) key.

Section consensus.
Context `{Env} {C : Type}.

Definition sql_createConsensusResponse (arg : CreateConsensusResponseParams) (now : Z) (d : DB) :
    res (DB * ConsensusResponse) :=
  let? value := numeric_arg (cp_Value arg) in
  let? key := numeric_arg (cp_Key arg) in
  let? _ := require (fits_int4 (cp_Epoch arg) && fits_int4 (cp_ChainID arg) &&
                     fits_int8 (cp_BlockNumber arg)) ErrRange in
  let? _ := require (fits_varchar 66 (cp_TaskID arg) && fits_varchar 42 (cp_TargetAddress arg) &&
                     forallb (fits_varchar 42) (cp_OperatorAddresses arg)) ErrTooLong in
  match value, key with
  | Some v, Some k =>
      let row := mkConsensusResponse (cp_TaskID arg) (cp_Epoch arg) (cp_ChainID arg)
                   (cp_TargetAddress arg) (cp_BlockNumber arg) k v
                   (cp_AggregatedSignatures arg) (cp_OperatorAddresses arg) now now in
      if decide (is_Some (db_consensus d !! cp_TaskID arg)) then Err ErrDuplicateKey
      else if existsb (same_request (cp_TargetAddress arg) (cp_ChainID arg)
                         (cp_BlockNumber arg) k) (table_rows (db_consensus d))
           then Err ErrDuplicateKey
           else Ok (db_set_consensus (<[cp_TaskID arg := row]> (db_consensus d)) d, row)
  | _, _ => Err ErrNotNull
  end.

Definition sql_getConsensusResponseByRequest (arg : GetConsensusResponseByRequestParams)
    (now : Z) (d : DB) : res (DB * option ConsensusResponse) :=
  let? key := numeric_arg (gr_Key arg) in
  let? _ := require (fits_int4 (gr_ChainID arg) && fits_int8 (gr_BlockNumber arg)) ErrRange in
  Ok (d, match key with
         | None => None
         | Some k => first_row (same_request (gr_TargetAddress arg) (gr_ChainID arg)
                                  (gr_BlockNumber arg) k) (db_consensus d)
         end).

Definition sql_getConsensusResponseByTaskId (taskID : string) (now : Z) (d : DB) :
    res (DB * option ConsensusResponse) :=
  Ok (d, db_consensus d !! taskID).

Definition scan_ConsensusResponse (c : ConsensusResponse) : ConsensusResponse :=
  mkConsensusResponse (c_TaskID c) (c_Epoch c) (c_ChainID c) (c_TargetAddress c)
    (c_BlockNumber c) (scan_numeric (c_Key c)) (scan_numeric (c_Value c))
    (c_AggregatedSignatures c) (c_OperatorAddresses c) (c_CreatedAt c) (c_UpdatedAt c).

Definition CreateConsensusResponse (arg : CreateConsensusResponseParams) :
    M (World C) (option ConsensusResponse) :=
  let! row := pg_call (sql_createConsensusResponse arg) in
  ret (Some (scan_ConsensusResponse row)).

Definition GetConsensusResponseByRequest (arg : GetConsensusResponseByRequestParams) :
    M (World C) (option ConsensusResponse) :=
  let! row := pg_call (sql_getConsensusResponseByRequest arg) in
  ret (scan_ConsensusResponse <$> row).

Definition GetConsensusResponseByTaskId (taskID : string) :
    M (World C) (option ConsensusResponse) :=
  let! row := pg_call (sql_getConsensusResponseByTaskId taskID) in
  ret (scan_ConsensusResponse <$> row).
End consensus.

Lemma numeric_eqb_sym n m : numeric_eqb n m = numeric_eqb m n.
Proof.
  unfold numeric_eqb. destruct (nValid n), (nInt n), (nValid m), (nInt m); try done.
  by rewrite (Z.min_comm (nExp n)), Z.eqb_sym.
Qed.

(** ** What the methods leave alone *)

Section frames.
Context `{Env} {C : Type}.

Lemma CreateConsensusResponse_mem P arg : preserves (mem_pred (C:=C) P) (CreateConsensusResponse arg).
Proof. unfold CreateConsensusResponse. solve_preserves. Qed.
Lemma CreateConsensusResponse_tasks P arg : preserves (db_pred (C:=C) (on_tasks P)) (CreateConsensusResponse arg).
Proof. unfold CreateConsensusResponse. solve_preserves. Qed.
Lemma CreateConsensusResponse_operators P arg : preserves (db_pred (C:=C) (on_operators P)) (CreateConsensusResponse arg).
Proof. unfold CreateConsensusResponse. solve_preserves. Qed.
Lemma CreateConsensusResponse_blacklist P arg : preserves (db_pred (C:=C) (on_blacklist P)) (CreateConsensusResponse arg).
Proof. unfold CreateConsensusResponse. solve_preserves. Qed.
Lemma GetConsensusResponseByRequest_mem P arg : preserves (mem_pred (C:=C) P) (GetConsensusResponseByRequest arg).
Proof. unfold GetConsensusResponseByRequest. solve_preserves. Qed.
Lemma GetConsensusResponseByRequest_tasks P arg : preserves (db_pred (C:=C) (on_tasks P)) (GetConsensusResponseByRequest arg).
Proof. unfold GetConsensusResponseByRequest. solve_preserves. Qed.
Lemma GetConsensusResponseByRequest_operators P arg : preserves (db_pred (C:=C) (on_operators P)) (GetConsensusResponseByRequest arg).
Proof. unfold GetConsensusResponseByRequest. solve_preserves. Qed.
Lemma GetConsensusResponseByRequest_blacklist P arg : preserves (db_pred (C:=C) (on_blacklist P)) (GetConsensusResponseByRequest arg).
Proof. unfold GetConsensusResponseByRequest. solve_preserves. Qed.
Lemma GetConsensusResponseByRequest_consensus P arg : preserves (db_pred (C:=C) (on_consensus P)) (GetConsensusResponseByRequest arg).
Proof. unfold GetConsensusResponseByRequest. solve_preserves. Qed.
Lemma GetConsensusResponseByTaskId_mem P id : preserves (mem_pred (C:=C) P) (GetConsensusResponseByTaskId id).
Proof. unfold GetConsensusResponseByTaskId. solve_preserves. Qed.
Lemma GetConsensusResponseByTaskId_tasks P id : preserves (db_pred (C:=C) (on_tasks P)) (GetConsensusResponseByTaskId id).
Proof. unfold GetConsensusResponseByTaskId. solve_preserves. Qed.
Lemma GetConsensusResponseByTaskId_operators P id : preserves (db_pred (C:=C) (on_operators P)) (GetConsensusResponseByTaskId id).
Proof. unfold GetConsensusResponseByTaskId. solve_preserves. Qed.
Lemma GetConsensusResponseByTaskId_blacklist P id : preserves (db_pred (C:=C) (on_blacklist P)) (GetConsensusResponseByTaskId id).
Proof. unfold GetConsensusResponseByTaskId. solve_preserves. Qed.
Lemma GetConsensusResponseByTaskId_consensus P id : preserves (db_pred (C:=C) (on_consensus P)) (GetConsensusResponseByTaskId id).
Proof. unfold GetConsensusResponseByTaskId. solve_preserves. Qed.
End frames.

#[export] Hint Resolve
  CreateConsensusResponse_mem CreateConsensusResponse_tasks
  CreateConsensusResponse_operators CreateConsensusResponse_blacklist
  GetConsensusResponseByRequest_mem GetConsensusResponseByRequest_tasks
  GetConsensusResponseByRequest_operators GetConsensusResponseByRequest_blacklist
  GetConsensusResponseByRequest_consensus GetConsensusResponseByTaskId_mem
  GetConsensusResponseByTaskId_tasks GetConsensusResponseByTaskId_operators
  GetConsensusResponseByTaskId_blacklist GetConsensusResponseByTaskId_consensus : go_inv.
