(* ===== verification/Queries.v ===== *)
(** * pkg/repos/*/db.go: which connection and which cache a repository uses

    The four repositories have the same generated constructors.  A [Queries]
    runs on a pool connection or in a transaction, a [ReadOnlyQueries] on
    anything that can be queried: a pool, a transaction or a replica.  In the
    methods of the repositories the connection is the argument [Conn] of
    [World] and the cache is the one of [Env]. *)

From S2P Require Import Prelude.

Section queries.
Context {WGConn WQuerier WTx DCache : Type}.
(** The interfaces [wpgx.WGConn] and [wpgx.WQuerier]: what can be written can
    be read, and a transaction is a connection. *)
Context (as_querier : WGConn -> WQuerier) (as_conn : WTx -> WGConn).

Record Queries := mkQueries {
  q_db : WGConn;
  q_cache : DCache;
}.

Record ReadOnlyQueries := mkReadOnlyQueries {
  ro_db : WQuerier;
  ro_cache : DCache;
}.

Definition New (db : WGConn) (cache : DCache) : Queries := mkQueries db cache.

Definition GetCache (q : Queries) : DCache := q_cache q.
Definition GetConn (q : Queries) : WGConn := q_db q.

Definition AsReadOnly (q : Queries) : ReadOnlyQueries :=
  mkReadOnlyQueries (as_querier (q_db q)) (q_cache q).

Definition WithTx (tx : WTx) (q : Queries) : Queries := mkQueries (as_conn tx) (q_cache q).

Definition WithCache (cache : DCache) (q : Queries) : Queries := mkQueries (q_db q) cache.

Definition UseReplica (replicaQuerier : WQuerier) (q : Queries) : ReadOnlyQueries :=
  mkReadOnlyQueries replicaQuerier (q_cache q).

Definition ro_WithCache (cache : DCache) (q : ReadOnlyQueries) : ReadOnlyQueries :=
  mkReadOnlyQueries (ro_db q) cache.

Definition ro_GetCache (q : ReadOnlyQueries) : DCache := ro_cache q.
Definition ro_GetConn (q : ReadOnlyQueries) : WQuerier := ro_db q.

(** A repository inside a transaction reads what the transaction wrote, and
    shares the cache of the one it was made from, which is not changed. *)
Lemma transaction_reads_itself tx q :
  ro_GetConn (AsReadOnly (WithTx tx q)) = as_querier (as_conn tx) /\
  ro_GetCache (AsReadOnly (WithTx tx q)) = GetCache q.
Proof. done. Qed.

(** A replica is read through the same cache: its rows are cached for the
    primary's readers too. *)
Lemma replica_shares_cache r q : ro_GetCache (UseReplica r q) = ro_GetCache (AsReadOnly q).
Proof. done. Qed.
End queries.
