(* ===== verification/Sql.v ===== *)
(** * The SQL the repositories use

    A table is declared by a [CREATE TABLE]: its columns with their types,
    NULLs and defaults, its keys and its checks.  Its contents are the rows
    filed under their primary key, each a list of named values, NULL being
    [None].  [exec] runs INSERT, with its [ON CONFLICT DO UPDATE], UPDATE by
    the primary key and DELETE, and refuses what the declaration refuses; a
    table whose rows conform to the declaration goes on conforming
    ([exec_table_ok]).

    [Tables] declares the four tables and the statements of [pkg/repos]. *)

From S2P Require Import Prelude GoInt GoString Numeric EpochMath Models World TasksRepo ConsensusRepo.

(** ** Values and types *)

(** [BYTEA[]] and [VARCHAR(n)[]] are the only arrays. *)
Inductive ColType :=
  | VARCHAR (n : nat) | INT2 | INT4 | BIGINT | NUMERIC | BOOLEAN | TIMESTAMPTZ
  | BYTEAs | VARCHARs (n : nat).

Inductive Cell :=
  | CText (s : string) | CInt (x : Z) | CNumeric (n : Numeric) | CBool (b : bool)
  | CTime (us : Z) | CBytes (l : list bytes) | CTexts (l : list string).

Definition has_type (t : ColType) (v : Cell) : bool :=
  match t, v with
  | VARCHAR n, CText s => fits_varchar n s
  | INT2, CInt x => fits_int2 x
  | INT4, CInt x => fits_int4 x
  | BIGINT, CInt x => fits_int8 x
  | NUMERIC, CNumeric n => nValid n && bool_decide (is_Some (nInt n))
  | BOOLEAN, CBool _ => true
  | TIMESTAMPTZ, CTime _ => true
  | BYTEAs, CBytes _ => true
  | VARCHARs n, CTexts l => forallb (fits_varchar n) l
  | _, _ => false
  end.

(** SQL's [=], on the types that are compared *)
Definition cell_eqb (v w : Cell) : bool :=
  match v, w with
  | CText s, CText s' => bool_decide (s = s')
  | CInt x, CInt y => x =? y
  | CNumeric n, CNumeric m => numeric_eqb n m
  | _, _ => false
  end.

(** ** Declarations *)

(** [expires_at > created_at], [violation_count >= 0], [status IN (...)]; a
    comparison with NULL is not false, so the check passes. *)
Inductive Check :=
  | CheckAfter (col col' : string)
  | CheckAtLeast (col : string) (x : Z)
  | CheckIn (col : string) (values : list string).

Inductive Default := DefaultNull | DefaultValue (v : Cell) | DefaultNow.

Record Column := mkColumn {
  col_name : string;
  col_type : ColType;
  col_not_null : bool;
  col_default : Default;
}.

Record Table := mkTable {
  tb_columns : list Column;
  tb_primary : string;
  tb_unique : list (list string);
  tb_checks : list Check;
}.

Abbreviation Tuple := (list (string * option Cell)).

Fixpoint assoc {A} (k : string) (l : list (string * A)) : option A :=
  match l with
  | [] => None
  | (k', x) :: l' => if String.eqb k k' then Some x else assoc k l'
  end.

Definition get (col : string) (r : Tuple) : option Cell := default None (assoc col r).

Definition check_ok (r : Tuple) (c : Check) : bool :=
  match c with
  | CheckAfter col col' =>
      match get col r, get col' r with Some (CTime x), Some (CTime y) => y <? x | _, _ => true end
  | CheckAtLeast col x => match get col r with Some (CInt y) => x <=? y | _ => true end
  | CheckIn col vs => match get col r with Some (CText s) => bool_decide (s ∈ vs) | _ => true end
  end.

Definition cell_ok (c : Column) (v : option Cell) : bool :=
  match v with Some v => has_type (col_type c) v | None => negb (col_not_null c) end.

(** The columns in the order of the declaration *)
Fixpoint cells_ok (cs : list Column) (r : Tuple) : bool :=
  match cs, r with
  | [], [] => true
  | c :: cs', (k, v) :: r' => String.eqb (col_name c) k && cell_ok c v && cells_ok cs' r'
  | _, _ => false
  end.

Definition tuple_ok (T : Table) (r : Tuple) : bool :=
  cells_ok (tb_columns T) r && forallb (check_ok r) (tb_checks T).

Definition key_of (T : Table) (r : Tuple) : option string :=
  match get (tb_primary T) r with Some (CText s) => Some s | _ => None end.

(** Two rows with the same values in all of [cols]; NULLs are not the same. *)
Definition clash (cols : list string) (r r' : Tuple) : bool :=
  forallb (fun col => match get col r, get col r' with
                      | Some v, Some v' => cell_eqb v v'
                      | _, _ => false
                      end) cols.

Definition clashes (T : Table) (r r' : Tuple) : bool :=
  existsb (fun cols => clash cols r r') (tb_unique T).

(** The rows of a table conform to its declaration. *)
Record table_ok (T : Table) (m : gmap string Tuple) : Prop := {
  to_rows : forall k r, m !! k = Some r -> tuple_ok T r = true;
  to_key : forall k r, m !! k = Some r -> key_of T r = Some k;
  to_unique : forall k k' r r', m !! k = Some r -> m !! k' = Some r' -> k <> k' ->
    clashes T r r' = false;
}.

(** ** Statements *)

Inductive Expr :=
  | EValue (v : option Cell)         (** a literal, or a parameter [$1] *)
  | ENow                             (** [NOW()] *)
  | EAgo (us : Z)                    (** [NOW() - INTERVAL '...'] *)
  | ECol (col : string)              (** a column of the row at hand *)
  | EExcluded (col : string)         (** [EXCLUDED.col]: of the row that was not inserted *)
  | EPlus (e1 e2 : Expr).

Fixpoint eval (now : Z) (r excluded : Tuple) (e : Expr) : option Cell :=
  match e with
  | EValue v => v
  | ENow => Some (CTime now)
  | EAgo us => Some (CTime (now - us))
  | ECol col => get col r
  | EExcluded col => get col excluded
  | EPlus e1 e2 =>
      match eval now r excluded e1, eval now r excluded e2 with
      | Some (CInt x), Some (CInt y) => Some (CInt (x + y))
      | _, _ => None
      end
  end.

Inductive Cond :=
  | CAnd (c1 c2 : Cond)
  | CEq (e1 e2 : Expr)
  | CBefore (e1 e2 : Expr)           (** [e1 < e2] on times *)
  | CIn (e : Expr) (values : list string).

(** The condition is true: neither false nor NULL. *)
Fixpoint holds (now : Z) (r : Tuple) (c : Cond) : bool :=
  match c with
  | CAnd c1 c2 => holds now r c1 && holds now r c2
  | CEq e1 e2 =>
      match eval now r [] e1, eval now r [] e2 with
      | Some v, Some w => cell_eqb v w
      | _, _ => false
      end
  | CBefore e1 e2 =>
      match eval now r [] e1, eval now r [] e2 with
      | Some (CTime x), Some (CTime y) => x <? y
      | _, _ => false
      end
  | CIn e vs =>
      match eval now r [] e with Some (CText s) => bool_decide (s ∈ vs) | _ => false end
  end.

Inductive Stmt :=
  | Insert (values : list (string * Expr)) (on_conflict : option (list (string * Expr)))
  | UpdateByKey (key : string) (sets : list (string * Expr))
  | DeleteByKey (key : string)
  | DeleteWhere (c : Cond).

(** [SET col = e, ...] on a row *)
Definition set_row (now : Z) (sets : list (string * Expr)) (excluded r : Tuple) : Tuple :=
  (fun '(col, v) => (col, match assoc col sets with
                          | Some e => eval now r excluded e
                          | None => v
                          end)) <$> r.

(** The row of an INSERT: the columns that are not listed take their default. *)
Definition new_row (now : Z) (T : Table) (values : list (string * Expr)) : Tuple :=
  (fun c => (col_name c, match assoc (col_name c) values with
                         | Some e => eval now [] [] e
                         | None => match col_default c with
                                   | DefaultNull => None
                                   | DefaultValue v => Some v
                                   | DefaultNow => Some (CTime now)
                                   end
                         end)) <$> tb_columns T.

(** A row that takes its place, unless a unique key is taken. *)
Definition put (T : Table) (k : string) (r : Tuple) (m : gmap string Tuple) :
    option (gmap string Tuple) :=
  if existsb (clashes T r) (table_rows (delete k m)) then None else Some (<[k := r]> m).

Definition exec (T : Table) (s : Stmt) (now : Z) (m : gmap string Tuple) :
    option (gmap string Tuple) :=
  match s with
  | Insert values on_conflict =>
      let new := new_row now T values in
      if tuple_ok T new then
        k ← key_of T new;
        match m !! k, on_conflict with
        | None, _ => put T k new m
        | Some _, None => None
        | Some old, Some sets =>
            let upd := set_row now sets new old in
            if tuple_ok T upd && bool_decide (key_of T upd = Some k) then put T k upd m else None
        end
      else None
  | UpdateByKey k sets =>
      match m !! k with
      | None => Some m
      | Some old =>
          let upd := set_row now sets [] old in
          if tuple_ok T upd && bool_decide (key_of T upd = Some k) then put T k upd m else None
      end
  | DeleteByKey k => Some (delete k m)
  | DeleteWhere c => Some (filter (fun kr : string * Tuple => holds now kr.2 c = false) m)
  end.

(** ** A statement keeps its table as declared *)

Lemma cell_eqb_sym v w : cell_eqb v w = cell_eqb w v.
Proof.
  destruct v, w; simpl; try done; [|apply Z.eqb_sym|apply numeric_eqb_sym].
  apply bool_decide_ext. by split.
Qed.

Lemma clashes_sym T r r' : clashes T r r' = clashes T r' r.
Proof.
  unfold clashes. induction (tb_unique T) as [|cols us IH]; [done|]. simpl. f_equal; [|done].
  unfold clash. clear. induction cols as [|c cols IH]; [done|]. simpl. rewrite IH. f_equal.
  destruct (get c r), (get c r'); try done. apply cell_eqb_sym.
Qed.

Lemma put_Some T k r m m' : put T k r m = Some m' ->
  m' = <[k := r]> m /\ forall k' r', m !! k' = Some r' -> k <> k' -> clashes T r r' = false.
Proof.
  unfold put. destruct (existsb _ _) eqn:E; [done|]. intros [= <-]. split; [done|].
  intros k' r' Hr' Hne. apply not_true_is_false. intros Hc. apply not_true_iff_false in E.
  apply E, existsb_exists. exists r'. split; [|done].
  apply list_elem_of_In, elem_of_table_rows. exists k'. by rewrite lookup_delete_ne.
Qed.

Lemma put_table_ok T k r m m' : table_ok T m -> tuple_ok T r = true -> key_of T r = Some k ->
  put T k r m = Some m' -> table_ok T m'.
Proof.
  intros [Hr Hk Hu] Hok Hkey [-> Hnew]%put_Some.
  constructor.
  - intros k' r' [[_ <-]|[_ ?]]%lookup_insert_Some; eauto.
  - intros k' r' [[<- <-]|[_ ?]]%lookup_insert_Some; eauto.
  - intros k1 k2 r1 r2 [[<- <-]|[? H1]]%lookup_insert_Some [[<- <-]|[? H2]]%lookup_insert_Some Hne;
      [done|by eapply Hnew|rewrite clashes_sym; by eapply Hnew|by eapply Hu].
Qed.

Lemma subset_table_ok T m m' : table_ok T m -> m' ⊆ m -> table_ok T m'.
Proof.
  intros [Hr Hk Hu] Hsub.
  assert (forall k r, m' !! k = Some r -> m !! k = Some r) by (intros; by eapply lookup_weaken).
  constructor; eauto.
Qed.

(** Whatever the statement, a table that conforms goes on conforming. *)
Lemma exec_table_ok T s now m m' : table_ok T m -> exec T s now m = Some m' -> table_ok T m'.
Proof.
  intros Hm. assert (forall k upd,
    (if tuple_ok T upd && bool_decide (key_of T upd = Some k) then put T k upd m else None) = Some m' ->
    table_ok T m') as Hupd.
  { intros k upd. destruct (_ && _) eqn:E; [|done].
    apply andb_prop in E as [E1 E2%bool_decide_eq_true]. by apply put_table_ok. }
  destruct s as [values oc|k sets|k|c]; simpl.
  - destruct (tuple_ok T (new_row now T values)) eqn:Eok; [|done].
    destruct (key_of T (new_row now T values)) as [k|] eqn:Ekey; [|done]. simpl.
    destruct (m !! k) as [old|] eqn:Eold, oc as [sets|]; try done;
      first [by apply Hupd|by apply put_table_ok].
  - destruct (m !! k) as [old|]; [apply Hupd|by intros [= <-]].
  - intros [= <-]. eapply subset_table_ok; [done|apply delete_subseteq].
  - intros [= <-]. eapply subset_table_ok; [done|apply map_filter_subseteq].
Qed.

(** A table without unique constraints besides its key is looked at row by
    row. *)
Lemma table_ok_rows T m : tb_unique T = [] ->
  map_Forall (fun k r => tuple_ok T r = true /\ key_of T r = Some k) m -> table_ok T m.
Proof.
  intros Hu Hm. constructor.
  - intros k r Hr. by destruct (Hm k r Hr).
  - intros k r Hr. by destruct (Hm k r Hr).
  - intros k k' r r' _ _ _. unfold clashes. by rewrite Hu.
Qed.

Lemma table_ok_empty T : table_ok T ∅.
Proof. constructor; intros k; intros; by destruct (lookup_empty_Some k r). Qed.
