(* ===== verification/Tables.v ===== *)
(** * pkg/repos/*/db.go: the four tables as they are declared

    The [Schema] strings as tables of [Sql], and the statements of
    [query.sql.go] that change a table as statements of [Sql].  [sql_*] of the
    repositories, on which the rest of the development builds, accept what
    the declared statement accepts under the declared table, and leave the
    same rows ([runs_as]). *)

From S2P Require Import Prelude GoInt GoString Numeric EpochMath Models World.
From S2P Require Import TasksRepo BlacklistRepo OperatorsRepo ConsensusRepo Sql.

(** ** The declarations *)

Definition not_null (name : string) (t : ColType) : Column := mkColumn name t true DefaultNull.
Definition nullable (name : string) (t : ColType) : Column := mkColumn name t false DefaultNull.
Definition with_default (c : Column) (v : Default) : Column :=
  mkColumn (col_name c) (col_type c) (col_not_null c) v.

Definition created_updated : list Column :=
  [with_default (not_null "created_at" TIMESTAMPTZ) DefaultNow;
   with_default (not_null "updated_at" TIMESTAMPTZ) DefaultNow].

Definition operators_Schema : Table := mkTable (
  [not_null "address" (VARCHAR 42);
   not_null "signing_key" (VARCHAR 42);
   not_null "p2p_key" (VARCHAR 42);
   not_null "registered_at_block_number" BIGINT;
   not_null "active_epoch" BIGINT;
   with_default (not_null "exit_epoch" BIGINT) (DefaultValue (CInt 4294967295));
   with_default (not_null "is_active" BOOLEAN) (DefaultValue (CBool false));
   not_null "weight" NUMERIC] ++ created_updated)
  "address" [] [].

Definition blacklist_Schema : Table := mkTable (
  [not_null "peer_id" (VARCHAR 128);
   with_default (not_null "violation_count" INT4) (DefaultValue (CInt 0))] ++ created_updated ++
  [nullable "expires_at" TIMESTAMPTZ])
  "peer_id" [] [CheckAfter "expires_at" "created_at"; CheckAtLeast "violation_count" 0].

Definition consensus_responses_Schema : Table := mkTable (
  [not_null "task_id" (VARCHAR 66);
   not_null "epoch" INT4;
   not_null "chain_id" INT4;
   not_null "target_address" (VARCHAR 42);
   not_null "block_number" BIGINT;
   not_null "key" NUMERIC;
   not_null "value" NUMERIC;
   not_null "aggregated_signatures" BYTEAs;
   not_null "operator_addresses" (VARCHARs 42)] ++ created_updated)
  "task_id" [["target_address"; "chain_id"; "block_number"; "key"]] [].

Definition tasks_Schema : Table := mkTable (
  [not_null "task_id" (VARCHAR 66);
   not_null "chain_id" INT4;
   not_null "target_address" (VARCHAR 42);
   not_null "key" NUMERIC;
   nullable "block_number" BIGINT;
   nullable "value" NUMERIC;
   not_null "epoch" INT4;
   not_null "status" (VARCHAR 20);
   nullable "required_confirmations" INT2;
   with_default (not_null "retry_count" INT2) (DefaultValue (CInt 0))] ++ created_updated)
  "task_id" [] [CheckIn "status" ["confirming"; "pending"; "completed"]].

(** ** The rows *)

Definition num_cell (n : Numeric) : option Cell := if nValid n then Some (CNumeric n) else None.

Definition operator_cells (o : Operators) : Tuple :=
  [("address", Some (CText (o_Address o)));
   ("signing_key", Some (CText (o_SigningKey o)));
   ("p2p_key", Some (CText (o_P2pKey o)));
   ("registered_at_block_number", Some (CInt (o_RegisteredAtBlockNumber o)));
   ("active_epoch", Some (CInt (o_ActiveEpoch o)));
   ("exit_epoch", Some (CInt (o_ExitEpoch o)));
   ("is_active", Some (CBool (o_IsActive o)));
   ("weight", num_cell (o_Weight o));
   ("created_at", Some (CTime (o_CreatedAt o)));
   ("updated_at", Some (CTime (o_UpdatedAt o)))].

Definition blacklist_cells (b : Blacklist) : Tuple :=
  [("peer_id", Some (CText (b_PeerID b)));
   ("violation_count", Some (CInt (b_ViolationCount b)));
   ("created_at", Some (CTime (b_CreatedAt b)));
   ("updated_at", Some (CTime (b_UpdatedAt b)));
   ("expires_at", CTime <$> b_ExpiresAt b)].

Definition consensus_cells (c : ConsensusResponse) : Tuple :=
  [("task_id", Some (CText (c_TaskID c)));
   ("epoch", Some (CInt (c_Epoch c)));
   ("chain_id", Some (CInt (c_ChainID c)));
   ("target_address", Some (CText (c_TargetAddress c)));
   ("block_number", Some (CInt (c_BlockNumber c)));
   ("key", num_cell (c_Key c));
   ("value", num_cell (c_Value c));
   ("aggregated_signatures", Some (CBytes (c_AggregatedSignatures c)));
   ("operator_addresses", Some (CTexts (c_OperatorAddresses c)));
   ("created_at", Some (CTime (c_CreatedAt c)));
   ("updated_at", Some (CTime (c_UpdatedAt c)))].

Definition task_cells (t : Tasks) : Tuple :=
  [("task_id", Some (CText (t_TaskID t)));
   ("chain_id", Some (CInt (t_ChainID t)));
   ("target_address", Some (CText (t_TargetAddress t)));
   ("key", num_cell (t_Key t));
   ("block_number", Some (CInt (t_BlockNumber t)));
   ("value", num_cell (t_Value t));
   ("epoch", Some (CInt (t_Epoch t)));
   ("status", Some (CText (TaskStatus_string (t_Status t))));
   ("required_confirmations", Some (CInt (t_RequiredConfirmations t)));
   ("retry_count", Some (CInt (t_RetryCount t)));
   ("created_at", Some (CTime (t_CreatedAt t)));
   ("updated_at", Some (CTime (t_UpdatedAt t)))].

Inductive TableName := T_tasks | T_operators | T_blacklist | T_consensus_responses.

#[export] Instance TableName_eq_dec : EqDecision TableName.
Proof. solve_decision. Defined.

Definition schema (t : TableName) : Table :=
  match t with
  | T_tasks => tasks_Schema
  | T_operators => operators_Schema
  | T_blacklist => blacklist_Schema
  | T_consensus_responses => consensus_responses_Schema
  end.

Definition contents (d : DB) (t : TableName) : gmap string Tuple :=
  match t with
  | T_tasks => task_cells <$> db_tasks d
  | T_operators => operator_cells <$> db_operators d
  | T_blacklist => blacklist_cells <$> db_blacklist d
  | T_consensus_responses => consensus_cells <$> db_consensus d
  end.

Definition conforms (d : DB) : Prop := forall t, table_ok (schema t) (contents d t).

(** ** The statements *)

Section statements.
Context `{Env}.

(** A parameter of a statement *)
Definition text (s : string) : Expr := EValue (Some (CText s)).
Definition int (x : Z) : Expr := EValue (Some (CInt x)).
Definition bool_ (b : bool) : Expr := EValue (Some (CBool b)).
Definition numeric (n : option Numeric) : Expr := EValue (CNumeric <$> n).

Definition touch : string * Expr := ("updated_at", ENow).

Definition createTask (arg : CreateTaskParams) : res Stmt :=
  let? key := numeric_arg (ct_Key arg) in
  let? value := numeric_arg (ct_Value arg) in
  Ok (Insert
    [("task_id", text (ct_TaskID arg)); ("target_address", text (ct_TargetAddress arg));
     ("chain_id", int (ct_ChainID arg)); ("block_number", int (ct_BlockNumber arg));
     ("epoch", int (ct_Epoch arg)); ("key", numeric key); ("value", numeric value);
     ("status", text (TaskStatus_string (ct_Status arg)));
     ("required_confirmations", int (ct_RequiredConfirmations arg))] None).

Definition cleanupOldTasks : Stmt :=
  DeleteWhere (CAnd (CBefore (ECol "created_at") (EAgo (24 * 3600 * 1000000)))
                    (CIn (ECol "status") ["completed"])).

Definition deleteTaskByID (taskID : string) : Stmt := DeleteByKey taskID.

Definition incrementRetryCount (taskID : string) : Stmt :=
  UpdateByKey taskID [("retry_count", EPlus (ECol "retry_count") (int 1)); touch].

Definition updateTaskToCompleted (taskID : string) : Stmt :=
  UpdateByKey taskID [("status", text "completed"); touch].

Definition updateTaskToPending (taskID : string) : Stmt :=
  UpdateByKey taskID [("status", text "pending"); touch].

Definition cleanExpiredBlocks : Stmt := DeleteWhere (CBefore (ECol "expires_at") ENow).

Definition incrementViolationCount (arg : IncrementViolationCountParams) : Stmt :=
  Insert [("peer_id", text (iv_PeerID arg)); ("violation_count", int (iv_ViolationCount arg));
          ("expires_at", EValue (CTime <$> iv_ExpiresAt arg))]
    (Some [("violation_count", EPlus (ECol "violation_count") (EExcluded "violation_count"));
           ("expires_at", EExcluded "expires_at"); touch]).

Definition unblockNode (peerID : string) : Stmt := DeleteByKey peerID.

Definition updateOperatorExitEpoch (arg : UpdateOperatorExitEpochParams) : Stmt :=
  UpdateByKey (ue_Address arg) [("exit_epoch", int (ue_ExitEpoch arg)); touch].

Definition updateOperatorState (arg : UpdateOperatorStateParams) : res Stmt :=
  let? weight := numeric_arg (us_Weight arg) in
  Ok (UpdateByKey (us_Address arg)
    [("is_active", bool_ (us_IsActive arg)); ("weight", numeric weight);
     ("signing_key", text (us_SigningKey arg)); ("p2p_key", text (us_P2pKey arg)); touch]).

Definition upsertOperator (arg : UpsertOperatorParams) : res Stmt :=
  let? weight := numeric_arg (up_Weight arg) in
  Ok (Insert
    [("address", text (up_Address arg)); ("signing_key", text (up_SigningKey arg));
     ("p2p_key", text (up_P2pKey arg));
     ("registered_at_block_number", int (up_RegisteredAtBlockNumber arg));
     ("active_epoch", int (up_ActiveEpoch arg)); ("exit_epoch", int (up_ExitEpoch arg));
     ("is_active", bool_ (up_IsActive arg)); ("weight", numeric weight);
     ("created_at", ENow); touch]
    (Some (((fun c => (c, EExcluded c)) <$>
      ["signing_key"; "p2p_key"; "registered_at_block_number"; "active_epoch"; "exit_epoch";
       "is_active"; "weight"]) ++ [touch]))).

Definition createConsensusResponse (arg : CreateConsensusResponseParams) : res Stmt :=
  let? value := numeric_arg (cp_Value arg) in
  let? key := numeric_arg (cp_Key arg) in
  Ok (Insert
    [("task_id", text (cp_TaskID arg)); ("epoch", int (cp_Epoch arg)); ("value", numeric value);
     ("key", numeric key); ("chain_id", int (cp_ChainID arg));
     ("block_number", int (cp_BlockNumber arg)); ("target_address", text (cp_TargetAddress arg));
     ("aggregated_signatures", EValue (Some (CBytes (cp_AggregatedSignatures arg))));
     ("operator_addresses", EValue (Some (CTexts (cp_OperatorAddresses arg))))] None).

(** A statement of a repository that changes table [t] is the declared one:
    on a database that conforms it succeeds exactly when that succeeds, leaves
    the same rows, and leaves the other tables alone. *)
Definition runs_as {A} (t : TableName) (sql : Z -> DB -> res (DB * A)) (s : res Stmt) : Prop :=
  forall now d, conforms d ->
    match s with
    | Ok s =>
        match sql now d, exec (schema t) s now (contents d t) with
        | Ok (d', _), Some m =>
            contents d' t = m /\ forall t', t' <> t -> contents d' t' = contents d t'
        | Err _, None => True
        | _, _ => False
        end
    | _ => forall d' a, sql now d <> Ok (d', a)
    end.

(** The constraints are kept by every statement of the repositories. *)
Lemma runs_as_conforms {A} t (sql : Z -> DB -> res (DB * A)) s now d d' a :
  runs_as t sql s -> conforms d -> sql now d = Ok (d', a) -> conforms d'.
Proof.
  intros Hs Hd E. specialize (Hs now d Hd). rewrite E in Hs.
  destruct s as [s|e|m]; [|by destruct (Hs d' a)|by destruct (Hs d' a)].
  destruct (exec _ _ _ _) as [m|] eqn:Ex; [|done]. destruct Hs as [Hm Ho].
  intros t'. destruct (decide (t' = t)) as [->|Hne]; [|rewrite Ho by done; apply Hd].
  rewrite Hm. exact (exec_table_ok _ _ _ _ _ (Hd t) Ex).
Qed.
End statements.

(** ** Conforming rows *)

(** The same conditions in another order *)
Ltac same_conditions := apply eq_iff_eq_true; rewrite !andb_true_iff; tauto.

Definition num_ok (n : Numeric) : bool := nValid n && bool_decide (is_Some (nInt n)).

(** A NUMERIC column that takes no NULL, and one that does *)
Lemma num_cell_ok name n : cell_ok (not_null name NUMERIC) (num_cell n) = num_ok n.
Proof. unfold num_cell, num_ok. destruct (nValid n) eqn:E; simpl; by rewrite ?E. Qed.

Lemma num_cell_null name n :
  cell_ok (nullable name NUMERIC) (num_cell n) = negb (nValid n) || num_ok n.
Proof. unfold num_cell, num_ok. destruct (nValid n) eqn:E; simpl; by rewrite ?E. Qed.

Lemma num_cell_Some n : num_ok n = true -> num_cell n = Some (CNumeric n).
Proof. unfold num_ok, num_cell. by destruct (nValid n). Qed.

Lemma status_ok s : has_type (VARCHAR 20) (CText (TaskStatus_string s)) &&
  bool_decide (TaskStatus_string s ∈ ["confirming"; "pending"; "completed"]) =
  bool_decide (s <> TaskStatusZero).
Proof. by destruct s. Qed.

#[local] Arguments has_type : simpl never.
#[local] Arguments num_cell : simpl never.
#[local] Arguments num_ok : simpl never.
#[local] Arguments fits_varchar : simpl never.
#[local] Arguments exec : simpl never.
#[local] Arguments tuple_ok : simpl never.
#[local] Arguments TaskStatus_string : simpl never.

Definition task_row (t : Tasks) : bool :=
  fits_int4 (t_ChainID t) && fits_int8 (t_BlockNumber t) && fits_int4 (t_Epoch t) &&
  fits_int2 (t_RequiredConfirmations t) && fits_varchar 66 (t_TaskID t) &&
  fits_varchar 42 (t_TargetAddress t) && bool_decide (t_Status t <> TaskStatusZero) &&
  num_ok (t_Key t) && (negb (nValid (t_Value t)) || num_ok (t_Value t)) &&
  fits_int2 (t_RetryCount t).

Lemma task_cells_ok t : tuple_ok tasks_Schema (task_cells t) = task_row t.
Proof.
  unfold tuple_ok, task_row. rewrite <- status_ok. simpl.
  rewrite num_cell_ok, num_cell_null. cbn [has_type].
  same_conditions.
Qed.

Definition operator_row (o : Operators) : bool :=
  fits_int8 (o_RegisteredAtBlockNumber o) && fits_varchar 42 (o_Address o) &&
  fits_varchar 42 (o_SigningKey o) && fits_varchar 42 (o_P2pKey o) && num_ok (o_Weight o) &&
  fits_int8 (o_ActiveEpoch o) && fits_int8 (o_ExitEpoch o).

Lemma operator_cells_ok o : tuple_ok operators_Schema (operator_cells o) = operator_row o.
Proof.
  unfold tuple_ok, operator_row. simpl. rewrite num_cell_ok. cbn [has_type].
  same_conditions.
Qed.

Lemma blacklist_cells_ok b :
  tuple_ok blacklist_Schema (blacklist_cells b) =
  match blacklist_row_ok b with Ok _ => true | _ => false end.
Proof.
  unfold tuple_ok, blacklist_row_ok. destruct b as [p n c u x]. simpl. unfold has_type, require.
  destruct (fits_varchar 128 p), (fits_int4 n), (0 <=? n), x as [x|]; simpl; try done;
    by destruct (c <? x).
Qed.

Definition consensus_row (c : ConsensusResponse) : bool :=
  fits_int4 (c_Epoch c) && fits_int4 (c_ChainID c) && fits_int8 (c_BlockNumber c) &&
  fits_varchar 66 (c_TaskID c) && fits_varchar 42 (c_TargetAddress c) &&
  forallb (fits_varchar 42) (c_OperatorAddresses c) && num_ok (c_Value c) && num_ok (c_Key c).

Lemma consensus_cells_ok c : tuple_ok consensus_responses_Schema (consensus_cells c) = consensus_row c.
Proof.
  unfold tuple_ok, consensus_row. simpl. rewrite !num_cell_ok. cbn [has_type].
  same_conditions.
Qed.

(** ** The statements of the repositories are the declared ones *)

Section agreement.
Context `{Env}.
Hypothesis Hnil : nil_is_integer.

(** What a numeric parameter that is not NULL stores *)
Lemma numeric_arg_ok n k : numeric_arg n = Ok (Some k) -> num_ok k = true.
Proof.
  unfold numeric_arg, num_ok. destruct (nValid n) eqn:Ev; [|done]. destruct (nInt n) as [i|] eqn:Ei.
  - intros [= <-]. by rewrite Ev, Ei.
  - intros (m & Hm & [= <-])%res_bind_Ok. destruct (Hnil m Hm) as (x & -> & _ & i' & -> & _). done.
Qed.

(** A table without unique constraints besides its key *)
Lemma put_free T k r m : tb_unique T = [] -> put T k r m = Some (<[k := r]> m).
Proof.
  intros E. unfold put, clashes. rewrite E. simpl.
  by induction (table_rows (delete k m)).
Qed.

(** A parameter and the cell of the field it is scanned into *)
Definition null_numeric : Numeric := mkNumeric None 0 false.

Lemma numeric_arg_cell n v : numeric_arg n = Ok v ->
  CNumeric <$> v = num_cell (default null_numeric v).
Proof. intros E. destruct v as [k|]; [|done]. symmetry. exact (num_cell_Some k (numeric_arg_ok n k E)). Qed.

Lemma numeric_arg_num n v : numeric_arg n = Ok v ->
  num_ok (default null_numeric v) = bool_decide (is_Some v).
Proof. intros E. destruct v as [k|]; [exact (numeric_arg_ok n k E)|done]. Qed.

Lemma numeric_arg_null n v : numeric_arg n = Ok v ->
  negb (nValid (default null_numeric v)) || num_ok (default null_numeric v) = true.
Proof.
  intros E. destruct v as [k|]; [|done]. simpl. rewrite (numeric_arg_ok n k E). apply orb_true_r.
Qed.

(** A condition that both sides check: when it fails, both refuse. *)
Ltac condition :=
  match goal with
  | |- context [require (?b && _) _] => condition_of b
  | |- context [require ?b _] => condition_of b
  end
with condition_of b :=
  lazymatch b with
  | ?b1 && _ => condition_of b1
  | true => fail
  | _ => destruct b; simpl; [|done]
  end.

(** Both sides accepted: the table is as told and the others are untouched. *)
Ltac same_rows := split; [simpl; by rewrite ?fmap_insert, ?fmap_delete|by intros []].

Lemma createTask_runs arg : runs_as T_tasks (sql_createTask arg) (createTask arg).
Proof.
  intros now d Hd. unfold createTask, sql_createTask.
  destruct (numeric_arg (ct_Key arg)) as [key|e|s] eqn:Ek; simpl; [|done..].
  destruct (numeric_arg (ct_Value arg)) as [value|e|s] eqn:Ev; simpl; [|done..].
  unfold exec. set (row := mkTasks (ct_TaskID arg) (ct_ChainID arg) (ct_TargetAddress arg)
    (default null_numeric key) (ct_BlockNumber arg) (default null_numeric value)
    (ct_Epoch arg) (ct_Status arg) (ct_RequiredConfirmations arg) 0 now now).
  match goal with |- context [new_row now tasks_Schema ?vs] =>
    assert (new_row now tasks_Schema vs = task_cells row) as -> end.
  { unfold new_row, task_cells. simpl.
    by rewrite (numeric_arg_cell _ _ Ek), (numeric_arg_cell _ _ Ev). }
  rewrite task_cells_ok. unfold task_row. simpl.
  rewrite (numeric_arg_num _ _ Ek).
  rewrite (numeric_arg_null _ _ Ev), lookup_fmap.
  repeat condition. destruct key as [k|]; [|done]. simpl.
  destruct (db_tasks d !! ct_TaskID arg) eqn:El; simpl; [done|].
  rewrite put_free by done. same_rows.
Qed.

(** *** Updates and deletions *)

Lemma alter_Some {A} (f : A -> A) k (m : gmap string A) x :
  m !! k = Some x -> alter f k m = <[k := f x]> m.
Proof.
  intros E. apply map_eq. intros k'. destruct (decide (k' = k)) as [->|].
  - by rewrite lookup_alter_eq, lookup_insert_eq, E.
  - by rewrite lookup_alter_ne, lookup_insert_ne.
Qed.

Lemma alter_None {A} (f : A -> A) k (m : gmap string A) : m !! k = None -> alter f k m = m.
Proof.
  intros E. apply map_eq. intros k'. destruct (decide (k' = k)) as [->|].
  - by rewrite lookup_alter_eq, E.
  - by rewrite lookup_alter_ne.
Qed.

(** An update of one row by its key, to a row [upd] with the same key *)
Lemma exec_update T sets k now m old upd : tb_unique T = [] -> m !! k = Some old ->
  set_row now sets [] old = upd -> key_of T upd = Some k ->
  exec T (UpdateByKey k sets) now m = if tuple_ok T upd then Some (<[k := upd]> m) else None.
Proof.
  intros Eu El E Ek. unfold exec. rewrite El, E, Ek, bool_decide_eq_true_2, andb_true_r by done.
  by rewrite put_free.
Qed.

Lemma exec_update_none T sets k now m : m !! k = None -> exec T (UpdateByKey k sets) now m = Some m.
Proof. intros El. unfold exec. by rewrite El. Qed.

(** The rows of a database that conforms *)
Lemma conforms_task d k t : conforms d -> db_tasks d !! k = Some t ->
  task_row t = true /\ t_TaskID t = k.
Proof.
  intros Hd E. destruct (Hd T_tasks) as [Hr Hk _]. simpl in *.
  specialize (Hr k (task_cells t)). specialize (Hk k (task_cells t)).
  rewrite lookup_fmap, E in Hr, Hk. rewrite <- task_cells_ok. split; [by apply Hr|].
  by injection (Hk eq_refl).
Qed.

Lemma conforms_operator d k o : conforms d -> db_operators d !! k = Some o ->
  operator_row o = true /\ o_Address o = k.
Proof.
  intros Hd E. destruct (Hd T_operators) as [Hr Hk _]. simpl in *.
  specialize (Hr k (operator_cells o)). specialize (Hk k (operator_cells o)).
  rewrite lookup_fmap, E in Hr, Hk. rewrite <- operator_cells_ok. split; [by apply Hr|].
  by injection (Hk eq_refl).
Qed.

Lemma conforms_blacklist d k b : conforms d -> db_blacklist d !! k = Some b -> b_PeerID b = k.
Proof.
  intros Hd E. destruct (Hd T_blacklist) as [_ Hk _]. simpl in *.
  specialize (Hk k (blacklist_cells b)). rewrite lookup_fmap, E in Hk. by injection (Hk eq_refl).
Qed.

Lemma task_row_retry n now t : task_row t = true -> task_row (task_with_retry n now t) = fits_int2 n.
Proof. unfold task_row. rewrite andb_true_iff. intros [E _]. simpl. by rewrite E. Qed.

Lemma task_row_status s now t : s <> TaskStatusZero -> task_row t = true ->
  task_row (task_with_status s now t) = true.
Proof.
  intros Hs. unfold task_row. rewrite !andb_true_iff. simpl. rewrite !bool_decide_eq_true. tauto.
Qed.

Lemma incrementRetryCount_runs id :
  runs_as T_tasks (sql_incrementRetryCount id) (Ok (incrementRetryCount id)).
Proof.
  intros now d Hd. unfold sql_incrementRetryCount, incrementRetryCount.
  destruct (db_tasks d !! id) as [t|] eqn:El.
  - destruct (conforms_task d id t Hd El) as [Ht <-].
    rewrite (exec_update _ _ _ _ _ (task_cells t) (task_cells (task_with_retry (t_RetryCount t + 1) now t)));
      [|done|simpl; by rewrite lookup_fmap, El|done|done].
    simpl schema. rewrite task_cells_ok, task_row_retry by done.
    condition. same_rows.
  - rewrite exec_update_none by (simpl; by rewrite lookup_fmap, El). done.
Qed.

Lemma updateStatus_runs s id : s <> TaskStatusZero -> runs_as T_tasks (sql_updateStatus s id)
  (Ok (UpdateByKey id [("status", text (TaskStatus_string s)); touch])).
Proof.
  intros Hs now d Hd. unfold sql_updateStatus.
  destruct (db_tasks d !! id) as [t|] eqn:El.
  - destruct (conforms_task d id t Hd El) as [Ht <-].
    rewrite (exec_update _ _ _ _ _ (task_cells t) (task_cells (task_with_status s now t)));
      [|done|simpl; by rewrite lookup_fmap, El|done|done].
    simpl schema. rewrite task_cells_ok, task_row_status by done.
    rewrite (alter_Some _ _ _ t) by done. same_rows.
  - rewrite exec_update_none by (simpl; by rewrite lookup_fmap, El).
    by rewrite alter_None.
Qed.

Lemma deleteTaskByID_runs id : runs_as T_tasks (sql_deleteTaskByID id) (Ok (deleteTaskByID id)).
Proof. intros now d Hd. same_rows. Qed.

Lemma unblockNode_runs id : runs_as T_blacklist (sql_unblockNode id) (Ok (unblockNode id)).
Proof. intros now d Hd. same_rows. Qed.

Lemma cleanupOldTasks_runs : runs_as T_tasks sql_cleanupOldTasks (Ok cleanupOldTasks).
Proof.
  intros now d Hd. split; [|by intros []]. simpl. rewrite map_filter_fmap. f_equal.
  apply map_filter_ext. intros k t _. simpl. unfold day_us.
  rewrite <- not_true_iff_false, andb_true_iff, Z.ltb_lt. apply not_iff_compat, and_iff_compat_l.
  rewrite bool_decide_eq_true, list_elem_of_singleton.
  destruct (t_Status t); split; intros E; try done; discriminate E.
Qed.

Lemma cleanExpiredBlocks_runs :
  runs_as T_blacklist sql_cleanExpiredBlocks (Ok cleanExpiredBlocks).
Proof.
  intros now d Hd. split; [|by intros []]. simpl. rewrite map_filter_fmap. f_equal.
  apply map_filter_ext. intros k b _. unfold expired, get. simpl.
  destruct (b_ExpiresAt b); reflexivity.
Qed.

(** *** Inserts *)

Lemma blacklist_row_no_panic b s : blacklist_row_ok b <> Panic s.
Proof.
  unfold blacklist_row_ok, require. destruct (fits_varchar _ _), (fits_int4 _); simpl; try done.
  by destruct (_ && _).
Qed.

Lemma u32_fits_int8 x : is_u32 x -> fits_int8 x = true.
Proof. unfold is_u32, fits_int8. intros Hx. apply andb_true_iff. rewrite Z.leb_le, Z.ltb_lt. lia. Qed.

Lemma incrementViolationCount_runs arg :
  runs_as T_blacklist (sql_incrementViolationCount arg) (Ok (incrementViolationCount arg)).
Proof.
  intros now d Hd. unfold sql_incrementViolationCount, incrementViolationCount, exec.
  set (new := mkBlacklist _ _ _ _ _).
  match goal with |- context [new_row now ?T ?vs] =>
    change (new_row now T vs) with (blacklist_cells new) end.
  simpl schema. rewrite blacklist_cells_ok.
  destruct (blacklist_row_ok new) as [[]|e|s] eqn:En; simpl; [|done|by destruct (blacklist_row_no_panic _ _ En)].
  rewrite lookup_fmap. destruct (db_blacklist d !! iv_PeerID arg) as [old|] eqn:El; simpl.
  - set (upd := mkBlacklist _ _ _ _ _).
    match goal with |- context [set_row now ?sets ?new ?old] =>
      change (set_row now sets new old) with (blacklist_cells upd) end.
    rewrite blacklist_cells_ok.
    destruct (blacklist_row_ok upd) as [[]|e|s] eqn:Eu; simpl;
      [|done|by destruct (blacklist_row_no_panic _ _ Eu)].
    rewrite bool_decide_eq_true_2 by (rewrite <- (conforms_blacklist d _ old Hd El); done).
    rewrite put_free by done. same_rows.
  - rewrite put_free by done. same_rows.
Qed.

Lemma updateOperatorExitEpoch_runs arg : is_u32 (ue_ExitEpoch arg) ->
  runs_as T_operators (sql_updateOperatorExitEpoch arg) (Ok (updateOperatorExitEpoch arg)).
Proof.
  intros Hu now d Hd. unfold sql_updateOperatorExitEpoch, updateOperatorExitEpoch.
  destruct (db_operators d !! ue_Address arg) as [o|] eqn:El.
  - destruct (conforms_operator d _ o Hd El) as [Ho Ek].
    rewrite (exec_update _ _ _ _ _ (operator_cells o) (operator_cells (with_exit_epoch (ue_ExitEpoch arg) now o)));
      [|done|simpl; by rewrite lookup_fmap, El|done|by rewrite <- Ek].
    simpl schema. rewrite operator_cells_ok.
    replace (operator_row _) with true; [same_rows|].
    revert Ho. unfold operator_row. rewrite andb_true_iff. intros [Ho _]. simpl. rewrite Ho.
    by rewrite u32_fits_int8.
  - rewrite exec_update_none by (simpl; by rewrite lookup_fmap, El). done.
Qed.

Lemma updateOperatorState_runs arg :
  runs_as T_operators (sql_updateOperatorState arg) (updateOperatorState arg).
Proof.
  intros now d Hd. unfold sql_updateOperatorState, updateOperatorState.
  destruct (numeric_arg (us_Weight arg)) as [weight|e|s] eqn:Ew; simpl; [|done..].
  destruct (db_operators d !! us_Address arg) as [o|] eqn:El.
  - destruct (conforms_operator d _ o Hd El) as [Ho Ek].
    rewrite (exec_update _ _ _ _ _ (operator_cells o) (operator_cells
      (with_state (us_IsActive arg) (default null_numeric weight) (us_SigningKey arg) (us_P2pKey arg) now o)));
      [|done|simpl; by rewrite lookup_fmap, El|cbn; by rewrite (numeric_arg_cell _ _ Ew)|by rewrite <- Ek].
    simpl schema. rewrite operator_cells_ok. unfold operator_row in *. simpl.
    rewrite (numeric_arg_num _ _ Ew). revert Ho. rewrite !andb_true_iff.
    intros [[[[[[-> ->] _] _] _] ->] ->]. simpl.
    repeat condition. destruct weight; [same_rows|done].
  - rewrite exec_update_none by (simpl; by rewrite lookup_fmap, El). done.
Qed.

Lemma upsertOperator_runs arg : is_u32 (up_ActiveEpoch arg) -> is_u32 (up_ExitEpoch arg) ->
  runs_as T_operators (sql_upsertOperator arg) (upsertOperator arg).
Proof.
  intros Ha He now d Hd. unfold sql_upsertOperator, upsertOperator.
  destruct (numeric_arg (up_Weight arg)) as [weight|e|s] eqn:Ew; simpl; [|done..].
  unfold exec. set (row created := mkOperators (up_Address arg) (up_SigningKey arg) (up_P2pKey arg)
    (up_RegisteredAtBlockNumber arg) (up_ActiveEpoch arg) (up_ExitEpoch arg) (up_IsActive arg)
    (default null_numeric weight) created now).
  match goal with |- context [new_row now ?T ?vs] =>
    assert (new_row now T vs = operator_cells (row now)) as -> end.
  { unfold new_row, operator_cells. simpl. by rewrite (numeric_arg_cell _ _ Ew). }
  assert (forall created, tuple_ok operators_Schema (operator_cells (row created)) =
    fits_int8 (up_RegisteredAtBlockNumber arg) && fits_varchar 42 (up_Address arg) &&
    fits_varchar 42 (up_SigningKey arg) && fits_varchar 42 (up_P2pKey arg) &&
    bool_decide (is_Some weight)) as Hrow.
  { intros created. rewrite operator_cells_ok. unfold operator_row. simpl.
    by rewrite (numeric_arg_num _ _ Ew), (u32_fits_int8 _ Ha), (u32_fits_int8 _ He), !andb_true_r. }
  cbn [contents schema]. rewrite !Hrow. simpl. rewrite lookup_fmap.
  revert Hrow. repeat condition. intros Hrow. destruct weight as [wt|]; [|done]. simpl.
  destruct (db_operators d !! up_Address arg) as [old|] eqn:El; simpl.
  - destruct (conforms_operator d _ old Hd El) as [_ Ek].
    match goal with |- context [set_row now ?sets ?new ?old'] =>
      assert (set_row now sets new old' = operator_cells (row (o_CreatedAt old))) as ->
        by (cbn; by rewrite Ek) end.
    rewrite Hrow. simpl. rewrite bool_decide_eq_true_2 by done.
    rewrite put_free by done. same_rows.
  - rewrite put_free by done. same_rows.
Qed.

Lemma table_rows_fmap {A B} (f : A -> B) (m : gmap string A) x :
  x ∈ table_rows (f <$> m) <-> exists y, x = f y /\ y ∈ table_rows m.
Proof.
  rewrite elem_of_table_rows. setoid_rewrite elem_of_table_rows. split.
  - intros (k & Hk). rewrite lookup_fmap in Hk. apply fmap_Some in Hk as (y & Hy & ->). eauto.
  - intros (y & -> & k & Hk). exists k. by rewrite lookup_fmap, Hk.
Qed.

(** The unique constraint of the consensus table is on the request. *)
Lemma consensus_clash r m : num_ok (c_Key r) = true ->
  existsb (clashes consensus_responses_Schema (consensus_cells r)) (table_rows (consensus_cells <$> m)) =
  existsb (same_request (c_TargetAddress r) (c_ChainID r) (c_BlockNumber r) (c_Key r)) (table_rows m).
Proof.
  intros Hk. assert (forall r', clashes consensus_responses_Schema (consensus_cells r) (consensus_cells r') =
    same_request (c_TargetAddress r) (c_ChainID r) (c_BlockNumber r) (c_Key r) r') as Hc.
  { intros r'. unfold clashes, clash, get. simpl. rewrite (num_cell_Some _ Hk), orb_false_r.
    unfold same_request. rewrite (bool_decide_ext _ (c_TargetAddress r' = c_TargetAddress r)) by done.
    rewrite (Z.eqb_sym (c_ChainID r')), (Z.eqb_sym (c_BlockNumber r')), numeric_eqb_sym.
    rewrite <- !andb_assoc. do 3 f_equal. rewrite andb_true_r. unfold num_cell.
    destruct (nValid (c_Key r')) eqn:E; simpl; [done|].
    unfold numeric_eqb. rewrite E. by destruct (nValid (c_Key r)), (nInt (c_Key r)). }
  apply eq_iff_eq_true. rewrite !existsb_exists. setoid_rewrite <- list_elem_of_In.
  setoid_rewrite table_rows_fmap. split.
  - intros (x & (r' & -> & Hr') & Hx). exists r'. by rewrite <- Hc.
  - intros (r' & Hr' & Hx). exists (consensus_cells r'). rewrite Hc. eauto.
Qed.

Lemma createConsensusResponse_runs arg :
  runs_as T_consensus_responses (sql_createConsensusResponse arg) (createConsensusResponse arg).
Proof.
  intros now d Hd. unfold createConsensusResponse, sql_createConsensusResponse.
  destruct (numeric_arg (cp_Value arg)) as [value|e|s] eqn:Ev; simpl; [|done..].
  destruct (numeric_arg (cp_Key arg)) as [key|e|s] eqn:Ek; simpl; [|done..].
  unfold exec. set (row := mkConsensusResponse (cp_TaskID arg) (cp_Epoch arg) (cp_ChainID arg)
    (cp_TargetAddress arg) (cp_BlockNumber arg) (default null_numeric key)
    (default null_numeric value) (cp_AggregatedSignatures arg) (cp_OperatorAddresses arg) now now).
  match goal with |- context [new_row now ?T ?vs] =>
    assert (new_row now T vs = consensus_cells row) as -> end.
  { unfold new_row, consensus_cells. simpl.
    by rewrite (numeric_arg_cell _ _ Ek), (numeric_arg_cell _ _ Ev). }
  rewrite consensus_cells_ok. unfold consensus_row. simpl.
  rewrite (numeric_arg_num _ _ Ek), (numeric_arg_num _ _ Ev), lookup_fmap.
  repeat condition. destruct value as [v|]; [|done]. destruct key as [k|]; [|done]. simpl.
  destruct (db_consensus d !! cp_TaskID arg) as [old|] eqn:El; simpl; [done|].
  unfold put.
  rewrite delete_id by by rewrite lookup_fmap, El.
  rewrite consensus_clash by exact (numeric_arg_ok _ _ Ek). simpl.
  destruct (existsb _ _); [done|]. same_rows.
Qed.

(** C9: the statements mean what their SQL says.  Each of the statements that
    change a table, as the repositories are modelled with it, succeeds on a
    database that conforms exactly when the statement as it is written
    succeeds under the table as it is declared, refused values, checks and
    keys included, and then leaves the same rows in that table and the other
    tables alone. *)
Theorem statements_as_declared :
  (forall arg, runs_as T_tasks (sql_createTask arg) (createTask arg)) /\
  (forall id, runs_as T_tasks (sql_deleteTaskByID id) (Ok (deleteTaskByID id))) /\
  (forall id, runs_as T_tasks (sql_incrementRetryCount id) (Ok (incrementRetryCount id))) /\
  (forall id, runs_as T_tasks (sql_updateTaskToCompleted id) (Ok (updateTaskToCompleted id))) /\
  (forall id, runs_as T_tasks (sql_updateTaskToPending id) (Ok (updateTaskToPending id))) /\
  runs_as T_tasks sql_cleanupOldTasks (Ok cleanupOldTasks) /\
  runs_as T_blacklist sql_cleanExpiredBlocks (Ok cleanExpiredBlocks) /\
  (forall arg, runs_as T_blacklist (sql_incrementViolationCount arg) (Ok (incrementViolationCount arg))) /\
  (forall id, runs_as T_blacklist (sql_unblockNode id) (Ok (unblockNode id))) /\
  (forall arg, is_u32 (ue_ExitEpoch arg) ->
    runs_as T_operators (sql_updateOperatorExitEpoch arg) (Ok (updateOperatorExitEpoch arg))) /\
  (forall arg, runs_as T_operators (sql_updateOperatorState arg) (updateOperatorState arg)) /\
  (forall arg, is_u32 (up_ActiveEpoch arg) -> is_u32 (up_ExitEpoch arg) ->
    runs_as T_operators (sql_upsertOperator arg) (upsertOperator arg)) /\
  (forall arg, runs_as T_consensus_responses (sql_createConsensusResponse arg)
    (createConsensusResponse arg)).
Proof.
  split_and!; auto using createTask_runs, deleteTaskByID_runs, incrementRetryCount_runs,
    cleanupOldTasks_runs, cleanExpiredBlocks_runs, incrementViolationCount_runs, unblockNode_runs,
    updateOperatorExitEpoch_runs, updateOperatorState_runs, upsertOperator_runs,
    createConsensusResponse_runs.
  - intros id. by apply updateStatus_runs.
  - intros id. by apply updateStatus_runs.
Qed.
End agreement.

(** ** Example: a task is created as its declaration asks *)

Definition toy_task_arg : CreateTaskParams :=
  mkCreateTaskParams "task" "0x01" 1 7698500 8 (BigIntToNumeric (Some 3)) (BigIntToNumeric (Some 5))
    TaskStatusPending 12.

Definition one_task (r : res (DB * Tasks)) : bool :=
  match r with Ok (d, _) => bool_decide (size (db_tasks d) = 1%nat) | _ => false end.

Lemma empty_conforms : conforms empty_db.
Proof. intros []; simpl; rewrite fmap_empty; apply table_ok_empty. Qed.

Lemma statements_as_declared_witness :
  one_task (@sql_createTask toy_env toy_task_arg 1 empty_db) = true /\
  @runs_as Tasks T_tasks (@sql_createTask toy_env toy_task_arg) (@createTask toy_env toy_task_arg).
Proof.
  split; [vm_compute; reflexivity|].
  apply (@statements_as_declared toy_env); intros m [=].
Defined.

(** A status that is none of the three is refused, as is a chain ID that does
    not fit INT4. *)
Example refused_by_check :
  exec tasks_Schema (Insert [("task_id", text "t"); ("chain_id", int 1); ("target_address", text "a");
    ("key", numeric (Some (BigIntToNumeric (Some 1)))); ("epoch", int 0); ("status", text "done")] None)
    0 ∅ = None.
Proof. vm_compute. reflexivity. Qed.

Example refused_by_range :
  exec tasks_Schema (Insert [("task_id", text "t"); ("chain_id", int (2 ^ 31)); ("target_address", text "a");
    ("key", numeric (Some (BigIntToNumeric (Some 1)))); ("epoch", int 0); ("status", text "pending")] None)
    0 ∅ = None.
Proof. vm_compute. reflexivity. Qed.

Example accepted_with_defaults :
  is_Some (exec tasks_Schema (Insert [("task_id", text "t"); ("chain_id", int 1);
    ("target_address", text "a"); ("key", numeric (Some (BigIntToNumeric (Some 1))));
    ("epoch", int 0); ("status", text "pending")] None) 0 ∅).
Proof. vm_compute. eauto. Qed.
