(* ===== verification/Schema.v ===== *)
(** * The database under every statement the node runs

    [db_step] is one statement of one of the four repositories.  A predicate
    that every statement keeps ([closed]) holds after any interleaving of
    statements, so also after any interleaving of handlers, within a
    transaction or not.  An epoch, which the Go code holds in a [uint32], is
    within its range. *)

From S2P Require Import Prelude GoInt GoString Numeric EpochMath Models World.
From S2P Require Import TasksRepo BlacklistRepo OperatorsRepo ConsensusRepo Sql Tables.

Section schema.
Context `{Env}.

Inductive db_step (now : Z) (d d' : DB) : Prop :=
  | st_read : d' = d -> db_step now d d'
  | st_createTask arg r : sql_createTask arg now d = Ok (d', r) -> db_step now d d'
  | st_deleteTaskByID id r : sql_deleteTaskByID id now d = Ok (d', r) -> db_step now d d'
  | st_incrementRetryCount id r : sql_incrementRetryCount id now d = Ok (d', r) -> db_step now d d'
  | st_updateTaskToCompleted id r :
      sql_updateTaskToCompleted id now d = Ok (d', r) -> db_step now d d'
  | st_updateTaskToPending id r :
      sql_updateTaskToPending id now d = Ok (d', r) -> db_step now d d'
  | st_cleanupOldTasks r : sql_cleanupOldTasks now d = Ok (d', r) -> db_step now d d'
  | st_cleanExpiredBlocks r : sql_cleanExpiredBlocks now d = Ok (d', r) -> db_step now d d'
  | st_incrementViolationCount arg r :
      sql_incrementViolationCount arg now d = Ok (d', r) -> db_step now d d'
  | st_unblockNode id r : sql_unblockNode id now d = Ok (d', r) -> db_step now d d'
  | st_updateOperatorExitEpoch arg r : is_u32 (ue_ExitEpoch arg) ->
      sql_updateOperatorExitEpoch arg now d = Ok (d', r) -> db_step now d d'
  | st_updateOperatorState arg r :
      sql_updateOperatorState arg now d = Ok (d', r) -> db_step now d d'
  | st_upsertOperator arg r : is_u32 (up_ActiveEpoch arg) -> is_u32 (up_ExitEpoch arg) ->
      sql_upsertOperator arg now d = Ok (d', r) -> db_step now d d'
  | st_createConsensusResponse arg r :
      sql_createConsensusResponse arg now d = Ok (d', r) -> db_step now d d'.

Definition closed (D : DB -> Prop) : Prop := forall now d d', D d -> db_step now d d' -> D d'.

(** ** What the schema promises *)

Definition task_row_ok (id : string) (t : Tasks) : Prop :=
  t_TaskID t = id /\ t_Status t <> TaskStatusZero /\ 0 <= t_RetryCount t < 2 ^ 15.

Definition blacklist_keyed (id : string) (b : Blacklist) : Prop :=
  b_PeerID b = id /\ 0 <= b_ViolationCount b < 2 ^ 31.

(** Two rows answer the same request. *)
Definition same_answer (r1 r2 : ConsensusResponse) : Prop :=
  same_request (c_TargetAddress r1) (c_ChainID r1) (c_BlockNumber r1) (c_Key r1) r2 = true.

(** One row per request, filed under its task. *)
Definition consensus_table_ok (m : gmap string ConsensusResponse) : Prop :=
  map_Forall (fun id r => c_TaskID r = id) m /\
  forall id1 id2 r1 r2, m !! id1 = Some r1 -> m !! id2 = Some r2 -> same_answer r1 r2 -> id1 = id2.

Record db_ok (d : DB) : Prop := {
  ok_tasks : map_Forall task_row_ok (db_tasks d);
  ok_operators : map_Forall (fun a o => o_Address o = a) (db_operators d);
  ok_blacklist : map_Forall blacklist_keyed (db_blacklist d);
  ok_consensus : consensus_table_ok (db_consensus d);
}.

Lemma same_answer_sym r1 r2 : same_answer r1 r2 -> same_answer r2 r1.
Proof.
  unfold same_answer, same_request. rewrite !andb_true_iff, !bool_decide_eq_true, !Z.eqb_eq.
  intros [[[-> ->] ->] Hk]. rewrite numeric_eqb_sym. done.
Qed.

Lemma consensus_table_insert id r m : consensus_table_ok m -> c_TaskID r = id -> m !! id = None ->
  (forall id' r', m !! id' = Some r' -> ~ same_answer r r') ->
  consensus_table_ok (<[id := r]> m).
Proof.
  intros [Hid Hu] Hr Hnone Hnew. split; [by apply map_Forall_insert_2|].
  intros id1 id2 r1 r2. rewrite !lookup_insert_Some.
  intros [[<- <-]|[? H1]] [[<- <-]|[? H2]] Hs; [done| | |by eauto].
  - by destruct (Hnew _ _ H2).
  - by destruct (Hnew _ _ H1); apply same_answer_sym.
Qed.

Lemma task_row_alter s now id (m : gmap string Tasks) : s <> TaskStatusZero ->
  map_Forall task_row_ok m -> map_Forall task_row_ok (alter (task_with_status s now) id m).
Proof.
  intros Hs Hm id' t. destruct (decide (id' = id)) as [->|Hne].
  - rewrite lookup_alter_eq. intros (t0 & Ht & ->)%fmap_Some. apply Hm in Ht as (? & _ & ?). done.
  - rewrite lookup_alter_ne by done. apply Hm.
Qed.

Lemma fits_int4_lt x : fits_int4 x = true -> x < 2 ^ 31.
Proof. unfold fits_int4. rewrite andb_true_iff, Z.ltb_lt. lia. Qed.
Lemma fits_int2_lt x : fits_int2 x = true -> x < 2 ^ 15.
Proof. unfold fits_int2. rewrite andb_true_iff, Z.ltb_lt. lia. Qed.

(** One case per statement that changes the table at hand. *)
Ltac db_step_cases Hs :=
  destruct Hs as [->|? ? E|? ? E|? ? E|? ? E|? ? E|? E|? E|? ? E|? ? E|? ? Hu E|? ? E|? ? Hu Hu' E|? ? E];
  [done|..]; sql_unfold; try unfold sql_updateStatus in *; sql_inv; simpl; try done.

Lemma tasks_ok_step now d d' : map_Forall task_row_ok (db_tasks d) -> db_step now d d' ->
  map_Forall task_row_ok (db_tasks d').
Proof.
  intros Hm Hs; db_step_cases Hs.
  - apply map_Forall_insert_2; [|done]. split; [done|]. simpl.
    match goal with E : require (bool_decide _) _ = _ |- _ =>
      apply require_Ok, bool_decide_eq_true in E end. done.
  - by apply map_Forall_delete.
  - match goal with E : require _ _ = _, El : _ !! _ = Some _ |- _ =>
      apply require_Ok, fits_int2_lt in E; apply Hm in El as (? & ? & ?) end.
    apply map_Forall_insert_2; [|done]. split; [done|]. simpl. split; [done|lia].
  - by apply task_row_alter.
  - by apply task_row_alter.
  - intros k x [Hk _]%map_lookup_filter_Some. by apply Hm.
Qed.

Lemma operators_ok_step now d d' : map_Forall (fun a o => o_Address o = a) (db_operators d) ->
  db_step now d d' -> map_Forall (fun a o => o_Address o = a) (db_operators d').
Proof.
  intros Hm Hs; db_step_cases Hs;
    apply map_Forall_insert_2; try done; simpl; by apply Hm.
Qed.

Lemma blacklist_row_range b u : blacklist_row_ok b = Ok u -> 0 <= b_ViolationCount b < 2 ^ 31.
Proof.
  unfold blacklist_row_ok. intros (? & _ & (? & Hr & Hc)%res_bind_Ok)%res_bind_Ok.
  apply require_Ok, fits_int4_lt in Hr. apply require_Ok, andb_prop in Hc as [Hc%Z.leb_le _]. lia.
Qed.

Lemma blacklist_ok_step now d d' : map_Forall blacklist_keyed (db_blacklist d) ->
  db_step now d d' -> map_Forall blacklist_keyed (db_blacklist d').
Proof.
  intros Hm Hs; db_step_cases Hs.
  - intros k x [Hk _]%map_lookup_filter_Some. by apply Hm.
  - apply map_Forall_insert_2; [|done].
    match goal with H : blacklist_row_ok _ = Ok _, Ho : _ !! _ = Some _ |- _ =>
      apply Hm in Ho as [Hid _] end.
    match goal with H : Ok _ = Ok _ |- _ => injection H as <- end. split; [done|].
    match goal with H : blacklist_row_ok _ = Ok _ |- _ => exact (blacklist_row_range _ _ H) end.
  - apply map_Forall_insert_2; [|done].
    match goal with H : Ok _ = Ok _ |- _ => injection H as <- end. split; [done|].
    match goal with H : blacklist_row_ok _ = Ok _ |- _ => exact (blacklist_row_range _ _ H) end.
  - by apply map_Forall_delete.
Qed.

Lemma consensus_ok_step now d d' : consensus_table_ok (db_consensus d) ->
  db_step now d d' -> consensus_table_ok (db_consensus d').
Proof.
  intros Hm Hs; db_step_cases Hs.
  match goal with E : existsb _ _ = false |- _ => rename E into Hnew end.
  apply consensus_table_insert; [done|done| |].
  - apply eq_None_not_Some. by match goal with H : ~ is_Some _ |- _ => exact H end.
  - intros id' r' Hr' Hs. apply not_true_iff_false in Hnew. apply Hnew.
    apply existsb_exists. exists r'. split; [|exact Hs].
    apply list_elem_of_In, elem_of_table_rows. eauto.
Qed.

(** Every statement keeps what the schema promises. *)
Lemma db_ok_closed : closed db_ok.
Proof.
  intros now d d' [] Hs. constructor; eauto using tasks_ok_step, operators_ok_step,
    blacklist_ok_step, consensus_ok_step.
Qed.

(** Every statement keeps the four tables as they are declared. *)
Lemma conforms_closed : nil_is_integer -> closed conforms.
Proof.
  intros Hnil now d d' Hd Hs.
  destruct Hs as [->|? ? E|? ? E|? ? E|? ? E|? ? E|? E|? E|? ? E|? ? E|? ? Hu E|? ? E|? ? Hu Hu' E|? ? E];
    [done|..]; (eapply runs_as_conforms; [|exact Hd|exact E]).
  - by apply createTask_runs.
  - by apply deleteTaskByID_runs.
  - by apply incrementRetryCount_runs.
  - by apply updateStatus_runs.
  - by apply updateStatus_runs.
  - by apply cleanupOldTasks_runs.
  - by apply cleanExpiredBlocks_runs.
  - by apply incrementViolationCount_runs.
  - by apply unblockNode_runs.
  - by apply updateOperatorExitEpoch_runs.
  - by apply updateOperatorState_runs.
  - by apply upsertOperator_runs.
  - by apply createConsensusResponse_runs.
Qed.

(** No statement changes or removes a consensus row. *)
Lemma consensus_row_closed id row : closed (fun d => db_consensus d !! id = Some row).
Proof.
  intros now d d' Hrow Hs; db_step_cases Hs.
  apply lookup_insert_Some. right. split; [|done]. intros <-.
  match goal with H : ~ is_Some _ |- _ => apply H; eauto end.
Qed.
End schema.
