(* ===== verification/EthLib.v ===== *)
(** * go-ethereum and libp2p as the code sees them

    The functions of these libraries are parameters; the [...Ok] classes state
    the documented behaviour that theorems rely on.  An address is its bytes,
    a [peer.ID] the string it is in Go. *)

From S2P Require Import Prelude GoInt GoString.

Class EthLib := {
  HexToAddress : string -> bytes;
  IsHexAddress : string -> bool;
  Address_Hex : bytes -> string;
  LeftPadBytes : bytes -> nat -> bytes;
  Keccak256 : bytes -> bytes;
  PrivateKey : Type;
  PublicKey : Type;
  PublicKey_of : PrivateKey -> PublicKey;
  ecdsa_Sign : bytes -> PrivateKey -> res bytes;
  SigToPub : bytes -> bytes -> res PublicKey;
  PubkeyToAddress : PublicKey -> bytes;
}.

Class EthLibOk `{EthLib} := {
  HexToAddress_length : forall s, length (HexToAddress s) = 20%nat;
  HexToAddress_Hex : forall a, length a = 20%nat -> Forall is_byte a ->
    HexToAddress (Address_Hex a) = a;
  LeftPadBytes_short : forall bs n, (length bs <= n)%nat ->
    LeftPadBytes bs n = replicate (n - length bs) 0 ++ bs;
  LeftPadBytes_long : forall bs n, (n < length bs)%nat -> LeftPadBytes bs n = bs;
  SigToPub_Sign : forall h k s, ecdsa_Sign h k = Ok s -> SigToPub h s = Ok (PublicKey_of k);
}.

Class P2PLib := {
  p2pPubKey : Type;
  PeerID_String : string -> string;
  ExtractPublicKey : string -> res p2pPubKey;
  MarshalPublicKey : p2pPubKey -> res bytes;
  p2p_Keccak256 : bytes -> bytes;
}.

Class P2PLibOk `{P2PLib} := {
  p2p_Keccak256_length : forall bs, length (p2p_Keccak256 bs) = 32%nat;
}.

(** [ethcommon.Bytes2Hex] is [hex.EncodeToString]. *)
Definition Bytes2Hex (bs : bytes) : string := hex_EncodeToString bs.

(** pkg/common/utils.go, [PeerIDToP2PKey]: the last 20 bytes of the hash of
    the public key, in lower-case hex *)
Definition PeerIDToP2PKey `{P2PLib} (peerID : string) : res string :=
  let? pubKey := text_res "failed to extract public key" (ExtractPublicKey peerID) in
  let? pubKeyBytes := text_res "failed to marshal public key" (MarshalPublicKey pubKey) in
  let hash := p2p_Keccak256 pubKeyBytes in
  let address := drop (length hash - 20) hash in
  let hexStr := hex_EncodeToString address in
  Ok ("0x" +:+ ToLower hexStr).

(** ** Facts *)

Lemma ToLower_app s t : ToLower (s +:+ t) = ToLower s +:+ ToLower t.
Proof.
  unfold ToLower. rewrite chars_app, map_app. unfold of_chars.
  induction (map lower_ascii (chars s)) as [|c l IH]; simpl; [done|]. by rewrite IH.
Qed.

(** A p2p key computed from a peer ID is already in lower case. *)
Lemma PeerIDToP2PKey_lower `{P2PLib} p k : PeerIDToP2PKey p = Ok k -> ToLower k = k.
Proof.
  unfold PeerIDToP2PKey. destruct (ExtractPublicKey p) as [pk|e|s]; simpl; try done.
  destruct (MarshalPublicKey pk) as [bs|e|s]; simpl; try done.
  intros [= <-]. by rewrite ToLower_app, ToLower_idemp.
Qed.

(** ** A toy instance for the examples: an address is the 20 character codes
    of its text, keys are addresses, a signature is the signer's address
    followed by the message digest. *)

Definition toy_pad (bs : bytes) (n : nat) : bytes := replicate (n - length bs) 0 ++ bs.

Definition toy_HexToAddress (s : string) : bytes :=
  take 20 (string_bytes s ++ replicate 20 0).

Definition toy_Hex (a : bytes) : string := of_chars (map (fun b => ascii_of_nat (Z.to_nat b)) a).

Definition toy_SigToPub (h s : bytes) : res bytes :=
  if decide (drop 20 s = h) then Ok (take 20 s) else Err (Errorf "invalid signature").

Definition toy_eth : EthLib := {|
  HexToAddress := toy_HexToAddress;
  IsHexAddress := fun s => Nat.eqb (String.length s) 20;
  Address_Hex := toy_Hex;
  LeftPadBytes := toy_pad;
  Keccak256 := fun bs => bs;
  PrivateKey := { a : bytes | bool_decide (length a = 20%nat) = true };
  PublicKey := bytes;
  PublicKey_of := fun k => proj1_sig k;
  ecdsa_Sign := fun h k => Ok (proj1_sig k ++ h);
  SigToPub := toy_SigToPub;
  PubkeyToAddress := fun a => a;
|}.

Lemma toy_char_bytes a :
  Forall is_byte a ->
  map (fun c => Z.of_nat (nat_of_ascii c))
      (map (fun b => ascii_of_nat (Z.to_nat b)) a) = a.
Proof.
  intros Ha. rewrite map_map. induction Ha as [|b a Hb Ha IH]; simpl; [done|].
  rewrite IH, nat_ascii_embedding by (unfold is_byte in Hb; lia).
  unfold is_byte in Hb. f_equal. lia.
Qed.

#[export] Instance toy_eth_ok : @EthLibOk toy_eth.
Proof.
  constructor; simpl.
  - intros s. unfold toy_HexToAddress. rewrite length_take, length_app, length_replicate. lia.
  - intros a Hl Ha. unfold toy_HexToAddress, toy_Hex, string_bytes.
    rewrite chars_of_chars, toy_char_bytes by done. by rewrite take_app_length'.
  - done.
  - intros bs n Hn. unfold toy_pad. by replace (n - length bs)%nat with O by lia.
  - intros h [a Ha] s [= <-]. pose proof (bool_decide_eq_true_1 _ Ha) as Hl. simpl.
    unfold toy_SigToPub.
    rewrite drop_app_length', take_app_length' by done. by rewrite decide_True.
Qed.

Definition toy_p2p : P2PLib := {|
  p2pPubKey := string;
  PeerID_String := fun p => p;
  ExtractPublicKey := fun p => Ok p;
  MarshalPublicKey := fun p => Ok (string_bytes p);
  p2p_Keccak256 := fun bs => take 32 (bs ++ replicate 32 0);
|}.

#[export] Instance toy_p2p_ok : @P2PLibOk toy_p2p.
Proof.
  constructor. intros bs. change (length (take 32 (bs ++ replicate 32 0)) = 32%nat).
  rewrite length_take, length_app, length_replicate. lia.
Qed.
