(* ===== verification/Signer.v ===== *)
(** * pkg/common/crypto/signer: signing and verifying task responses *)

From S2P Require Import Prelude GoInt GoString EthLib.

Record TaskSignParams := mkTaskSignParams {
  sp_User : bytes;
  sp_ChainID : Z;
  sp_BlockNumber : Z;
  sp_Key : option Z;
  sp_Value : option Z;
}.

(** The interface the task processor uses ([OperatorSigner]). *)
Class OperatorSigner := {
  SignTaskResponse : TaskSignParams -> res bytes;
  VerifyTaskResponse : TaskSignParams -> bytes -> string -> res unit;
  GetSigningAddress : bytes;
}.

(** What a signer promises: the signatures it makes verify, on any node that
    checks with [verify], against its own address. *)
Definition signer_honest `{EthLib} (S : OperatorSigner)
    (verify : TaskSignParams -> bytes -> string -> res unit) : Prop :=
  forall p sig, @SignTaskResponse S p = Ok sig ->
    verify p sig (Address_Hex (@GetSigningAddress S)) = Ok tt.

(** [hex.DecodeString] *)
Fixpoint hex_decode (l : list ascii) : option bytes :=
  match l with
  | [] => Some []
  | a :: b :: l' =>
      if (digit_val a <? 16) && (digit_val b <? 16) then
        (fun bs => digit_val a * 16 + digit_val b :: bs) <$> hex_decode l'
      else None
  | _ => None
  end.

(** [strings.TrimPrefix(s, "0x")] *)
Definition TrimPrefix0x (s : string) : string :=
  match chars s with
  | "0"%char :: "x"%char :: l => of_chars l
  | _ => s
  end.

Record SignerConfig := mkSignerConfig {
  sc_SigningKeyPath : string;
  sc_SigningKey : string;
  sc_Password : string;
}.

Section signer.
Context `{EthLib}.

Record localSigner := mkLocalSigner { signingKey : PrivateKey }.

Section new.
Variable os_ReadFile : string -> res bytes.
Variable DecryptKey : bytes -> string -> res PrivateKey.
Variable ToECDSA : bytes -> res PrivateKey.

Definition NewLocalSigner (cfg : option SignerConfig) : res localSigner :=
  match cfg with
  | None => Err (Errorf "config is nil")
  | Some cfg =>
      let noPath := bool_decide (sc_SigningKeyPath cfg = "") in
      let noKey := bool_decide (sc_SigningKey cfg = "") in
      if Bool.eqb noPath noKey || (negb noPath && negb noKey) then
        Err (Errorf "exactly one of SigningKeyPath or SigningKey must be provided")
      else if negb noPath then
        let? json := wrap "failed to read signing key file"
                       (os_ReadFile (sc_SigningKeyPath cfg)) in
        let? key := wrap "failed to decrypt signing key" (DecryptKey json (sc_Password cfg)) in
        Ok (mkLocalSigner key)
      else
        match hex_decode (chars (TrimPrefix0x (sc_SigningKey cfg))) with
        | None => Err (Errorf "failed to decode private key hex string")
        | Some privateKeyBytes =>
            let? key := wrap "failed to convert private key bytes to ECDSA"
                          (ToECDSA privateKeyBytes) in
            Ok (mkLocalSigner key)
        end
  end.
End new.

Section p2p_key.
Variable p2p_PrivKey : Type.
Variable ConfigDecodeKey : string -> res bytes.
Variable UnmarshalPrivateKey : bytes -> res p2p_PrivKey.

(** The errors are formatted with [%v]: their text, without the cause. *)
Definition Base64ToPrivKey (encodedKey : string) : res p2p_PrivKey :=
  match ConfigDecodeKey encodedKey with
  | Err err => Err (Errorf ("failed to decode base64 key: " +:+ Error err))
  | Panic why => Panic why
  | Ok privKeyBytes =>
      match UnmarshalPrivateKey privKeyBytes with
      | Err err => Err (Errorf ("failed to unmarshal private key: " +:+ Error err))
      | r => r
      end
  end.
End p2p_key.

Definition local_GetSigningAddress (s : localSigner) : bytes :=
  PubkeyToAddress (PublicKey_of (signingKey s)).

(** A [*big.Int] in 32 bytes; a nil pointer panics. *)
Definition pad32 (x : option Z) : res bytes :=
  match x with
  | None => Panic "big.Int.Bytes: nil pointer dereference"
  | Some x => Ok (LeftPadBytes (big_Bytes x) 32)
  end.

(** The packed parameters that are hashed, by both methods. *)
Definition task_message (p : TaskSignParams) : res bytes :=
  let? chain := pad32 (Some (i64 (sp_ChainID p))) in
  let? block := pad32 (Some (i64 (sp_BlockNumber p))) in
  let? key := pad32 (sp_Key p) in
  let? value := pad32 (sp_Value p) in
  Ok (sp_User p ++ chain ++ block ++ key ++ value).

Definition local_SignTaskResponse (s : localSigner) (params : TaskSignParams) : res bytes :=
  let? msg := task_message params in
  let hash := Keccak256 msg in
  ecdsa_Sign hash (signingKey s).

Definition local_VerifyTaskResponse (params : TaskSignParams) (signature : bytes)
    (signerAddr : string) : res unit :=
  let? msg := task_message params in
  let hash := Keccak256 msg in
  let? pubKey := wrap "failed to recover public key" (SigToPub hash signature) in
  let recoveredAddr := PubkeyToAddress pubKey in
  if decide (Address_Hex recoveredAddr = signerAddr) then Ok tt
  else Err (Errorf "invalid signature: recovered address does not match signer").

Definition local_Sign (s : localSigner) (message : bytes) : res bytes :=
  ecdsa_Sign (Keccak256 message) (signingKey s).

(** [localSigner] implements the interface. *)
Definition localSigner_OperatorSigner (s : localSigner) : OperatorSigner := {|
  SignTaskResponse := local_SignTaskResponse s;
  VerifyTaskResponse := local_VerifyTaskResponse;
  GetSigningAddress := local_GetSigningAddress s;
|}.

(** ** The message determines the parameters *)

(** Parameters as a well-formed task has them. *)
Definition params_ok (p : TaskSignParams) : Prop :=
  length (sp_User p) = 20%nat /\ is_u32 (sp_ChainID p) /\
  0 <= sp_BlockNumber p < 2 ^ 63 /\
  exists k v, sp_Key p = Some k /\ sp_Value p = Some v /\
    0 <= k < 2 ^ 256 /\ 0 <= v < 2 ^ 256.

Context `{!EthLibOk}.

Lemma pad32_word x :
  0 <= Z.abs x < 2 ^ 256 ->
  exists w, pad32 (Some x) = Ok w /\ length w = 32%nat /\ be_val w = Z.abs x.
Proof.
  intros Hx. simpl. eexists. split; [done|].
  assert (length (big_Bytes x) <= 32)%nat as Hl.
  { apply big_Bytes_length_le. change (256 ^ Z.of_nat 32) with (2 ^ 256). lia. }
  rewrite LeftPadBytes_short by done.
  split; [rewrite length_app, length_replicate; lia|].
  by rewrite be_val_zeros, big_Bytes_val.
Qed.

(** The layout of a message: 20 bytes of address and four 32-byte words. *)
Lemma task_message_layout p :
  params_ok p ->
  exists wc wb wk wv k v,
    task_message p = Ok (sp_User p ++ wc ++ wb ++ wk ++ wv) /\
    length wc = 32%nat /\ length wb = 32%nat /\ length wk = 32%nat /\ length wv = 32%nat /\
    be_val wc = sp_ChainID p /\ be_val wb = sp_BlockNumber p /\
    sp_Key p = Some k /\ sp_Value p = Some v /\ be_val wk = k /\ be_val wv = v.
Proof.
  intros (_ & Hc & Hb & k & v & Hk & Hv & Hkr & Hvr).
  assert (0 <= sp_ChainID p < 2 ^ 63) as Hc' by (unfold is_u32 in Hc; lia).
  destruct (pad32_word (i64 (sp_ChainID p))) as (wc & Ec & Lc & Vc);
    [rewrite i64_id by done; lia|].
  destruct (pad32_word (i64 (sp_BlockNumber p))) as (wb & Eb & Lb & Vb);
    [rewrite i64_id by done; lia|].
  destruct (pad32_word k) as (wk & Ek & Lk & Vk); [lia|].
  destruct (pad32_word v) as (wv & Ev & Lv & Vv); [lia|].
  rewrite i64_id in Vc, Vb by done.
  exists wc, wb, wk, wv, k, v. unfold task_message.
  rewrite Ec, Eb, Hk, Hv, Ek, Ev. simpl. split_and!; try done; lia.
Qed.
End signer.

Definition with_block (b : Z) (p : TaskSignParams) : TaskSignParams :=
  mkTaskSignParams (sp_User p) (sp_ChainID p) b (sp_Key p) (sp_Value p).
Definition with_value (v : option Z) (p : TaskSignParams) : TaskSignParams :=
  mkTaskSignParams (sp_User p) (sp_ChainID p) (sp_BlockNumber p) (sp_Key p) v.

(** ** Properties *)

Section properties.
Context `{EthLibOk}.

(** What is signed verifies. *)
Lemma local_sign_verify s p sig :
  local_SignTaskResponse s p = Ok sig ->
  local_VerifyTaskResponse p sig (Address_Hex (local_GetSigningAddress s)) = Ok tt.
Proof.
  unfold local_SignTaskResponse, local_VerifyTaskResponse.
  destruct (task_message p) as [msg|e|m]; simpl; try done.
  intros Hs%SigToPub_Sign. rewrite Hs. simpl. by rewrite decide_True.
Qed.

(** A signature made by [SignTaskResponse] passes [VerifyTaskResponse]
    with the same parameters and the signer's own address: [localSigner]
    keeps the promise of the interface. *)
Theorem localSigner_honest s :
  signer_honest (localSigner_OperatorSigner s) local_VerifyTaskResponse.
Proof. exact (local_sign_verify s). Qed.

(** Verification accepts exactly the signatures from which the library
    recovers, over the hash of the packed parameters, a key of the claimed
    address. *)
Theorem VerifyTaskResponse_iff p sig addr :
  local_VerifyTaskResponse p sig addr = Ok tt <->
  exists msg pk, task_message p = Ok msg /\ SigToPub (Keccak256 msg) sig = Ok pk /\
    Address_Hex (PubkeyToAddress pk) = addr.
Proof.
  unfold local_VerifyTaskResponse.
  destruct (task_message p) as [msg|e|m]; simpl;
    [|split; [done|by intros (?&?&?&_)]..].
  destruct (SigToPub (Keccak256 msg) sig) as [pk|e|m] eqn:E; simpl;
    [|split; [done|intros (?&?&[= <-]&?&_); congruence]..].
  destruct (decide _) as [<-|Hne]; split; [eauto|done|done|].
  intros (?&?&[= <-]&?&?). congruence.
Qed.

(** C35: the packed message determines the parameters: two well-formed
    parameter sets with the same message are equal, so a signature cannot
    be moved to another address, chain, block, key or value. *)
Theorem task_message_injective p q :
  params_ok p -> params_ok q -> task_message p = task_message q -> p = q.
Proof.
  intros Hp Hq.
  destruct (task_message_layout p Hp)
    as (wc & wb & wk & wv & k & v & -> & Lc & Lb & Lk & Lv & Vc & Vb & Ek & Ev & Vk & Vv).
  destruct (task_message_layout q Hq)
    as (wc' & wb' & wk' & wv' & k' & v' & -> & Lc' & Lb' & Lk' & Lv' & Vc' & Vb' & Ek' & Ev' & Vk' & Vv').
  destruct Hp as (Lu & _), Hq as (Lu' & _). intros [= E].
  apply app_inj_1 in E as [Eu E]; [|congruence].
  apply app_inj_1 in E as [-> E]; [|congruence].
  apply app_inj_1 in E as [-> E]; [|congruence].
  apply app_inj_1 in E as [-> ->]; [|congruence].
  destruct p, q; simpl in *. congruence.
Qed.

(** Outside those bounds it does not: the block number goes through
    int64 and the big integers through their absolute value, so a
    signature for block [b >= 2^63] is also one for [2^64 - b], and one
    for a negative value also one for its opposite. *)
Theorem signature_aliases p sig addr b v :
  2 ^ 63 <= b < 2 ^ 64 ->
  local_VerifyTaskResponse (with_block b p) sig addr =
    local_VerifyTaskResponse (with_block (2 ^ 64 - b) p) sig addr /\
  local_VerifyTaskResponse (with_value (Some v) p) sig addr =
    local_VerifyTaskResponse (with_value (Some (- v)) p) sig addr.
Proof.
  intros Hb. unfold local_VerifyTaskResponse, task_message, pad32. simpl.
  assert (big_Bytes (i64 b) = big_Bytes (i64 (2 ^ 64 - b))) as ->.
  { rewrite i64_neg by done. destruct (decide (b = 2 ^ 63)) as [->|]; [done|].
    rewrite i64_id by lia. unfold big_Bytes, byte_len.
    replace (Z.abs (b - 2 ^ 64)) with (Z.abs (2 ^ 64 - b)) by lia.
    destruct (Z.eqb_spec (b - 2 ^ 64) 0), (Z.eqb_spec (2 ^ 64 - b) 0); (done || lia). }
  assert (big_Bytes v = big_Bytes (- v)) as ->; [|done].
  unfold big_Bytes, byte_len. rewrite Z.abs_opp.
  destruct (Z.eqb_spec v 0), (Z.eqb_spec (- v) 0); (done || lia).
Qed.
End properties.

Definition toy_key : @PrivateKey toy_eth :=
  exist _ (replicate 20 65) eq_refl.

Definition toy_params : TaskSignParams :=
  mkTaskSignParams (replicate 20 66) 11155111 7698500 (Some 3) (Some 1000).

Lemma toy_params_ok : params_ok toy_params.
Proof.
  split; [done|]. split; [unfold is_u32; simpl; lia|]. split; [simpl; lia|].
  exists 3, 1000. split_and!; (done || lia).
Qed.

Lemma localSigner_honest_witness :
  exists sig, @local_SignTaskResponse toy_eth (mkLocalSigner toy_key) toy_params = Ok sig /\
    @local_VerifyTaskResponse toy_eth toy_params sig (toy_Hex (replicate 20 65)) = Ok tt.
Proof.
  eexists. split; [reflexivity|].
  apply (@localSigner_honest toy_eth toy_eth_ok (mkLocalSigner toy_key)). reflexivity.
Defined.

Lemma task_message_injective_witness :
  params_ok toy_params /\ toy_params = with_block 7698500 toy_params.
Proof.
  split; [exact toy_params_ok|].
  apply (@task_message_injective toy_eth toy_eth_ok);
    [exact toy_params_ok | exact toy_params_ok | reflexivity].
Defined.

Lemma signature_aliases_witness :
  @local_VerifyTaskResponse toy_eth (with_block (2 ^ 64 - 1) toy_params) [] "" =
  @local_VerifyTaskResponse toy_eth (with_block 1 toy_params) [] "".
Proof.
  apply (@signature_aliases toy_eth toy_params [] "" (2 ^ 64 - 1) 0). lia.
Defined.
