(* ===== verification/KeyGen.v ===== *)
(** * scripts/gen_keys: the keys of the operators

    The script makes keys for three operators: Ed25519 keys for the P2P
    network, which it prints, and ECDSA keys for signing, which it writes to
    files.  What the node does with them is in [Signer] and [EthLib]; the
    address that is printed with a P2P key is the one under which its peers
    look the operator up, and an ECDSA key in hexadecimal gives a signer of
    the address that was printed. *)

From S2P Require Import Prelude GoInt GoString Numeric EthLib Signer.

(** ** path/filepath *)

Definition sep : ascii := "/"%char.

(** The elements of a path, separators and empty elements left out. *)
Fixpoint path_elements (cur : list ascii) (l : list ascii) : list string :=
  match l with
  | [] => match cur with [] => [] | _ => [of_chars (rev cur)] end
  | c :: l' =>
      if Ascii.eqb c sep then
        match cur with
        | [] => path_elements [] l'
        | _ => of_chars (rev cur) :: path_elements [] l'
        end
      else path_elements (c :: cur) l'
  end.

(** [filepath.Clean] on the elements seen so far, the last one first *)
Definition clean_step (rooted : bool) (done_ : list string) (e : string) : list string :=
  if bool_decide (e = ".") then done_
  else if bool_decide (e = "..") then
    match done_ with
    | d :: ds => if bool_decide (d = "..") then e :: done_ else ds
    | [] => if rooted then [] else [e]
    end
  else e :: done_.

Definition filepath_Clean (path : string) : string :=
  let rooted := match chars path with c :: _ => Ascii.eqb c sep | [] => false end in
  let elems := rev (fold_left (clean_step rooted) (path_elements [] (chars path)) []) in
  let body := String.concat "/" elems in
  if rooted then "/" +:+ body else if bool_decide (body = "") then "." else body.

(** [filepath.Join(dir, file)], neither of them empty *)
Definition filepath_Join (dir file : string) : string := filepath_Clean (dir +:+ "/" +:+ file).

Example Join_ex1 : filepath_Join "./keys/signing" "operator1.ecdsa.key" =
  "keys/signing/operator1.ecdsa.key".
Proof. reflexivity. Qed.
Example Join_ex2 : filepath_Join "/a/../b//" "./c" = "/b/c". Proof. reflexivity. Qed.
Example Clean_ex : filepath_Clean "../../x/.." = "../..". Proof. reflexivity. Qed.

(** ** What the script calls *)

Class KeyLib `{EthLib} `{P2PLib} := {
  p2pPrivKey : Type;
  GenerateEd25519Key : nat -> res (p2pPrivKey * p2pPubKey);
  MarshalPrivateKey : p2pPrivKey -> res bytes;
  UnmarshalPrivateKey : bytes -> res p2pPrivKey;
  ConfigEncodeKey : bytes -> string;
  ConfigDecodeKey : string -> res bytes;
  crypto_GenerateKey : nat -> res PrivateKey;
  FromECDSA : PrivateKey -> bytes;
  ToECDSA : bytes -> res PrivateKey;
  key_MkdirAll : nat -> string -> res unit;
  key_WriteFile : nat -> string -> res unit;  (** whether the write of a file succeeds *)
}.

(** The documented behaviour: keys are read back from their encodings, and a
    peer with an Ed25519 key has an ID that carries the public key. *)
Class KeyLibOk `{KeyLib} := {
  IDFromPublicKey : p2pPubKey -> string;
  ed25519_public : p2pPrivKey -> p2pPubKey;
  GenerateEd25519Key_pair : forall i k pub, GenerateEd25519Key i = Ok (k, pub) ->
    ed25519_public k = pub;
  Marshal_bytes : forall k bs, MarshalPrivateKey k = Ok bs -> Forall is_byte bs;
  ConfigDecodeKey_Encode : forall bs, Forall is_byte bs -> ConfigDecodeKey (ConfigEncodeKey bs) = Ok bs;
  UnmarshalPrivateKey_Marshal : forall k bs, MarshalPrivateKey k = Ok bs ->
    UnmarshalPrivateKey bs = Ok k;
  ExtractPublicKey_ID : forall pub, ExtractPublicKey (IDFromPublicKey pub) = Ok pub;
  Keccak256_bytes : forall pub bs, MarshalPublicKey pub = Ok bs -> Forall is_byte (p2p_Keccak256 bs);
  FromECDSA_bytes : forall i k, crypto_GenerateKey i = Ok k -> Forall is_byte (FromECDSA k);
  FromECDSA_some : forall k, FromECDSA k <> [];
  ToECDSA_From : forall k, ToECDSA (FromECDSA k) = Ok k;
}.

(** The files written so far, what has been printed, and the number of calls *)
Record KeyW := mkKeyW {
  kg_step : nat;
  kg_files : gmap string bytes;
  kg_out : list string;
}.

Section gen_keys.
Context `{KeyLib}.
Abbreviation KM := (M KeyW).

Definition key_call {A} (f : nat -> res A) : KM A :=
  fun w => (mkKeyW (S (kg_step w)) (kg_files w) (kg_out w), f (kg_step w)).

Definition Printf (s : string) : KM unit :=
  modify (fun w => mkKeyW (kg_step w) (kg_files w) (kg_out w ++ [s])).

(** [os.WriteFile(path, data, 0600)]; a write that fails leaves the file as it
    was, or cut off: no key is read from it here. *)
Definition write_key (path : string) (data : bytes) : KM unit :=
  do! key_call (fun i => key_WriteFile i path) in
  modify (fun w => mkKeyW (kg_step w) (<[path := data]> (kg_files w)) (kg_out w)).

Definition generateAddress (pubKey : p2pPubKey) : res string :=
  let? pubKeyBytes := text_res "failed to marshal public key" (MarshalPublicKey pubKey) in
  let hash := p2p_Keccak256 pubKeyBytes in
  let address := drop (length hash - 20) hash in
  Ok ("0x" +:+ hex_EncodeToString address).

(** The lines about one P2P key *)
Definition p2p_lines (operatorNum : Z) (privKeyStr pubKeyStr address : string) : list string :=
  [ "Generated P2P key for operator" +:+ big_String operatorNum +:+ ":";
    "  Private key (base64): " +:+ privKeyStr;
    "  Public key (base64): " +:+ pubKeyStr;
    "  Address: " +:+ address ].

Fixpoint print_all (lines : list string) : KM unit :=
  match lines with
  | [] => ret tt
  | s :: lines' => do! Printf s in print_all lines'
  end.

Definition generateP2PKey (operatorNum : Z) : KM unit :=
  let! (privKey, pubKey) := textM "failed to generate P2P key" (key_call GenerateEd25519Key) in
  let! privKeyBytes := textM "failed to marshal private key" (lift (MarshalPrivateKey privKey)) in
  let privKeyStr := ConfigEncodeKey privKeyBytes in
  let! pubKeyBytes := textM "failed to marshal public key" (lift (MarshalPublicKey pubKey)) in
  let pubKeyStr := ConfigEncodeKey pubKeyBytes in
  let! address := textM "failed to generate address" (lift (generateAddress pubKey)) in
  print_all (p2p_lines operatorNum privKeyStr pubKeyStr address).

Definition key_file (keysDir : string) (operatorNum : Z) : string :=
  filepath_Join keysDir ("operator" +:+ big_String operatorNum +:+ ".ecdsa.key").

Definition ecdsa_lines (operatorNum : Z) (filename address : string) : list string :=
  [ "Generated ECDSA key for operator" +:+ big_String operatorNum +:+ ":";
    "  Key file: " +:+ filename;
    "  Address: " +:+ address ].

Definition generateECDSAKey (operatorNum : Z) (keysDir : string) : KM unit :=
  let! key := textM "failed to generate ECDSA key" (key_call crypto_GenerateKey) in
  let address := Address_Hex (PubkeyToAddress (PublicKey_of key)) in
  let filename := key_file keysDir operatorNum in
  let keyBytes := FromECDSA key in
  do! textM "failed to write key file" (write_key filename keyBytes) in
  print_all (ecdsa_lines operatorNum filename address).

Definition ecdsaKeysDir : string := "./keys/signing".

(** One operator's key of the type that was asked for; [Some] code is an exit. *)
Definition generate_one (keyType : string) (i : Z) : KM (option Z) :=
  if decide (keyType = "ed25519") then
    let! r := try (generateP2PKey i) in
    match r with
    | inl _ => ret None
    | inr err => do! Printf ("Failed to generate P2P key for operator" +:+ big_String i +:+ ": " +:+ Error err) in
                 ret (Some 1)
    end
  else if decide (keyType = "ecdsa") then
    let! r := try (generateECDSAKey i ecdsaKeysDir) in
    match r with
    | inl _ => ret None
    | inr err => do! Printf ("Failed to generate ECDSA key for operator" +:+ big_String i +:+ ": " +:+ Error err) in
                 ret (Some 1)
    end
  else
    do! Printf ("Unsupported key type: " +:+ keyType) in
    ret (Some 1).

Fixpoint generate_all (keyType : string) (operators : list Z) : KM Z :=
  match operators with
  | [] => ret 0
  | i :: operators' =>
      let! exit := generate_one keyType i in
      match exit with
      | Some code => ret code
      | None => generate_all keyType operators'
      end
  end.

(** The exit code of the script; [-type] is its only flag. *)
Definition main (keyType : string) : KM Z :=
  let! r := try (key_call (fun i => key_MkdirAll i ecdsaKeysDir)) in
  match r with
  | inr err => do! Printf ("Failed to create keys directory: " +:+ Error err) in ret 1
  | inl _ => generate_all keyType [1; 2; 3]
  end.
End gen_keys.

(** ** Hexadecimal text reads back *)

Lemma hex_digit_facts d : 0 <= d < 16 ->
  digit_val (hex_digit d) = d /\ hex_digit d <> "x"%char /\ lower_ascii (hex_digit d) = hex_digit d.
Proof.
  intros Hd. assert (d ∈ (Z.of_nat <$> seq 0 16)) as Hin.
  { apply list_elem_of_fmap. exists (Z.to_nat d). split; [lia|]. apply elem_of_seq. lia. }
  apply (proj1 (Forall_forall (fun d => digit_val (hex_digit d) = d /\ hex_digit d <> "x"%char /\
    lower_ascii (hex_digit d) = hex_digit d) (Z.of_nat <$> seq 0 16))); [|done].
  repeat constructor; discriminate.
Qed.

Lemma byte_halves b : is_byte b -> 0 <= b / 16 < 16 /\ 0 <= b mod 16 < 16.
Proof. unfold is_byte. intros Hb. split; [|by apply Z.mod_pos_bound]. split; [apply Z.div_pos; lia|apply Z.div_lt_upper_bound; lia]. Qed.

Lemma hex_decode_encode bs : Forall is_byte bs ->
  hex_decode (chars (hex_EncodeToString bs)) = Some bs.
Proof.
  unfold hex_EncodeToString. rewrite chars_of_chars.
  induction 1 as [|b bs Hb _ IH]; [done|].
  destruct (byte_halves b Hb) as [Hq Hr].
  destruct (hex_digit_facts _ Hq) as [Eq _], (hex_digit_facts _ Hr) as [Er _].
  cbn [flat_map app hex_decode]. rewrite Eq, Er, IH.
  rewrite (proj2 (Z.ltb_lt (b / 16) 16)), (proj2 (Z.ltb_lt (b mod 16) 16)) by lia. simpl.
  do 2 f_equal. pose proof (Z.div_mod b 16). lia.
Qed.

Lemma ToLower_hex bs : Forall is_byte bs ->
  ToLower (hex_EncodeToString bs) = hex_EncodeToString bs.
Proof.
  intros Hbs. unfold ToLower, hex_EncodeToString. rewrite chars_of_chars. f_equal.
  induction Hbs as [|b bs Hb _ IH]; [done|]. destruct (byte_halves b Hb) as [Hq Hr]. simpl.
  by rewrite IH, (proj2 (proj2 (hex_digit_facts _ Hq))), (proj2 (proj2 (hex_digit_facts _ Hr))).
Qed.

(** A key may be given with its prefix or without. *)
Lemma TrimPrefix0x_hex bs : Forall is_byte bs ->
  TrimPrefix0x (hex_EncodeToString bs) = hex_EncodeToString bs /\
  TrimPrefix0x ("0x" +:+ hex_EncodeToString bs) = hex_EncodeToString bs.
Proof.
  intros Hbs. split.
  - unfold TrimPrefix0x. destruct Hbs as [|b bs Hb _]; [done|].
    unfold hex_EncodeToString. rewrite chars_of_chars. simpl.
    destruct (hex_digit_facts _ (proj2 (byte_halves b Hb))) as (_ & Hx & _).
    destruct (hex_digit (b / 16)) as [[] [] [] [] [] [] [] []]; try done;
    destruct (hex_digit (b mod 16)) as [[] [] [] [] [] [] [] []]; try done;
    by destruct Hx.
  - unfold TrimPrefix0x. rewrite chars_app. simpl. by rewrite of_chars_chars.
Qed.

(** ** What the script leaves behind *)

Section properties.
Context `{KeyLibOk}.

Lemma print_all_spec lines w : print_all lines w =
  (mkKeyW (kg_step w) (kg_files w) (kg_out w ++ lines), Ok tt).
Proof.
  revert w. induction lines as [|s l IH]; intros [n fs out]; simpl; [by rewrite app_nil_r|].
  unfold bind at 1. simpl. rewrite IH. simpl. by rewrite <- app_assoc.
Qed.

(** The address that is printed is the one peers are looked up by. *)
Lemma generateAddress_PeerID pub a : generateAddress pub = Ok a ->
  PeerIDToP2PKey (IDFromPublicKey pub) = Ok a.
Proof.
  unfold generateAddress, PeerIDToP2PKey. rewrite ExtractPublicKey_ID. simpl.
  destruct (MarshalPublicKey pub) as [bs|e|s] eqn:E; simpl; [|done..]. intros [= <-].
  rewrite ToLower_hex; [done|]. by eapply Forall_drop, Keccak256_bytes.
Qed.

(** One printed P2P key: the text of the private key, of the public key, and
    the address. *)
Record P2PEntry := mkP2PEntry { pe_private : string; pe_public : string; pe_address : string }.

(** What an entry is good for: the node reads the private key back, and the
    address is the P2P key of the peer that runs with it. *)
Definition identifies (e : P2PEntry) : Prop := exists key : p2pPrivKey,
  Base64ToPrivKey p2pPrivKey ConfigDecodeKey UnmarshalPrivateKey (pe_private e) = Ok key /\
  PeerIDToP2PKey (IDFromPublicKey (ed25519_public key)) = Ok (pe_address e).

Definition entry_lines (i : Z) (e : P2PEntry) : list string :=
  p2p_lines i (pe_private e) (pe_public e) (pe_address e).

Lemma generateP2PKey_Ok i w w' u : generateP2PKey i w = (w', Ok u) -> exists e,
  identifies e /\ kg_out w' = kg_out w ++ entry_lines i e.
Proof.
  unfold generateP2PKey.
  intros (w1 & [k pub] & Hk%textM_Ok & Hr)%bind_Ok. unfold key_call in Hk.
  injection Hk as <- Hk. apply GenerateEd25519Key_pair in Hk.
  apply bind_Ok in Hr as (w2 & bs & [-> Hbs]%textM_Ok%lift_Ok & Hr).
  apply bind_Ok in Hr as (w3 & pbs & [-> _]%textM_Ok%lift_Ok & Hr).
  apply bind_Ok in Hr as (w4 & a & [-> Ha]%textM_Ok%lift_Ok & Hr).
  rewrite print_all_spec in Hr. injection Hr as <- _.
  exists (mkP2PEntry (ConfigEncodeKey bs) (ConfigEncodeKey pbs) a). split; [|done].
  exists k. simpl. unfold Base64ToPrivKey.
  rewrite ConfigDecodeKey_Encode by by eapply Marshal_bytes. rewrite (UnmarshalPrivateKey_Marshal k bs Hbs), Hk.
  split; [done|]. by apply generateAddress_PeerID.
Qed.

Lemma generateECDSAKey_Ok i dir w w' u : generateECDSAKey i dir w = (w', Ok u) -> exists key,
  Forall is_byte (FromECDSA key) /\ kg_files w' = <[key_file dir i := FromECDSA key]> (kg_files w) /\
  kg_out w' = kg_out w ++
    ecdsa_lines i (key_file dir i) (Address_Hex (PubkeyToAddress (PublicKey_of key))).
Proof.
  unfold generateECDSAKey.
  intros (w1 & k & Hk%textM_Ok & Hr)%bind_Ok. unfold key_call in Hk. injection Hk as <- Hk.
  apply bind_Ok in Hr as (w2 & [] & Hw%textM_Ok & Hr). unfold write_key in Hw.
  apply bind_Ok in Hw as (w3 & [] & Hc & Hw). unfold key_call in Hc. injection Hc as <- Hc.
  injection Hw as <-. rewrite print_all_spec in Hr. injection Hr as <- _. exists k.
  split; [by eapply FromECDSA_bytes|done].
Qed.

(** A run that ends with code 0 generated every key. *)
Lemma generate_all_cons kt i l w w' : generate_all kt (i :: l) w = (w', Ok 0) -> exists w1,
  generate_one kt i w = (w1, Ok None) /\ generate_all kt l w1 = (w', Ok 0).
Proof.
  simpl. intros (w1 & [code|] & Hone & Hr)%bind_Ok; [|eauto].
  injection Hr as <- ->. unfold generate_one in Hone. exfalso.
  revert Hone. repeat case_decide;
    [intros (? & [x|e] & _ & Hr)%bind_Ok..|intros (? & [] & _ & Hr)%bind_Ok]; try done;
    by apply bind_Ok in Hr as (? & [] & _ & [=]).
Qed.

Lemma generate_one_p2p i w w' : generate_one "ed25519" i w = (w', Ok None) ->
  generateP2PKey i w = (w', Ok tt).
Proof.
  unfold generate_one. rewrite decide_True by done. unfold bind, try.
  destruct (generateP2PKey i w) as [w1 [[]|e|s]]; [by intros [= ->]|done|done].
Qed.

Lemma generate_one_ecdsa i w w' : generate_one "ecdsa" i w = (w', Ok None) ->
  generateECDSAKey i ecdsaKeysDir w = (w', Ok tt).
Proof.
  unfold generate_one. rewrite decide_False, decide_True by done. unfold bind, try.
  destruct (generateECDSAKey i ecdsaKeysDir w) as [w1 [[]|e|s]]; [by intros [= ->]|done|done].
Qed.

Lemma main_0 kt w w' : main kt w = (w', Ok 0) -> exists w1,
  kg_files w1 = kg_files w /\ kg_out w1 = kg_out w /\ generate_all kt [1; 2; 3] w1 = (w', Ok 0).
Proof.
  unfold main, bind at 1, try, key_call.
  destruct (key_MkdirAll (kg_step w) ecdsaKeysDir) as [[]|e|s]; [|done|done].
  intros Hr. eexists. split_and!; [| |exact Hr]; done.
Qed.

Lemma generate_all_p2p l w w' : generate_all "ed25519" l w = (w', Ok 0) -> exists es,
  Forall identifies es /\ length es = length l /\
  kg_out w' = kg_out w ++ concat (zip_with entry_lines l es).
Proof.
  revert w. induction l as [|i l IH]; intros w Hr.
  - injection Hr as <-. exists []. by rewrite app_nil_r.
  - apply generate_all_cons in Hr as (w1 & (e & He & Eout)%generate_one_p2p%generateP2PKey_Ok & Hr).
    destruct (IH w1 Hr) as (es & Hes & Hlen & Eout'). exists (e :: es).
    split_and!; [by constructor|simpl; lia|]. simpl. by rewrite Eout', Eout, <- app_assoc.
Qed.

Lemma generate_all_prints l w w' :
  generate_all "ecdsa" l w = (w', Ok 0) -> kg_out w ⊆ kg_out w'.
Proof.
  revert w. induction l as [|i l IH]; intros w Hr; [by injection Hr as <-|].
  apply generate_all_cons in Hr as (w1 & (k & _ & _ & Eo)%generate_one_ecdsa%generateECDSAKey_Ok & Hr).
  transitivity (kg_out w1); [rewrite Eo; set_solver|by apply IH].
Qed.

Lemma generate_all_ecdsa l w w' : NoDup (key_file ecdsaKeysDir <$> l) ->
  generate_all "ecdsa" l w = (w', Ok 0) ->
  (forall path, path ∉ key_file ecdsaKeysDir <$> l -> kg_files w' !! path = kg_files w !! path) /\
  forall i, i ∈ l -> exists key,
    Forall is_byte (FromECDSA key) /\
    kg_files w' !! key_file ecdsaKeysDir i = Some (FromECDSA key) /\
    ecdsa_lines i (key_file ecdsaKeysDir i) (Address_Hex (PubkeyToAddress (PublicKey_of key)))
      ⊆ kg_out w'.
Proof.
  intros Hnd. revert w. induction l as [|i l IH]; intros w Hr.
  - injection Hr as <-. split; [done|]. by intros i ?%not_elem_of_nil.
  - apply NoDup_cons in Hnd as [Hni Hnd].
    apply generate_all_cons in Hr as (w1 & (k & Hb & Ef & Eo)%generate_one_ecdsa%generateECDSAKey_Ok & Hr).
    destruct (IH Hnd w1 Hr) as [Hsame Hkeys]. split.
    + intros path [Hne Hin]%not_elem_of_cons. rewrite (Hsame path Hin), Ef.
      by apply lookup_insert_ne.
    + intros j [->|Hj]%elem_of_cons; [|by apply Hkeys]. exists k. split; [done|split].
      * rewrite (Hsame _ Hni), Ef. apply lookup_insert_eq.
      * transitivity (kg_out w1); [rewrite Eo; set_solver|by eapply generate_all_prints].
Qed.
(** A generated P2P key names its operator.  When the script ends with
    code 0 it has printed three entries; the private key of each is read back
    by [Base64ToPrivKey] when a node is started with it, and the address
    printed next to it is the one that [PeerIDToP2PKey] computes from the ID
    of that node, by which its peers find the operator. *)
Theorem generated_p2p_keys_identify w w' (Hrun : main "ed25519" w = (w', Ok 0)) : exists es,
  length es = 3%nat /\ kg_out w' = kg_out w ++ concat (zip_with entry_lines [1; 2; 3] es) /\
  Forall (fun e => exists key,
    Base64ToPrivKey p2pPrivKey ConfigDecodeKey UnmarshalPrivateKey (pe_private e) = Ok key /\
    PeerIDToP2PKey (IDFromPublicKey (ed25519_public key)) = Ok (pe_address e)) es.
Proof.
  apply main_0 in Hrun as (w1 & _ & Eo & (es & Hes & Hlen & Eo')%generate_all_p2p).
  exists es. split_and!; [done|by rewrite Eo', Eo|exact Hes].
Qed.

(** A generated signing key signs for the printed address.  When the script
    ends with code 0 it has written the files of three operators, none over
    another; the contents in hexadecimal, with the prefix 0x or without, are
    a key that [NewLocalSigner] takes, for the address that was printed. *)
Theorem generated_signing_keys_sign w w' os_ReadFile DecryptKey pw
    (Hrun : main "ecdsa" w = (w', Ok 0)) i (Hi : i ∈ [1; 2; 3]) : exists data s,
  kg_files w' !! key_file ecdsaKeysDir i = Some data /\
  (forall prefix, prefix = "" \/ prefix = "0x" ->
    NewLocalSigner os_ReadFile DecryptKey ToECDSA
      (Some (mkSignerConfig "" (prefix +:+ hex_EncodeToString data) pw)) = Ok s) /\
  "  Address: " +:+ Address_Hex (local_GetSigningAddress s) ∈ kg_out w'.
Proof.
  apply main_0 in Hrun as (w1 & _ & _ & Hrun).
  apply generate_all_ecdsa in Hrun as [_ Hkeys];
    [|apply (bool_decide_eq_true_1 _); vm_compute; reflexivity].
  destruct (Hkeys i Hi) as (k & Hb & Hf & Ho). exists (FromECDSA k), (mkLocalSigner k).
  pose proof (FromECDSA_some k) as Hne.
  destruct (TrimPrefix0x_hex (FromECDSA k) Hb) as [Et Et'].
  split_and!; [exact Hf| |apply Ho; set_solver].
  intros prefix Hp. unfold NewLocalSigner. simpl.
  rewrite bool_decide_eq_false_2.
  - simpl. assert (TrimPrefix0x (prefix +:+ hex_EncodeToString (FromECDSA k)) =
      hex_EncodeToString (FromECDSA k)) as -> by (destruct Hp as [-> | ->]; [exact Et|exact Et']).
    by rewrite hex_decode_encode, ToECDSA_From.
  - destruct Hp as [-> | ->]; [|done]. destruct (FromECDSA k); [done|].
    unfold hex_EncodeToString. done.
Qed.
End properties.

(** ** Example *)

Section toy.
#[local] Existing Instances toy_eth toy_p2p.

Lemma bytes_string_bytes' bs : Forall is_byte bs -> string_bytes (bytes_string bs) = bs.
Proof. intros Hb. unfold string_bytes, bytes_string. rewrite chars_of_chars. by apply toy_char_bytes. Qed.

Lemma string_bytes_are_bytes s : Forall is_byte (string_bytes s).
Proof.
  unfold string_bytes. apply List.Forall_map, List.Forall_forall. intros c _. unfold is_byte.
  pose proof (nat_ascii_bounded c). lia.
Qed.

(** Three operators with three keys *)
#[local] Instance toy_keys : KeyLib := {|
  p2pPrivKey := string;
  GenerateEd25519Key i := Ok ("key " +:+ big_String (Z.of_nat i), "key " +:+ big_String (Z.of_nat i));
  MarshalPrivateKey k := Ok (string_bytes k);
  UnmarshalPrivateKey bs := Ok (bytes_string bs);
  ConfigEncodeKey bs := bytes_string bs;
  ConfigDecodeKey s := Ok (string_bytes s);
  crypto_GenerateKey i := Ok toy_key;
  FromECDSA k := 1 :: proj1_sig k;
  ToECDSA bs := match decide (bool_decide (length (tail bs) = 20%nat) = true) with
                | left Hl => Ok (exist _ (tail bs) Hl)
                | right _ => Err (Errorf "invalid length")
                end;
  key_MkdirAll i path := Ok tt;
  key_WriteFile i path := Ok tt;
|}.

#[local] Instance toy_keys_ok : KeyLibOk.
Proof.
  apply (@Build_KeyLibOk toy_eth toy_p2p toy_keys (fun p : string => p) (fun k : string => k)); simpl.
  - by intros i k pub [= <- <-].
  - intros k bs [= <-]. apply string_bytes_are_bytes.
  - intros bs Hb. by rewrite bytes_string_bytes'.
  - intros k bs [= <-]. by rewrite bytes_string_bytes.
  - done.
  - intros pub bs [= <-]. apply Forall_take, Forall_app. split; [apply string_bytes_are_bytes|].
    repeat constructor; unfold is_byte; lia.
  - intros i k [= <-]. simpl. repeat constructor; lia.
  - done.
  - intros [a Ha]. simpl. destruct (decide _) as [Hl|Hl]; [|by destruct Hl].
    f_equal. f_equal. apply (Eqdep_dec.UIP_dec Bool.bool_dec).
Qed.

Definition toy_keyless : KeyW := mkKeyW 0 ∅ [].

Lemma generated_p2p_keys_identify_witness : exists es,
  length es = 3%nat /\
  kg_out (main "ed25519" toy_keyless).1 = concat (zip_with entry_lines [1; 2; 3] es).
Proof.
  destruct (generated_p2p_keys_identify toy_keyless (main "ed25519" toy_keyless).1) as (es & Hn & Ho & _).
  - rewrite (surjective_pairing (main "ed25519" toy_keyless)) at 1. vm_compute. reflexivity.
  - exists es. split; [exact Hn|exact Ho].
Defined.

(** The files of the three operators *)
Example toy_key_files : elements (dom (kg_files (main "ecdsa" toy_keyless).1)) ≡ₚ
  ["keys/signing/operator1.ecdsa.key"; "keys/signing/operator2.ecdsa.key";
   "keys/signing/operator3.ecdsa.key"].
Proof. apply (bool_decide_eq_true_1 _). vm_compute. reflexivity. Qed.

(** An unknown type is refused after the directory has been made. *)
Example toy_unknown_type :
  main "rsa" toy_keyless = (mkKeyW 1 ∅ ["Unsupported key type: rsa"], Ok 1).
Proof. vm_compute. reflexivity. Qed.
End toy.
