(* ===== verification/Config.v ===== *)
(** * pkg/config: the operator's configuration and its validation

    The fields that the code reads.  [yaml.Unmarshal], [os.ReadFile],
    [os.ExpandEnv] and [peer.AddrInfoFromString] are parameters; floats are
    the binary64 values of [SpecFloat].  The chains are a map to structures:
    a key of "chains" with nothing under it, which yaml.v3 makes a nil
    pointer and validation dereferences, is not represented. *)

From Stdlib Require Import Floats.SpecFloat.
From S2P Require Import Prelude GoInt.

#[export] Instance spec_float_eq_dec : EqDecision spec_float.
Proof. solve_decision. Defined.

Record ContractsConfig := mkContractsConfig {
  cf_Registry : string;
  cf_EpochManager : string;
  cf_StateManager : string;
}.

Record ChainConfig := mkChainConfig {
  cf_RPC : string;
  cf_Contracts : ContractsConfig;
  cf_RequiredConfirmations : Z;
  cf_AverageBlockTime : spec_float;
}.

#[export] Instance ContractsConfig_eq_dec : EqDecision ContractsConfig.
Proof. solve_decision. Defined.
#[export] Instance ChainConfig_eq_dec : EqDecision ChainConfig.
Proof. solve_decision. Defined.

Record P2PConfig := mkP2PConfig {
  cf_P2PPort : Z;
  cf_BootstrapPeers : list string;
  cf_Rendezvous : string;
}.

Record DatabaseConfig := mkDatabaseConfig {
  cd_AppName : string;
  cd_Username : string;
  cd_Password : string;
  cd_Host : string;
  cd_Port : Z;
  cd_DBName : string;
  cd_MaxConns : Z;
  cd_MinConns : Z;
  cd_MaxConnLifetime : Z;     (** a [time.Duration], in nanoseconds *)
  cd_MaxConnIdleTime : Z;
  cd_IsProxy : bool;
  cd_EnablePrometheus : bool;
  cd_EnableTracing : bool;
  cd_ReplicaPrefixes : list string;
}.

Record RedisConfig := mkRedisConfig {
  cr_Host : string;
  cr_Port : Z;
  cr_Password : string;
  cr_IsFailover : bool;
  cr_IsElasticache : bool;
  cr_IsClusterMode : bool;
  cr_ClusterAddrs : list string;
  cr_ClusterMaxRedirects : Z;
  cr_ReadTimeout : Z;
  cr_PoolSize : Z;
}.

(** The zero values, of a section the file leaves out. *)
Definition zero_DatabaseConfig : DatabaseConfig :=
  mkDatabaseConfig "" "" "" "" 0 "" 0 0 0 0 false false false [].
Definition zero_RedisConfig : RedisConfig :=
  mkRedisConfig "" 0 "" false false false [] 0 0 0.

Record Config := mkConfig {
  cf_Chains : gmap Z ChainConfig;
  cf_Database : DatabaseConfig;
  cf_P2P : P2PConfig;
  cf_HTTPPort : Z;
  cf_MetricPort : Z;
  cf_Redis : RedisConfig;
}.

Section config.
Variable AddrInfo : Type.
Variable AddrInfoFromString : string -> res AddrInfo.

Fixpoint bootstrap_peers (addrs : list string) : res (list AddrInfo) :=
  match addrs with
  | [] => Ok []
  | addr :: rest =>
      if decide (addr = "") then bootstrap_peers rest
      else
        let? pi := wrap "invalid bootstrap peer address" (AddrInfoFromString addr) in
        let? peers := bootstrap_peers rest in
        Ok (pi :: peers)
  end.

Definition GetBootstrapPeers (c : P2PConfig) : res (list AddrInfo) :=
  bootstrap_peers (cf_BootstrapPeers c).

(** The checks on one chain, in the order of the loop body. *)
Definition validate_chain (chainID : Z) (chainCfg : ChainConfig) : res unit :=
  if (chainID =? 1) && bool_decide (cf_Registry (cf_Contracts chainCfg) = "") then
    Err (Errorf "registry address is required for mainnet")
  else if (chainID =? 1) && bool_decide (cf_EpochManager (cf_Contracts chainCfg) = "") then
    Err (Errorf "epoch manager address is required for mainnet")
  else if bool_decide (cf_RPC chainCfg = "") then Err (Errorf "rpc url is required for chain")
  else if bool_decide (cf_StateManager (cf_Contracts chainCfg) = "") then
    Err (Errorf "state manager address is required for chain")
  else if cf_RequiredConfirmations chainCfg <=? 0 then
    Err (Errorf "required confirmations must be positive for chain")
  else if SFleb (cf_AverageBlockTime chainCfg) (S754_zero false) then
    Err (Errorf "average block time must be positive for chain")
  else Ok tt.

Fixpoint validate_chains (chains : list (Z * ChainConfig)) : res unit :=
  match chains with
  | [] => Ok tt
  | (chainID, chainCfg) :: rest =>
      let? _ := validate_chain chainID chainCfg in validate_chains rest
  end.

(** [order] is the order in which [range c.Chains] visits the map. *)
Definition validate (order : list (Z * ChainConfig)) (c : Config) : res unit :=
  if bool_decide (cf_Chains c = ∅) then Err (Errorf "at least one chain configuration is required")
  else
    let? _ := validate_chains order in
    if cf_P2PPort (cf_P2P c) <? 0 then Err (Errorf "p2p port must be non-negative")
    else if bool_decide (cf_Rendezvous (cf_P2P c) = "") then
      Err (Errorf "p2p rendezvous string is required")
    else if bool_decide (cf_BootstrapPeers (cf_P2P c) = []) then Ok tt
    else
      let? _ := wrap "invalid bootstrap peers" (GetBootstrapPeers (cf_P2P c)) in
      Ok tt.

(** ** What a validated configuration is *)

(** What [AverageBlockTime <= 0] lets pass: a positive number, and NaN too. *)
Definition positive_float (f : spec_float) : Prop := SFleb f (S754_zero false) = false.

Record chain_ok (chainID : Z) (c : ChainConfig) : Prop := {
  chain_ok_mainnet : chainID = 1 ->
    cf_Registry (cf_Contracts c) <> "" /\ cf_EpochManager (cf_Contracts c) <> "";
  chain_ok_rpc : cf_RPC c <> "";
  chain_ok_state : cf_StateManager (cf_Contracts c) <> "";
  chain_ok_conf : 0 < cf_RequiredConfirmations c;
  chain_ok_time : positive_float (cf_AverageBlockTime c);
}.

(** A bootstrap address is skipped when empty and must parse otherwise. *)
Definition peer_addr_ok (a : string) : Prop :=
  a = "" \/ exists pi, AddrInfoFromString a = Ok pi.

Definition config_ok (c : Config) : Prop :=
  cf_Chains c <> ∅ /\ map_Forall chain_ok (cf_Chains c) /\
  0 <= cf_P2PPort (cf_P2P c) /\ cf_Rendezvous (cf_P2P c) <> "" /\
  Forall peer_addr_ok (cf_BootstrapPeers (cf_P2P c)).

Lemma validate_chain_iff i c : validate_chain i c = Ok tt <-> chain_ok i c.
Proof.
  unfold validate_chain. rewrite !guard_Ok, !andb_false_iff, !bool_decide_eq_false.
  rewrite Z.eqb_neq, Z.leb_gt. split.
  - intros (Hr & He & ? & ? & ? & ? & _). constructor; try done.
    intros Hi. by destruct Hr, He.
  - intros [Hm ? ? ? ?]. split_and!; try done;
      (destruct (decide (i = 1)) as [->|]; [right; by apply Hm | by left]).
Qed.

Lemma validate_chains_iff l :
  validate_chains l = Ok tt <-> Forall (fun p => chain_ok p.1 p.2) l.
Proof.
  induction l as [|[i c] l IH]; cbn [validate_chains].
  { split; [by constructor | done]. }
  rewrite res_bind_Ok, Forall_cons_iff, <- IH, <- validate_chain_iff. simpl. split.
  - by intros ([] & ? & ?).
  - intros [? ?]. by exists tt.
Qed.

Lemma bootstrap_peers_ok l :
  (exists ps, bootstrap_peers l = Ok ps) <-> Forall peer_addr_ok l.
Proof.
  induction l as [|a l IH]; cbn [bootstrap_peers].
  { split; [by constructor | by eexists]. }
  rewrite Forall_cons_iff, <- IH. unfold peer_addr_ok.
  destruct (decide (a = "")) as [->|Hne]; [by split; [split; [left|] | intros [_ ?]]|].
  split.
  - intros [ps Hb]. apply res_bind_Ok in Hb as (pi & Hpi & Hb).
    apply res_bind_Ok in Hb as (ps' & Hps & _). apply wrap_Ok in Hpi. eauto.
  - intros [[?|[pi Hpi]] [ps Hps]]; [done|]. rewrite Hpi, Hps. simpl. eauto.
Qed.

Lemma validate_spec (order : list (Z * ChainConfig)) (c : Config)
    (Horder : order ≡ₚ map_to_list (cf_Chains c)) :
  validate order c = Ok tt <-> config_ok c.
Proof.
  unfold validate, config_ok. rewrite guard_Ok, bool_decide_eq_false.
  assert (Hch : validate_chains order = Ok tt <-> map_Forall chain_ok (cf_Chains c)).
  { rewrite validate_chains_iff, map_Forall_to_list, Horder.
    apply Forall_iff. by intros []. }
  assert (Hpeers : (if bool_decide (cf_BootstrapPeers (cf_P2P c) = []) then Ok tt
            else let? _ := wrap "invalid bootstrap peers" (GetBootstrapPeers (cf_P2P c)) in
                 Ok tt) = Ok tt <-> Forall peer_addr_ok (cf_BootstrapPeers (cf_P2P c))).
  { rewrite <- bootstrap_peers_ok. unfold GetBootstrapPeers.
    case_bool_decide as Hnil; [rewrite Hnil; by split; [eexists |]|].
    rewrite res_bind_Ok. split.
    - intros (ps & Hps & _). apply wrap_Ok in Hps. eauto.
    - intros (ps & Hps). exists ps. by rewrite Hps. }
  rewrite res_bind_Ok, <- Hch, <- Hpeers. split.
  - intros [? ([] & ? & Hrest)]. rewrite !guard_Ok, Z.ltb_ge, bool_decide_eq_false in Hrest.
    tauto.
  - intros (? & ? & ? & ? & ?). split; [done|]. exists tt. split; [done|].
    rewrite !guard_Ok, Z.ltb_ge, bool_decide_eq_false. tauto.
Qed.

(** C36: [validate] accepts exactly the well-formed configurations, in
    whatever order Go's [range] visits the chain map: at least one chain,
    every chain with its endpoints, a positive confirmation depth and block
    time, chain 1 with registry and epoch manager, a port, a rendezvous
    string, and parsable bootstrap peers. *)
Theorem validate_iff (order : list (Z * ChainConfig)) (c : Config)
    (Horder : order ≡ₚ map_to_list (cf_Chains c)) :
  validate order c = Ok tt <-> config_ok c.
Proof. by apply validate_spec. Qed.

Variable os_ReadFile : string -> res string.
Variable os_ExpandEnv : string -> string.
Variable yaml_Unmarshal : string -> res Config.
Variable map_order : Config -> list (Z * ChainConfig).

Definition LoadConfig (path : string) : res Config :=
  let? data := wrap "failed to read config file" (os_ReadFile path) in
  let expandedData := os_ExpandEnv data in
  let? cfg := wrap "failed to parse config" (yaml_Unmarshal expandedData) in
  let? _ := wrap "invalid configuration" (validate (map_order cfg) cfg) in
  Ok cfg.
End config.

(** The package variable [config]: [LoadConfig] returns a new configuration
    and leaves the variable nil. *)
Definition GetConfig (config : option Config) : res Config :=
  match config with
  | None => Panic "config not loaded"
  | Some c => Ok c
  end.

Definition toy_chain : ChainConfig :=
  mkChainConfig "http://node" (mkContractsConfig "0x1" "0x2" "0x3") 12 (S754_finite false 12 0).
Definition toy_config : Config :=
  mkConfig {[ 1 := toy_chain ]} zero_DatabaseConfig
    (mkP2PConfig 10000 ["/ip4/1.2.3.4"; ""] "spotted-network") 8080 4014 zero_RedisConfig.

Lemma validate_iff_witness :
  map_to_list (cf_Chains toy_config) ≡ₚ map_to_list (cf_Chains toy_config) /\
  (validate string (fun a => Ok a) (map_to_list (cf_Chains toy_config)) toy_config = Ok tt <->
   config_ok string (fun a => Ok a) toy_config) /\
  validate string (fun a => Ok a) (map_to_list (cf_Chains toy_config)) toy_config = Ok tt.
Proof.
  split; [reflexivity | split].
  - exact (validate_iff string (fun a => Ok a) _ toy_config (reflexivity _)).
  - vm_compute. reflexivity.
Defined.
