(* ===== verification/Chain.v ===== *)
(** * pkg/common/contracts/ethereum: chain clients, their manager, event polling

    [EthNode] holds the external code: the JSON-RPC client and the generated
    contract bindings, each a function of the number of external calls made
    so far.  [ChainClient] is the Go interface; [chainClient] implements it. *)

From S2P Require Import Prelude GoInt GoString EthLib Config EpochMath Models World.

Definition MainnetChainID : Z := 11155111.

(** What the code reads of a [types.Block]. *)
Record Block := mkBlock { blk_Number : Z; blk_Time : Z }.

(** The interface [ChainClient] (interface.go), without the two watchers. *)
Record ChainClient := mkChainClient {
  cc_BlockNumber : nat -> res Z;
  cc_BlockByNumber : nat -> option Z -> res Block;
  cc_Close : nat -> res unit;
  cc_GetLatestState : nat -> bytes -> option Z -> res (option Z);
  cc_GetStateAtBlock : nat -> bytes -> option Z -> Z -> res (option Z);
  cc_GetStateAtTimestamp : nat -> bytes -> option Z -> Z -> res (option Z);
  cc_GetCurrentEpoch : nat -> res Z;
  cc_GetEffectiveEpochForBlock : nat -> Z -> res Z;
  cc_GetOperatorWeight : nat -> bytes -> res (option Z);
  cc_GetTotalWeight : nat -> res (option Z);
  cc_GetMinimumWeight : nat -> res (option Z);
  cc_GetThresholdWeight : nat -> res (option Z);
  cc_IsOperatorRegistered : nat -> bytes -> res bool;
  cc_GetOperatorSigningKey : nat -> bytes -> Z -> res bytes;
  cc_GetOperatorP2PKey : nat -> bytes -> Z -> res bytes;
}.

Class EthNode := {
  EthClient : Type;
  StateManager : Type;
  EpochManager : Type;
  Registry : Type;
  ethclient_Dial : nat -> string -> res EthClient;
  ethclient_BlockNumber : nat -> EthClient -> res Z;
  ethclient_BlockByNumber : nat -> EthClient -> option Z -> res Block;
  NewStateManager : nat -> bytes -> EthClient -> res StateManager;
  NewEpochManager : nat -> bytes -> EthClient -> res EpochManager;
  NewECDSAStakeRegistry : nat -> bytes -> EthClient -> res Registry;
  sm_GetCurrentValue : nat -> StateManager -> bytes -> option Z -> res (option Z);
  (** the [Value]s of the history entries *)
  sm_GetHistoryAtBlock : nat -> StateManager -> bytes -> option Z -> Z -> res (option Z);
  sm_GetHistoryAfterTimestamp :
    nat -> StateManager -> bytes -> option Z -> Z -> res (list (option Z));
  em_GetCurrentEpoch : nat -> EpochManager -> res Z;
  em_GetEffectiveEpochForBlock : nat -> EpochManager -> Z -> res Z;
  rg_GetOperatorWeightAtEpoch : nat -> Registry -> bytes -> Z -> res (option Z);
  rg_GetTotalWeightAtEpoch : nat -> Registry -> Z -> res (option Z);
  rg_MinimumWeight : nat -> Registry -> res (option Z);
  rg_GetThresholdWeightAtEpoch : nat -> Registry -> Z -> res (option Z);
  rg_OperatorRegistered : nat -> Registry -> bytes -> res bool;
  rg_GetOperatorSigningKeyAtEpoch : nat -> Registry -> bytes -> Z -> res bytes;
  rg_GetOperatorP2pKeyAtEpoch : nat -> Registry -> bytes -> Z -> res bytes;
}.

(** ** chain_client.go *)

Record ChainClientConfig := mkChainClientConfig {
  ec_ChainID : Z;
  ec_EpochManagerAddress : bytes;
  ec_RegistryAddress : bytes;
  ec_StateManagerAddress : bytes;
  ec_RPCEndpoint : string;
}.

Section chain_client.
Context `{EthNode}.

(** A nil binding is [None]. *)
Record chainClient := mkchainClient {
  ch_client : EthClient;
  ch_stateManager : StateManager;
  ch_epochManager : option EpochManager;
  ch_registry : option Registry;
}.

(** The call [c.epochManager.F(...)] or [c.registry.F(...)] *)
Definition deref {A B} (p : option A) (f : A -> res B) : res B :=
  match p with Some a => f a | None => Panic "nil pointer dereference" end.

Definition NewChainClient (i : nat) (cfg : ChainClientConfig) : res chainClient :=
  let? ethClient := wrap "[ChainClient] failed to connect to Ethereum node"
                      (ethclient_Dial i (ec_RPCEndpoint cfg)) in
  let? stateManager := wrap "[ChainClient] failed to create state manager binding"
                         (NewStateManager i (ec_StateManagerAddress cfg) ethClient) in
  if ec_ChainID cfg =? MainnetChainID then
    let? epochManager := wrap "[ChainClient] failed to create epoch manager binding"
                           (NewEpochManager i (ec_EpochManagerAddress cfg) ethClient) in
    let? registry := wrap "[ChainClient] failed to create registry binding"
                       (NewECDSAStakeRegistry i (ec_RegistryAddress cfg) ethClient) in
    Ok (mkchainClient ethClient stateManager (Some epochManager) (Some registry))
  else Ok (mkchainClient ethClient stateManager None None).

Definition client_GetLatestState (c : chainClient) i (target : bytes) (key : option Z) :
    res (option Z) :=
  wrap "[ChainClient] failed to get latest state"
    (sm_GetCurrentValue i (ch_stateManager c) target key).

Definition client_GetStateAtBlock (c : chainClient) i (target : bytes) (key : option Z)
    (blockNumber : Z) : res (option Z) :=
  wrap "[ChainClient] failed to get state at block"
    (sm_GetHistoryAtBlock i (ch_stateManager c) target key (i64 blockNumber)).

Definition client_GetStateAtTimestamp (c : chainClient) i (target : bytes) (key : option Z)
    (timestamp : Z) : res (option Z) :=
  let? history := wrap "[ChainClient] failed to get state at timestamp"
    (sm_GetHistoryAfterTimestamp i (ch_stateManager c) target key (i64 timestamp)) in
  match history with
  | [] => Err (Errorf "[ChainClient] no state found after timestamp")
  | v :: _ => Ok v
  end.

Definition client_GetCurrentEpoch (c : chainClient) i : res Z :=
  wrap "[ChainClient] failed to get current epoch"
    (deref (ch_epochManager c) (em_GetCurrentEpoch i)).

Definition client_GetEffectiveEpochForBlock (c : chainClient) i (blockNumber : Z) : res Z :=
  wrap "[ChainClient] failed to get effective epoch for block"
    (deref (ch_epochManager c) (fun m => em_GetEffectiveEpochForBlock i m blockNumber)).

Definition client_GetOperatorWeight (c : chainClient) i (operator : bytes) : res (option Z) :=
  let? epoch := wrap "[ChainClient] failed to get current epoch"
                  (deref (ch_epochManager c) (em_GetCurrentEpoch i)) in
  wrap "[ChainClient] failed to get operator weight"
    (deref (ch_registry c) (fun r => rg_GetOperatorWeightAtEpoch i r operator epoch)).

Definition client_GetTotalWeight (c : chainClient) i : res (option Z) :=
  let? epoch := wrap "[ChainClient] failed to get current epoch"
                  (deref (ch_epochManager c) (em_GetCurrentEpoch i)) in
  wrap "[ChainClient] failed to get total weight"
    (deref (ch_registry c) (fun r => rg_GetTotalWeightAtEpoch i r epoch)).

Definition client_GetMinimumWeight (c : chainClient) i : res (option Z) :=
  wrap "[ChainClient] failed to get minimum stake" (deref (ch_registry c) (rg_MinimumWeight i)).

Definition client_GetThresholdWeight (c : chainClient) i : res (option Z) :=
  let? epoch := wrap "[ChainClient] failed to get current epoch"
                  (deref (ch_epochManager c) (em_GetCurrentEpoch i)) in
  wrap "[ChainClient] failed to get threshold weight"
    (deref (ch_registry c) (fun r => rg_GetThresholdWeightAtEpoch i r epoch)).

Definition client_IsOperatorRegistered (c : chainClient) i (operator : bytes) : res bool :=
  wrap "[ChainClient] failed to check if operator is registered"
    (deref (ch_registry c) (fun r => rg_OperatorRegistered i r operator)).

Definition client_GetOperatorSigningKey (c : chainClient) i (operator : bytes) (epoch : Z) :
    res bytes :=
  wrap "[ChainClient] failed to get operator signing key at epoch"
    (deref (ch_registry c) (fun r => rg_GetOperatorSigningKeyAtEpoch i r operator epoch)).

Definition client_GetOperatorP2PKey (c : chainClient) i (operator : bytes) (epoch : Z) :
    res bytes :=
  wrap "[ChainClient] failed to get operator P2P key at epoch"
    (deref (ch_registry c) (fun r => rg_GetOperatorP2pKeyAtEpoch i r operator epoch)).

(** [chainClient] as the interface *)
Definition as_ChainClient (c : chainClient) : ChainClient := {|
  cc_BlockNumber i := ethclient_BlockNumber i (ch_client c);
  cc_BlockByNumber i number := ethclient_BlockByNumber i (ch_client c) number;
  cc_Close i := Ok tt;
  cc_GetLatestState := client_GetLatestState c;
  cc_GetStateAtBlock := client_GetStateAtBlock c;
  cc_GetStateAtTimestamp := client_GetStateAtTimestamp c;
  cc_GetCurrentEpoch := client_GetCurrentEpoch c;
  cc_GetEffectiveEpochForBlock := client_GetEffectiveEpochForBlock c;
  cc_GetOperatorWeight := client_GetOperatorWeight c;
  cc_GetTotalWeight := client_GetTotalWeight c;
  cc_GetMinimumWeight := client_GetMinimumWeight c;
  cc_GetThresholdWeight := client_GetThresholdWeight c;
  cc_IsOperatorRegistered := client_IsOperatorRegistered c;
  cc_GetOperatorSigningKey := client_GetOperatorSigningKey c;
  cc_GetOperatorP2PKey := client_GetOperatorP2PKey c;
|}.
End chain_client.

(** ** manager.go: the clients by chain ID *)

Abbreviation chainManager := (gmap Z ChainClient).

Section manager.
Context `{Env} `{EthLib} `{EthNode}.

Definition GetClientByChainId (chainID : Z) (m : chainManager) : res ChainClient :=
  match m !! chainID with
  | None => Err (Errorf "chain not found")
  | Some chain => Ok chain
  end.

Definition GetMainnetClient (m : chainManager) : res ChainClient :=
  GetClientByChainId MainnetChainID m.

Definition client_config (chainID : Z) (chainCfg : ChainConfig) : ChainClientConfig := {|
  ec_ChainID := chainID;
  ec_RPCEndpoint := cf_RPC chainCfg;
  ec_StateManagerAddress := HexToAddress (cf_StateManager (cf_Contracts chainCfg));
  ec_EpochManagerAddress := HexToAddress (cf_EpochManager (cf_Contracts chainCfg));
  ec_RegistryAddress := HexToAddress (cf_Registry (cf_Contracts chainCfg));
|}.

(** [m.chains[id] = chain], the assignment *)
Definition put_chain (chainID : Z) (c : ChainClient) : M (World chainManager) unit :=
  modify (fun w => set_mem (<[chainID := c]> (w_mem w)) w).

(** Closing each client, in the map's order; the errors are collected. *)
Fixpoint close_chains (order : list ChainClient) : M (World chainManager) (list error) :=
  match order with
  | [] => ret []
  | c :: rest =>
      let! r := try (extern (cc_Close c)) in
      let! errs := close_chains rest in
      ret (match r with
           | inr e => Wrapf "failed to close chain" e :: errs
           | inl _ => errs
           end)
  end.

Definition Close : M (World chainManager) unit :=
  let! m := gets w_mem in
  let! errs := close_chains (map_to_list m).*2 in
  match errs with
  | [] => ret tt
  | _ => throw (Errorf "errors closing chains")
  end.

(** The loop of [NewManager] over the configured chains. *)
Fixpoint init_chains (chains : list (Z * ChainConfig)) : M (World chainManager) unit :=
  match chains with
  | [] => ret tt
  | (chainID, chainCfg) :: rest =>
      let! r := try (extern (fun i => NewChainClient i (client_config chainID chainCfg))) in
      match r with
      | inr e =>
          do! try Close in
          throw (Wrapf "failed to initialize chain" e)
      | inl chain =>
          do! put_chain chainID (as_ChainClient chain) in
          init_chains rest
      end
  end.

Definition NewManager (order : list (Z * ChainConfig)) : M (World chainManager) unit :=
  do! modify (set_mem (∅ : chainManager)) in
  init_chains order.

Definition AddChain (config : ChainClientConfig) : M (World chainManager) unit :=
  let! m := gets w_mem in
  match m !! ec_ChainID config with
  | Some _ => throw (Errorf "chain already exists")
  | None =>
      let! chain := wrapM "failed to create chain"
                      (extern (fun i => NewChainClient i config)) in
      put_chain (ec_ChainID config) (as_ChainClient chain)
  end.

Definition RemoveChain (chainID : Z) : M (World chainManager) unit :=
  let! m := gets w_mem in
  match m !! chainID with
  | None => throw (Errorf "chain not found")
  | Some chain =>
      do! wrapM "failed to close chain" (extern (cc_Close chain)) in
      modify (fun w => set_mem (delete chainID (w_mem w)) w)
  end.

Definition ListChains (m : chainManager) : list Z := (map_to_list m).*1.
End manager.

(** The interface of the manager towards the other components. *)
Class ChainManager := { the_chains : chainManager }.

(** ** Properties *)

Section properties.
Context `{Env} `{EthLib} `{EthNode}.

(** The client of a chain is bound to the epoch manager and the registry
    exactly when the chain is mainnet. *)
Lemma NewChainClient_mainnet i cfg c :
  NewChainClient i cfg = Ok c ->
  (is_Some (ch_epochManager c) <-> ec_ChainID cfg = MainnetChainID) /\
  (is_Some (ch_registry c) <-> ec_ChainID cfg = MainnetChainID).
Proof.
  unfold NewChainClient. intros (cl & _ & (sm & _ & Hc)%res_bind_Ok)%res_bind_Ok.
  destruct (Z.eqb_spec (ec_ChainID cfg) MainnetChainID) as [E|E].
  - apply res_bind_Ok in Hc as (em & _ & (rg & _ & [= <-])%res_bind_Ok).
    simpl. split; split; eauto.
  - injection Hc as <-. simpl. split; split; try (intros [? [=]]); done.
Qed.

(** The registry answers only through a mainnet client: for any other
    chain the bindings are nil and every registry or epoch call panics,
    whatever the contracts say. *)
Theorem registry_calls_need_mainnet i cfg c (Hne : ec_ChainID cfg <> MainnetChainID)
    (Hc : NewChainClient i cfg = Ok c) :
  forall j op epoch,
    is_ok (cc_GetCurrentEpoch (as_ChainClient c) j) = false /\
    is_ok (cc_GetThresholdWeight (as_ChainClient c) j) = false /\
    is_ok (cc_GetOperatorWeight (as_ChainClient c) j op) = false /\
    is_ok (cc_GetTotalWeight (as_ChainClient c) j) = false /\
    is_ok (cc_GetMinimumWeight (as_ChainClient c) j) = false /\
    is_ok (cc_IsOperatorRegistered (as_ChainClient c) j op) = false /\
    is_ok (cc_GetOperatorSigningKey (as_ChainClient c) j op epoch) = false /\
    is_ok (cc_GetOperatorP2PKey (as_ChainClient c) j op epoch) = false.
Proof.
  intros j op epoch. apply NewChainClient_mainnet in Hc as [He Hr].
  assert (ch_epochManager c = None) as Ee.
  { destruct (ch_epochManager c); [|done]. by destruct Hne; apply He; eauto. }
  assert (ch_registry c = None) as Er.
  { destruct (ch_registry c); [|done]. by destruct Hne; apply Hr; eauto. }
  simpl. unfold client_GetCurrentEpoch, client_GetThresholdWeight,
    client_GetOperatorWeight, client_GetTotalWeight, client_GetMinimumWeight,
    client_IsOperatorRegistered, client_GetOperatorSigningKey, client_GetOperatorP2PKey.
  by rewrite Ee, Er.
Qed.

(** One entry of a manager: the client was made from the configuration. *)
Definition made_from (cfg : ChainConfig) (chainID : Z) (c : ChainClient) : Prop :=
  exists i cl, NewChainClient i (client_config chainID cfg) = Ok cl /\ c = as_ChainClient cl.

Definition from_config (chains : gmap Z ChainConfig) (m : chainManager) : Prop :=
  map_relation (fun id cfg c => made_from cfg id c) (fun _ _ => False) (fun _ _ => False) chains m.

Lemma init_chains_ok l : NoDup l.*1 -> forall w w',
  init_chains l w = (w', Ok tt) ->
  (forall id, w_mem w' !! id = None <-> w_mem w !! id = None /\ (id ∉ l.*1)) /\
  (forall id c, w_mem w' !! id = Some c ->
     (exists cfg, (id, cfg) ∈ l /\ made_from cfg id c) \/
     ((id ∉ l.*1) /\ w_mem w !! id = Some c)).
Proof.
  induction l as [|[id0 cfg0] l IH]; cbn [init_chains fmap list_fmap]; intros Hnd w w' Hrun.
  { injection Hrun as <-. split; [set_solver|]. set_solver. }
  apply NoDup_cons in Hnd as [Hid0 Hnd].
  revert Hrun. unfold bind at 1, try, extern, bind, tick, lift. simpl.
  destruct (NewChainClient (w_step w) (client_config id0 cfg0)) as [cl|e|s] eqn:E; simpl.
  - intros Hrun. apply IH in Hrun as [Hn Hs]; [|done]. simpl in *. split.
    + intros id. rewrite Hn, lookup_insert_None, not_elem_of_cons.
      split; [intros [[? ?] ?]|intros (? & ? & ?)]; auto.
    + intros id c Hc. apply Hs in Hc as [(cfg & Hin & Hm)|[Hnin Hlk]].
      * left. exists cfg. split; [by right|done].
      * apply lookup_insert_Some in Hlk as [[<- <-]|[Hne Hlk]].
        -- left. exists cfg0. split; [by left|]. unfold made_from. eauto.
        -- right. split; [|done]. apply not_elem_of_cons. auto.
  - by destruct (Close _) as [w1 [?|?|?]].
  - done.
Qed.

Lemma NewManager_ok (chains : gmap Z ChainConfig) order w w'
    (Horder : order ≡ₚ map_to_list chains)
    (Hrun : NewManager order w = (w', Ok tt)) :
  forall id,
    match chains !! id, GetClientByChainId id (w_mem w') with
    | Some cfg, Ok c => made_from cfg id c
    | None, Err _ => True
    | _, _ => False
    end.
Proof.
  assert (NoDup order.*1) as Hnd.
  { rewrite Horder. apply NoDup_fst_map_to_list. }
  unfold NewManager, bind, modify in Hrun.
  apply init_chains_ok in Hrun as [Hn Hs]; [|done]. simpl in *.
  intros id. unfold GetClientByChainId.
  destruct (w_mem w' !! id) as [c|] eqn:Em.
  - destruct (Hs id c Em) as [(cfg & Hin & Hm)|[_ Hlk]]; [|by rewrite lookup_empty in Hlk].
    rewrite Horder in Hin. apply elem_of_map_to_list in Hin. by rewrite Hin.
  - apply Hn in Em as [_ Hnin]. destruct (chains !! id) as [cfg|] eqn:Ec; [|done].
    apply Hnin, list_elem_of_fmap. exists (id, cfg). split; [done|].
    rewrite Horder. by apply elem_of_map_to_list.
Qed.

(** When every client can be made, so can the manager. *)
Lemma NewManager_runs order w :
  (forall i id cfg, is_ok (NewChainClient i (client_config id cfg)) = true) ->
  exists w', NewManager order w = (w', Ok tt).
Proof.
  intros Hok. unfold NewManager, bind at 1, modify. generalize (set_mem (∅ : chainManager) w).
  induction order as [|[id cfg] order IH]; intros w1; cbn [init_chains]; [by eexists|].
  unfold bind at 1, try, extern, bind at 1, tick, lift. specialize (Hok (w_step w1) id cfg).
  destruct (NewChainClient _ _) as [c|e|s]; [|done|done].
  unfold bind at 1, put_chain, modify. apply IH.
Qed.

(** A manager that starts has exactly one client per configured chain,
    made from that chain's configuration: [GetClientByChainId] succeeds for
    the configured IDs and for no other. *)
Theorem NewManager_clients (chains : gmap Z ChainConfig) order w w'
    (Horder : order ≡ₚ map_to_list chains)
    (Hrun : NewManager order w = (w', Ok tt)) :
  forall id,
    match chains !! id, GetClientByChainId id (w_mem w') with
    | Some cfg, Ok c => made_from cfg id c
    | None, Err _ => True
    | _, _ => False
    end.
Proof. by eapply NewManager_ok. Qed.

(** [AddChain] and [RemoveChain] undo each other: a chain added to a
    manager and removed again leaves the clients as they were, and neither
    touches the client of another chain. *)
Theorem AddChain_RemoveChain cfg w w' w''
    (Hadd : AddChain cfg w = (w', Ok tt))
    (Hrem : RemoveChain (ec_ChainID cfg) w' = (w'', Ok tt)) :
  w_mem w'' = w_mem w /\
  forall id, id <> ec_ChainID cfg -> w_mem w' !! id = w_mem w !! id.
Proof.
  revert Hadd. unfold AddChain, bind at 1, gets.
  destruct (w_mem w !! ec_ChainID cfg) as [?|] eqn:El; [done|].
  unfold wrapM, extern, bind, tick, lift. simpl.
  destruct (NewChainClient _ cfg) as [cl|e|s]; simpl; [|done|done].
  intros [= <-]. revert Hrem. unfold RemoveChain, bind at 1, gets. simpl.
  rewrite lookup_insert_eq. unfold wrapM, extern, bind, tick, lift. simpl.
  intros [= <-]. simpl. split.
  - by apply delete_insert_id.
  - intros id Hid. by apply lookup_insert_ne.
Qed.
End properties.

(** ** Examples: a node whose every call succeeds *)

Definition toy_node : EthNode := {|
  EthClient := unit; StateManager := unit; EpochManager := unit; Registry := unit;
  ethclient_Dial _ _ := Ok tt;
  ethclient_BlockNumber i _ := Ok (100 + Z.of_nat i);
  ethclient_BlockByNumber _ _ n := Ok (mkBlock (default 0 n) (12 * default 0 n));
  NewStateManager _ _ _ := Ok tt;
  NewEpochManager _ _ _ := Ok tt;
  NewECDSAStakeRegistry _ _ _ := Ok tt;
  sm_GetCurrentValue _ _ _ k := Ok k;
  sm_GetHistoryAtBlock _ _ _ k _ := Ok k;
  sm_GetHistoryAfterTimestamp _ _ _ k _ := Ok [k];
  em_GetCurrentEpoch _ _ := Ok 7;
  em_GetEffectiveEpochForBlock _ _ b := Ok (EpochMath.GetEffectiveEpochByBlockNumber b);
  rg_GetOperatorWeightAtEpoch _ _ _ _ := Ok (Some 5);
  rg_GetTotalWeightAtEpoch _ _ _ := Ok (Some 10);
  rg_MinimumWeight _ _ := Ok (Some 1);
  rg_GetThresholdWeightAtEpoch _ _ _ := Ok (Some 6);
  rg_OperatorRegistered _ _ _ := Ok true;
  rg_GetOperatorSigningKeyAtEpoch _ _ a _ := Ok a;
  rg_GetOperatorP2pKeyAtEpoch _ _ a _ := Ok a;
|}.

Definition toy_client_config : ChainClientConfig := mkChainClientConfig 10 [] [] [] "http://node".

Definition toy_client : @chainClient toy_node :=
  @mkchainClient toy_node tt tt None None.

Lemma registry_calls_need_mainnet_witness :
  is_ok (cc_GetThresholdWeight (@as_ChainClient toy_node toy_client) 0) = false.
Proof.
  refine (proj1 (proj2 (@registry_calls_need_mainnet toy_node 0 toy_client_config toy_client
    _ _ 0%nat [] 0))); [discriminate | reflexivity].
Defined.

Lemma NewManager_clients_witness :
  exists c, (@GetClientByChainId 1
    (w_mem (@NewManager toy_env toy_eth toy_node (map_to_list (cf_Chains toy_config))
       (toy_world empty_db ∅)).1)) = Ok c /\ @made_from toy_eth toy_node toy_chain 1 c.
Proof.
  eexists. split; [reflexivity|].
  exact (@NewManager_clients toy_env toy_eth toy_node (cf_Chains toy_config)
    (map_to_list (cf_Chains toy_config)) (toy_world empty_db ∅) _ (reflexivity _)
    (eq_refl _) 1).
Defined.

Lemma AddChain_RemoveChain_witness :
  exists w' w'', @AddChain toy_env toy_node toy_client_config (toy_world empty_db ∅) = (w', Ok tt) /\
    @RemoveChain toy_env 10 w' = (w'', Ok tt) /\ w_mem w'' = ∅.
Proof.
  eexists _, _. split; [reflexivity|]. split; [reflexivity|].
  refine (proj1 (@AddChain_RemoveChain toy_env toy_node toy_client_config
    (toy_world empty_db ∅) _ _ (eq_refl _) (eq_refl _))).
Defined.
