(* ===== verification/Watch.v ===== *)
(** * pkg/common/contracts/ethereum/chain_client.go: the event watchers

    [WatchOperatorRegistered] and [WatchOperatorDeregistered] run the same
    loop on two event types: every second they ask the registry for the
    events after the last block they saw and send them to a channel.  The
    section is generic in the event type; the chain is a log that grows block
    by block, and a poll may fail. *)

From S2P Require Import Prelude GoInt Models Chain.

(** The payloads (interface.go); [BlockNumber] is the [*big.Int]'s value. *)
Record OperatorRegisteredEvent := mkRegistered {
  er_Operator : bytes;
  er_BlockNumber : Z;
  er_SigningKey : bytes;
  er_P2PKey : bytes;
  er_AVS : bytes;
}.

Record OperatorDeregisteredEvent := mkDeregistered {
  ed_Operator : bytes;
  ed_BlockNumber : Z;
  ed_AVS : bytes;
}.

Section watch.
Context {E : Type} (ev_block : E -> Z).

(** The state of the goroutine: [lastBlock], and what went into [sink]. *)
Record Watcher := mkWatcher { wt_lastBlock : Z; wt_sent : list E }.

Definition watch_start (start : Z) : Watcher :=
  mkWatcher (if 0 <? start then u64 (start - 1) else 0) [].

(** The [Start] of the filter of the next poll *)
Definition watch_from (w : Watcher) : Z := u64 (wt_lastBlock w + 1).

(** The inner loop, [for events.Next()] *)
Fixpoint watch_events (events : list E) (w : Watcher) : Watcher :=
  match events with
  | [] => w
  | e :: rest =>
      let last := wt_lastBlock w in
      watch_events rest
        (mkWatcher (if last <? u64 (ev_block e) then u64 (ev_block e) else last)
           (wt_sent w ++ [e]))
  end.

(** One tick: a failed filter call is retried at the next tick. *)
Definition watch_tick (events : res (list E)) (w : Watcher) : Watcher :=
  match events with Ok es => watch_events es w | _ => w end.

(** ** The watcher on a growing chain *)

Record Chain := mkChain { ch_head : Z; ch_log : list E }.

(** What the registry answers to a filter from block [b]. *)
Definition log_from (b : Z) (c : Chain) : list E :=
  List.filter (fun e => b <=? ev_block e) (ch_log c).

Inductive watch_step : Chain * Watcher -> Chain * Watcher -> Prop :=
  | step_mine c w es :
      ch_head c + 1 < 2 ^ 64 - 1 ->
      Forall (fun e => ev_block e = ch_head c + 1) es ->
      watch_step (c, w) (mkChain (ch_head c + 1) (ch_log c ++ es), w)
  | step_poll c w :
      watch_step (c, w) (c, watch_tick (Ok (log_from (watch_from w) c)) w)
  | step_poll_failed c w e :
      watch_step (c, w) (c, watch_tick (Err e) w).

(** A node that starts watching from block [start] of a chain whose head is
    [head] and whose log is sorted. *)
Definition watch_init (start : Z) (s : Chain * Watcher) : Prop :=
  0 <= ch_head s.1 < 2 ^ 64 - 1 /\
  Forall (fun e => 0 <= ev_block e <= ch_head s.1) (ch_log s.1) /\
  StronglySorted (key_le ev_block) (ch_log s.1) /\
  s.2 = watch_start start.

(** ** Lemmas *)

Definition last_of (l : Z) (es : list E) : Z := foldl (fun a e => Z.max a (ev_block e)) l es.

Lemma last_of_ge es : forall l, l <= last_of l es.
Proof.
  induction es as [|e es IH]; intros l; unfold last_of; simpl; [lia|].
  pose proof (IH (Z.max l (ev_block e))). unfold last_of in *. lia.
Qed.

Lemma last_of_bound es : forall l, Forall (fun e => ev_block e <= last_of l es) es.
Proof.
  induction es as [|e es IH]; intros l; [done|]. constructor; [|apply IH].
  pose proof (last_of_ge es (Z.max l (ev_block e))). unfold last_of in *. simpl. lia.
Qed.

Lemma last_of_le es h : forall l, Forall (fun e => ev_block e <= h) es -> l <= h ->
  last_of l es <= h.
Proof.
  induction es as [|e es IH]; intros l Hf Hl; unfold last_of; simpl; [lia|].
  inversion Hf; subst. apply IH; [done|lia].
Qed.

Lemma watch_events_eq es : Forall (fun e => 0 <= ev_block e < 2 ^ 64) es ->
  forall w, watch_events es w =
    mkWatcher (last_of (wt_lastBlock w) es) (wt_sent w ++ es).
Proof.
  induction es as [|e es IH]; intros Hf w; simpl.
  { unfold last_of. simpl. rewrite app_nil_r. by destruct w. }
  inversion Hf; subst. rewrite IH by done. simpl. rewrite u64_id by (unfold is_u64; lia).
  rewrite <- app_assoc. simpl. f_equal. unfold last_of. simpl. f_equal.
  destruct (Z.ltb_spec (wt_lastBlock w) (ev_block e)); lia.
Qed.

Lemma filter_above l b : Forall (fun e => b <= ev_block e) l ->
  List.filter (fun e => b <=? ev_block e) l = l.
Proof.
  induction l as [|e l IH]; intros Hf; simpl; [done|]. inversion Hf; subst.
  rewrite (proj2 (Z.leb_le b (ev_block e))) by done. f_equal. auto.
Qed.

(** On a sorted log the events up to [m] come before the later ones. *)
Lemma filter_split l f m : StronglySorted (key_le ev_block) l -> f <= m + 1 ->
  List.filter (fun e => (f <=? ev_block e) && (ev_block e <=? m)) l ++
  List.filter (fun e => m + 1 <=? ev_block e) l =
  List.filter (fun e => f <=? ev_block e) l.
Proof.
  intros Hs Hfm. induction Hs as [|e l Hs IH Hf]; simpl; [done|].
  destruct (Z.leb_spec (ev_block e) m) as [Hm|Hm].
  - rewrite andb_true_r, (proj2 (Z.leb_gt (m + 1) (ev_block e))) by lia.
    destruct (f <=? ev_block e); simpl; by rewrite IH.
  - rewrite andb_false_r, (proj2 (Z.leb_le (m + 1) (ev_block e))) by lia.
    rewrite (proj2 (Z.leb_le f (ev_block e))) by lia.
    assert (Forall (fun x => m + 1 <= ev_block x) l) as Habove.
    { eapply Forall_impl; [exact Hf|]. unfold key_le. intros x Hx. lia. }
    assert (List.filter (fun x => (f <=? ev_block x) && (ev_block x <=? m)) l = []) as ->.
    { clear -Habove. induction Habove as [|x l Hx _ IH]; simpl; [done|].
      rewrite (proj2 (Z.leb_gt (ev_block x) m)) by lia. by rewrite andb_false_r. }
    rewrite filter_above by done. simpl.
    rewrite filter_above; [done|]. eapply Forall_impl; [exact Habove|]. simpl. lia.
Qed.

Lemma filter_ext_Forall (p q : E -> bool) l :
  Forall (fun e => p e = q e) l -> List.filter p l = List.filter q l.
Proof. induction 1 as [|e l Hx _ IH]; simpl; [done|]. by rewrite Hx, IH. Qed.

Lemma sorted_snoc_block l h es :
  StronglySorted (key_le ev_block) l -> Forall (fun e => 0 <= ev_block e <= h) l ->
  Forall (fun e => ev_block e = h + 1) es -> StronglySorted (key_le ev_block) (l ++ es).
Proof.
  intros Hs. induction Hs as [|e l Hs IH Hf]; intros Hl Hes; simpl.
  - induction Hes as [|x es Hx Hes IHes]; constructor; [done|].
    eapply Forall_impl; [exact Hes|]. unfold key_le. simpl. lia.
  - inversion Hl; subst. constructor; [by apply IH|]. apply Forall_app. split; [done|].
    eapply Forall_impl; [exact Hes|]. unfold key_le. simpl. lia.
Qed.

(** The first block whose events the watcher wants *)
Definition watch_first (start : Z) : Z := Z.max 1 start.

(** What holds between any two steps: the watcher has sent exactly the
    events of the blocks from [watch_first] to [lastBlock], in order. *)
Record watch_inv (start : Z) (s : Chain * Watcher) : Prop := {
  wi_head : 0 <= ch_head s.1 < 2 ^ 64 - 1;
  wi_blocks : Forall (fun e => 0 <= ev_block e <= ch_head s.1) (ch_log s.1);
  wi_sorted : StronglySorted (key_le ev_block) (ch_log s.1);
  wi_last : watch_first start - 1 <= wt_lastBlock s.2 <=
            Z.max (ch_head s.1) (watch_first start - 1);
  wi_sent : wt_sent s.2 =
    List.filter (fun e => (watch_first start <=? ev_block e) &&
                          (ev_block e <=? wt_lastBlock s.2)) (ch_log s.1);
}.

Context (start : Z) (Hstart : 0 <= start < 2 ^ 64 - 1).

Lemma watch_init_inv s : watch_init start s -> watch_inv start s.
Proof.
  destruct s as [c w]. unfold watch_init. cbn [fst snd]. intros (Hh & Hb & Hs & ->).
  assert (wt_lastBlock (watch_start start) = watch_first start - 1) as El.
  { unfold watch_start, watch_first. simpl. destruct (Z.ltb_spec 0 start); [|lia].
    rewrite u64_id by (unfold is_u64; lia). lia. }
  constructor; cbn [fst snd]; rewrite ?El; try done; [lia|].
  unfold watch_start. cbn [wt_sent]. clear. induction (ch_log c) as [|e l IH]; simpl; [done|].
  rewrite <- IH.
  destruct (Z.leb_spec (watch_first start) (ev_block e)),
    (Z.leb_spec (ev_block e) (watch_first start - 1)); simpl; (done || lia).
Qed.

(** A poll that succeeds catches up with the whole log. *)
Lemma watch_poll_inv c w : watch_inv start (c, w) ->
  let w' := watch_tick (Ok (log_from (watch_from w) c)) w in
  watch_inv start (c, w') /\
  wt_sent w' = List.filter (fun e => watch_first start <=? ev_block e) (ch_log c).
Proof.
  intros [Hh Hb Hs Hl Hsent]. simpl in *. unfold watch_from.
  assert (1 <= watch_first start < 2 ^ 64 - 1) as Hf by (unfold watch_first; lia).
  rewrite u64_id by (unfold is_u64; lia). unfold log_from.
  set (new := List.filter _ (ch_log c)).
  assert (Forall (fun e => 0 <= ev_block e <= ch_head c) new) as Hnew.
  { apply Forall_forall. intros e He. apply list_elem_of_In, filter_In in He as [He _].
    by eapply (proj1 (Forall_forall _ _) Hb), list_elem_of_In. }
  rewrite watch_events_eq by (eapply Forall_impl; [exact Hnew|]; simpl; lia). simpl.
  assert (wt_sent w ++ new = List.filter (fun e => watch_first start <=? ev_block e) (ch_log c))
    as Esent.
  { rewrite Hsent. apply filter_split; [done|lia]. }
  split; [|done]. constructor; simpl; try done.
  - split; [pose proof (last_of_ge new (wt_lastBlock w)); lia|].
    apply last_of_le; [|lia]. eapply Forall_impl; [exact Hnew|]. simpl. lia.
  - rewrite Esent. apply filter_ext_Forall, Forall_forall. intros e He.
    destruct (Z.leb_spec (watch_first start) (ev_block e)); simpl; [|done]. symmetry.
    apply Z.leb_le. destruct (Z.le_gt_cases (ev_block e) (wt_lastBlock w)).
    + pose proof (last_of_ge new (wt_lastBlock w)). lia.
    + apply (proj1 (Forall_forall _ _) (last_of_bound new (wt_lastBlock w))).
      apply list_elem_of_In, filter_In. split; [by apply list_elem_of_In|].
      apply Z.leb_le. lia.
Qed.

Lemma watch_step_inv s s' : watch_inv start s -> watch_step s s' -> watch_inv start s'.
Proof.
  intros Hi Hstep. destruct Hstep as [c w es Hmax Hes|c w|c w e]; simpl; [|by apply watch_poll_inv|done].
  destruct Hi as [Hh Hb Hs Hl Hsent]. simpl in *. constructor; simpl.
  - lia.
  - apply Forall_app. split; eapply Forall_impl; [exact Hb| |exact Hes|]; simpl; lia.
  - by eapply sorted_snoc_block.
  - lia.
  - rewrite List.filter_app, <- Hsent. rewrite (filter_ext_Forall _ (fun _ => false) es).
    { clear. induction es; simpl; by rewrite ?app_nil_r in *. }
    eapply Forall_impl; [exact Hes|]. simpl. intros x ->.
    destruct (Z.leb_spec (watch_first start) (ch_head c + 1)); [|done]. simpl.
    apply Z.leb_gt. lia.
Qed.
End watch.

(** ** Properties *)

(** C27: no event of a block from the start block on is lost, duplicated or
    reordered: at every moment the watcher has sent exactly the events of the
    blocks up to [lastBlock], and after a successful poll the whole log, in
    whatever way mining, successful and failed polls interleave. *)
Theorem watch_exactly_once {E} (ev_block : E -> Z) start s
    (Hstart : 0 <= start < 2 ^ 64 - 1)
    (Hs : reachable (watch_step ev_block) (watch_init ev_block start) s) :
  wt_sent s.2 = List.filter (fun e => (Z.max 1 start <=? ev_block e) &&
                                      (ev_block e <=? wt_lastBlock s.2)) (ch_log s.1) /\
  wt_sent (watch_tick ev_block (Ok (log_from ev_block (watch_from s.2) s.1)) s.2) =
    List.filter (fun e => Z.max 1 start <=? ev_block e) (ch_log s.1).
Proof.
  assert (watch_inv ev_block start s) as Hi.
  { eapply reachable_invariant; [| |exact Hs].
    - intros ? ?. by apply watch_init_inv.
    - intros ? ?. by apply watch_step_inv. }
  split; [apply Hi|]. destruct s as [c w]. by apply watch_poll_inv.
Qed.

Definition toy_event (b : Z) : OperatorDeregisteredEvent := mkDeregistered [] b [].
Definition toy_log : Chain := mkChain (E:=OperatorDeregisteredEvent) 9 [toy_event 4; toy_event 7; toy_event 9].

Definition toy_watcher : Watcher := watch_start (E:=OperatorDeregisteredEvent) 7.

Lemma watch_exactly_once_witness :
  wt_sent (watch_tick ed_BlockNumber
    (Ok (log_from ed_BlockNumber (watch_from toy_watcher) toy_log)) toy_watcher) =
  [toy_event 7; toy_event 9].
Proof.
  refine (proj2 (watch_exactly_once ed_BlockNumber 7 (toy_log, toy_watcher) _ _)).
  - simpl; lia.
  - apply reach_init. split_and!; simpl; try done; try lia.
    + repeat constructor; simpl; lia.
    + repeat constructor; unfold key_le; simpl; lia.
Defined.
