(* ===== verification/Task.v ===== *)
(** * pkg/operator/task: the task processor

    The state is the tracker of responses and weights, the response topic
    (nil after [Stop]) and what was published on it.  The processor runs in
    the memory [C] of a node through the lens [HasTask]; the epoch state, the
    signer, the chains and the pub/sub library are the interfaces it is
    built from. *)

From S2P Require Import Prelude GoInt GoString Numeric EpochMath Models World.
From S2P Require Import TasksRepo BlacklistRepo OperatorsRepo ConsensusRepo EthLib Signer Chain.

(** [proto.TaskResponseMessage] *)
Record TaskResponseMessage := mkTaskResponseMessage {
  pb_TaskId : string;
  pb_Signature : bytes;
  pb_Epoch : Z;
  pb_ChainId : Z;
  pb_TargetAddress : string;
  pb_Key : string;
  pb_Value : string;
  pb_BlockNumber : Z;
}.

(** protobuf and the gossip topic *)
Class PubSub := {
  proto_Marshal : TaskResponseMessage -> res bytes;
  proto_Unmarshal : bytes -> res TaskResponseMessage;
  topic_Publish : nat -> bytes -> res unit;
}.

Class PubSubOk `{PubSub} := {
  Unmarshal_Marshal : forall m d, proto_Marshal m = Ok d -> proto_Unmarshal d = Ok m;
}.

(** [pubsub.Message]: the payload and the peer that handed it over. *)
Record Message := mkMessage { msg_Data : bytes; msg_ReceivedFrom : string }.

Record taskResponse := mkTaskResponse {
  tr_taskID : string;
  tr_signature : bytes;
  tr_epoch : Z;
  tr_chainID : Z;
  tr_targetAddress : string;
  tr_key : string;
  tr_value : string;
  tr_blockNumber : Z;
}.

(** [TaskResponseTrack]: by task, then by signing key.  A nil weight is
    [None]. *)
Record TaskResponseTrack := mkTrack {
  tk_responses : gmap string (gmap string taskResponse);
  tk_weights : gmap string (gmap string (option Z));
}.

Definition empty_track : TaskResponseTrack := mkTrack ∅ ∅.

Record TaskMem := mkTaskMem {
  tm_track : TaskResponseTrack;
  tm_responseTopic : bool;         (** false when nil *)
  tm_published : list bytes;
}.

Definition set_track (k : TaskResponseTrack) (m : TaskMem) : TaskMem :=
  mkTaskMem k (tm_responseTopic m) (tm_published m).

(** Where the processor's state lives in the node's memory. *)
Class HasTask (C : Type) := {
  task_mem : C -> TaskMem;
  set_task_mem : TaskMem -> C -> C;
}.

(** The interface [EpochStateQuerier]; the threshold is a [*big.Int]. *)
Class EpochStateQuerier (C : Type) := {
  GetThresholdWeight : C -> option Z;
  GetCurrentEpochNumber : C -> Z;
}.

Class HasTaskOk (C : Type) `{HasTask C, EpochStateQuerier C} := {
  task_mem_set : forall m c, task_mem (set_task_mem m c) = m;
  set_task_mem_set : forall m m' c, set_task_mem m (set_task_mem m' c) = set_task_mem m c;
  set_task_mem_id : forall c, set_task_mem (task_mem c) c = c;
  threshold_set_task : forall m c, GetThresholdWeight (set_task_mem m c) = GetThresholdWeight c;
  epoch_set_task : forall m c, GetCurrentEpochNumber (set_task_mem m c) = GetCurrentEpochNumber c;
}.

(** [Cmp] of two [big.Int] on pointers; comparing a pointer with itself is [Eq]. *)
Definition big_Cmp (x y : option Z) : res comparison :=
  match x, y with
  | Some a, Some b => Ok (a ?= b)
  | None, None => Ok Eq
  | _, _ => Panic "big.Int.Cmp: nil pointer dereference"
  end.

(** [String] of a [big.Int] pointer *)
Definition big_String_ptr (x : option Z) : string :=
  match x with Some a => big_String a | None => "<nil>" end.

(** The byte order of Go strings, for [sort.Strings]. *)
Definition string_le : relation string := fun a b => String.leb a b = true.
#[export] Instance string_le_dec a b : Decision (string_le a b).
Proof. unfold string_le. apply _. Defined.

(** [for key := range m], then [sort.Strings] *)
Definition sorted_keys {A} (m : gmap string A) : list string :=
  merge_sort string_le (map_to_list m).*1.

(** [m[a][b]] on nested maps: a missing map reads as empty. *)
Definition lookup2 {A} (m : gmap string (gmap string A)) (a b : string) : option A :=
  m !! a ≫= fun n => n !! b.

(** ** NewTaskProcessor *)

(** The dependencies; for those that are not first-class here, whether the
    interface value is non-nil. *)
Record TaskProcessorConfig := mkTaskProcessorConfig {
  tc_Signer : option OperatorSigner;
  tc_EpochStateQuerier : bool;
  tc_ConsensusResponseRepo : bool;
  tc_BlacklistRepo : bool;
  tc_TaskRepo : bool;
  tc_OperatorRepo : bool;
  tc_ChainManager : option ChainManager;
  tc_ResponseTopic : bool;
}.

Definition NewTaskProcessor (cfg : option TaskProcessorConfig) : res TaskMem :=
  match cfg with
  | None => Err (Errorf "[TaskProcessor] config is nil")
  | Some cfg =>
      match tc_Signer cfg with
      | None => Err (Errorf "[TaskProcessor] signer is nil")
      | Some _ =>
          if negb (tc_EpochStateQuerier cfg) then
            Err (Errorf "[TaskProcessor] epoch state querier is nil")
          else if negb (tc_TaskRepo cfg) then Err (Errorf "[TaskProcessor] task repo is nil")
          else if negb (tc_OperatorRepo cfg) then
            Err (Errorf "[TaskProcessor] operator repo is nil")
          else if negb (tc_ConsensusResponseRepo cfg) then
            Err (Errorf "[TaskProcessor] consensus response repo is nil")
          else
            match tc_ChainManager cfg with
            | None => Err (Errorf "[TaskProcessor] chain manager is nil")
            | Some _ =>
                if negb (tc_ResponseTopic cfg) then
                  Err (Errorf "[TaskProcessor] response topic is nil")
                else Ok (mkTaskMem empty_track true [])
            end
      end
  end.

(** [convertProtoToResponse] *)
Definition convertProtoToResponse (pbMsg : TaskResponseMessage) : taskResponse :=
  mkTaskResponse (pb_TaskId pbMsg) (pb_Signature pbMsg) (pb_Epoch pbMsg) (pb_ChainId pbMsg)
    (pb_TargetAddress pbMsg) (pb_Key pbMsg) (pb_Value pbMsg) (pb_BlockNumber pbMsg).

(** The message [broadcastResponse] builds *)
Definition response_message (response : taskResponse) : TaskResponseMessage :=
  mkTaskResponseMessage (tr_taskID response) (tr_signature response) (tr_epoch response)
    (tr_chainID response) (tr_targetAddress response) (tr_key response) (tr_value response)
    (tr_blockNumber response).

(** [calculateTotalWeight]: the sum over the map; adding a nil weight panics. *)
Definition calculateTotalWeight (weights : gmap string (option Z)) : res Z :=
  map_fold (fun _ weight total =>
    let? t := total in
    match weight with
    | Some x => Ok (t + x)
    | None => Panic "big.Int.Add: nil pointer dereference"
    end) (Ok 0) weights.

(** The critical section that stores one response: both inner maps are made
    when the task is new; assigning to a nil map panics. *)
Definition store_section (taskID signingKey : string) (response : taskResponse)
    (weight : option Z) (k : TaskResponseTrack) : res TaskResponseTrack :=
  let k1 := match tk_responses k !! taskID with
            | None => mkTrack (<[taskID := ∅]> (tk_responses k)) (<[taskID := ∅]> (tk_weights k))
            | Some _ => k
            end in
  match tk_responses k1 !! taskID, tk_weights k1 !! taskID with
  | Some rs, Some ws =>
      Ok (mkTrack (<[taskID := <[signingKey := response]> rs]> (tk_responses k1))
                  (<[taskID := <[signingKey := weight]> ws]> (tk_weights k1)))
  | _, _ => Panic "assignment to entry in nil map"
  end.

Section task.
Context `{Env} `{EthLib} `{P2PLib} `{PubSub} `{OperatorSigner} `{CM : ChainManager}.
Context {C : Type} `{HasTask C, EpochStateQuerier C}.
Local Abbreviation MW := (M (World C)).

Definition get_track (w : World C) : TaskResponseTrack := tm_track (task_mem (w_mem w)).

Definition put_task_mem (m : TaskMem) (w : World C) : World C :=
  set_mem (set_task_mem m (w_mem w)) w.

Definition put_track (k : TaskResponseTrack) (w : World C) : World C :=
  put_task_mem (set_track k (task_mem (w_mem w))) w.

(** One critical section of the tracker's mutex. *)
Definition locked (section : TaskResponseTrack -> res TaskResponseTrack) : MW unit :=
  fun w => match section (get_track w) with
           | Ok k => (put_track k w, Ok tt)
           | Err e => (w, Err e)
           | Panic s => (w, Panic s)
           end.

Definition mySigningKey : string := Address_Hex GetSigningAddress.

Definition alreadyProcessed (taskId signingKey : string) : MW bool :=
  let! k := gets get_track in
  ret (bool_decide (is_Some (lookup2 (tk_responses k) taskId signingKey))).

Definition storeResponseAndWeight (response : taskResponse) (signingKey : string)
    (weight : option Z) : MW unit :=
  locked (store_section (tr_taskID response) signingKey response weight).

Definition cleanupTask (taskID : string) : MW unit :=
  locked (fun k => Ok (mkTrack (delete taskID (tk_responses k)) (delete taskID (tk_weights k)))).

Definition cleanupAllTasks : MW unit := locked (fun _ => Ok empty_track).

(** ** consensus.go *)

Fixpoint collect_from (responses : gmap string taskResponse) (signingKeys : list string) :
    MW (list bytes * list string) :=
  match signingKeys with
  | [] => ret ([], [])
  | signingKey :: rest =>
      match responses !! signingKey with
      | None => collect_from responses rest   (* keys range over the map *)
      | Some response =>
          let! operator := wrapM "failed to get operator for signing key"
                             (GetOperatorBySigningKey signingKey) in
          match operator with
          | None => throw (Errorf "operator not found for signing key")
          | Some operator =>
              let! (signatures, addresses) := collect_from responses rest in
              ret (tr_signature response :: signatures, o_Address operator :: addresses)
          end
      end
  end.

Definition collectSignaturesAndAddresses (responses : gmap string taskResponse) :
    MW (list bytes * list string) :=
  collect_from responses (sorted_keys responses).

Definition markTaskAsCompleted (taskID : string) : MW unit :=
  do! wrapM "failed to get task" (GetTaskByID taskID) in
  wrapM "failed to update task status" (UpdateTaskToCompleted taskID).

Definition consensus_params (response : taskResponse) (signatures : list bytes)
    (addresses : list string) : CreateConsensusResponseParams := {|
  cp_TaskID := tr_taskID response;
  cp_Epoch := tr_epoch response;
  cp_Value := StringToNumeric (tr_value response);
  cp_BlockNumber := tr_blockNumber response;
  cp_ChainID := tr_chainID response;
  cp_TargetAddress := tr_targetAddress response;
  cp_Key := StringToNumeric (tr_key response);
  cp_AggregatedSignatures := signatures;
  cp_OperatorAddresses := addresses;
|}.

Definition checkConsensus (response : taskResponse) : MW unit :=
  let taskID := tr_taskID response in
  let! k := gets get_track in
  let responses := default ∅ (tk_responses k !! taskID) in
  let weights := default ∅ (tk_weights k !! taskID) in
  if bool_decide (responses = ∅) then ret tt
  else
    let! totalWeight := lift (calculateTotalWeight weights) in
    let! threshold := gets (fun w => GetThresholdWeight (w_mem w)) in
    let! cmp := lift (big_Cmp (Some totalWeight) threshold) in
    match cmp with
    | Lt => ret tt
    | _ =>
        let! (signatures, addresses) :=
          wrapM "failed to collect signatures and addresses"
            (collectSignaturesAndAddresses responses) in
        do! wrapM "failed to create consensus response"
              (CreateConsensusResponse (consensus_params response signatures addresses)) in
        wrapM "failed to mark task as completed" (markTaskAsCompleted taskID)
    end.

(** ** task.go *)

Definition broadcastResponse (response : taskResponse) : MW unit :=
  let! data := wrapM "failed to marshal response" (lift (proto_Marshal (response_message response))) in
  let! m := gets (fun w => task_mem (w_mem w)) in
  if tm_responseTopic m then
    do! extern (fun i => topic_Publish i data) in
    modify (fun w => put_task_mem
      (mkTaskMem (tm_track (task_mem (w_mem w))) (tm_responseTopic (task_mem (w_mem w)))
         (tm_published (task_mem (w_mem w)) ++ [data])) w)
  else panic "Publish on a nil topic".

(** The attempts that are left; the sleep between them is not modelled. *)
Fixpoint state_attempts (chainClient : ChainClient) (target : bytes) (key : option Z)
    (blockNumber : Z) (attempts : nat) : MW (option Z) :=
  match attempts with
  | O => throw (Errorf "failed to get state after retries")
  | S attempts =>
      let retry := state_attempts chainClient target key blockNumber attempts in
      let! latest := try (extern (cc_BlockNumber chainClient)) in
      match latest with
      | inr _ => retry
      | inl latestBlock =>
          if latestBlock <? blockNumber then throw (Errorf "block number is in the future")
          else
            let! state := try (extern (fun i =>
              cc_GetStateAtBlock chainClient i target key blockNumber)) in
            match state with
            | inl state => ret state
            | inr err =>
                if strings_Contains (Error err) "0x7c44ec9a" then
                  throw (Errorf "block not found in state history")
                else if strings_Contains (Error err) "StateManager__KeyNotFound" then
                  throw (Errorf "key not found for address")
                else if strings_Contains (Error err) "StateManager__NoHistoryFound" then
                  throw (Errorf "no state history found for block and key")
                else retry
            end
      end
  end.

Definition maxRetries : nat := 3.

Definition getStateWithRetries (chainClient : ChainClient) (target : bytes) (key : option Z)
    (blockNumber : Z) : MW (option Z) :=
  state_attempts chainClient target key blockNumber maxRetries.

Definition sign_params (target : string) (chainID blockNumber : Z) (key value : option Z) :
    TaskSignParams :=
  mkTaskSignParams (HexToAddress target) chainID blockNumber key value.

Definition own_response (task : Tasks) (signature : bytes) (value : option Z) : taskResponse := {|
  tr_taskID := t_TaskID task;
  tr_signature := signature;
  tr_value := big_String_ptr value;
  tr_blockNumber := t_BlockNumber task;
  tr_chainID := t_ChainID task;
  tr_targetAddress := t_TargetAddress task;
  tr_key := NumericToString (t_Key task);
  tr_epoch := t_Epoch task;
|}.

(** The first half of [ProcessTask]: the state is read from the chain,
    compared and signed.  It returns the response to store. *)
Definition answer_task (task : Tasks) : MW taskResponse :=
  if t_BlockNumber task =? 0 then throw (Errorf "task block number is nil")
  else
    let! chainClient := textM "failed to get state client"
                          (lift (GetClientByChainId (t_ChainID task) the_chains)) in
    let! KeyBig := textM "failed to convert key to big.Int"
                     (lift (NumericToBigInt (t_Key task))) in
    let! value := wrapM "failed to get state"
                    (getStateWithRetries chainClient (HexToAddress (t_TargetAddress task))
                       KeyBig (t_BlockNumber task)) in
    let! taskValueBig := textM "failed to convert task value to big.Int"
                           (lift (NumericToBigInt (t_Value task))) in
    let! cmp := lift (big_Cmp value taskValueBig) in
    match cmp with
    | Eq =>
        let! signature := wrapM "failed to sign response"
          (lift (SignTaskResponse (sign_params (t_TargetAddress task) (t_ChainID task)
                                     (t_BlockNumber task) KeyBig value))) in
        ret (own_response task signature value)
    | _ => throw (Errorf "state value mismatch")
    end.

Definition ProcessTask (task : option Tasks) : MW unit :=
  match task with
  | None => throw (Errorf "task is nil")
  | Some task =>
      let! processed := alreadyProcessed (t_TaskID task) mySigningKey in
      if (processed : bool) then ret tt
      else
        let! response := answer_task task in
        let! operator := wrapM "failed to get operator" (GetOperatorBySigningKey mySigningKey) in
        match operator with
        | None => panic "operator.Weight: nil pointer dereference"
        | Some operator =>
            let! weight := wrapM "failed to convert operator weight to big int"
                             (lift (NumericToBigInt (o_Weight operator))) in
            do! locked (store_section (t_TaskID task) mySigningKey response weight) in
            do! wrapM "failed to broadcast response" (broadcastResponse response) in
            do! try (checkConsensus response) in
            ret tt
        end
  end.

(** ** response.go *)

Definition verifyResponse (response : taskResponse) (signingKey : string) : res unit :=
  VerifyTaskResponse
    (sign_params (tr_targetAddress response) (tr_chainID response) (tr_blockNumber response)
       (StringToBigInt (tr_key response)) (StringToBigInt (tr_value response)))
    (tr_signature response) signingKey.

(** Always an error: with nothing to wrap, [%w] formats a nil. *)
Definition incrementPeerViolation (peerID : string) (originalErr : error) : MW unit :=
  let peerIDStr := PeerID_String peerID in
  let! r := try (IncrementViolationCount WConn
                   (mkIncrementViolationCountParams peerIDStr 1 None) (Some peerIDStr)) in
  match r with
  | inr err => throw (Wrapf (Error originalErr) err)
  | inl _ => throw (Errorf (Error originalErr +:+ ": %!w(<nil>)"))
  end.

(** The task a node reconstructs from a response it has not answered. *)
Definition task_of_response (response : taskResponse) : Tasks := {|
  t_TaskID := tr_taskID response;
  t_Value := StringToNumeric (tr_value response);
  t_BlockNumber := tr_blockNumber response;
  t_ChainID := tr_chainID response;
  t_TargetAddress := tr_targetAddress response;
  t_Key := StringToNumeric (tr_key response);
  t_Epoch := tr_epoch response;
  t_Status := TaskStatusZero;
  t_RequiredConfirmations := 0;
  t_RetryCount := 0;
  t_CreatedAt := 0;
  t_UpdatedAt := 0;
|}.

(** From the accepted response on: store it, check consensus, answer the
    task too. *)
Definition accept_response (response : taskResponse) (signingKey : string)
    (operator : Operators) : MW unit :=
  let! weight := wrapM "failed to convert operator weight to big int"
                   (lift (NumericToBigInt (o_Weight operator))) in
  do! storeResponseAndWeight response signingKey weight in
  do! try (checkConsensus response) in
  let! processed := alreadyProcessed (tr_taskID response) mySigningKey in
  if (processed : bool) then ret tt
  else wrapM "failed to process task" (ProcessTask (Some (task_of_response response))).

Definition processResponse (msg : Message) : MW unit :=
  let! pbMsg := wrapM "failed to unmarshal message" (lift (proto_Unmarshal (msg_Data msg))) in
  let response := convertProtoToResponse pbMsg in
  let peerID := msg_ReceivedFrom msg in
  let! currentEpochNumber := gets (fun w => GetCurrentEpochNumber (w_mem w)) in
  if negb (tr_epoch response =? currentEpochNumber) then ret tt
  else
    match PeerIDToP2PKey peerID with
    | Panic s => panic s
    | Err err =>
        incrementPeerViolation peerID (Wrapf "failed to convert peer ID to P2P key" err)
    | Ok p2pKey =>
        let! operator := try (GetOperatorByP2PKey p2pKey) in
        match operator with
        | inr err => incrementPeerViolation peerID (Wrapf "failed to get operator state" err)
        | inl None => incrementPeerViolation peerID
                        (Errorf "operator not exist or not active: %!w(<nil>)")
        | inl (Some operator) =>
            if negb (o_IsActive operator) then
              incrementPeerViolation peerID
                (Errorf "operator not exist or not active: %!w(<nil>)")
            else
              let signingKey := o_SigningKey operator in
              let! processed := alreadyProcessed (pb_TaskId pbMsg) signingKey in
              if (processed : bool) then ret tt
              else
                let! consensus := try (GetConsensusResponseByTaskId (pb_TaskId pbMsg)) in
                match consensus with
                | inl (Some _) => ret tt
                | _ =>
                    match verifyResponse response signingKey with
                    | Panic s => panic s
                    | Err err => incrementPeerViolation peerID
                                   (Wrapf "failed to verify response" err)
                    | Ok _ => accept_response response signingKey operator
                    end
                end
        end
    end.

(** A message of [handleResponses]: its goroutine recovers from panics and
    logs the error. *)
Definition handleResponse (msg : Message) : MW unit :=
  recovered (do! try (processResponse msg) in ret tt).

(** ** check.go: one tick of each periodic job *)

Definition maxRetryCount : Z := 3.

Definition timeout_task (task : Tasks) : MW unit :=
  let! newRetryCount := try (IncrementRetryCount (t_TaskID task)) in
  match newRetryCount with
  | inr _ => ret tt
  | inl None => panic "newRetryCount.RetryCount: nil pointer dereference"
  | inl (Some updated) =>
      if maxRetryCount <=? t_RetryCount updated then
        do! try (DeleteTaskByID (t_TaskID task)) in
        cleanupTask (t_TaskID task)
      else
        do! try (ProcessTask (Some task)) in
        ret tt
  end.

Definition checkTimeouts : MW unit :=
  let! tasks := try ListPendingTasks in
  match tasks with
  | inr _ => ret tt
  | inl tasks => for_each tasks timeout_task
  end.

Definition confirm_task (task : Tasks) : MW unit :=
  let! chainClient := lift (GetClientByChainId (t_ChainID task) the_chains) in
  let! latestBlock := extern (cc_BlockNumber chainClient) in
  if t_BlockNumber task =? 0 then ret tt
  else
    let targetBlock := u64 (t_BlockNumber task + t_RequiredConfirmations task) in
    if targetBlock <=? latestBlock then
      do! UpdateTaskToPending (t_TaskID task) in
      ProcessTask (Some task)
    else ret tt.

Definition checkConfirmations : MW unit :=
  let! tasks := try ListConfirmingTasks in
  match tasks with
  | inr _ => ret tt
  | inl tasks => for_each tasks confirm_task
  end.

Definition periodicCleanup : MW unit := cleanupAllTasks.

(** [Stop], after the goroutines have finished *)
Definition Stop : MW unit :=
  do! modify (fun w => put_task_mem
        (mkTaskMem (tm_track (task_mem (w_mem w))) false (tm_published (task_mem (w_mem w)))) w) in
  cleanupAllTasks.
End task.
