(* ===== verification/TaskInv.v ===== *)
(** * The invariants of the task processor

    [track_shape]: responses and weights are held for the same tasks and the
    same signing keys, so storing never writes to a nil map.  [track_auth]:
    every response held carries a signature that verifies, for the parameters
    it states, against the key it is filed under.  Both hold in every state
    that messages, ticks, API calls and clean-ups can reach. *)

From S2P Require Import Prelude GoInt GoString Numeric EpochMath Models World.
From S2P Require Import TasksRepo BlacklistRepo OperatorsRepo ConsensusRepo EthLib Signer Chain Task.

(** ** The order of Go strings *)

#[export] Instance string_le_total : Total string_le.
Proof.
  intros a b. unfold string_le. destruct (String.leb a b) eqn:E; [by left|]. right.
  by destruct (String.leb_total a b) as [E'|E']; rewrite ?E in E'.
Qed.

#[export] Instance string_le_antisymm : AntiSymm (=) string_le.
Proof. intros a b. apply String.leb_antisym. Qed.

#[export] Instance string_le_transitive : Transitive string_le.
Proof.
  assert (forall a b c : string, String.compare a b <> Gt -> String.compare b c <> Gt ->
    String.compare a c <> Gt) as Ht.
  { intros a. induction a as [|x a IH]; intros [|y b] [|z c]; simpl; try done.
    unfold Ascii.compare.
    destruct (N.compare_spec (N_of_ascii x) (N_of_ascii y)),
      (N.compare_spec (N_of_ascii y) (N_of_ascii z)),
      (N.compare_spec (N_of_ascii x) (N_of_ascii z)); try done; try lia. by apply IH. }
  intros a b c. unfold string_le, String.leb. specialize (Ht a b c).
  destruct (String.compare a b), (String.compare b c), (String.compare a c); naive_solver.
Qed.

(** ** The tracker *)

Definition track_shape (k : TaskResponseTrack) : Prop :=
  forall t, match tk_responses k !! t, tk_weights k !! t with
            | Some rs, Some ws => forall sk, is_Some (rs !! sk) <-> is_Some (ws !! sk)
            | None, None => True
            | _, _ => False
            end.

Lemma track_shape_empty : track_shape empty_track.
Proof. intros t. simpl. by rewrite !lookup_empty. Qed.

Lemma lookup2_insert {A} (m : gmap string (gmap string A)) n t sk x a b :
  (m !! t = Some n \/ (m !! t = None /\ n = ∅)) ->
  lookup2 (<[t := <[sk := x]> n]> m) a b =
  if decide (a = t /\ b = sk) then Some x else lookup2 m a b.
Proof.
  intros Hn. unfold lookup2. destruct (decide (a = t)) as [->|Hne].
  - rewrite lookup_insert_eq. simpl. destruct (decide (b = sk)) as [->|Hb].
    + by rewrite lookup_insert_eq, decide_True.
    + rewrite lookup_insert_ne by done. rewrite decide_False by tauto.
      destruct Hn as [->|[-> ->]]; simpl; [done|]. by rewrite lookup_empty.
  - rewrite lookup_insert_ne by done. by rewrite decide_False by tauto.
Qed.

Lemma lookup2_delete {A} (m : gmap string (gmap string A)) t a b :
  lookup2 (delete t m) a b = if decide (a = t) then None else lookup2 m a b.
Proof.
  unfold lookup2. destruct (decide (a = t)) as [->|Hne].
  - by rewrite lookup_delete_eq.
  - by rewrite lookup_delete_ne.
Qed.

(** What storing a response does to a well-shaped tracker. *)
Lemma store_section_spec t sk r w k :
  track_shape k ->
  exists k', store_section t sk r w k = Ok k' /\ track_shape k' /\
    (forall a b, lookup2 (tk_responses k') a b =
       if decide (a = t /\ b = sk) then Some r else lookup2 (tk_responses k) a b) /\
    (forall a b, lookup2 (tk_weights k') a b =
       if decide (a = t /\ b = sk) then Some w else lookup2 (tk_weights k) a b).
Proof.
  intros Hs. pose proof (Hs t) as Ht. unfold store_section.
  destruct (tk_responses k !! t) as [rs|] eqn:Er, (tk_weights k !! t) as [ws|] eqn:Ew; try done.
  - simpl. rewrite ?Er, ?Ew. eexists. split; [done|]. simpl. split_and!.
    + intros t'. simpl. destruct (decide (t' = t)) as [->|Hne].
      * rewrite !lookup_insert_eq. intros sk'. rewrite !lookup_insert_is_Some. rewrite Ht. done.
      * rewrite !lookup_insert_ne by done. apply Hs.
    + intros. apply lookup2_insert. by left.
    + intros. apply lookup2_insert. by left.
  - simpl. rewrite !lookup_insert_eq. eexists. split; [done|]. simpl.
    rewrite !insert_insert_eq. split_and!.
    + intros t'. simpl. destruct (decide (t' = t)) as [->|Hne].
      * rewrite !lookup_insert_eq. intros sk'. rewrite !lookup_insert_is_Some, !lookup_empty.
        split; intros [?|[_ [? [=]]]]; by left.
      * rewrite !lookup_insert_ne by done. apply Hs.
    + intros. apply lookup2_insert. by right.
    + intros. apply lookup2_insert. by right.
Qed.

Lemma delete_shape t k : track_shape k ->
  track_shape (mkTrack (delete t (tk_responses k)) (delete t (tk_weights k))).
Proof.
  intros Hs t'. simpl. destruct (decide (t' = t)) as [->|Hne].
  - by rewrite !lookup_delete_eq.
  - rewrite !lookup_delete_ne by done. apply Hs.
Qed.

(** ** What each operation keeps *)

Section invariant.
Context `{Env} `{EthLib} `{P2PLib} `{PubSub} `{OperatorSigner} `{CM : ChainManager}.
Context {C : Type} `{HasTaskOk C}.

Lemma get_put_track k (w : World C) : get_track (put_track k w) = k.
Proof. unfold get_track, put_track, put_task_mem. simpl. by rewrite task_mem_set. Qed.

Lemma locked_db D section : preserves (db_pred (C:=C) D) (locked section).
Proof. intros w Hw. unfold locked. by destruct (section (get_track w)). Qed.

Lemma locked_run section (w w' : World C) r :
  locked section w = (w', r) ->
  match section (get_track w) with
  | Ok k => w' = put_track k w /\ r = Ok tt
  | Err e => w' = w /\ r = Err e
  | Panic s => w' = w /\ r = Panic s
  end.
Proof. unfold locked. by destruct (section (get_track w)); intros [= <- <-]. Qed.

(** A predicate on the tracker, as an invariant of the node. *)
Definition on_track (P : TaskResponseTrack -> Prop) (w : World C) : Prop := P (get_track w).

Lemma on_track_mem P (m : M (World C) unit) :
  preserves (mem_pred (fun c => P (tm_track (task_mem c)))) m -> preserves (on_track P) m.
Proof. done. Qed.

Lemma locked_track (P : TaskResponseTrack -> Prop) section :
  (forall k k', P k -> section k = Ok k' -> P k') ->
  preserves (on_track P) (locked section).
Proof.
  intros Hs w Hw. unfold locked. destruct (section (get_track w)) as [k|e|s] eqn:E; [|done|done].
  unfold on_track. simpl. rewrite get_put_track. by eapply Hs.
Qed.

Lemma collect_from_mem P rs ks : preserves (mem_pred (C:=C) P) (collect_from rs ks).
Proof. induction ks; simpl; solve_preserves. Qed.
Lemma collect_from_db D rs ks :
  (forall k, preserves (db_pred (C:=C) D) (GetOperatorBySigningKey k)) ->
  preserves (db_pred (C:=C) D) (collect_from rs ks).
Proof.
  intros Hk. induction ks; simpl; solve_preserves.
Qed.

Lemma checkConsensus_mem P r : preserves (mem_pred (C:=C) P) (checkConsensus r).
Proof.
  unfold checkConsensus, collectSignaturesAndAddresses, markTaskAsCompleted.
  solve_preserves; apply collect_from_mem.
Qed.

Lemma state_attempts_mem P cl t k b n : preserves (mem_pred (C:=C) P) (state_attempts cl t k b n).
Proof. induction n; cbn [state_attempts]; solve_preserves. Qed.
Lemma state_attempts_db D cl t k b n : preserves (db_pred (C:=C) D) (state_attempts cl t k b n).
Proof. induction n; cbn [state_attempts]; solve_preserves. Qed.

Lemma preserves_textM {A} (I : World C -> Prop) s (m : M (World C) A) :
  preserves I m -> preserves I (textM s m).
Proof. intros Hm w Hw. specialize (Hm w Hw). unfold textM. by destruct (m w). Qed.

Lemma ensures_textM {A} (I : World C -> Prop) s (m : M (World C) A) Q :
  ensures I m Q -> ensures I (textM s m) Q.
Proof.
  intros Hm w Hw. destruct (Hm w Hw) as [Hw' Hq]. unfold textM.
  destruct (m w) as [w' [a|e|s']]; simpl in *; split; eauto; by intros.
Qed.

#[local] Hint Resolve preserves_textM state_attempts_mem state_attempts_db checkConsensus_mem
  locked_db : go_inv.

Lemma answer_task_mem P t : preserves (mem_pred (C:=C) P) (answer_task t).
Proof. unfold answer_task, getStateWithRetries. solve_preserves. Qed.
Lemma answer_task_db D t : preserves (db_pred (C:=C) D) (answer_task t).
Proof. unfold answer_task, getStateWithRetries. solve_preserves. Qed.

Lemma broadcastResponse_track P r : preserves (on_track P) (broadcastResponse r).
Proof.
  unfold broadcastResponse. apply preserves_bind; [apply preserves_wrapM, preserves_lift|].
  intros d. apply preserves_bind; [apply preserves_gets|]. intros m.
  destruct (tm_responseTopic m); [|apply preserves_panic].
  apply preserves_bind; [by apply on_track_mem, extern_mem|]. intros _.
  apply preserves_modify. intros w Hw. unfold on_track, get_track, put_task_mem in *. simpl.
  by rewrite task_mem_set.
Qed.
Lemma broadcastResponse_db D r : preserves (db_pred (C:=C) D) (broadcastResponse r).
Proof. unfold broadcastResponse. solve_preserves. Qed.

Lemma incrementPeerViolation_mem P p e :
  preserves (mem_pred (C:=C) P) (incrementPeerViolation p e).
Proof. unfold incrementPeerViolation. solve_preserves. Qed.
Lemma incrementPeerViolation_tasks P p e :
  preserves (db_pred (C:=C) (on_tasks P)) (incrementPeerViolation p e).
Proof. unfold incrementPeerViolation. solve_preserves. Qed.
Lemma incrementPeerViolation_consensus P p e :
  preserves (db_pred (C:=C) (on_consensus P)) (incrementPeerViolation p e).
Proof. unfold incrementPeerViolation. solve_preserves. Qed.
End invariant.

#[export] Hint Resolve locked_db collect_from_mem checkConsensus_mem state_attempts_mem
  state_attempts_db preserves_textM answer_task_mem answer_task_db broadcastResponse_track
  broadcastResponse_db incrementPeerViolation_mem incrementPeerViolation_tasks
  incrementPeerViolation_consensus : go_inv.

(** ** An invariant of the responses held

    [P t sk r] is required of a response [r] held for task [t] under key
    [sk]; [good] is what a task must satisfy for the node's own answer to be
    in [P]. *)
Section held.
Context `{Env} `{EthLib} `{P2PLib} `{PubSub} `{OperatorSigner} `{CM : ChainManager}.
Context {C : Type} `{HasTaskOk C}.
Variable P : string -> string -> taskResponse -> Prop.
Variable good : Tasks -> Prop.

Definition track_all (k : TaskResponseTrack) : Prop :=
  track_shape k /\ forall t sk r, lookup2 (tk_responses k) t sk = Some r -> P t sk r.

Hypothesis P_verified : forall r sk, verifyResponse r sk = Ok tt -> P (tr_taskID r) sk r.
Hypothesis P_own : forall t key value sig, good t ->
  NumericToBigInt (t_Key t) = Ok key ->
  SignTaskResponse (sign_params (t_TargetAddress t) (t_ChainID t) (t_BlockNumber t) key value)
    = Ok sig ->
  P (t_TaskID t) mySigningKey (own_response t sig value).
Hypothesis good_response : forall r, good (task_of_response r).

Lemma track_all_empty : track_all empty_track.
Proof.
  split; [apply track_shape_empty|]. intros t sk r. unfold lookup2. simpl. by rewrite lookup_empty.
Qed.

Lemma store_section_all t sk r w k k' :
  P t sk r -> track_all k -> store_section t sk r w k = Ok k' -> track_all k'.
Proof.
  intros HP [Hs Ha] Hk. destruct (store_section_spec t sk r w k Hs) as (k1 & E & Hs1 & Hl & _).
  rewrite E in Hk. injection Hk as <-. split; [done|]. intros a b r'. rewrite Hl.
  destruct (decide _) as [[-> ->]|_]; [by intros [= <-] | apply Ha].
Qed.

Lemma cleanupTask_all t : preserves (on_track (C:=C) track_all) (cleanupTask t).
Proof.
  apply locked_track. intros k k' [Hs Ha] [= <-]. split; [by apply delete_shape|].
  intros a b r. simpl. rewrite lookup2_delete. destruct (decide (a = t)); [done|apply Ha].
Qed.

Lemma cleanupAllTasks_all : preserves (on_track (C:=C) track_all) cleanupAllTasks.
Proof. apply locked_track. intros k k' _ [= <-]. apply track_all_empty. Qed.

(** The value [answer_task] returns is the node's signed answer. *)
Lemma answer_task_ensures (I : World C -> Prop) t :
  (forall cl tg k b, preserves I (getStateWithRetries cl tg k b)) ->
  good t ->
  ensures I (answer_task t) (fun r => tr_taskID r = t_TaskID t /\ P (t_TaskID t) mySigningKey r).
Proof.
  intros Hst Hg. unfold answer_task. destruct (t_BlockNumber t =? 0); [apply ensures_throw|].
  eapply (ensures_bind _ _ _ (fun _ => True)).
  { apply ensures_textM, ensures_lift. done. }
  intros cl _. eapply ensures_bind.
  { apply ensures_textM, ensures_lift. intros key Hkey. exact Hkey. }
  intros key Hkey. simpl in Hkey. eapply (ensures_bind _ _ _ (fun _ => True)).
  { apply ensures_wrapM, preserves_ensures, Hst. }
  intros value _. eapply (ensures_bind _ _ _ (fun _ => True)).
  { by apply ensures_textM, ensures_lift. }
  intros want _. eapply (ensures_bind _ _ _ (fun _ => True)); [by apply ensures_lift|].
  intros [] _; try apply ensures_throw. eapply ensures_bind.
  { apply ensures_wrapM, ensures_lift. intros sig Hsig. exact Hsig. }
  intros sig Hsig. apply ensures_ret. split; [done|]. by eapply P_own.
Qed.

Lemma on_track_of_mem {A} Q (m : M (World C) A) :
  (forall R, preserves (mem_pred R) m) -> preserves (on_track Q) m.
Proof. intros Hm. apply (Hm (fun c => Q (tm_track (task_mem c)))). Qed.

Lemma ProcessTask_all t : good t -> preserves (on_track (C:=C) track_all) (ProcessTask (Some t)).
Proof.
  intros Hg. unfold ProcessTask, alreadyProcessed. apply preserves_bind.
  { apply preserves_bind; [apply preserves_gets | intros; apply preserves_ret]. }
  intros []; [apply preserves_ret|]. eapply preserves_bind_ensures.
  { apply answer_task_ensures; [|done]. intros.
    apply on_track_of_mem. intros R. unfold getStateWithRetries. solve_preserves. }
  intros r [Hid HP]. apply preserves_bind.
  { apply on_track_of_mem. intros R. solve_preserves. }
  intros [op|]; [|apply preserves_panic]. apply preserves_bind; [solve_preserves|].
  intros weight. apply preserves_bind.
  { apply locked_track. intros k k'. by apply store_section_all. }
  intros _. apply preserves_bind; [apply preserves_wrapM, broadcastResponse_track|].
  intros _. apply preserves_bind; [|intros; apply preserves_ret].
  apply on_track_of_mem. intros R. solve_preserves.
Qed.

Lemma accept_response_all r sk op :
  verifyResponse r sk = Ok tt -> preserves (on_track (C:=C) track_all) (accept_response r sk op).
Proof.
  intros Hv. unfold accept_response, alreadyProcessed.
  apply preserves_bind; [solve_preserves|]. intros weight. apply preserves_bind.
  { apply locked_track. intros k k'. by apply store_section_all, P_verified. }
  intros _. apply preserves_bind; [apply on_track_of_mem; intros R; solve_preserves|].
  intros _. apply preserves_bind.
  { apply preserves_bind; [apply preserves_gets | intros; apply preserves_ret]. }
  intros []; [apply preserves_ret|]. by apply preserves_wrapM, ProcessTask_all.
Qed.

Lemma processResponse_all msg : preserves (on_track (C:=C) track_all) (processResponse msg).
Proof.
  unfold processResponse. apply preserves_bind; [solve_preserves|]. intros pb.
  apply preserves_bind; [apply preserves_gets|]. intros ep.
  destruct (negb _); [apply preserves_ret|].
  assert (forall e, preserves (on_track (C:=C) track_all)
    (incrementPeerViolation (msg_ReceivedFrom msg) e)) as Hviol.
  { intros e. apply on_track_of_mem. intros R. solve_preserves. }
  destruct (PeerIDToP2PKey _) as [pk|e|s]; [|done|apply preserves_panic].
  apply preserves_bind; [apply on_track_of_mem; intros R; solve_preserves|].
  intros [[op|]|e]; try done. destruct (negb _); [done|].
  unfold alreadyProcessed. apply preserves_bind.
  { apply preserves_bind; [apply preserves_gets | intros; apply preserves_ret]. }
  intros []; [apply preserves_ret|].
  apply preserves_bind; [apply on_track_of_mem; intros R; solve_preserves|].
  intros cons. set (k := match verifyResponse _ _ with Ok _ => _ | Err _ => _ | Panic _ => _ end).
  assert (preserves (on_track (C:=C) track_all) k) as Hk; [|by destruct cons as [[?|]|?]; [apply preserves_ret|..]].
  subst k. destruct (verifyResponse _ _) as [[]|e|s] eqn:Hv; [|done|apply preserves_panic].
  by apply accept_response_all.
Qed.

Lemma handleResponse_all msg : preserves (on_track (C:=C) track_all) (handleResponse msg).
Proof.
  apply preserves_recovered, preserves_bind; [|intros; apply preserves_ret].
  apply preserves_try, processResponse_all.
Qed.

Lemma timeout_task_all t : good t -> preserves (on_track (C:=C) track_all) (timeout_task t).
Proof.
  intros Hg. unfold timeout_task.
  apply preserves_bind; [apply on_track_of_mem; intros R; solve_preserves|].
  intros [[upd|]|e]; [|apply preserves_panic|apply preserves_ret].
  destruct (_ <=? _).
  - apply preserves_bind; [apply on_track_of_mem; intros R; solve_preserves|].
    intros _. apply cleanupTask_all.
  - apply preserves_bind; [by apply preserves_try, ProcessTask_all|]. intros; apply preserves_ret.
Qed.

Lemma confirm_task_all t : good t -> preserves (on_track (C:=C) track_all) (confirm_task t).
Proof.
  intros Hg. unfold confirm_task. apply preserves_bind; [apply preserves_lift|]. intros cl.
  apply preserves_bind; [apply on_track_of_mem; intros R; solve_preserves|]. intros latest.
  destruct (_ =? 0); [apply preserves_ret|]. destruct (_ <=? _); [|apply preserves_ret].
  apply preserves_bind; [apply on_track_of_mem; intros R; solve_preserves|].
  intros _. by apply ProcessTask_all.
Qed.

Lemma Stop_all : preserves (on_track (C:=C) track_all) Stop.
Proof.
  apply preserves_bind; [|intros; apply cleanupAllTasks_all].
  apply preserves_modify. intros w Hw. unfold on_track, get_track, put_task_mem in *. simpl.
  by rewrite task_mem_set.
Qed.
End held.

(** ** The task rows while the processor works *)
Section rows.
Context `{Env} `{EthLib} `{P2PLib} `{PubSub} `{OperatorSigner} `{CM : ChainManager}.
Context {C : Type} `{HasTaskOk C}.

(** A predicate on the task table that completing a task keeps. *)
Variable T : gmap string Tasks -> Prop.
Hypothesis T_completed : forall id now m,
  T m -> T (alter (task_with_status TaskStatusCompleted now) id m).

Lemma UpdateTaskToCompleted_tasks id :
  preserves (db_pred (C:=C) (on_tasks T)) (UpdateTaskToCompleted id).
Proof.
  apply pg_call_db. intros now d d' a Hd E. injection E as <- <-.
  unfold on_tasks. simpl. by apply T_completed.
Qed.

#[local] Hint Resolve UpdateTaskToCompleted_tasks : go_inv.

Lemma checkConsensus_tasks r : preserves (db_pred (C:=C) (on_tasks T)) (checkConsensus r).
Proof.
  unfold checkConsensus, collectSignaturesAndAddresses, markTaskAsCompleted.
  solve_preserves; try (apply collect_from_db; solve_preserves).
Qed.

#[local] Hint Resolve checkConsensus_tasks : go_inv.

Lemma ProcessTask_tasks t : preserves (db_pred (C:=C) (on_tasks T)) (ProcessTask t).
Proof. unfold ProcessTask, alreadyProcessed. solve_preserves. Qed.

#[local] Hint Resolve ProcessTask_tasks : go_inv.

Lemma processResponse_tasks msg : preserves (db_pred (C:=C) (on_tasks T)) (processResponse msg).
Proof.
  unfold processResponse, accept_response, alreadyProcessed, storeResponseAndWeight.
  solve_preserves.
Qed.

Lemma handleResponse_tasks msg : preserves (db_pred (C:=C) (on_tasks T)) (handleResponse msg).
Proof.
  apply preserves_recovered, preserves_bind; [|intros; apply preserves_ret].
  apply preserves_try, processResponse_tasks.
Qed.

(** With retry counts, deletions and promotions the predicate must bear those too. *)
Lemma IncrementRetryCount_tasks id :
  (forall id n now m x, T m -> m !! id = Some x -> T (<[id := task_with_retry n now x]> m)) ->
  preserves (db_pred (C:=C) (on_tasks T)) (IncrementRetryCount id).
Proof.
  intros Hretry. unfold IncrementRetryCount. apply preserves_bind; [|solve_preserves].
  apply pg_call_db. unfold on_tasks. intros now d d' a Hd E. unfold sql_incrementRetryCount in E.
  destruct (db_tasks d !! _) as [x|] eqn:El; [|by injection E as <- <-].
  sql_inv. simpl. by apply Hretry.
Qed.

Lemma DeleteTaskByID_tasks id : (forall id m, T m -> T (delete id m)) ->
  preserves (db_pred (C:=C) (on_tasks T)) (DeleteTaskByID id).
Proof.
  intros Hdel. apply pg_call_db. unfold on_tasks. intros now d d' a Hd E.
  injection E as <- <-. simpl. by apply Hdel.
Qed.

Lemma UpdateTaskToPending_tasks id :
  (forall id now m, T m -> T (alter (task_with_status TaskStatusPending now) id m)) ->
  preserves (db_pred (C:=C) (on_tasks T)) (UpdateTaskToPending id).
Proof.
  intros Hpend. apply pg_call_db. unfold on_tasks. intros now d d' a Hd E.
  injection E as <- <-. simpl. by apply Hpend.
Qed.

Lemma timeout_task_tasks t :
  (forall id n now m x, T m -> m !! id = Some x -> T (<[id := task_with_retry n now x]> m)) ->
  (forall id m, T m -> T (delete id m)) ->
  preserves (db_pred (C:=C) (on_tasks T)) (timeout_task t).
Proof.
  intros Hretry Hdel. unfold timeout_task.
  apply preserves_bind; [by apply preserves_try, IncrementRetryCount_tasks|].
  intros [[upd|]|e]; [|apply preserves_panic|apply preserves_ret].
  destruct (_ <=? _); [|solve_preserves].
  apply preserves_bind; [by apply preserves_try, DeleteTaskByID_tasks|]. intros _. apply locked_db.
Qed.

Lemma confirm_task_tasks t :
  (forall id now m, T m -> T (alter (task_with_status TaskStatusPending now) id m)) ->
  preserves (db_pred (C:=C) (on_tasks T)) (confirm_task t).
Proof.
  intros Hpend. unfold confirm_task. do 2 (apply preserves_bind; [solve_preserves|]; intros ?).
  destruct (_ =? 0); [apply preserves_ret|]. destruct (_ <=? _); [|apply preserves_ret].
  apply preserves_bind; [by apply UpdateTaskToPending_tasks|]. intros _. apply ProcessTask_tasks.
Qed.
End rows.

#[export] Hint Resolve checkConsensus_tasks ProcessTask_tasks : go_inv.

(** The keys of stored tasks are integers: [SendRequest] creates no others,
    and no update changes a key. *)
Definition key_ok (t : Tasks) : Prop := exists k, represents (t_Key t) k.
Definition keys_ok (m : gmap string Tasks) : Prop := forall id t, m !! id = Some t -> key_ok t.

Lemma keys_ok_alter f id m : (forall t, t_Key (f t) = t_Key t) -> keys_ok m -> keys_ok (alter f id m).
Proof.
  intros Hf Hm id' t Ht. destruct (decide (id = id')) as [<-|Hne].
  - rewrite lookup_alter_eq in Ht. apply fmap_Some in Ht as (x & Hx & ->).
    unfold key_ok. rewrite Hf. by eapply Hm.
  - rewrite lookup_alter_ne in Ht by done. by eapply Hm.
Qed.

Lemma keys_ok_insert f id m x : (forall t, t_Key (f t) = t_Key t) -> m !! id = Some x ->
  keys_ok m -> keys_ok (<[id := f x]> m).
Proof.
  intros Hf Hx Hm id' t [[<- <-]|[_ Ht]]%lookup_insert_Some.
  - unfold key_ok. rewrite Hf. by eapply Hm.
  - by eapply Hm.
Qed.

Lemma keys_ok_delete id m : keys_ok m -> keys_ok (delete id m).
Proof. intros Hm id' t [_ Ht]%lookup_delete_Some. by eapply Hm. Qed.

Section listed.
Context `{EnvOk} {C : Type}.

Lemma scan_numeric_represents n x : represents n x -> represents (scan_numeric n) x.
Proof.
  intros Hn. unfold scan_numeric. rewrite (proj1 Hn). by apply env_scan_represents.
Qed.

Lemma key_ok_scan t : key_ok t -> key_ok (scan_Tasks t).
Proof. intros [k Hk]. exists k. by apply scan_numeric_represents. Qed.

Lemma listed_keys_ok (stmt : Z -> DB -> res (DB * list Tasks)) :
  (forall now d d' l, stmt now d = Ok (d', l) ->
     d' = d /\ forall t, t ∈ l -> exists id, db_tasks d !! id = Some t) ->
  ensures (db_pred (C:=C) (on_tasks keys_ok))
    (let! rows := pg_call stmt in ret (scan_Tasks <$> rows))
    (fun l => forall t, t ∈ l -> key_ok t).
Proof.
  intros Hstmt. eapply (ensures_bind _ _ _ (fun l => forall t, t ∈ l -> key_ok t)).
  - intros w Hw. unfold pg_call, bind, tick. simpl.
    destruct (stmt (env_now (w_step w)) (w_db w)) as [[d a]|e'|m] eqn:E;
      [apply Hstmt in E as [-> Hl]|..]; destruct (env_pg (w_step w)); split; try done;
      intros l [= <-] t [id Ht]%Hl; by eapply Hw.
  - intros l Hl. apply ensures_ret. intros t (x & -> & Hx)%list_elem_of_fmap.
    by apply key_ok_scan, Hl.
Qed.

Lemma filter_row P (d : DB) t : t ∈ List.filter P (table_rows (db_tasks d)) ->
  P t = true /\ exists id, db_tasks d !! id = Some t.
Proof.
  rewrite list_elem_of_In, filter_In, <- list_elem_of_In. autorewrite with go_db. tauto.
Qed.

Lemma ListPendingTasks_keys :
  ensures (db_pred (C:=C) (on_tasks keys_ok)) ListPendingTasks (fun l => forall t, t ∈ l -> key_ok t).
Proof.
  apply listed_keys_ok. intros now d d' l [= <- <-]. split; [done|]. intros t.
  rewrite elem_of_order_asc. by intros [_ ?]%filter_row.
Qed.

Lemma ListConfirmingTasks_keys :
  ensures (db_pred (C:=C) (on_tasks keys_ok)) ListConfirmingTasks
    (fun l => forall t, t ∈ l -> key_ok t).
Proof.
  apply listed_keys_ok. intros now d d' l [= <- <-]. split; [done|]. intros t.
  rewrite elem_of_order_desc. by intros [_ ?]%filter_row.
Qed.
End listed.

(** ** The processor as a step relation *)

Section processor.
Context `{EnvOk} `{EthLib} `{P2PLib} `{PubSub} `{OperatorSigner} `{CM : ChainManager}.
Context {C : Type} `{HasTaskOk C}.

(** Everything that runs on the processor's state, one run at a time, and
    the rest of the node, which does not touch the tracker. *)
Inductive tp_step : World C -> World C -> Prop :=
  | tp_message msg w : tp_step w (handleResponse msg w).1
  | tp_timeouts w : tp_step w (checkTimeouts w).1
  | tp_confirmations w : tp_step w (checkConfirmations w).1
  | tp_cleanup w : tp_step w (periodicCleanup w).1
  | tp_stop w : tp_step w (Stop w).1
  | tp_process t w : key_ok t -> tp_step w (ProcessTask (Some t) w).1
  | tp_other w w' :
      get_track w' = get_track w -> keys_ok (db_tasks (w_db w')) -> tp_step w w'.

Definition tp_init (w : World C) : Prop :=
  get_track w = empty_track /\ keys_ok (db_tasks (w_db w)).

Section step_invariant.
Variable P : string -> string -> taskResponse -> Prop.
Variable good : Tasks -> Prop.
Hypothesis P_verified : forall r sk, verifyResponse r sk = Ok tt -> P (tr_taskID r) sk r.
Hypothesis P_own : forall t key value sig, good t ->
  NumericToBigInt (t_Key t) = Ok key ->
  SignTaskResponse (sign_params (t_TargetAddress t) (t_ChainID t) (t_BlockNumber t) key value)
    = Ok sig ->
  P (t_TaskID t) mySigningKey (own_response t sig value).
Hypothesis good_response : forall r, good (task_of_response r).
Hypothesis good_key : forall t, key_ok t -> good t.

Definition tp_inv (w : World C) : Prop :=
  on_track (track_all P) w /\ db_pred (on_tasks keys_ok) w.

Lemma keys_ok_completed id now m :
  keys_ok m -> keys_ok (alter (task_with_status TaskStatusCompleted now) id m).
Proof. by apply keys_ok_alter. Qed.
Lemma keys_ok_pending id now m :
  keys_ok m -> keys_ok (alter (task_with_status TaskStatusPending now) id m).
Proof. by apply keys_ok_alter. Qed.
Lemma keys_ok_retry id n now m x :
  keys_ok m -> m !! id = Some x -> keys_ok (<[id := task_with_retry n now x]> m).
Proof. intros. by apply (keys_ok_insert (task_with_retry n now)). Qed.

(** A job that lists tasks and works on each of them *)
Lemma job_inv (list : M (World C) (list Tasks)) body :
  (forall Q, preserves (mem_pred Q) list) ->
  ensures (db_pred (on_tasks keys_ok)) list (fun l => forall t, t ∈ l -> key_ok t) ->
  (forall t, good t -> preserves (on_track (track_all P)) (body t)) ->
  (forall t, preserves (db_pred (on_tasks keys_ok)) (body t)) ->
  preserves tp_inv (let! r := try list in
                    match r with inr _ => ret tt | inl l => for_each l body end).
Proof.
  intros Hm Hl Hb Hd. eapply preserves_bind_ensures.
  - apply ensures_try. intros w [Ht Hw]. destruct (Hl w Hw) as [Hw' Hq].
    split; [|exact Hq]. split; [|done].
    exact (Hm (fun c => track_all P (tm_track (task_mem c))) w Ht).
  - intros [l|e] Hg; [|apply preserves_ret]. apply preserves_for_each_in.
    intros t Ht. apply preserves_and; [|apply Hd]. apply Hb, good_key. by apply Hg.
Qed.

Lemma tp_step_inv w w' : tp_inv w -> tp_step w w' -> tp_inv w'.
Proof.
  intros Hi Hstep. destruct Hstep as [msg w|w|w|w|w|t w Ht|w w' Hk Hd].
  - revert w Hi. apply preserves_and; [by eapply handleResponse_all|].
    apply handleResponse_tasks, keys_ok_completed.
  - revert w Hi. apply job_inv; [intros; apply ListPendingTasks_mem|apply ListPendingTasks_keys|..].
    + intros t Ht. by eapply timeout_task_all.
    + intros t. apply timeout_task_tasks;
        auto using keys_ok_completed, keys_ok_retry, keys_ok_delete.
  - revert w Hi. apply job_inv;
      [intros; apply ListConfirmingTasks_mem|apply ListConfirmingTasks_keys|..].
    + intros t Ht. by eapply confirm_task_all.
    + intros t. apply confirm_task_tasks; auto using keys_ok_completed, keys_ok_pending.
  - revert w Hi. apply preserves_and; [apply cleanupAllTasks_all|apply locked_db].
  - revert w Hi. apply preserves_and; [apply Stop_all|].
    apply preserves_bind; [apply preserves_modify; by intros|intros; apply locked_db].
  - revert w Hi. apply preserves_and; [eapply ProcessTask_all; eauto|].
    apply ProcessTask_tasks, keys_ok_completed.
  - destruct Hi as [Ht _]. split; [|done]. unfold on_track. by rewrite Hk.
Qed.

Lemma tp_reachable_inv w : reachable tp_step tp_init w -> tp_inv w.
Proof.
  apply reachable_invariant; [|apply tp_step_inv]. intros w0 [Ht Hd]. split; [|done].
  unfold on_track. rewrite Ht. apply track_all_empty.
Qed.
End step_invariant.

(** What the processor relies on in its signer: what it signs it also
    verifies, and it does not sign nil numbers. *)
Record signer_ok : Prop := {
  sg_honest : forall p sig, SignTaskResponse p = Ok sig ->
    VerifyTaskResponse p sig mySigningKey = Ok tt;
  sg_numbers : forall p sig, SignTaskResponse p = Ok sig ->
    exists k v, sp_Key p = Some k /\ sp_Value p = Some v;
}.

(** The key of the task is an integer whenever it converts to one. *)
Definition task_good (t : Tasks) : Prop :=
  forall k, NumericToBigInt (t_Key t) = Ok (Some k) -> represents (t_Key t) k.

Lemma key_ok_good t : key_ok t -> task_good t.
Proof.
  intros [k Hk] k' Hk'. rewrite (NumericToBigInt_represents _ _ Hk) in Hk'. by injection Hk' as <-.
Qed.

Lemma task_good_response r : task_good (task_of_response r).
Proof.
  intros k. simpl. unfold NumericToBigInt, StringToNumeric, BigIntToNumeric. simpl.
  intros [= ->]. apply represents_BigIntToNumeric.
Qed.

(** The node's own answer verifies from its texts. *)
Lemma own_response_verifies (Hsig : signer_ok) t key value sig :
  task_good t -> NumericToBigInt (t_Key t) = Ok key ->
  SignTaskResponse (sign_params (t_TargetAddress t) (t_ChainID t) (t_BlockNumber t) key value)
    = Ok sig ->
  verifyResponse (own_response t sig value) mySigningKey = Ok tt.
Proof.
  intros Hg Hkey Hs. destruct (sg_numbers Hsig _ _ Hs) as (k & v & Ek & Ev). simpl in Ek, Ev. subst.
  apply sg_honest in Hs; [|done]. unfold verifyResponse. simpl.
  rewrite (NumericToString_represents _ k) by by apply Hg.
  by rewrite !StringToBigInt_big_String.
Qed.
End processor.

Arguments signer_ok {_ _}.

(** [localSigner] is such a signer. *)
Lemma localSigner_ok `{EthLibOk} s :
  @signer_ok _ (localSigner_OperatorSigner s).
Proof.
  constructor; simpl.
  - intros p sig Hs. by apply (local_sign_verify s p sig).
  - intros p sig. unfold local_SignTaskResponse, task_message.
    destruct (sp_Key p) as [k|], (sp_Value p) as [v|]; simpl; try done; eauto.
Qed.
