(* ===== verification/TaskToy.v ===== *)
(** * A concrete node for the examples of the task processor

    Two operators with weights 60 and 40, a threshold of 50, one chain whose
    head is block 7698600 and whose contract stores the value 1000 under every
    key, messages encoded as numbers. *)

From S2P Require Import Prelude GoInt GoString Numeric EpochMath Models World.
From S2P Require Import TasksRepo OperatorsRepo ConsensusRepo EthLib Signer Chain Task TaskInv.

Record ToyNode := mkToyNode { ty_task : TaskMem; ty_threshold : option Z; ty_epoch : Z }.

#[export] Instance toy_HasTask : HasTask ToyNode := {|
  task_mem := ty_task;
  set_task_mem m c := mkToyNode m (ty_threshold c) (ty_epoch c);
|}.
#[export] Instance toy_epoch : EpochStateQuerier ToyNode := {|
  GetThresholdWeight := ty_threshold;
  GetCurrentEpochNumber := ty_epoch;
|}.
#[export] Instance toy_HasTaskOk : HasTaskOk ToyNode.
Proof. by constructor; intros; try destruct c. Qed.

(** A message as one number *)
Definition toy_Marshal (m : TaskResponseMessage) : res bytes :=
  Ok [Zpos (encode (pb_TaskId m, pb_Signature m, pb_Epoch m, pb_ChainId m,
                    (pb_TargetAddress m, pb_Key m, pb_Value m, pb_BlockNumber m)))].

Definition toy_Unmarshal (d : bytes) : res TaskResponseMessage :=
  match d with
  | [Zpos p] =>
      match decode p with
      | Some (a, b, c, e, (f, g, h, i)) => Ok (mkTaskResponseMessage a b c e f g h i)
      | None => Err (Errorf "proto: cannot parse")
      end
  | _ => Err (Errorf "proto: cannot parse")
  end.

Definition toy_pubsub : PubSub := {|
  proto_Marshal := toy_Marshal;
  proto_Unmarshal := toy_Unmarshal;
  topic_Publish := fun _ _ => Ok tt;
|}.

#[export] Instance toy_pubsub_ok : @PubSubOk toy_pubsub.
Proof.
  constructor. intros m d [= <-]. simpl. rewrite decode_encode. by destruct m.
Qed.

Definition toy_key2 : @PrivateKey toy_eth := exist _ (replicate 20 67) eq_refl.

Definition toy_signer : OperatorSigner := @localSigner_OperatorSigner toy_eth (mkLocalSigner toy_key).

(** The only chain, 11155111 *)
Definition toy_chain_client : ChainClient := {|
  cc_BlockNumber _ := Ok 7698600;
  cc_BlockByNumber _ n := Ok (mkBlock (default 0 n) 0);
  cc_Close _ := Ok tt;
  cc_GetLatestState _ _ _ := Ok (Some 1000);
  cc_GetStateAtBlock _ _ _ _ := Ok (Some 1000);
  cc_GetStateAtTimestamp _ _ _ _ := Ok (Some 1000);
  cc_GetCurrentEpoch _ := Ok 8;
  cc_GetEffectiveEpochForBlock _ _ := Ok 8;
  cc_GetOperatorWeight _ _ := Ok (Some 60);
  cc_GetTotalWeight _ := Ok (Some 100);
  cc_GetMinimumWeight _ := Ok (Some 1);
  cc_GetThresholdWeight _ := Ok (Some 50);
  cc_IsOperatorRegistered _ _ := Ok true;
  cc_GetOperatorSigningKey _ a _ := Ok a;
  cc_GetOperatorP2PKey _ a _ := Ok a;
|}.

Definition toy_chains : ChainManager := {| the_chains := {[ MainnetChainID := toy_chain_client ]} |}.

Definition toy_addr1 : string := toy_Hex (replicate 20 65).
Definition toy_addr2 : string := toy_Hex (replicate 20 67).

Definition toy_peer : string := "12D3KooWpeer-number-2".
Definition toy_p2p_key : string :=
  match @PeerIDToP2PKey toy_p2p toy_peer with Ok k => k | _ => "" end.

Definition toy_operator (addr p2p : string) (weight : Z) : Operators :=
  mkOperators addr addr p2p 7698500 2 NoExitEpoch true (BigIntToNumeric (Some weight)) 0 0.

Definition toy_task : Tasks := {|
  t_TaskID := "task"; t_ChainID := MainnetChainID; t_TargetAddress := "BBBBBBBBBBBBBBBBBBBB";
  t_Key := BigIntToNumeric (Some 3); t_BlockNumber := 7698500;
  t_Value := BigIntToNumeric (Some 1000); t_Epoch := 8; t_Status := TaskStatusPending;
  t_RequiredConfirmations := 12; t_RetryCount := 0; t_CreatedAt := 0; t_UpdatedAt := 0;
|}.

Definition toy_db : DB := {|
  db_tasks := {[ "task" := toy_task ]};
  db_operators := {[ toy_addr1 := toy_operator toy_addr1 "0x11" 60;
                     toy_addr2 := toy_operator toy_addr2 toy_p2p_key 40 ]};
  db_blacklist := ∅;
  db_consensus := ∅;
|}.

Definition toy_mem : ToyNode := mkToyNode (mkTaskMem empty_track true []) (Some 50) 8.

Definition toy_node_world : @World toy_env ToyNode := toy_world toy_db toy_mem.

(** The node answers its own task and reaches consensus alone. *)
Definition toy_run : @World toy_env ToyNode :=
  (@ProcessTask toy_env toy_eth toy_pubsub toy_signer toy_chains ToyNode _ _
     (Some toy_task) toy_node_world).1.

Example toy_run_consensus :
  c_OperatorAddresses <$> db_consensus (w_db toy_run) !! "task" = Some [toy_addr1].
Proof. vm_compute. reflexivity. Qed.

(** The second operator's signed response for the same task, with a value of
    its choice. *)
Definition toy_response2 (value : Z) : TaskResponseMessage := {|
  pb_TaskId := "task";
  pb_Signature :=
    match @local_SignTaskResponse toy_eth (mkLocalSigner toy_key2)
            (@sign_params toy_eth "BBBBBBBBBBBBBBBBBBBB" MainnetChainID 7698500
               (Some 3) (Some value)) with
    | Ok sig => sig | _ => [] end;
  pb_Epoch := 8; pb_ChainId := MainnetChainID; pb_TargetAddress := "BBBBBBBBBBBBBBBBBBBB";
  pb_Key := "3"; pb_Value := big_String value; pb_BlockNumber := 7698500;
|}.

Definition toy_message2 (value : Z) : Message :=
  mkMessage (match toy_Marshal (toy_response2 value) with Ok d => d | _ => [] end) toy_peer.

(** The same node with a threshold only both operators reach together. *)
Definition toy_world80 : @World toy_env ToyNode :=
  toy_world toy_db (mkToyNode (mkTaskMem empty_track true []) (Some 80) 8).

Definition toy_received (value : Z) (w : @World toy_env ToyNode) : @World toy_env ToyNode :=
  (@handleResponse toy_env toy_eth toy_p2p toy_pubsub toy_signer toy_chains ToyNode _ _
     (toy_message2 value) w).1.

Definition toy_processed (w : @World toy_env ToyNode) : @World toy_env ToyNode :=
  (@ProcessTask toy_env toy_eth toy_pubsub toy_signer toy_chains ToyNode _ _ (Some toy_task) w).1.

Definition toy_step := @tp_step toy_env toy_eth toy_p2p toy_pubsub toy_signer toy_chains ToyNode _ _.

Lemma toy_key_ok : keys_ok (db_tasks toy_db).
Proof.
  intros id t Ht. unfold toy_db in Ht. cbn [db_tasks] in Ht.
  apply lookup_singleton_Some in Ht as [<- <-].
  exists 3. apply represents_BigIntToNumeric.
Qed.

Lemma toy_task_key : key_ok toy_task.
Proof. exists 3. apply represents_BigIntToNumeric. Qed.

Definition toy_signer_ok := @localSigner_ok toy_eth toy_eth_ok (mkLocalSigner toy_key).
