(* ===== verification/TaskConsensus.v ===== *)
(** * What consensus means: [checkConsensus] and the rows it stores *)

From S2P Require Import Prelude GoInt GoString Numeric EpochMath Models World.
From S2P Require Import TasksRepo BlacklistRepo OperatorsRepo ConsensusRepo EthLib Signer Chain Task.
From S2P Require Import TaskInv TaskToy.

(** The responses' signatures, in the order of the given signing keys. *)
Definition signatures_of (rs : gmap string taskResponse) (keys : list string) : list bytes :=
  omap (fun sk => tr_signature <$> rs !! sk) keys.

Lemma sorted_keys_perm {A} (m : gmap string A) : sorted_keys m ≡ₚ (map_to_list m).*1.
Proof. apply merge_sort_Permutation. Qed.

Lemma sorted_keys_sorted {A} (m : gmap string A) : Sorted string_le (sorted_keys m).
Proof. apply Sorted_merge_sort. apply string_le_total. Qed.

Lemma elem_of_sorted_keys {A} (m : gmap string A) k : k ∈ sorted_keys m <-> is_Some (m !! k).
Proof.
  rewrite sorted_keys_perm, list_elem_of_fmap. split.
  - intros ([k' x] & -> & Hx%elem_of_map_to_list). eauto.
  - intros [x Hx]. exists (k, x). split; [done|]. by apply elem_of_map_to_list.
Qed.

(** The sum of the weights, when none is nil. *)
Lemma calculateTotalWeight_sum ws total :
  calculateTotalWeight ws = Ok total ->
  total = map_fold (fun _ w acc => acc + default 0 w) 0 ws /\ map_Forall (fun _ w => is_Some w) ws.
Proof.
  unfold calculateTotalWeight. revert total.
  apply (map_fold_weak_ind (fun r ws =>
    forall total, r = Ok total ->
      total = map_fold (fun _ w acc => acc + default 0 w) 0 ws /\ map_Forall (fun _ w => is_Some w) ws)).
  - intros total [= <-]. split; [done|apply map_Forall_empty].
  - intros k w m r Hk IH total (t & -> & Hw)%res_bind_Ok.
    destruct w as [x|]; [|done]. injection Hw as <-. destruct (IH t eq_refl) as [-> Hall].
    split.
    + rewrite map_fold_insert_L; [done|intros; lia|done].
    + by apply map_Forall_insert_2.
Qed.

Section consensus.
Context `{Env} `{EthLib} `{P2PLib} `{PubSub} `{OperatorSigner} `{CM : ChainManager}.
Context {C : Type} `{HasTask C, EpochStateQuerier C}.

(** What [checkConsensus] stores for a response: the weights of the held
    responses [rs] reach the threshold, and the row carries their
    signatures in the order of the signing keys. *)
Record consensus_row (w : World C) (r : taskResponse) (rs : gmap string taskResponse)
    (total threshold : Z) (row : ConsensusResponse) : Prop := {
  cr_held : tk_responses (get_track w) !! tr_taskID r = Some rs;
  cr_sum : calculateTotalWeight (default ∅ (tk_weights (get_track w) !! tr_taskID r)) = Ok total;
  cr_limit : GetThresholdWeight (w_mem w) = Some threshold;
  cr_reached : threshold <= total;
  cr_signatures : c_AggregatedSignatures row = signatures_of rs (sorted_keys rs);
  cr_addresses : length (c_OperatorAddresses row) = length (c_AggregatedSignatures row);
  cr_identity : c_TaskID row = tr_taskID r /\ c_Epoch row = tr_epoch r /\
    c_ChainID row = tr_chainID r /\ c_BlockNumber row = tr_blockNumber r /\
    c_TargetAddress row = tr_targetAddress r;
  cr_value : numeric_arg (StringToNumeric (tr_value r)) = Ok (Some (c_Value row));
}.

Lemma collect_from_ensures (I : World C -> Prop) rs ks :
  (forall k, preserves I (GetOperatorBySigningKey k)) ->
  ensures I (collect_from rs ks)
    (fun p => p.1 = signatures_of rs ks /\ length p.2 = length p.1).
Proof.
  intros Hop. induction ks as [|k ks IH]; cbn [collect_from].
  { by apply ensures_ret. }
  unfold signatures_of. cbn [omap list_omap].
  destruct (rs !! k) as [r|]; simpl; [|exact IH].
  eapply (ensures_bind _ _ _ (fun _ => True)).
  { apply ensures_wrapM, preserves_ensures, Hop. }
  intros [op|] _; [|apply ensures_throw]. eapply ensures_bind; [exact IH|].
  intros [sigs addrs] [Hs Hl]. simpl in Hs, Hl. subst sigs. apply ensures_ret. cbn. split; [done|]. by rewrite Hl.
Qed.

(** The statement that stores a consensus changes one row or none. *)
Lemma sql_create_spec arg now d d' row :
  sql_createConsensusResponse arg now d = Ok (d', row) ->
  db_consensus d !! cp_TaskID arg = None /\
  db_consensus d' = <[cp_TaskID arg := row]> (db_consensus d) /\
  c_TaskID row = cp_TaskID arg /\ c_Epoch row = cp_Epoch arg /\
  c_ChainID row = cp_ChainID arg /\ c_BlockNumber row = cp_BlockNumber arg /\
  c_TargetAddress row = cp_TargetAddress arg /\
  c_AggregatedSignatures row = cp_AggregatedSignatures arg /\
  c_OperatorAddresses row = cp_OperatorAddresses arg /\
  numeric_arg (cp_Value arg) = Ok (Some (c_Value row)).
Proof.
  unfold sql_createConsensusResponse. intros E. sql_inv. simpl.
  split; [by apply eq_None_not_Some|]. done.
Qed.

Lemma markTaskAsCompleted_consensus P id :
  preserves (db_pred (C:=C) (on_consensus P)) (markTaskAsCompleted id).
Proof. unfold markTaskAsCompleted. solve_preserves. Qed.

(** Where a run of [checkConsensus] leaves the consensus table. *)
Lemma checkConsensus_table r w w' out :
  checkConsensus r w = (w', out) ->
  db_consensus (w_db w') = db_consensus (w_db w) \/
  exists rs total threshold row,
    consensus_row w r rs total threshold row /\
    db_consensus (w_db w) !! tr_taskID r = None /\
    db_consensus (w_db w') = <[tr_taskID r := row]> (db_consensus (w_db w)).
Proof.
  set (table := db_consensus (w_db w)).
  set (Q := fun (w' : World C) (_ : res unit) => db_consensus (w_db w') = table \/
    exists rs total threshold row, consensus_row w r rs total threshold row /\
      table !! tr_taskID r = None /\ db_consensus (w_db w') = <[tr_taskID r := row]> table).
  apply (wp_run _ Q). unfold checkConsensus. apply wp_bind, wp_gets.
  case_bool_decide as Hemp; [apply wp_ret; by left|].
  destruct (tk_responses (get_track w) !! tr_taskID r) as [rs|] eqn:Ers; [|done]. simpl.
  apply wp_bind, wp_lift. destruct (calculateTotalWeight _) as [total|?|?] eqn:Etot; [|by left..].
  apply wp_bind, wp_gets, wp_bind, wp_lift.
  destruct (GetThresholdWeight (w_mem w)) as [threshold|] eqn:Eth; [|by left]. simpl.
  assert ((total ?= threshold) = Lt \/ threshold <= total) as [->|Hge].
  { destruct (Z.compare_spec total threshold); (by left) || (right; lia). }
  { apply wp_ret. by left. }
  set (rest := let! _ := _ in _).
  assert (wp rest Q w) as Hrest; [|destruct (total ?= threshold) eqn:E; [exact Hrest| |exact Hrest]].
  2: { change (total < threshold) in E. lia. }
  subst rest. apply wp_bind, wp_wrapM.
  eapply (wp_ensures (db_pred (on_consensus (eq table)))).
  { apply collect_from_ensures. intros k. apply GetOperatorBySigningKey_consensus. }
  { done. }
  2,3: intros w1 ? Hw1; by left.
  intros w1 [sigs addrs] Hw1 [Hsigs Haddrs]. simpl in Hsigs, Haddrs. unfold db_pred, on_consensus in Hw1.
  simpl. apply wp_bind, wp_wrapM. unfold CreateConsensusResponse. apply wp_bind.
  apply wp_pg_call.
  - intros d row E. apply sql_create_spec in E as (Hnone & Hins & Hid). simpl in *.
    apply wp_ret. simpl. rewrite <- Hw1 in *.
    eapply (wp_preserves (db_pred (on_consensus (eq (<[tr_taskID r := row]> table))))).
    { apply preserves_wrapM, markTaskAsCompleted_consensus. }
    { unfold db_pred, on_consensus. simpl. done. }
    intros w2 out2 Hw2. right. exists rs, total, threshold, row.
    split_and!; [|done|done]. destruct Hid as (?&?&?&?&?&Hsg&Had&Hv).
    constructor; try done; rewrite ?Ers; try congruence; done.
  - intros d row e E. apply sql_create_spec in E as (Hnone & Hins & Hid). simpl in *.
    rewrite <- Hw1 in *. right. exists rs, total, threshold, row.
    split_and!; [|done|done]. destruct Hid as (?&?&?&?&?&Hsg&Had&Hv).
    constructor; try done; rewrite ?Ers; try congruence; done.
  - intros e. by left.
  - intros m _. by left.
Qed.
End consensus.

(** ** Properties *)

Section properties.
Context `{EnvOk} `{EthLib} `{P2PLib} `{PubSub} `{OperatorSigner} `{CM : ChainManager}.
Context {C : Type} `{HasTaskOk C}.

(** C6: whatever the database, the cache and the clock do, a consensus check
    leaves the tracker alone and stores at most one row, and only when the
    weights held for the task reach the threshold of the epoch; the row
    carries the signatures of the responses held, in the order of their
    signing keys, and as many addresses. *)
Theorem checkConsensus_sound (r : taskResponse) (w : World C) :
  let w' := (checkConsensus r w).1 in
  get_track w' = get_track w /\
  (db_consensus (w_db w') = db_consensus (w_db w) \/
   exists rs total threshold row,
     consensus_row w r rs total threshold row /\
     Sorted string_le (sorted_keys rs) /\ (forall sk, sk ∈ sorted_keys rs <-> is_Some (rs !! sk)) /\
     db_consensus (w_db w) !! tr_taskID r = None /\
     db_consensus (w_db w') = <[tr_taskID r := row]> (db_consensus (w_db w))).
Proof.
  cbv zeta. split.
  - pose proof (checkConsensus_mem (fun c => tm_track (task_mem c) = get_track w) r w) as Hm.
    by apply Hm.
  - destruct (checkConsensus r w) as [w' out] eqn:E.
    destruct (checkConsensus_table r w w' out E) as [?|(rs & t & th & row & ? & ? & ?)]; [by left|].
    right. exists rs, t, th, row.
    split_and!; auto using sorted_keys_sorted. intros. apply elem_of_sorted_keys.
Qed.
End properties.

(** ** Examples *)

(** The node after it has accepted the second operator's answer and given its
    own *)
Definition toy_final : @World toy_env ToyNode := toy_processed (toy_received 1000 toy_world80).

Definition toy_reachable := reachable toy_step (@tp_init toy_env ToyNode _).

Lemma toy_final_reachable : toy_reachable toy_final.
Proof.
  apply (reach_step toy_step _ (toy_received 1000 toy_world80));
    [apply (reach_step toy_step _ toy_world80)|].
  - apply reach_init. split; [reflexivity|exact toy_key_ok].
  - apply (tp_message (toy_message2 1000)).
  - apply (tp_process toy_task). exact toy_task_key.
Qed.

Definition toy_answer : taskResponse := convertProtoToResponse (toy_response2 1000).

(** The weights that are summed include responses that state another
    value.  With a threshold of 80, the node's own answer 1000 (weight 60) and
    a response that states 999 (weight 40) make a consensus on 1000, and the
    second signature does not verify for the value stored. *)
Theorem consensus_counts_other_values :
  let w := toy_processed (toy_received 999 toy_world80) in
  exists row, db_consensus (w_db w) !! "task" = Some row /\
    c_Value row = BigIntToNumeric (Some 1000) /\
    length (c_AggregatedSignatures row) = 2%nat /\
    calculateTotalWeight {[ toy_addr1 := Some 60 ]} = Ok 60 /\ 60 < 80 /\
    exists sig, sig ∈ c_AggregatedSignatures row /\
      @VerifyTaskResponse toy_signer
        (@sign_params toy_eth (c_TargetAddress row) (c_ChainID row) (c_BlockNumber row)
           (nInt (c_Key row)) (nInt (c_Value row))) sig toy_addr2 <> Ok tt.
Proof.
  cbv zeta. eexists. split; [vm_compute; reflexivity|]. split; [reflexivity|].
  split; [reflexivity|]. split; [reflexivity|]. split; [lia|].
  exists (pb_Signature (toy_response2 999)). split; [vm_compute; right; left|].
  vm_compute. discriminate.
Qed.
