(* ===== verification/Shared.v ===== *)
(** * pkg/operator/task, as its goroutines share it

    [Task] runs a handler at a time.  Here the handlers are programs of
    [Threads], cut at every call, at every critical section of the tracker's
    mutex and at every access outside of it.  The tracker is a [Store] of
    references: [checkConsensus] takes the references of the two inner maps
    under the lock and reads the maps after it has released it, while other
    goroutines store into them or drop them from the outer maps.

    Each program, when it runs alone, is the computation of [Task] of the
    same name ([sim] and the lemmas that end in [_sim]): the two models
    differ in nothing but where the others may step in.  A call of a
    repository, of a chain client or of the pub/sub library is one step. *)

From S2P Require Import Prelude GoInt GoString Numeric EpochMath Models World Threads.
From S2P Require Import TasksRepo BlacklistRepo OperatorsRepo ConsensusRepo EthLib Signer Chain.
From S2P Require Import Task TaskInv.

(** ** The tracker: references to inner maps

    An inner map is the index of its contents; [make] appends.  [st_log] is
    the history of what has been stored: task, key, response, weight. *)

Definition entry : Type := string * string * taskResponse * option Z.

Record Store := mkStore {
  st_responses : gmap string nat;
  st_weights : gmap string nat;
  st_rmaps : list (gmap string taskResponse);
  st_wmaps : list (gmap string (option Z));
  st_log : list entry;
}.

Definition empty_store : Store := mkStore ∅ ∅ [] [] [].

(** What a reference holds; a nil map reads as empty. *)
Definition rmap (ref : option nat) (s : Store) : gmap string taskResponse :=
  default ∅ (ref ≫= fun l => st_rmaps s !! l).
Definition wmap (ref : option nat) (s : Store) : gmap string (option Z) :=
  default ∅ (ref ≫= fun l => st_wmaps s !! l).

(** [if _, exists := responses[t]; !exists { responses[t] = make(...); weights[t] = make(...) }] *)
Definition make_maps (t : string) (s : Store) : Store :=
  match st_responses s !! t with
  | Some _ => s
  | None => mkStore (<[t := length (st_rmaps s)]> (st_responses s))
                    (<[t := length (st_wmaps s)]> (st_weights s))
                    (st_rmaps s ++ [∅]) (st_wmaps s ++ [∅]) (st_log s)
  end.

(** [responses[t][sk] = r; weights[t][sk] = w]; assigning to a nil map panics. *)
Definition put_entry (t sk : string) (r : taskResponse) (w : option Z) (s : Store) :
    Store * res unit :=
  match st_responses s !! t, st_weights s !! t with
  | Some l, Some l' =>
      (mkStore (st_responses s) (st_weights s)
         (<[l := <[sk := r]> (rmap (Some l) s)]> (st_rmaps s))
         (<[l' := <[sk := w]> (wmap (Some l') s)]> (st_wmaps s))
         (st_log s ++ [(t, sk, r, w)]), Ok tt)
  | _, _ => (s, Panic "assignment to entry in nil map")
  end.

Definition store_locked (t sk : string) (r : taskResponse) (w : option Z) : M Store unit :=
  fun s => put_entry t sk r w (make_maps t s).

(** The map literal of the zero [taskResponse], which a missing key reads as *)
Definition zero_response : taskResponse := mkTaskResponse "" [] 0 0 "" "" "" 0.

(** The tracker of [Task] that a store stands for *)
Definition track_of (s : Store) : TaskResponseTrack :=
  mkTrack ((fun l => rmap (Some l) s) <$> st_responses s)
          ((fun l => wmap (Some l) s) <$> st_weights s).

(** Each task has its own pair of maps, with the same keys. *)
Record store_ok (s : Store) : Prop := {
  so_same : st_weights s = st_responses s;
  so_length : length (st_wmaps s) = length (st_rmaps s);
  so_alive : forall t l, st_responses s !! t = Some l -> (l < length (st_rmaps s))%nat;
  so_own : forall t t' l, st_responses s !! t = Some l -> st_responses s !! t' = Some l -> t = t';
  so_keys : forall l sk, is_Some (rmap (Some l) s !! sk) <-> is_Some (wmap (Some l) s !! sk);
}.

(** ** [for k, v := range m] while others write to [m]

    The entries that are there at the start are visited in some order; an
    entry that is added meanwhile may be visited, before any of the others
    or at the end, or not.  The runtime's choices are a parameter:
    [range_rank] orders the keys, [range_room] says how often the loop looks
    for added entries before a key (or at the end), [range_pick] which of
    them it visits. *)
Class MapRange := {
  range_rank : nat -> string -> Z;
  range_room : nat -> option string -> nat;
  range_pick : nat -> nat -> nat;
}.

Definition rank_le `{MapRange} (i : nat) : relation string :=
  fun a b => range_rank i a <= range_rank i b.
#[export] Instance rank_le_dec `{MapRange} i a b : Decision (rank_le i a b).
Proof. unfold rank_le. apply _. Defined.

Definition range_order `{MapRange} (i : nat) (keys : list string) : list string :=
  merge_sort (rank_le i) keys.

(** The keys in hand, with what the map holds under them. *)
Definition entries {A} (m : gmap string A) (ks : list string) : list (string * A) :=
  omap (fun k => (fun x => (k, x)) <$> m !! k) ks.

(** The sum over what a range has visited *)
Fixpoint sum_weights (total : Z) (ws : list (option Z)) : res Z :=
  match ws with
  | [] => Ok total
  | Some x :: ws' => sum_weights (total + x) ws'
  | None :: _ => Panic "big.Int.Add: nil pointer dereference"
  end.

Section shared.
Context `{Env} `{EthLib} `{P2PLib} `{PubSub} `{OperatorSigner} `{CM : ChainManager} `{MapRange}.
Context {C : Type} `{HasTask C, EpochStateQuerier C}.

(** The state of all goroutines.  The tracker of the [World] is not used:
    the store takes its place. *)
Record CW := mkCW { cw_store : Store; cw_world : World C }.

Definition set_store (s : Store) (c : CW) : CW := mkCW s (cw_world c).
Definition set_world (w : World C) (c : CW) : CW := mkCW (cw_store c) w.

(** One step outside the tracker *)
Definition onW {A} (m : M (World C) A) : prog CW A :=
  atom (fun c => let '(w, r) := m (cw_world c) in (set_world w c, r)).

(** One critical section of the tracker, or one access to a map of it *)
Definition onS {A} (m : M Store A) : prog CW A :=
  atom (fun c => let '(s, r) := m (cw_store c) in (set_store s c, r)).

Definition reads {A} (f : Store -> A) : prog CW A := onS (gets f).

Section range.
Context {A : Type} (get : Store -> gmap string A).

(** [n] looks at the entries that were not there at the start *)
Fixpoint range_added (n i : nat) (start : gset string) (seen : list (string * A)) :
    prog CW (list (string * A)) :=
  match n with
  | O => Done (Ok seen)
  | S n' =>
      let& m := reads get in
      match elements (dom m ∖ start ∖ list_to_set seen.*1) !! range_pick i n' with
      | Some k => range_added n' i start (seen ++ entries m [k])
      | None => range_added n' i start seen
      end
  end.

Fixpoint range_rest (i : nat) (start : gset string) (todo : list string)
    (seen : list (string * A)) : prog CW (list (string * A)) :=
  match todo with
  | [] => range_added (range_room i None) i start seen
  | k :: todo' =>
      let& seen := range_added (range_room i (Some k)) i start seen in
      let& m := reads get in
      range_rest i start todo' (seen ++ entries m [k])
  end.

Definition prange : prog CW (list (string * A)) :=
  let& (i, start) := atom (gets (fun c => (w_step (cw_world c), dom (get (cw_store c))))) in
  range_rest i start (range_order i (elements start)) [].
End range.

(** ** consensus.go *)

Definition p_alreadyProcessed (taskId signingKey : string) : prog CW bool :=
  reads (fun s => bool_decide (is_Some (rmap (st_responses s !! taskId) s !! signingKey))).

Definition p_store (t sk : string) (r : taskResponse) (w : option Z) : prog CW unit :=
  onS (store_locked t sk r w).

Definition p_cleanupTask (taskID : string) : prog CW unit :=
  onS (modify (fun s => mkStore (delete taskID (st_responses s)) (delete taskID (st_weights s))
                          (st_rmaps s) (st_wmaps s) (st_log s))).

Definition p_cleanupAllTasks : prog CW unit :=
  onS (modify (fun s => mkStore ∅ ∅ (st_rmaps s) (st_wmaps s) (st_log s))).

Fixpoint p_collect (responses : option nat) (signingKeys : list string) :
    prog CW (list bytes * list string) :=
  match signingKeys with
  | [] => Done (Ok ([], []))
  | signingKey :: rest =>
      let& response := reads (fun s => default zero_response (rmap responses s !! signingKey)) in
      let& operator := pwrap "failed to get operator for signing key"
                         (onW (GetOperatorBySigningKey signingKey)) in
      match operator with
      | None => Done (Err (Errorf "operator not found for signing key"))
      | Some operator =>
          let& (signatures, addresses) := p_collect responses rest in
          Done (Ok (tr_signature response :: signatures, o_Address operator :: addresses))
      end
  end.

Definition p_markTaskAsCompleted (taskID : string) : prog CW unit :=
  do& pwrap "failed to get task" (onW (GetTaskByID taskID)) in
  pwrap "failed to update task status" (onW (UpdateTaskToCompleted taskID)).

(** From the threshold on *)
Definition p_publish (response : taskResponse) (responses : option nat) : prog CW unit :=
  let taskID := tr_taskID response in
  let& (signatures, addresses) :=
    pwrap "failed to collect signatures and addresses"
      (let& keys := prange (rmap responses) in
       p_collect responses (merge_sort string_le keys.*1)) in
  do& pwrap "failed to create consensus response"
        (onW (CreateConsensusResponse (consensus_params response signatures addresses))) in
  pwrap "failed to mark task as completed" (p_markTaskAsCompleted taskID).

Definition p_checkConsensus (response : taskResponse) : prog CW unit :=
  let taskID := tr_taskID response in
  let& (responses, weights) := reads (fun s => (st_responses s !! taskID, st_weights s !! taskID)) in
  let& n := reads (fun s => size (rmap responses s)) in
  if decide (n = 0%nat) then Done (Ok tt)
  else
    let& ws := prange (wmap weights) in
    let& totalWeight := Done (sum_weights 0 ws.*2) in
    let& threshold := onW (gets (fun w => GetThresholdWeight (w_mem w))) in
    let& cmp := Done (big_Cmp (Some totalWeight) threshold) in
    match cmp with
    | Lt => Done (Ok tt)
    | _ => p_publish response responses
    end.

(** ** task.go *)

Definition p_broadcastResponse (response : taskResponse) : prog CW unit :=
  let& data := pwrap "failed to marshal response" (Done (proto_Marshal (response_message response))) in
  let& topic := onW (gets (fun w => tm_responseTopic (task_mem (w_mem w)))) in
  if topic : bool then
    onW (do! extern (fun i => topic_Publish i data) in
         modify (fun w => put_task_mem
           (mkTaskMem (tm_track (task_mem (w_mem w))) (tm_responseTopic (task_mem (w_mem w)))
              (tm_published (task_mem (w_mem w)) ++ [data])) w))
  else Done (Panic "Publish on a nil topic").

Fixpoint p_state_attempts (chainClient : ChainClient) (target : bytes) (key : option Z)
    (blockNumber : Z) (attempts : nat) : prog CW (option Z) :=
  match attempts with
  | O => Done (Err (Errorf "failed to get state after retries"))
  | S attempts =>
      let retry := p_state_attempts chainClient target key blockNumber attempts in
      let& latest := ptry (onW (extern (cc_BlockNumber chainClient))) in
      match latest with
      | inr _ => retry
      | inl latestBlock =>
          if latestBlock <? blockNumber then Done (Err (Errorf "block number is in the future"))
          else
            let& state := ptry (onW (extern (fun i =>
              cc_GetStateAtBlock chainClient i target key blockNumber))) in
            match state with
            | inl state => Done (Ok state)
            | inr err =>
                if strings_Contains (Error err) "0x7c44ec9a" then
                  Done (Err (Errorf "block not found in state history"))
                else if strings_Contains (Error err) "StateManager__KeyNotFound" then
                  Done (Err (Errorf "key not found for address"))
                else if strings_Contains (Error err) "StateManager__NoHistoryFound" then
                  Done (Err (Errorf "no state history found for block and key"))
                else retry
            end
      end
  end.

Definition p_answer_task (task : Tasks) : prog CW taskResponse :=
  if t_BlockNumber task =? 0 then Done (Err (Errorf "task block number is nil"))
  else
    let& chainClient := Done (text_res "failed to get state client"
                                (GetClientByChainId (t_ChainID task) the_chains)) in
    let& KeyBig := Done (text_res "failed to convert key to big.Int"
                           (NumericToBigInt (t_Key task))) in
    let& value := pwrap "failed to get state"
                    (p_state_attempts chainClient (HexToAddress (t_TargetAddress task))
                       KeyBig (t_BlockNumber task) maxRetries) in
    let& taskValueBig := Done (text_res "failed to convert task value to big.Int"
                                 (NumericToBigInt (t_Value task))) in
    let& cmp := Done (big_Cmp value taskValueBig) in
    match cmp with
    | Eq =>
        let& signature := pwrap "failed to sign response"
          (Done (SignTaskResponse (sign_params (t_TargetAddress task) (t_ChainID task)
                                     (t_BlockNumber task) KeyBig value))) in
        Done (Ok (own_response task signature value))
    | _ => Done (Err (Errorf "state value mismatch"))
    end.

(** From the node's own answer on *)
Definition p_give_answer (task : Tasks) (response : taskResponse) (weight : option Z) : prog CW unit :=
  do& p_store (t_TaskID task) mySigningKey response weight in
  do& pwrap "failed to broadcast response" (p_broadcastResponse response) in
  do& ptry (p_checkConsensus response) in
  Done (Ok tt).

Definition p_ProcessTask (task : option Tasks) : prog CW unit :=
  match task with
  | None => Done (Err (Errorf "task is nil"))
  | Some task =>
      let& processed := p_alreadyProcessed (t_TaskID task) mySigningKey in
      if processed : bool then Done (Ok tt)
      else
        let& response := p_answer_task task in
        let& operator := pwrap "failed to get operator"
                           (onW (GetOperatorBySigningKey mySigningKey)) in
        match operator with
        | None => Done (Panic "operator.Weight: nil pointer dereference")
        | Some operator =>
            let& weight := pwrap "failed to convert operator weight to big int"
                             (Done (NumericToBigInt (o_Weight operator))) in
            p_give_answer task response weight
        end
  end.

(** ** response.go *)

Definition p_accept_response (response : taskResponse) (signingKey : string)
    (operator : Operators) : prog CW unit :=
  let& weight := pwrap "failed to convert operator weight to big int"
                   (Done (NumericToBigInt (o_Weight operator))) in
  do& p_store (tr_taskID response) signingKey response weight in
  do& ptry (p_checkConsensus response) in
  let& processed := p_alreadyProcessed (tr_taskID response) mySigningKey in
  if processed : bool then Done (Ok tt)
  else pwrap "failed to process task" (p_ProcessTask (Some (task_of_response response))).

Definition p_violation (peerID : string) (err : error) : prog CW unit :=
  onW (incrementPeerViolation peerID err).

Definition p_processResponse (msg : Message) : prog CW unit :=
  let& pbMsg := pwrap "failed to unmarshal message" (Done (proto_Unmarshal (msg_Data msg))) in
  let response := convertProtoToResponse pbMsg in
  let peerID := msg_ReceivedFrom msg in
  let& currentEpochNumber := onW (gets (fun w => GetCurrentEpochNumber (w_mem w))) in
  if negb (tr_epoch response =? currentEpochNumber) then Done (Ok tt)
  else
    match PeerIDToP2PKey peerID with
    | Panic s => Done (Panic s)
    | Err err => p_violation peerID (Wrapf "failed to convert peer ID to P2P key" err)
    | Ok p2pKey =>
        let& operator := ptry (onW (GetOperatorByP2PKey p2pKey)) in
        match operator with
        | inr err => p_violation peerID (Wrapf "failed to get operator state" err)
        | inl None => p_violation peerID (Errorf "operator not exist or not active: %!w(<nil>)")
        | inl (Some operator) =>
            if negb (o_IsActive operator) then
              p_violation peerID (Errorf "operator not exist or not active: %!w(<nil>)")
            else
              let signingKey := o_SigningKey operator in
              let& processed := p_alreadyProcessed (pb_TaskId pbMsg) signingKey in
              if processed : bool then Done (Ok tt)
              else
                let& consensus := ptry (onW (GetConsensusResponseByTaskId (pb_TaskId pbMsg))) in
                match consensus with
                | inl (Some _) => Done (Ok tt)
                | _ =>
                    match verifyResponse response signingKey with
                    | Panic s => Done (Panic s)
                    | Err err => p_violation peerID (Wrapf "failed to verify response" err)
                    | Ok _ => p_accept_response response signingKey operator
                    end
                end
        end
    end.

Definition p_handleResponse (msg : Message) : prog CW unit :=
  precovered (do& ptry (p_processResponse msg) in Done (Ok tt)).

(** ** check.go *)

Definition p_timeout_task (task : Tasks) : prog CW unit :=
  let& newRetryCount := ptry (onW (IncrementRetryCount (t_TaskID task))) in
  match newRetryCount with
  | inr _ => Done (Ok tt)
  | inl None => Done (Panic "newRetryCount.RetryCount: nil pointer dereference")
  | inl (Some updated) =>
      if maxRetryCount <=? t_RetryCount updated then
        do& ptry (onW (DeleteTaskByID (t_TaskID task))) in
        p_cleanupTask (t_TaskID task)
      else
        do& ptry (p_ProcessTask (Some task)) in
        Done (Ok tt)
  end.

Definition p_checkTimeouts : prog CW unit :=
  let& tasks := ptry (onW ListPendingTasks) in
  match tasks with
  | inr _ => Done (Ok tt)
  | inl tasks => pfor_each tasks p_timeout_task
  end.

Definition p_confirm_task (task : Tasks) : prog CW unit :=
  let& chainClient := Done (GetClientByChainId (t_ChainID task) the_chains) in
  let& latestBlock := onW (extern (cc_BlockNumber chainClient)) in
  if t_BlockNumber task =? 0 then Done (Ok tt)
  else
    let targetBlock := u64 (t_BlockNumber task + t_RequiredConfirmations task) in
    if targetBlock <=? latestBlock then
      do& onW (UpdateTaskToPending (t_TaskID task)) in
      p_ProcessTask (Some task)
    else Done (Ok tt).

Definition p_checkConfirmations : prog CW unit :=
  let& tasks := ptry (onW ListConfirmingTasks) in
  match tasks with
  | inr _ => Done (Ok tt)
  | inl tasks => pfor_each tasks p_confirm_task
  end.

Definition p_periodicCleanup : prog CW unit := p_cleanupAllTasks.
End shared.

Arguments CW {_} C.

(** ** The store's operations *)

Lemma track_of_lookup s t :
  tk_responses (track_of s) !! t = (fun l => rmap (Some l) s) <$> st_responses s !! t /\
  tk_weights (track_of s) !! t = (fun l => wmap (Some l) s) <$> st_weights s !! t.
Proof. simpl. by rewrite !lookup_fmap. Qed.

Lemma default_rmap s t :
  default ∅ (tk_responses (track_of s) !! t) = rmap (st_responses s !! t) s.
Proof. rewrite (proj1 (track_of_lookup s t)). by destruct (st_responses s !! t). Qed.

Lemma default_wmap s t :
  default ∅ (tk_weights (track_of s) !! t) = wmap (st_weights s !! t) s.
Proof. rewrite (proj2 (track_of_lookup s t)). by destruct (st_weights s !! t). Qed.

Lemma lookup2_rmap s t sk :
  lookup2 (tk_responses (track_of s)) t sk = rmap (st_responses s !! t) s !! sk.
Proof.
  rewrite <- default_rmap. unfold lookup2.
  by destruct (tk_responses (track_of s) !! t).
Qed.

Lemma empty_store_ok : store_ok empty_store.
Proof.
  constructor; try done; unfold rmap, wmap; simpl.
  intros l sk. by rewrite !lookup_empty.
Qed.

Lemma drop_maps_ok s m : store_ok s -> m ⊆ st_responses s ->
  store_ok (mkStore m m (st_rmaps s) (st_wmaps s) (st_log s)).
Proof.
  intros [Hs Hl Ha Ho Hk] Hm. constructor; simpl; try done.
  - intros t l Ht. apply (Ha t l). by eapply lookup_weaken.
  - intros t t' l Ht Ht'. apply (Ho t t' l); by eapply lookup_weaken.
Qed.

(** What [make_maps] leaves: the task has its maps, and no map has changed. *)
Lemma make_maps_spec t s : store_ok s ->
  let s' := make_maps t s in
  store_ok s' /\ st_log s' = st_log s /\
  (forall l, rmap (Some l) s' = rmap (Some l) s /\ wmap (Some l) s' = wmap (Some l) s) /\
  (length (st_rmaps s) <= length (st_rmaps s'))%nat /\
  exists l, st_responses s' = <[t := l]> (st_responses s) /\
    (st_responses s !! t = Some l \/
     (st_responses s !! t = None /\ rmap (Some l) s = ∅ /\ wmap (Some l) s = ∅ /\
      (length (st_rmaps s) <= l)%nat)).
Proof.
  intros [Hs Hl Ha Ho Hk]. unfold make_maps.
  destruct (st_responses s !! t) as [l|] eqn:Et; simpl.
  { split; [by constructor|]. split_and!; try done. exists l. rewrite insert_id by done. auto. }
  assert (forall A (ms : list (gmap string A)) l,
    default ∅ ((ms ++ [∅]) !! l) = default ∅ (ms !! l)) as Hnew.
  { intros A ms l. destruct (decide (l < length ms)%nat).
    - by rewrite lookup_app_l.
    - rewrite lookup_app_r by lia. rewrite (lookup_ge_None_2 ms) by lia.
      by destruct (l - length ms)%nat as [|[|?]]. }
  assert (forall l, default ∅ (Some l ≫= fun l => (st_rmaps s ++ [∅]) !! l) = rmap (Some l) s) as Er
    by by intros l; apply Hnew.
  assert (forall l, default ∅ (Some l ≫= fun l => (st_wmaps s ++ [∅]) !! l) = wmap (Some l) s) as Ew
    by by intros l; apply Hnew.
  split_and!; try done.
  - constructor; simpl.
    + by rewrite Hs, Hl.
    + rewrite !length_app. simpl. lia.
    + rewrite length_app. simpl. intros t' l [[<- <-]|[_ Ht]]%lookup_insert_Some; [lia|].
      apply Ha in Ht. lia.
    + intros t1 t2 l [[<- <-]|[? H1]]%lookup_insert_Some [[<- E]|[? H2]]%lookup_insert_Some;
        try done; [apply Ha in H2; lia|apply Ha in H1; lia|by eapply Ho].
    + intros l sk. unfold rmap at 1, wmap at 1. simpl st_rmaps. simpl st_wmaps. by rewrite Er, Ew.
  - intros l. split; [apply Er|apply Ew].
  - rewrite length_app. simpl. lia.
  - exists (length (st_rmaps s)). split; [done|]. right. split_and!; try done.
    + unfold rmap. simpl. by rewrite lookup_ge_None_2 by lia.
    + unfold wmap. simpl. by rewrite lookup_ge_None_2 by lia.
Qed.

(** Storing an entry in the maps of its task *)
Lemma put_entry_spec t sk r w s l : store_ok s -> st_responses s !! t = Some l ->
  exists s', put_entry t sk r w s = (s', Ok tt) /\ store_ok s' /\
    st_responses s' = st_responses s /\ st_log s' = st_log s ++ [(t, sk, r, w)] /\
    length (st_rmaps s') = length (st_rmaps s) /\
    (forall l', rmap (Some l') s' = if decide (l' = l) then <[sk := r]> (rmap (Some l) s)
                                    else rmap (Some l') s) /\
    (forall l', wmap (Some l') s' = if decide (l' = l) then <[sk := w]> (wmap (Some l) s)
                                    else wmap (Some l') s).
Proof.
  intros [Hs Hl Ha Ho Hk] Et. unfold put_entry. rewrite Hs, Et. eexists. split; [done|].
  pose proof (Ha t l Et) as Hlt.
  match goal with |- store_ok ?s1 /\ _ => set (s' := s1) end.
  assert (forall l', rmap (Some l') s' = if decide (l' = l) then <[sk := r]> (rmap (Some l) s)
                                    else rmap (Some l') s) as Er.
  { intros l'. unfold rmap, s'. simpl. destruct (decide (l' = l)) as [->|Hne].
    - by rewrite list_lookup_insert_eq.
    - by rewrite list_lookup_insert_ne. }
  assert (forall l', wmap (Some l') s' = if decide (l' = l) then <[sk := w]> (wmap (Some l) s)
                                    else wmap (Some l') s) as Ew.
  { intros l'. unfold wmap, s'. simpl. destruct (decide (l' = l)) as [->|Hne].
    - by rewrite list_lookup_insert_eq by lia.
    - by rewrite list_lookup_insert_ne. }
  split_and!; try done; [|by unfold s'; simpl; rewrite length_insert].
  constructor; unfold s' in *; simpl; rewrite ?length_insert; try done.
  intros l' sk'. rewrite Er, Ew. destruct (decide (l' = l)) as [->|]; [|done].
  rewrite !lookup_insert_is_Some, Hk. done.
Qed.

(** ** What a range visits *)

Lemma elem_of_entries {A} (m : gmap string A) ks k x :
  (k, x) ∈ entries m ks <-> k ∈ ks /\ m !! k = Some x.
Proof.
  unfold entries. rewrite list_elem_of_omap. split.
  - intros (k' & Hk & E). apply fmap_Some in E as (x' & E & [= -> ->]). done.
  - intros [Hk E]. exists k. by rewrite E.
Qed.

Lemma entries_keys {A} (m : gmap string A) ks k : k ∈ (entries m ks).*1 -> k ∈ ks.
Proof. intros ([k' x] & -> & Hk)%list_elem_of_fmap. by apply elem_of_entries in Hk as [? _]. Qed.

Lemma elements_dom {A} (m : gmap string A) : elements (dom m) ≡ₚ (map_to_list m).*1.
Proof.
  apply NoDup_Permutation; [apply NoDup_elements|apply NoDup_fst_map_to_list|].
  intros k. rewrite elem_of_elements, elem_of_dom. split.
  - intros [x Hx]. apply list_elem_of_fmap. exists (k, x). by rewrite elem_of_map_to_list.
  - intros ([k' x] & -> & Hx)%list_elem_of_fmap. apply elem_of_map_to_list in Hx. by exists x.
Qed.

Lemma visited_entries {A} (m : gmap string A) ks :
  ks ≡ₚ (map_to_list m).*1 -> entries m ks ≡ₚ map_to_list m.
Proof.
  intros Hks.
  enough (forall l, (forall p, p ∈ l -> p ∈ map_to_list m) -> entries m l.*1 = l) as Hl
    by (unfold entries in *; by rewrite Hks, Hl).
  intros l. induction l as [|[k x] l IH]; intros Hin; [done|]. unfold entries. cbn.
  rewrite (proj1 (elem_of_map_to_list m k x)) by (apply Hin; by left). simpl. f_equal.
  apply IH. intros p Hp. apply Hin. by right.
Qed.

(** Sums do not depend on the order. *)
Definition nil_panic : res Z := Panic "big.Int.Add: nil pointer dereference".

Lemma sum_weights_spec total ws :
  sum_weights total ws =
  if decide (Forall is_Some ws) then Ok (total + foldr (fun w acc => default 0 w + acc) 0 ws)
  else nil_panic.
Proof.
  revert total. induction ws as [|[x|] ws IH]; intros total; cbn [sum_weights foldr].
  - rewrite decide_True by done. f_equal. lia.
  - rewrite IH. destruct (decide (Forall is_Some ws)) as [Hws|Hws].
    + rewrite decide_True by by constructor. cbn. f_equal. lia.
    + rewrite decide_False; [done|]. by intros [_ ?]%Forall_cons_1.
  - rewrite decide_False; [done|]. by intros [[? [=]] _]%Forall_cons_1.
Qed.

Lemma calculateTotalWeight_list ws l :
  l ≡ₚ map_to_list ws -> calculateTotalWeight ws = sum_weights 0 l.*2.
Proof.
  intros Hl. rewrite sum_weights_spec. unfold calculateTotalWeight. rewrite map_fold_foldr.
  transitivity (if decide (Forall is_Some (map_to_list ws).*2)
    then Ok (foldr (fun w acc => default 0 w + acc) 0 (map_to_list ws).*2) else nil_panic).
  - clear Hl. induction (map_to_list ws) as [|[k [x|]] l' IH]; rewrite ?fmap_cons; cbn [foldr uncurry snd].
    + by rewrite decide_True.
    + rewrite IH. destruct (decide (Forall is_Some l'.*2)) as [Hw|Hw]; simpl.
      * rewrite decide_True by by constructor. f_equal. lia.
      * rewrite decide_False; [done|]. by intros [_ ?]%Forall_cons_1.
    + rewrite decide_False by by intros [[? [=]] _]%Forall_cons_1. rewrite IH.
      by destruct (decide _).
  - assert (foldr (fun w acc => default 0 w + acc) 0 (map_to_list ws).*2 =
      foldr (fun w acc => default 0 w + acc) 0 l.*2) as ->.
    { apply (foldr_permutation_proper eq _); [by intros ? ? ? ->|intros; lia|by rewrite Hl]. }
    destruct (decide (Forall is_Some (map_to_list ws).*2)) as [Hw|Hw].
    + rewrite decide_True; [done|]. by rewrite Hl.
    + rewrite decide_False; [done|]. by rewrite Hl.
Qed.

(** ** Computations that do not look at the component's memory *)

Definition oblivious `{Env} {C A} (m : M (World C) A) : Prop :=
  forall c w, m (set_mem c w) = (set_mem c (m w).1, (m w).2).

Create HintDb go_oblivious.

Section oblivious.
Context `{Env} {C : Type}.
Abbreviation MW := (M (World C)).

Lemma oblivious_ret {A} (a : A) : oblivious (C:=C) (ret a).
Proof. done. Qed.
Lemma oblivious_throw {A} e : oblivious (C:=C) (throw (A:=A) e).
Proof. done. Qed.
Lemma oblivious_panic {A} s : oblivious (C:=C) (panic (A:=A) s).
Proof. done. Qed.
Lemma oblivious_lift {A} (r : res A) : oblivious (C:=C) (lift r).
Proof. done. Qed.
Lemma oblivious_extern {A} (f : nat -> res A) : oblivious (C:=C) (extern f).
Proof. done. Qed.
Lemma oblivious_bind {A B} (m : MW A) (k : A -> MW B) :
  oblivious m -> (forall a, oblivious (k a)) -> oblivious (bind m k).
Proof.
  intros Hm Hk c w. unfold bind. rewrite Hm. destruct (m w) as [w' [a|e|s]]; simpl; [|done|done].
  apply Hk.
Qed.
Lemma oblivious_try {A} (m : MW A) : oblivious m -> oblivious (try m).
Proof. intros Hm c w. unfold try. rewrite Hm. by destruct (m w) as [w' [a|e|s]]. Qed.
Lemma oblivious_wrapM {A} s (m : MW A) : oblivious m -> oblivious (wrapM s m).
Proof. intros Hm c w. unfold wrapM. rewrite Hm. by destruct (m w). Qed.

Lemma oblivious_pg_call {A} (s : Z -> DB -> res (DB * A)) : oblivious (C:=C) (pg_call s).
Proof.
  intros c w. unfold pg_call, bind, tick. simpl.
  by destruct (s (env_now (w_step w)) (w_db w)) as [[d a]|e'|m], (env_pg (w_step w)).
Qed.

Lemma oblivious_Invalidate k : oblivious (C:=C) (Invalidate k).
Proof.
  intros c w. unfold Invalidate. destruct dc_present; [|done].
  unfold bind, tick. simpl. by destruct (dc_invalidate _ _ _).
Qed.

Lemma oblivious_invalidate_all ks : oblivious (C:=C) (invalidate_all ks).
Proof.
  induction ks as [|k ks IH]; simpl; [done|].
  apply oblivious_bind; [apply oblivious_Invalidate|]. intros e. by apply oblivious_bind.
Qed.

Lemma oblivious_PostExec q ks : oblivious (C:=C) (PostExec q ks).
Proof.
  destruct q; simpl; [|done].
  apply oblivious_bind; [apply oblivious_invalidate_all|]. intros es. by apply oblivious_bind.
Qed.

Lemma oblivious_cached k (m : MW (CacheVal * Z)) : oblivious m -> oblivious (cached k m).
Proof.
  intros Hm. unfold cached. destruct dc_present; [|apply oblivious_bind; [done|by intros []]].
  intros c w. unfold GetWithTtl, bind, tick, gets. simpl. destruct (dc_lookup _ _ _); [done|].
  change (set_step (S (w_step w)) (set_mem c w)) with (set_mem c (set_step (S (w_step w)) w)).
  rewrite Hm. by destruct (m _) as [w' [[v ttl]|e|s]].
Qed.

Lemma oblivious_as_operator v : oblivious (C:=C) (as_operator v).
Proof. by destruct v. Qed.
End oblivious.

#[export] Hint Resolve oblivious_ret oblivious_throw oblivious_panic oblivious_lift
  oblivious_extern oblivious_pg_call oblivious_Invalidate oblivious_invalidate_all
  oblivious_PostExec oblivious_as_operator : go_oblivious.

Ltac oblivious_step :=
  match goal with
  | |- forall _, _ => intros ?
  | |- oblivious (bind _ _) => apply oblivious_bind
  | |- oblivious (try _) => apply oblivious_try
  | |- oblivious (wrapM _ _) => apply oblivious_wrapM
  | |- oblivious (cached _ _) => apply oblivious_cached
  | |- oblivious (match ?x with _ => _ end) => destruct x
  | |- oblivious _ => solve [eauto with go_oblivious]
  end.
Ltac solve_oblivious := repeat oblivious_step.

(** ** A program that runs alone *)

Section alone.
Context `{Env} `{EthLib} `{P2PLib} `{PubSub} `{OperatorSigner} `{CM : ChainManager} `{MapRange}.
Context {C : Type} `{HasTaskOk C}.
Implicit Types c : CW C.

(** The node of [Task] that a state stands for *)
Definition view c : World C := put_track (track_of (cw_store c)) (cw_world c).

Lemma view_track c : get_track (view c) = track_of (cw_store c).
Proof. apply get_put_track. Qed.

(** Alone, [p] is [m]: same outcome, and the states it leaves correspond. *)
Definition sim {A} (p : prog (CW C) A) (m : M (World C) A) : Prop :=
  forall c, store_ok (cw_store c) ->
    m (view c) = (view (run p c).1, (run p c).2) /\ store_ok (cw_store (run p c).1).

Lemma sim_done {A} (r : res A) : sim (Done r) (lift r).
Proof. done. Qed.

Lemma sim_pbind {A B} (p : prog (CW C) A) m (k : A -> prog (CW C) B) k' :
  sim p m -> (forall a, sim (k a) (k' a)) -> sim (pbind p k) (bind m k').
Proof.
  intros Hp Hk c Hc. destruct (Hp c Hc) as [E Hc']. rewrite run_pbind. unfold bind. rewrite E.
  destruct (run p c) as [c1 [a|e|s]]; simpl in *; [by apply Hk|done|done].
Qed.

Lemma sim_ptry {A} (p : prog (CW C) A) m : sim p m -> sim (ptry p) (try m).
Proof.
  intros Hp c Hc. destruct (Hp c Hc) as [E Hc']. rewrite run_ptry. unfold try. rewrite E.
  by destruct (run p c) as [c1 [a|e|s]].
Qed.

Lemma sim_pwrap {A} s (p : prog (CW C) A) m : sim p m -> sim (pwrap s p) (wrapM s m).
Proof.
  intros Hp c Hc. destruct (Hp c Hc) as [E Hc']. rewrite run_pwrap. unfold wrapM. rewrite E.
  by destruct (run p c) as [c1 r].
Qed.

Lemma sim_precovered (p : prog (CW C) unit) m : sim p m -> sim (precovered p) (recovered m).
Proof.
  intros Hp c Hc. destruct (Hp c Hc) as [E Hc']. rewrite run_precovered. unfold recovered.
  rewrite E. by destruct (run p c) as [c1 [a|e|s]].
Qed.

Lemma sim_pfor_each {A} (l : list A) (body : A -> prog (CW C) unit) body' :
  (forall x, sim (body x) (body' x)) -> sim (pfor_each l body) (for_each l body').
Proof.
  intros Hb. induction l as [|x l IH]; cbn [pfor_each for_each]; [done|].
  apply sim_pbind; [by apply sim_ptry|done].
Qed.

(** A computation of the same meaning may take its place. *)
Lemma sim_same {A} (p : prog (CW C) A) m m' : sim p m -> m ≈ m' -> sim p m'.
Proof. intros Hp E c Hc. rewrite <- E. by apply Hp. Qed.

(** A step that neither looks at the memory nor changes it *)
Lemma view_onW {A} (m : M (World C) A) c : oblivious m ->
  (forall P, preserves (mem_pred P) m) ->
  m (view c) = (view (run (onW m) c).1, (run (onW m) c).2) /\
  cw_store (run (onW m) c).1 = cw_store c.
Proof.
  intros Ho Hm. unfold onW. rewrite run_atom.
  assert (w_mem (m (cw_world c)).1 = w_mem (cw_world c)) as E by by apply (Hm (fun x => x = _)).
  unfold view at 1, put_track, put_task_mem. rewrite Ho.
  destruct (m (cw_world c)) as [w r]. simpl in *. split; [|done].
  unfold view, put_track, put_task_mem. simpl. by rewrite E.
Qed.

Lemma sim_onW {A} (m : M (World C) A) : oblivious m ->
  (forall P, preserves (mem_pred P) m) -> sim (onW m) m.
Proof. intros Ho Hm c Hc. destruct (view_onW m c Ho Hm) as [E Es]. by rewrite Es. Qed.

(** A step that reads what the tracker does not hold *)
Lemma sim_onW_gets {A} (f : World C -> A) :
  (forall k w, f (put_track k w) = f w) -> sim (onW (gets f)) (gets f).
Proof. intros Hf c Hc. split; [|done]. unfold gets, view. by rewrite Hf. Qed.

(** A critical section *)
Lemma sim_onS (m : M Store unit) section :
  (forall s, store_ok s -> exists s', m s = (s', Ok tt) /\ store_ok s' /\
     section (track_of s) = Ok (track_of s')) ->
  sim (onS m) (locked section).
Proof.
  intros Hm c Hc. destruct (Hm _ Hc) as (s' & Es & Hs' & Ek). unfold onS. rewrite run_atom.
  rewrite Es. simpl. split; [|done]. unfold locked. unfold view at 1. rewrite get_put_track, Ek.
  f_equal. unfold view, put_track, put_task_mem. simpl.
  by rewrite task_mem_set, set_task_mem_set.
Qed.

(** A read of the tracker *)
Lemma sim_reads {A} (f : Store -> A) (g : TaskResponseTrack -> A) :
  (forall s, store_ok s -> g (track_of s) = f s) ->
  sim (reads f) (let! k := gets get_track in ret (g k)).
Proof.
  intros Hf c Hc. split; [|done]. unfold bind, gets, ret.
  unfold view at 2. by rewrite get_put_track, Hf.
Qed.

(** ** Ranges *)

Lemma range_added_alone {A} (get : Store -> gmap string A) n i start seen c :
  dom (get (cw_store c)) ⊆ start -> run (range_added get n i start seen) c = (c, Ok seen).
Proof.
  intros Hs. induction n as [|n IH]; [done|]. cbn [range_added]. rewrite run_pbind.
  unfold bind. simpl. destruct c as [s w]. unfold set_store. simpl in *.
  replace (dom (get s) ∖ start) with (∅ : gset string) by set_solver.
  replace (∅ ∖ list_to_set seen.*1) with (∅ : gset string) by set_solver.
  rewrite elements_empty. destruct (range_pick i n); exact IH.
Qed.

Lemma range_rest_alone {A} (get : Store -> gmap string A) i start todo seen c :
  dom (get (cw_store c)) ⊆ start ->
  run (range_rest get i start todo seen) c =
    (c, Ok (seen ++ entries (get (cw_store c)) todo)).
Proof.
  intros Hs. revert seen. induction todo as [|k todo IH]; intros seen; cbn [range_rest].
  - rewrite range_added_alone by done. by rewrite app_nil_r.
  - rewrite run_pbind. unfold bind. rewrite range_added_alone by done. rewrite run_pbind.
    unfold bind. simpl. destruct c as [s w]. unfold set_store. simpl in *. rewrite IH, <- app_assoc.
    unfold entries. simpl. by destruct (get s !! k).
Qed.

(** A range that nobody disturbs visits every entry once. *)
Lemma prange_alone {A} (get : Store -> gmap string A) c : exists l,
  run (prange get) c = (c, Ok l) /\ l ≡ₚ map_to_list (get (cw_store c)).
Proof.
  unfold prange. rewrite run_pbind. unfold bind. simpl. rewrite range_rest_alone by done.
  eexists. split; [done|]. apply visited_entries. unfold range_order.
  by rewrite merge_sort_Permutation, elements_dom.
Qed.

(** ** The repository calls do not look at the memory *)

Lemma GetOperatorBySigningKey_oblivious k : oblivious (C:=C) (GetOperatorBySigningKey k).
Proof. unfold GetOperatorBySigningKey, cached_operator. solve_oblivious. Qed.
Lemma GetOperatorByP2PKey_oblivious k : oblivious (C:=C) (GetOperatorByP2PKey k).
Proof. unfold GetOperatorByP2PKey, cached_operator. solve_oblivious. Qed.
Lemma GetConsensusResponseByTaskId_oblivious id :
  oblivious (C:=C) (GetConsensusResponseByTaskId id).
Proof. unfold GetConsensusResponseByTaskId. solve_oblivious. Qed.
Lemma CreateConsensusResponse_oblivious arg : oblivious (C:=C) (CreateConsensusResponse arg).
Proof. unfold CreateConsensusResponse. solve_oblivious. Qed.
Lemma GetTaskByID_oblivious id : oblivious (C:=C) (GetTaskByID id).
Proof. unfold GetTaskByID. solve_oblivious. Qed.
Lemma UpdateTaskToCompleted_oblivious id : oblivious (C:=C) (UpdateTaskToCompleted id).
Proof. unfold UpdateTaskToCompleted. solve_oblivious. Qed.
Lemma UpdateTaskToPending_oblivious id : oblivious (C:=C) (UpdateTaskToPending id).
Proof. unfold UpdateTaskToPending. solve_oblivious. Qed.
Lemma IncrementRetryCount_oblivious id : oblivious (C:=C) (IncrementRetryCount id).
Proof. unfold IncrementRetryCount. solve_oblivious. Qed.
Lemma DeleteTaskByID_oblivious id : oblivious (C:=C) (DeleteTaskByID id).
Proof. unfold DeleteTaskByID. solve_oblivious. Qed.
Lemma ListPendingTasks_oblivious : oblivious (C:=C) ListPendingTasks.
Proof. unfold ListPendingTasks. solve_oblivious. Qed.
Lemma ListConfirmingTasks_oblivious : oblivious (C:=C) ListConfirmingTasks.
Proof. unfold ListConfirmingTasks. solve_oblivious. Qed.
Lemma incrementPeerViolation_oblivious p e : oblivious (C:=C) (incrementPeerViolation p e).
Proof. unfold incrementPeerViolation, IncrementViolationCount. solve_oblivious. Qed.

#[local] Hint Resolve GetOperatorBySigningKey_oblivious GetOperatorByP2PKey_oblivious
  GetConsensusResponseByTaskId_oblivious CreateConsensusResponse_oblivious GetTaskByID_oblivious
  UpdateTaskToCompleted_oblivious UpdateTaskToPending_oblivious IncrementRetryCount_oblivious
  DeleteTaskByID_oblivious ListPendingTasks_oblivious ListConfirmingTasks_oblivious
  incrementPeerViolation_oblivious : go_oblivious.

(** ** [checkConsensus] alone

    It leaves the store alone, so what it reads twice it reads the same. *)

(** [sim] at one store, which stays. *)
Definition sim_at {A} (s : Store) (p : prog (CW C) A) (m : M (World C) A) : Prop :=
  forall c, cw_store c = s ->
    m (view c) = (view (run p c).1, (run p c).2) /\ cw_store (run p c).1 = s.

Lemma sim_at_all {A} (p : prog (CW C) A) m :
  (forall s, store_ok s -> sim_at s p m) -> sim p m.
Proof.
  intros Hp c Hc. destruct (Hp _ Hc c eq_refl) as [E Es]. split; [done|]. by rewrite Es.
Qed.

Lemma sim_at_done {A} s (r : res A) : sim_at s (Done r) (lift r).
Proof. done. Qed.

Lemma sim_at_pbind {A B} s (p : prog (CW C) A) m (k : A -> prog (CW C) B) k' :
  sim_at s p m -> (forall a, sim_at s (k a) (k' a)) -> sim_at s (pbind p k) (bind m k').
Proof.
  intros Hp Hk c Hc. destruct (Hp c Hc) as [E Hc']. rewrite run_pbind. unfold bind. rewrite E.
  destruct (run p c) as [c1 [a|e|s']]; simpl in *; [by apply Hk|done|done].
Qed.

Lemma sim_at_pwrap {A} s msg (p : prog (CW C) A) m :
  sim_at s p m -> sim_at s (pwrap msg p) (wrapM msg m).
Proof.
  intros Hp c Hc. destruct (Hp c Hc) as [E Hc']. rewrite run_pwrap. unfold wrapM. rewrite E.
  by destruct (run p c) as [c1 r].
Qed.

Lemma sim_at_onW {A} s (m : M (World C) A) : oblivious m ->
  (forall P, preserves (mem_pred P) m) -> sim_at s (onW m) m.
Proof.
  intros Ho Hm c Hc. destruct (view_onW m c Ho Hm) as [E Es]. by rewrite Es.
Qed.

Lemma sim_at_gets {A B} s (f : World C -> A) (k : A -> prog (CW C) B) k' :
  (forall t w, f (put_track t w) = f w) -> (forall a, sim_at s (k a) (k' a)) ->
  sim_at s (pbind (onW (gets f)) k) (bind (gets f) k').
Proof.
  intros Hf Hk. apply sim_at_pbind; [|done]. intros c Hc. split; [|done].
  unfold gets, view. by rewrite Hf.
Qed.

Lemma sim_at_reads {A B} s (f : Store -> A) (k : A -> prog (CW C) B) m :
  sim_at s (k (f s)) m -> sim_at s (pbind (reads f) k) m.
Proof. intros Hk [s' w] Hc. simpl in Hc. subst s'. by apply Hk. Qed.

Lemma sim_at_track {B} s (p : prog (CW C) B) k :
  sim_at s p (k (track_of s)) -> sim_at s p (bind (gets get_track) k).
Proof.
  intros Hk c Hc. unfold bind, gets. rewrite view_track, Hc. by apply Hk.
Qed.

Lemma sim_at_prange {A B} s (get : Store -> gmap string A) (k : _ -> prog (CW C) B) m :
  (forall l, l ≡ₚ map_to_list (get s) -> sim_at s (k l) m) -> sim_at s (pbind (prange get) k) m.
Proof.
  intros Hk c Hc. destruct (prange_alone get c) as (l & El & Hl). rewrite Hc in Hl.
  rewrite run_pbind. unfold bind. rewrite El. by apply Hk.
Qed.

Lemma p_collect_at s ref keys : (forall k, k ∈ keys -> is_Some (rmap ref s !! k)) ->
  sim_at s (p_collect ref keys) (collect_from (rmap ref s) keys).
Proof.
  induction keys as [|k keys IH]; intros Hk; [done|]. cbn [p_collect collect_from].
  apply sim_at_reads. destruct (Hk k) as [r Er]; [by left|]. rewrite Er. cbn [default from_option id].
  apply sim_at_pbind.
  - apply sim_at_pwrap, sim_at_onW; [auto with go_oblivious|intros; solve_preserves].
  - intros [op|]; [|done]. apply sim_at_pbind; [apply IH; intros; apply Hk; by right|].
    by intros [sigs addrs].
Qed.

Lemma sorted_keys_of {A} (m : gmap string A) l : l ≡ₚ map_to_list m ->
  merge_sort string_le l.*1 = sorted_keys m.
Proof.
  intros Hl. apply (Sorted_unique string_le).
  - apply Sorted_merge_sort, _.
  - apply Sorted_merge_sort, _.
  - unfold sorted_keys. by rewrite !merge_sort_Permutation, Hl.
Qed.

Lemma p_checkConsensus_sim r : sim (p_checkConsensus r) (checkConsensus r).
Proof.
  apply sim_at_all. intros s Hs. unfold p_checkConsensus, checkConsensus.
  apply sim_at_reads, sim_at_track, sim_at_reads. rewrite default_rmap, default_wmap.
  set (rs := rmap (st_responses s !! tr_taskID r) s).
  destruct (decide (size rs = 0%nat)) as [E%map_size_empty_inv|Hne].
  { by rewrite bool_decide_true. }
  rewrite bool_decide_false by (intros ->; by rewrite map_size_empty in Hne).
  apply sim_at_prange. intros ws Hws. rewrite (calculateTotalWeight_list _ _ Hws).
  apply sim_at_pbind; [apply sim_at_done|]. intros total.
  apply sim_at_gets; [intros; unfold put_track, put_task_mem; simpl; apply threshold_set_task|].
  intros threshold. apply sim_at_pbind; [apply sim_at_done|]. intros cmp.
  assert (sim_at s (p_publish r (st_responses s !! tr_taskID r))
    (let! (signatures, addresses) :=
        wrapM "failed to collect signatures and addresses" (collectSignaturesAndAddresses rs) in
      do! wrapM "failed to create consensus response"
            (CreateConsensusResponse (consensus_params r signatures addresses)) in
      wrapM "failed to mark task as completed" (markTaskAsCompleted (tr_taskID r)))) as Hp;
    [|by destruct cmp].
  unfold p_publish. apply sim_at_pbind.
  - apply sim_at_pwrap, sim_at_prange. intros keys Hkeys.
    rewrite (sorted_keys_of rs) by done. apply p_collect_at.
    intros k Hk. unfold sorted_keys in Hk. rewrite merge_sort_Permutation in Hk.
    apply list_elem_of_fmap in Hk as ([k' x] & -> & Hx).
    apply elem_of_map_to_list in Hx. by exists x.
  - intros [sigs addrs]. apply sim_at_pbind.
    + apply sim_at_pwrap, sim_at_onW; [auto with go_oblivious|intros; solve_preserves].
    + intros _. apply sim_at_pwrap. unfold markTaskAsCompleted, p_markTaskAsCompleted.
      apply sim_at_pbind; [|intros _];
        apply sim_at_pwrap, sim_at_onW; solve [auto with go_oblivious|intros; solve_preserves].
Qed.

(** ** The critical sections *)

Lemma store_section_view t sk r w s : store_ok s -> exists s',
  store_locked t sk r w s = (s', Ok tt) /\ store_ok s' /\
  store_section t sk r w (track_of s) = Ok (track_of s').
Proof.
  intros Hs. destruct (make_maps_spec t s Hs) as (Hs1 & _ & Hm & _ & l & E1 & Hold).
  unfold store_locked. set (s1 := make_maps t s) in *.
  assert (st_responses s1 !! t = Some l) as El by by rewrite E1, lookup_insert_eq.
  destruct (put_entry_spec t sk r w s1 l Hs1 El) as (s' & Ep & Hs' & E2 & _ & _ & Hr & Hw).
  exists s'. split; [exact Ep|]. split; [done|].
  transitivity (Ok (mkTrack
    (<[t := <[sk := r]> (rmap (st_responses s !! t) s)]> (tk_responses (track_of s)))
    (<[t := <[sk := w]> (wmap (st_weights s !! t) s)]> (tk_weights (track_of s))))).
  - unfold store_section. destruct (track_of_lookup s t) as [-> Ewt]. rewrite (so_same s Hs) in *.
    destruct (st_responses s !! t) as [l0|] eqn:Et.
    + cbn [fmap option_fmap option_map]. rewrite (proj1 (track_of_lookup s t)), Ewt. by rewrite Et.
    + cbn [fmap option_fmap option_map tk_responses tk_weights].
      by rewrite !lookup_insert_eq, !insert_insert_eq.
  - assert (forall A (f f' : nat -> gmap string A) x,
      (forall l', f' l' = if decide (l' = l) then <[sk := x]> (f l) else f l') ->
      <[t := <[sk := x]> (f l)]> (f <$> st_responses s) = f' <$> st_responses s') as Hmap.
    { intros A f f' x Hf. rewrite E2, E1, fmap_insert, Hf, decide_True by done.
      apply map_eq. intros t'. destruct (decide (t' = t)) as [->|Hne].
      - by rewrite !lookup_insert_eq.
      - rewrite !lookup_insert_ne, !lookup_fmap by done.
        destruct (st_responses s !! t') as [l'|] eqn:Et'; [|done]. simpl. f_equal.
        rewrite Hf, decide_False; [done|]. intros ->. apply Hne.
        apply (so_own s1 Hs1 t' t l); [|done]. by rewrite E1, lookup_insert_ne. }
    assert (rmap (st_responses s !! t) s = rmap (Some l) s /\
            wmap (st_responses s !! t) s = wmap (Some l) s) as [Er Ew].
    { by destruct Hold as [->|(-> & -> & -> & _)]. }
    unfold track_of. rewrite (so_same s Hs), (so_same s' Hs'), Er, Ew. do 2 f_equal.
    + apply Hmap. intros l'. rewrite Hr. by destruct (decide (l' = l)); [rewrite (proj1 (Hm l))|rewrite (proj1 (Hm l'))].
    + apply Hmap. intros l'. rewrite Hw. by destruct (decide (l' = l)); [rewrite (proj2 (Hm l))|rewrite (proj2 (Hm l'))].
Qed.

Lemma p_store_sim t sk r w : sim (p_store t sk r w) (locked (store_section t sk r w)).
Proof. apply sim_onS. intros s Hs. by apply store_section_view. Qed.

Lemma p_cleanupTask_sim t : sim (p_cleanupTask t) (cleanupTask t).
Proof.
  apply sim_onS. intros s Hs. eexists. split; [done|]. rewrite (so_same s Hs). split.
  - apply drop_maps_ok; [done|apply delete_subseteq].
  - unfold track_of. cbn [st_responses st_weights tk_responses tk_weights].
    by rewrite (so_same s Hs), !fmap_delete.
Qed.

Lemma p_cleanupAllTasks_sim : sim p_cleanupAllTasks cleanupAllTasks.
Proof.
  apply sim_onS. intros s Hs. eexists. split; [done|].
  split; [apply drop_maps_ok; [done|apply map_empty_subseteq]|].
  unfold track_of. simpl. by rewrite !fmap_empty.
Qed.

Lemma p_alreadyProcessed_sim t sk : sim (p_alreadyProcessed t sk) (alreadyProcessed t sk).
Proof. apply sim_reads. intros s _. by rewrite lookup2_rmap. Qed.

(** ** The handlers *)

Lemma sim_text {A} msg (r : res A) : sim (Done (text_res msg r)) (textM msg (lift r)).
Proof. done. Qed.

Create HintDb go_sim.
#[local] Hint Resolve sim_text p_store_sim p_cleanupTask_sim p_cleanupAllTasks_sim
  p_alreadyProcessed_sim p_checkConsensus_sim : go_sim.

(** Walks through a program and its computation together. *)
Ltac sim_step :=
  match goal with
  | |- forall _, _ => intros ?
  | |- sim (pbind _ _) (bind _ _) => apply sim_pbind
  | |- sim (ptry _) (try _) => apply sim_ptry
  | |- sim (pwrap _ _) (wrapM _ _) => apply sim_pwrap
  | |- sim (pfor_each _ _) (for_each _ _) => apply sim_pfor_each
  | |- sim _ (match ?x with _ => _ end) => destruct x
  | |- sim (onW (gets _)) _ =>
      apply sim_onW_gets; intros; unfold put_track, put_task_mem; simpl;
      first [apply threshold_set_task | apply epoch_set_task]
  | |- sim (onW _) _ => apply sim_onW; [solve [auto with go_oblivious]|intros; solve_preserves]
  | |- sim _ _ => solve [auto with go_sim | exact (sim_done _)]
  end.
Ltac solve_sim := repeat sim_step.

Lemma p_state_attempts_sim cl target key b n :
  sim (p_state_attempts cl target key b n) (state_attempts cl target key b n).
Proof. induction n as [|n IH]; cbn [p_state_attempts state_attempts]; solve_sim; exact IH. Qed.

Lemma p_answer_task_sim t : sim (p_answer_task t) (answer_task t).
Proof.
  unfold p_answer_task, answer_task, getStateWithRetries. solve_sim. apply p_state_attempts_sim.
Qed.

Lemma p_broadcastResponse_sim r : sim (p_broadcastResponse r) (broadcastResponse r).
Proof.
  unfold p_broadcastResponse, broadcastResponse. apply sim_pbind; [solve_sim|]. intros data.
  intros c Hc. destruct c as [s w]. simpl in Hc.
  assert (tm_responseTopic (task_mem (w_mem (view (mkCW s w)))) = tm_responseTopic (task_mem (w_mem w)))
    as Et by (unfold view, put_track, put_task_mem; simpl; by rewrite task_mem_set).
  unfold bind at 1, gets. rewrite Et. cbn [run pbind onW atom fst snd set_world cw_store cw_world].
  destruct (tm_responseTopic (task_mem (w_mem w))); [|done].
  unfold bind, extern, tick, lift, modify. simpl.
  destruct (topic_Publish (w_step w) data) as [[]|e|m]; simpl; split; try done.
  unfold view, put_track, put_task_mem. simpl.
  by rewrite !task_mem_set, !set_task_mem_set.
Qed.
#[local] Hint Resolve p_answer_task_sim p_broadcastResponse_sim : go_sim.

Lemma p_ProcessTask_sim t : sim (p_ProcessTask t) (ProcessTask t).
Proof. unfold p_ProcessTask, ProcessTask, p_give_answer. solve_sim. Qed.
#[local] Hint Resolve p_ProcessTask_sim : go_sim.

Lemma p_processResponse_sim msg : sim (p_processResponse msg) (processResponse msg).
Proof.
  unfold p_processResponse, processResponse, p_accept_response, accept_response,
    storeResponseAndWeight, p_violation. solve_sim.
Qed.
#[local] Hint Resolve p_processResponse_sim : go_sim.

Lemma p_handleResponse_sim msg : sim (p_handleResponse msg) (handleResponse msg).
Proof. apply sim_precovered. solve_sim. Qed.

Lemma p_checkTimeouts_sim : sim p_checkTimeouts checkTimeouts.
Proof. unfold p_checkTimeouts, checkTimeouts, p_timeout_task, timeout_task. solve_sim. Qed.

Lemma p_checkConfirmations_sim : sim p_checkConfirmations checkConfirmations.
Proof. unfold p_checkConfirmations, checkConfirmations, p_confirm_task, confirm_task. solve_sim. Qed.

(** The whole processor *)
Lemma handlers_alone :
  (forall msg, sim (p_handleResponse msg) (handleResponse msg)) /\
  sim p_checkTimeouts checkTimeouts /\
  sim p_checkConfirmations checkConfirmations /\
  sim p_periodicCleanup periodicCleanup /\
  (forall t, sim (p_ProcessTask t) (ProcessTask t)).
Proof.
  auto using p_handleResponse_sim, p_checkTimeouts_sim, p_checkConfirmations_sim,
    p_cleanupAllTasks_sim, p_ProcessTask_sim.
Qed.
End alone.
