(* ===== verification/SharedInv.v ===== *)
(** * What the processor's goroutines keep, however they interleave

    Any number of handlers, ticks and requests take their steps in any order,
    between each other's critical sections and while a check of consensus
    reads maps that others write.  [shared_inv] holds between any two steps,
    [later] is what every step respects: maps are not shrunk, a map stays
    with its task, and the history grows. *)

From S2P Require Import Prelude GoInt GoString Numeric EpochMath Models World Threads.
From S2P Require Import TasksRepo BlacklistRepo OperatorsRepo ConsensusRepo EthLib Signer Chain.
From S2P Require Import Task TaskInv TaskToy TaskConsensus Shared.

(** ** What is published *)

Section quorum.
Context (auth : string -> string -> taskResponse -> Prop) (in_force : Z -> Prop).

(** A row is a quorum: its signatures are those of responses to its task,
    each authentic for its signer, in the order of the signers; and among the
    signers are some whose weights, recorded for the task, reach a threshold
    that was in force. *)
Record row_quorum (log : list entry) (id : string) (row : ConsensusResponse) : Prop := {
  rq_id : c_TaskID row = id;
  rq_signers : exists signers : list (string * taskResponse),
    c_AggregatedSignatures row = (fun p => tr_signature p.2) <$> signers /\
    Sorted string_le signers.*1 /\ NoDup signers.*1 /\
    (forall sk r, (sk, r) ∈ signers -> auth id sk r) /\
    exists counted : list (string * option Z),
      NoDup counted.*1 /\ (forall sk, sk ∈ counted.*1 -> sk ∈ signers.*1) /\
      (forall sk w, (sk, w) ∈ counted -> exists r, (id, sk, r, w) ∈ log) /\
      exists total threshold, sum_weights 0 counted.*2 = Ok total /\ in_force threshold /\
        threshold <= total;
}.

Definition rows_quorum (log : list entry) (rows : gmap string ConsensusResponse) : Prop :=
  forall id row, rows !! id = Some row -> row_quorum log id row.

Lemma row_quorum_mono log log' id row : (forall e, e ∈ log -> e ∈ log') ->
  row_quorum log id row -> row_quorum log' id row.
Proof.
  intros Hlog [Hid (signers & Hsig & Hs & Hn & Ha & counted & Hc & Hin & Hw & Hq)].
  constructor; [done|]. exists signers. split_and!; try done. exists counted. split_and!; try done.
  intros sk w Hk. destruct (Hw sk w Hk) as [r Hr]. eauto.
Qed.
End quorum.

(** ** The store while it is shared *)

(** Map [l] is task [t]'s, now and for ever. *)
Record belongs (s : Store) (l : nat) (t : string) : Prop := {
  bl_alive : (l < length (st_rmaps s))%nat;
  bl_only : forall t', st_responses s !! t' = Some l -> t' = t;
  bl_responses : forall sk r, rmap (Some l) s !! sk = Some r -> exists w, (t, sk, r, w) ∈ st_log s;
  bl_weights : forall sk w, wmap (Some l) s !! sk = Some w -> exists r, (t, sk, r, w) ∈ st_log s;
}.

(** What every step of the store respects. *)
Record grows (s s' : Store) : Prop := {
  gr_log : forall e, e ∈ st_log s -> e ∈ st_log s';
  gr_rmaps : forall l sk, is_Some (rmap l s !! sk) -> is_Some (rmap l s' !! sk);
  gr_wmaps : forall l sk, is_Some (wmap l s !! sk) -> is_Some (wmap l s' !! sk);
  gr_belongs : forall l t, belongs s l t -> belongs s' l t;
}.

#[export] Instance grows_preorder : PreOrder grows.
Proof.
  split.
  - by constructor.
  - intros s1 s2 s3 [] []. constructor; eauto.
Qed.

(** The part of the invariant that the store carries *)
Record store_inv (auth : string -> string -> taskResponse -> Prop) (s : Store) : Prop := {
  si_ok : store_ok s;
  si_belongs : forall t l, st_responses s !! t = Some l -> belongs s l t;
  si_auth : forall t sk r w, (t, sk, r, w) ∈ st_log s -> auth t sk r;
}.

(** A step of the store keeps the invariant and lets it grow. *)
Definition store_step (auth : string -> string -> taskResponse -> Prop) {A} (m : M Store A) : Prop :=
  forall s, store_inv auth s -> store_inv auth (m s).1 /\ grows s (m s).1.

Section store.
Context (auth : string -> string -> taskResponse -> Prop).

Lemma reads_step {A} (f : Store -> A) : store_step auth (gets f).
Proof. by intros s Hs. Qed.

(** Dropping references *)
Lemma drop_step (f : gmap string nat -> gmap string nat) : (forall m, f m ⊆ m) ->
  store_step auth (modify (fun s => mkStore (f (st_responses s)) (f (st_weights s))
                                      (st_rmaps s) (st_wmaps s) (st_log s))).
Proof.
  intros Hf s [Hok Hb Ha]. simpl. rewrite (so_same s Hok).
  assert (forall l t, belongs s l t -> belongs (mkStore (f (st_responses s)) (f (st_responses s))
    (st_rmaps s) (st_wmaps s) (st_log s)) l t) as Hbel.
  { intros l t [Hl Ho Hr Hw]. constructor; simpl; try done.
    intros t' Ht'. apply Ho. by eapply lookup_weaken. }
  split; [|by constructor]. constructor; simpl; [by apply drop_maps_ok| |done].
  intros t l Ht. apply Hbel, Hb. by eapply lookup_weaken.
Qed.

(** Storing a response *)
Lemma store_locked_step t sk r w : auth t sk r -> store_step auth (store_locked t sk r w).
Proof.
  intros Hauth s [Hok Hb Ha].
  destruct (make_maps_spec t s Hok) as (Hs1 & Elog1 & Hm & Hlen & l & E1 & Hold).
  unfold store_locked. set (s1 := make_maps t s) in *.
  assert (st_responses s1 !! t = Some l) as El by by rewrite E1, lookup_insert_eq.
  destruct (put_entry_spec t sk r w s1 l Hs1 El) as (s' & -> & Hs' & E2 & Elog & Elen & Hr & Hw).
  cbn [fst]. rewrite Elog1 in Elog.
  assert (forall l', rmap (Some l') s' = if decide (l' = l) then <[sk := r]> (rmap (Some l) s)
                                         else rmap (Some l') s) as Hr'.
  { intros l'. rewrite Hr. by destruct (decide (l' = l)) as [->|]; rewrite (proj1 (Hm _)). }
  assert (forall l', wmap (Some l') s' = if decide (l' = l) then <[sk := w]> (wmap (Some l) s)
                                         else wmap (Some l') s) as Hw'.
  { intros l'. rewrite Hw. by destruct (decide (l' = l)) as [->|]; rewrite (proj2 (Hm _)). }
  assert (forall l' t', belongs s l' t' -> (l' = l -> t' = t) -> belongs s' l' t') as Hbel.
  { intros l' t' [Hl Ho Hbr Hbw] Hlt. constructor; rewrite ?Elen, ?Elog.
    - lia.
    - intros t2. rewrite E2, E1. intros [[<- <-]|[Hne Ht2]]%lookup_insert_Some; [|by apply Ho].
      symmetry. by apply Hlt.
    - intros sk' r'. rewrite Hr'. setoid_rewrite elem_of_app. destruct (decide (l' = l)) as [->|].
      + rewrite (Hlt eq_refl). intros [[<- <-]|[_ Hx]]%lookup_insert_Some.
        * exists w. right. by left.
        * destruct (Hbr sk' r' Hx) as [w' Hw2]. rewrite (Hlt eq_refl) in Hw2. eauto.
      + intros Hx. destruct (Hbr sk' r' Hx). eauto.
    - intros sk' w'. rewrite Hw'. setoid_rewrite elem_of_app. destruct (decide (l' = l)) as [->|].
      + rewrite (Hlt eq_refl). intros [[<- <-]|[_ Hx]]%lookup_insert_Some.
        * exists r. right. by left.
        * destruct (Hbw sk' w' Hx) as [r' Hr2]. rewrite (Hlt eq_refl) in Hr2. eauto.
      + intros Hx. destruct (Hbw sk' w' Hx). eauto. }
  assert (forall l' t', belongs s l' t' -> belongs s' l' t') as Hgrow.
  { intros l' t' Hl'. apply Hbel; [done|]. intros ->. destruct Hold as [Et|(_ & _ & _ & Hge)].
    - symmetry. by apply (bl_only _ _ _ Hl').
    - pose proof (bl_alive _ _ _ Hl'). lia. }
  split; constructor; rewrite ?Elog; try done.
  - intros t' l'. rewrite E2, E1. intros [[<- <-]|[Hne Ht']]%lookup_insert_Some; [|by apply Hgrow, Hb].
    destruct Hold as [Et|(Et & Er & Ew & Hge)]; [by apply Hgrow, Hb|].
    constructor; rewrite ?Elen, ?Elog.
    + apply (so_alive s1 Hs1 t). done.
    + intros t2 Ht2. symmetry. rewrite E2 in Ht2. by apply (so_own s1 Hs1 t t2 l).
    + intros sk' r'. rewrite Hr', decide_True, Er by done. setoid_rewrite elem_of_app.
      intros [[<- <-]|[_ []%lookup_empty_Some]]%lookup_insert_Some. exists w. right. by left.
    + intros sk' w'. rewrite Hw', decide_True, Ew by done. setoid_rewrite elem_of_app.
      intros [[<- <-]|[_ []%lookup_empty_Some]]%lookup_insert_Some. exists r. right. by left.
  - intros t' sk' r' w'. rewrite elem_of_app, list_elem_of_singleton. intros [?|[= -> -> -> ->]]; eauto.
  - intros e He. apply elem_of_app. by left.
  - intros [l'|] sk' Hx; [|done]. rewrite Hr'. destruct (decide (l' = l)) as [->|]; [|done].
    apply lookup_insert_is_Some. destruct (decide (sk = sk')); auto.
  - intros [l'|] sk' Hx; [|done]. rewrite Hw'. destruct (decide (l' = l)) as [->|]; [|done].
    apply lookup_insert_is_Some. destruct (decide (sk = sk')); auto.
Qed.
End store.

(** ** Goroutines that keep the invariant *)

Section goroutines.
Context `{EnvOk} `{EthLib} `{P2PLib} `{PubSub} `{OperatorSigner} `{CM : ChainManager} `{MapRange}.
Context {C : Type} `{HasTaskOk C}.
Context (auth : string -> string -> taskResponse -> Prop) (in_force : Z -> Prop).
Implicit Types c : CW C.

(** What is known of the rest of the node: the published rows are quorums,
    tasks have integer keys, the threshold is one that is in force. *)
Definition world_inv (log : list entry) (w : World C) : Prop :=
  db_pred (on_consensus (rows_quorum auth in_force log)) w /\ db_pred (on_tasks keys_ok) w /\
  mem_pred (fun m => forall th, GetThresholdWeight m = Some th -> in_force th) w.

Definition shared_inv c : Prop :=
  store_inv auth (cw_store c) /\ world_inv (st_log (cw_store c)) (cw_world c).

Definition later c c' : Prop := grows (cw_store c) (cw_store c').

#[export] Instance later_preorder : PreOrder later.
Proof. split; [by intros c|]. intros c1 c2 c3 H12 H23. unfold later in *. by etransitivity. Qed.

(** From [c] on, whatever the others do, [p] keeps the invariant, and what it
    returns satisfies [Q]. *)
Definition safe {A} (Q : res A -> CW C -> Prop) (p : prog (CW C) A) c : Prop :=
  forall n, 0 <= n -> psafe shared_inv later (fun _ => 0) (fun _ => Q) n p c.

Lemma safe_mono {A} (Q Q' : res A -> CW C -> Prop) p c :
  safe Q p c -> (forall r c', Q r c' -> Q' r c') -> safe Q' p c.
Proof. intros Hp HQ n Hn. eapply psafe_mono, Hp; [|done]. eauto. Qed.

Lemma safe_later {A} (Q : res A -> CW C -> Prop) p c c' : safe Q p c -> later c c' -> safe Q p c'.
Proof. intros Hp Hl n Hn. eapply psafe_stable; [|by apply Hp|done]. exact _. Qed.

Lemma safe_done {A} (Q : res A -> CW C -> Prop) r c :
  (forall c', later c c' -> Q r c') -> safe Q (Done r) c.
Proof. intros HQ n Hn. by split. Qed.

Lemma shared_atom {A} (m : M (CW C) A) (Q : res A -> CW C -> Prop) c :
  (forall c', later c c' -> shared_inv c' ->
     shared_inv (m c').1 /\ later c' (m c').1 /\
     forall c2, later (m c').1 c2 -> Q (m c').2 c2) ->
  safe Q (atom m) c.
Proof.
  intros Hm n Hn. apply psafe_atom; [done|]. intros c' Hl Hi. destruct (Hm c' Hl Hi) as (? & ? & HQ).
  exists n. split; [done|]. split; [|exact HQ]. split_and!; [done|done|lia].
Qed.

Lemma safe_pbind {A B} (k : A -> prog (CW C) B) (Q : res B -> CW C -> Prop) p c :
  safe (fun r c' => match r with
                    | Ok a => safe Q (k a) c'
                    | Err e => forall c2, later c' c2 -> Q (Err e) c2
                    | Panic s => forall c2, later c' c2 -> Q (Panic s) c2
                    end) p c ->
  safe Q (pbind p k) c.
Proof.
  intros Hp n Hn. rule psafe_pbind. eapply psafe_mono, (Hp n Hn).
  intros n' [a|e|s] c' Hn' Hr; [by apply Hr|done|done].
Qed.

Lemma safe_ptry {A} (Q : res (A + error) -> CW C -> Prop) p c :
  safe (fun r c' => match r with
                    | Ok a => Q (Ok (inl a)) c'
                    | Err e => Q (Ok (inr e)) c'
                    | Panic s => Q (Panic s) c'
                    end) p c -> safe Q (ptry p) c.
Proof. intros Hp n Hn. apply psafe_ptry. eapply psafe_mono, (Hp n Hn). by intros n' [a|e|s] c'. Qed.

Lemma safe_pwrap {A} s (Q : res A -> CW C -> Prop) p c :
  safe (fun r c' => Q (wrap s r) c') p c -> safe Q (pwrap s p) c.
Proof. intros Hp n Hn. apply psafe_pwrap. by apply Hp. Qed.

Lemma safe_precovered (Q : res unit -> CW C -> Prop) p c :
  safe (fun r c' => match r with Panic _ => Q (Ok tt) c' | _ => Q r c' end) p c ->
  safe Q (precovered p) c.
Proof. intros Hp n Hn. apply psafe_precovered. by apply Hp. Qed.

(** *** What a program gives, when that does not depend on the state *)

Definition gives {A} (p : prog (CW C) A) (Q : A -> Prop) : Prop :=
  forall c, safe (fun r _ => forall a, r = Ok a -> Q a) p c.

Lemma gives_mono {A} (p : prog (CW C) A) (Q Q' : A -> Prop) :
  gives p Q -> (forall a, Q a -> Q' a) -> gives p Q'.
Proof. intros Hp HQ c. eapply safe_mono; [apply Hp|]. eauto. Qed.

Lemma gives_done {A} (r : res A) (Q : A -> Prop) : (forall a, r = Ok a -> Q a) -> gives (Done r) Q.
Proof. intros HQ c. by apply safe_done. Qed.

Lemma gives_pbind {A B} (p : prog (CW C) A) (k : A -> prog (CW C) B) P Q :
  gives p P -> (forall a, P a -> gives (k a) Q) -> gives (pbind p k) Q.
Proof.
  intros Hp Hk c. apply safe_pbind. eapply safe_mono; [apply Hp|].
  intros [a|e|s] c' Ha; [by apply Hk, Ha|done|done].
Qed.

Lemma gives_ptry {A} (p : prog (CW C) A) (Q : A -> Prop) : gives p Q ->
  gives (ptry p) (fun r => match r with inl a => Q a | inr _ => True end).
Proof.
  intros Hp c. apply safe_ptry. eapply safe_mono; [apply Hp|].
  intros [a|e|s] c' Ha x [= <-]; [by apply Ha|done].
Qed.

Lemma gives_pwrap {A} s (p : prog (CW C) A) Q : gives p Q -> gives (pwrap s p) Q.
Proof.
  intros Hp c. apply safe_pwrap. eapply safe_mono; [apply Hp|].
  intros r c' Ha a E. apply Ha. by apply wrap_Ok in E.
Qed.

Lemma gives_precovered (p : prog (CW C) unit) : gives p (fun _ => True) ->
  gives (precovered p) (fun _ => True).
Proof. intros Hp c. apply safe_precovered. eapply safe_mono; [apply Hp|]. by intros []. Qed.

(** Where a program gets to is later than where it starts. *)
Lemma safe_rely {A} (Q : res A -> CW C -> Prop) p c :
  safe (fun r c' => later c c' -> Q r c') p c -> safe Q p c.
Proof. intros Hp n Hn. rule psafe_rely. by apply Hp. Qed.

Lemma safe_gives {A} (p : prog (CW C) A) P (Q : res A -> CW C -> Prop) c : gives p P ->
  (forall r c', later c c' -> (forall a, r = Ok a -> P a) -> Q r c') -> safe Q p c.
Proof.
  intros Hp HQ. apply safe_rely. eapply safe_mono; [apply Hp|]. intros r c' Hr Hl. by apply HQ.
Qed.

(** What only has to keep the invariant *)
Definition keeps {A} (p : prog (CW C) A) : Prop := gives p (fun _ => True).

Lemma gives_keeps {A} (p : prog (CW C) A) Q : gives p Q -> keeps p.
Proof. intros Hp. by eapply gives_mono. Qed.

Lemma keeps_safe {A} (p : prog (CW C) A) c : keeps p -> safe (fun _ _ => True) p c.
Proof. intros Hp. eapply safe_mono; [apply Hp|done]. Qed.

Lemma keeps_done {A} (r : res A) : keeps (Done r).
Proof. by apply gives_done. Qed.

Lemma keeps_pbind {A B} (p : prog (CW C) A) (k : A -> prog (CW C) B) :
  keeps p -> (forall a, keeps (k a)) -> keeps (pbind p k).
Proof. intros Hp Hk. eapply gives_pbind; [exact Hp|]. intros a _. apply Hk. Qed.

Lemma keeps_ptry {A} (p : prog (CW C) A) : keeps p -> keeps (ptry p).
Proof. intros Hp. eapply gives_mono; [by apply gives_ptry|]. done. Qed.

Lemma keeps_pfor_each {A} (l : list A) (body : A -> prog (CW C) unit) :
  (forall x, x ∈ l -> keeps (body x)) -> keeps (pfor_each l body).
Proof.
  induction l as [|x l IH]; intros Hb; cbn [pfor_each]; [apply keeps_done|].
  apply keeps_pbind; [apply keeps_ptry, Hb; by left|]. intros _. apply IH.
  intros y Hy. apply Hb. by right.
Qed.

(** ** One step *)

Lemma safe_onW {A} (m : M (World C) A) (Q : res A -> CW C -> Prop) c :
  (forall s w, later c (mkCW s w) -> store_inv auth s -> world_inv (st_log s) w ->
     world_inv (st_log s) (m w).1 /\ forall c2, later (mkCW s w) c2 -> Q (m w).2 c2) ->
  safe Q (onW m) c.
Proof.
  intros Hm. apply shared_atom. intros [s w] Hl [Hs Hw]. simpl in *.
  destruct (Hm s w Hl Hs Hw) as [Hw' HQ]. destruct (m w) as [w' r]. simpl in *.
  split_and!; [by split|done|]. intros c2 Hc2. by apply HQ.
Qed.

Lemma gives_onW {A} (m : M (World C) A) Q :
  (forall log, ensures (world_inv log) m Q) -> gives (onW m) Q.
Proof.
  intros Hm c. apply safe_onW. intros s w _ _ Hw. destruct (Hm (st_log s) w Hw) as [Hw' HQ].
  split; [done|]. intros c2 _. exact HQ.
Qed.

(** A call that leaves the memory, the task keys and the published rows *)
Lemma keeps_call {A} (m : M (World C) A) :
  (forall P, preserves (mem_pred P) m) ->
  preserves (db_pred (on_tasks keys_ok)) m ->
  (forall R, preserves (db_pred (on_consensus R)) m) -> keeps (onW m).
Proof.
  intros Hm Ht Hc. apply gives_onW. intros log. apply preserves_ensures.
  apply preserves_and; [apply Hc|apply preserves_and; [done|apply Hm]].
Qed.

Lemma safe_onS {A} (m : M Store A) (Q : res A -> CW C -> Prop) c : store_step auth m ->
  (forall s, grows (cw_store c) s -> store_inv auth s ->
     forall c2, grows (m s).1 (cw_store c2) -> Q (m s).2 c2) -> safe Q (onS m) c.
Proof.
  intros Hm HQ. apply shared_atom. intros [s w] Hl [Hs (Hc & Ht & Hth)]. simpl in *.
  destruct (Hm s Hs) as [Hs' Hg]. specialize (HQ s Hl Hs). destruct (m s) as [s' r]. simpl in *.
  split_and!; [|done|exact HQ]. split; [done|]. split; [|done].
  intros id row Hrow. eapply row_quorum_mono; [|by apply Hc]. apply Hg.
Qed.

Lemma gives_onS {A} (m : M Store A) : store_step auth m -> keeps (onS m).
Proof. intros Hm c. by apply safe_onS. Qed.

Lemma safe_reads {A B} (f : Store -> A) (k : A -> prog (CW C) B) (Q : res B -> CW C -> Prop) c :
  (forall s c', grows (cw_store c) s -> store_inv auth s -> grows s (cw_store c') ->
     safe Q (k (f s)) c') -> safe Q (pbind (reads f) k) c.
Proof.
  intros Hk. apply safe_pbind. apply safe_onS; [apply reads_step|].
  intros s Hg Hs c2 Hc2. by apply (Hk s c2).
Qed.

(** ** A range over a map that grows

    [K] is what is known of an entry that is read; what was there before the
    range starts is visited. *)
Section range.
Context {A : Type} (get : Store -> gmap string A).
Context (G : Store -> Prop) (K : Store -> string -> A -> Prop).
Hypothesis G_later : forall s s', grows s s' -> G s -> G s'.
Hypothesis K_read : forall s k x, G s -> store_inv auth s -> get s !! k = Some x -> K s k x.
Hypothesis K_later : forall s s' k x, grows s s' -> K s k x -> K s' k x.
Hypothesis get_grows : forall s s' k, grows s s' -> is_Some (get s !! k) -> is_Some (get s' !! k).

(** What has been visited: no key twice, the entries as they were read, and
    every key of the start that is not still to come. *)
Record visited (s : Store) (start : gset string) (todo : list string) (seen : list (string * A)) :
    Prop := {
  vs_known : G s;
  vs_once : NoDup (seen.*1 ++ todo);
  vs_read : forall k x, (k, x) ∈ seen -> K s k x;
  vs_todo : forall k, k ∈ todo -> k ∈ start;
  vs_all : forall k, k ∈ start -> k ∈ todo \/ k ∈ seen.*1;
  vs_start : forall k, k ∈ start -> is_Some (get s !! k);
}.

Lemma visited_later s s' start todo seen :
  grows s s' -> visited s start todo seen -> visited s' start todo seen.
Proof. intros Hg []. constructor; eauto. Qed.

Lemma visited_add s start todo seen k x : visited s start todo seen ->
  k ∉ seen.*1 -> k ∉ todo -> K s k x -> visited s start todo (seen ++ [(k, x)]).
Proof.
  intros [HG Ho Hr Ht Ha Hst] Hk Hk' Hx. constructor; try done.
  - rewrite fmap_app, <- app_assoc. simpl. rewrite <- Permutation_middle.
    apply NoDup_cons. rewrite not_elem_of_app. done.
  - intros k' x'. rewrite elem_of_app, list_elem_of_singleton. intros [?|[= -> ->]]; eauto.
  - intros k' Hk1. rewrite fmap_app, elem_of_app. destruct (Ha k' Hk1); auto.
Qed.

Lemma range_added_safe n i start todo seen (Q : res (list (string * A)) -> CW C -> Prop) c :
  visited (cw_store c) start todo seen ->
  (forall seen' c', later c c' -> visited (cw_store c') start todo seen' -> Q (Ok seen') c') ->
  safe Q (range_added get n i start seen) c.
Proof.
  revert seen c. induction n as [|n IH]; intros seen c Hv HQ; cbn [range_added].
  { apply safe_done. intros c' Hl. apply HQ; [done|]. by eapply visited_later. }
  apply safe_reads. intros s c' Hg Hs Hg'.
  assert (later c c') as Hl by (unfold later; by etransitivity).
  assert (visited s start todo seen) as Hv1 by by eapply visited_later.
  destruct (_ !! range_pick i n) as [k|] eqn:Ek.
  - apply IH; [|intros; apply HQ; [by etransitivity|done]]. eapply visited_later; [exact Hg'|].
    apply list_elem_of_lookup_2, elem_of_elements in Ek.
    apply elem_of_difference in Ek as [[Ek Hst]%elem_of_difference Hseen].
    apply elem_of_dom in Ek as [x Hx]. unfold entries. simpl. rewrite Hx. simpl.
    apply visited_add; [done|by rewrite elem_of_list_to_set in Hseen| |by apply K_read; [apply Hv1|..]].
    intros Htodo. by apply Hst, (vs_todo _ _ _ _ Hv).
  - apply IH; [by eapply visited_later|]. intros. apply HQ; [by etransitivity|done].
Qed.

Lemma range_rest_safe i start todo seen (Q : res (list (string * A)) -> CW C -> Prop) c :
  visited (cw_store c) start todo seen ->
  (forall seen' c', later c c' -> visited (cw_store c') start [] seen' -> Q (Ok seen') c') ->
  safe Q (range_rest get i start todo seen) c.
Proof.
  revert seen c. induction todo as [|k todo IH]; intros seen c Hv HQ; cbn [range_rest].
  { by eapply range_added_safe. }
  apply safe_pbind. eapply range_added_safe; [exact Hv|]. intros seen1 c1 Hl1 Hv1.
  apply safe_reads. intros s c2 Hg Hs Hg'.
  assert (later c1 c2) as Hl2 by (unfold later; by etransitivity).
  apply IH; [|intros; apply HQ; [|done]; by do 2 (etransitivity; [eassumption|])].
  eapply visited_later; [exact Hg'|]. apply (visited_later _ s) in Hv1; [|done].
  destruct Hv1 as [HG Ho Hr Ht Ha Hst]. destruct (Hst k) as [x Hx]; [apply Ht; by left|].
  unfold entries. simpl. rewrite Hx. simpl.
  rewrite <- Permutation_middle in Ho. apply NoDup_cons in Ho as [Hk Ho].
  apply not_elem_of_app in Hk as [Hk1 Hk2].
  constructor; try done.
  - rewrite fmap_app, <- app_assoc. simpl. rewrite <- Permutation_middle.
    apply NoDup_cons. rewrite not_elem_of_app. done.
  - intros k' x'. rewrite elem_of_app, list_elem_of_singleton. intros [?|[= -> ->]]; eauto.
  - intros k' Hk'. apply Ht. by right.
  - intros k' Hk'. rewrite fmap_app, elem_of_app. destruct (Ha k' Hk') as [[->|?]%elem_of_cons|?]; auto.
    right. right. by left.
Qed.

Lemma prange_safe (Q : res (list (string * A)) -> CW C -> Prop) c :
  G (cw_store c) ->
  (forall l c', later c c' -> NoDup l.*1 -> (forall k x, (k, x) ∈ l -> K (cw_store c') k x) ->
     (forall k, is_Some (get (cw_store c) !! k) -> k ∈ l.*1) -> Q (Ok l) c') ->
  safe Q (prange get) c.
Proof.
  intros HG HQ. unfold prange. apply safe_pbind, shared_atom. intros c1 Hl1 [Hs1 Hw1].
  split; [done|]. split; [by unfold gets|]. cbn [gets fst snd]. intros c2 Hl2.
  apply range_rest_safe.
  - eapply visited_later; [exact Hl2|]. constructor.
    + by apply (G_later _ _ Hl1).
    + simpl. unfold range_order. rewrite merge_sort_Permutation. apply NoDup_elements.
    + by intros k x ?%not_elem_of_nil.
    + intros k. unfold range_order. by rewrite merge_sort_Permutation, elem_of_elements.
    + intros k Hk. left. unfold range_order. by rewrite merge_sort_Permutation, elem_of_elements.
    + intros k Hk. by apply elem_of_dom in Hk.
  - intros seen c3 Hl3 [_ Ho Hr _ Ha _]. apply HQ; [by do 2 (etransitivity; [eassumption|])| |done|].
    + by rewrite app_nil_r in Ho.
    + intros k Hk. destruct (Ha k) as [[]%not_elem_of_nil|?]; [|done].
      apply elem_of_dom. by eapply get_grows.
Qed.
End range.

(** ** A check of consensus *)

(** What the others have added does not matter: every signature collected is
    authentic for its signer and the task. *)
Lemma p_collect_safe t l keys c :
  belongs (cw_store c) l t -> (forall k, k ∈ keys -> is_Some (rmap (Some l) (cw_store c) !! k)) ->
  safe (fun r _ => forall sigs addrs, r = Ok (sigs, addrs) ->
          exists signers : list (string * taskResponse),
            sigs = (fun p => tr_signature p.2) <$> signers /\ signers.*1 = keys /\
            forall sk r, (sk, r) ∈ signers -> auth t sk r)
    (p_collect (Some l) keys) c.
Proof.
  revert c. induction keys as [|k keys IH]; intros c Hb Hk; cbn [p_collect].
  { apply safe_done. intros c' _ sigs addrs [= <- <-]. exists []. split_and!; try done.
    by intros sk r ?%not_elem_of_nil. }
  apply safe_reads. intros s c1 Hg Hs Hg1.
  destruct (gr_rmaps _ _ Hg (Some l) k) as [r Er]; [apply Hk; by left|]. rewrite Er.
  cbn [default from_option id].
  assert (auth t k r) as Hr.
  { apply (gr_belongs _ _ Hg) in Hb. destruct (bl_responses _ _ _ Hb k r Er) as [w Hw].
    by eapply (si_auth auth s Hs). }
  apply safe_pbind. eapply safe_gives.
  { apply gives_pwrap, keeps_call; intros; solve_preserves. }
  intros [[op|]|e|m] c2 Hl _; [|by apply safe_done|done|done].
  assert (grows (cw_store c) (cw_store c2)) as Hg2.
  { transitivity s; [done|]. transitivity (cw_store c1); done. }
  apply safe_pbind. eapply safe_mono.
  { apply IH; [by apply (gr_belongs _ _ Hg2)|]. intros k' Hk'. apply (gr_rmaps _ _ Hg2 (Some l)), Hk.
    by right. }
  intros [[sigs addrs]|e|m] c3 Hrest; [|done|done].
  apply safe_done. intros c4 _ sigs' addrs' [= <- <-].
  destruct (Hrest sigs addrs eq_refl) as (signers & -> & <- & Hauth).
  exists ((k, r) :: signers). split_and!; [done|done|].
  intros sk r' [[= -> ->]|?]%elem_of_cons; eauto.
Qed.

(** Storing a row that is a quorum *)
Lemma create_quorum log arg :
  (forall row, c_TaskID row = cp_TaskID arg ->
     c_AggregatedSignatures row = cp_AggregatedSignatures arg ->
     row_quorum auth in_force log (cp_TaskID arg) row) ->
  preserves (world_inv log) (CreateConsensusResponse arg).
Proof.
  intros Hrow. apply preserves_and; [|apply preserves_and; [solve_preserves|apply CreateConsensusResponse_mem]].
  unfold CreateConsensusResponse. apply preserves_bind; [|intros; apply preserves_ret].
  apply pg_call_db. intros now d d' row Hd E. apply sql_create_spec in E as (_ & Ed & Hid & _ & _ & _ & _ & Hsig & _).
  unfold on_consensus. rewrite Ed. intros id row' [[<- <-]|[_ Hx]]%lookup_insert_Some; [|by apply Hd].
  by apply Hrow.
Qed.

Lemma sorted_string l : Sorted string_le (merge_sort string_le l).
Proof. apply Sorted_merge_sort, _. Qed.

Lemma p_markTaskAsCompleted_keeps id : keeps (p_markTaskAsCompleted id).
Proof.
  unfold p_markTaskAsCompleted. apply keeps_pbind; [|intros _]; apply gives_pwrap, keeps_call;
    intros; try solve_preserves.
  apply UpdateTaskToCompleted_tasks. intros. by apply keys_ok_completed.
Qed.

(** What has been counted: each weight was recorded for its key, and each key
    has a response. *)
Definition counted_in (t : string) (l : nat) (s : Store) (ws : list (string * option Z)) : Prop :=
  NoDup ws.*1 /\ forall sk w, (sk, w) ∈ ws ->
    (exists r, (t, sk, r, w) ∈ st_log s) /\ is_Some (rmap (Some l) s !! sk).

Lemma counted_later t l s s' ws : grows s s' -> counted_in t l s ws -> counted_in t l s' ws.
Proof.
  intros Hg [Hn Hw]. split; [done|]. intros sk w Hk. destruct (Hw sk w Hk) as [[r Hr] Hs]. split.
  - exists r. by apply Hg.
  - by apply (gr_rmaps _ _ Hg (Some l)).
Qed.

Lemma p_publish_safe r l ws total threshold c :
  belongs (cw_store c) l (tr_taskID r) -> counted_in (tr_taskID r) l (cw_store c) ws ->
  sum_weights 0 ws.*2 = Ok total -> in_force threshold -> threshold <= total ->
  safe (fun _ _ => True) (p_publish r (Some l)) c.
Proof.
  intros Hb Hc Hsum Hth Hle. unfold p_publish.
  apply safe_pbind, safe_pwrap, safe_pbind.
  apply (prange_safe (rmap (Some l)) (fun s => belongs s l (tr_taskID r))
    (fun s k _ => is_Some (rmap (Some l) s !! k)));
    [intros s s' Hg; apply (gr_belongs _ _ Hg)|by eauto
    |intros s s' k _ Hg; apply (gr_rmaps _ _ Hg (Some l))
    |intros s s' k Hg; apply (gr_rmaps _ _ Hg (Some l))|done|].
  intros keys c1 Hl1 Hn Hkeys Hall.
  apply safe_rely. eapply safe_mono; [apply p_collect_safe with (t := tr_taskID r)|].
  { by apply (gr_belongs _ _ Hl1). }
  { intros k. rewrite merge_sort_Permutation. intros ([k' x] & -> & Hx)%list_elem_of_fmap. by eapply Hkeys. }
  intros [[sigs addrs]|e|m] c2 Hcol Hl2; cbn [wrap]; [|done|done].
  destruct (Hcol sigs addrs eq_refl) as (signers & -> & Hsk & Hauth). clear Hcol.
  apply safe_pbind, safe_pwrap, safe_onW. intros s w Hl3 Hs Hw. split.
  - apply create_quorum; [|done]. cbn [consensus_params cp_TaskID cp_AggregatedSignatures].
    intros row Hid Hsig. constructor; [done|]. exists signers. rewrite Hsk.
    split_and!; [done|apply sorted_string|by rewrite merge_sort_Permutation|done|].
    assert (grows (cw_store c) s) as Hg.
    { unfold later in *. simpl in *. do 2 (etransitivity; [eassumption|]). done. }
    destruct (counted_later _ _ _ _ _ Hg Hc) as [Hnw Hcw]. exists ws. split_and!; [done| | |by exists total, threshold].
    + intros sk ([k x] & -> & Hx)%list_elem_of_fmap. rewrite merge_sort_Permutation. simpl.
      apply Hall. by destruct (proj2 Hc k x Hx).
    + intros sk x Hx. by destruct (Hcw sk x Hx).
  - intros c3 Hl4. destruct (CreateConsensusResponse _ w).2 as [?|e|m]; cbn [wrap]; [|done|done].
    apply keeps_safe, gives_pwrap, p_markTaskAsCompleted_keeps.
Qed.

Lemma p_checkConsensus_keeps r : keeps (p_checkConsensus r).
Proof.
  intros c. apply safe_mono with (Q := fun _ _ => True); [|done].
  unfold p_checkConsensus. apply safe_reads. intros s1 c1 Hg1 Hs1 Hg1'.
  rewrite (so_same s1 (si_ok auth s1 Hs1)).
  apply safe_reads. intros s2 c2 Hg2 Hs2 Hg2'.
  destruct (decide _) as [Hz|Hnz]; [by apply safe_done|].
  destruct (st_responses s1 !! tr_taskID r) as [l|] eqn:El; [|by destruct Hnz].
  assert (belongs (cw_store c2) l (tr_taskID r)) as Hb.
  { apply (gr_belongs _ _ Hg2'), (gr_belongs _ _ Hg2), (gr_belongs _ _ Hg1').
    by apply (si_belongs auth s1 Hs1). }
  apply safe_pbind.
  apply (prange_safe (wmap (Some l)) (fun s => belongs s l (tr_taskID r))
    (fun s k w => (exists r', (tr_taskID r, k, r', w) ∈ st_log s) /\ is_Some (rmap (Some l) s !! k)));
    [intros s s' Hg; apply (gr_belongs _ _ Hg)| | |intros s s' k Hg; apply (gr_wmaps _ _ Hg (Some l))|done|].
  { intros s k x Hbs Hs Hx. split; [by apply (bl_weights _ _ _ Hbs)|].
    apply (so_keys s (si_ok auth s Hs)). by exists x. }
  { intros s s' k x Hg [[r' Hr'] Hk]. split; [exists r'; by apply Hg|by apply (gr_rmaps _ _ Hg (Some l))]. }
  intros ws c3 Hl3 Hn Hws _.
  apply safe_pbind, safe_done. intros c4 Hl4. destruct (sum_weights 0 ws.*2) as [total|e|m] eqn:Esum; [|done|done].
  apply safe_pbind, safe_onW. intros s w Hl5 Hs Hw. split; [done|]. intros c5 Hl6. cbn [gets snd].
  destruct (GetThresholdWeight (w_mem w)) as [threshold|] eqn:Eth; cbn [big_Cmp];
    [|apply safe_pbind; by apply safe_done].
  apply safe_pbind, safe_done. intros c6 Hl7.
  destruct (Z.compare_spec total threshold); [|by apply safe_done|];
    (apply (p_publish_safe r l ws total threshold); [| |done|by apply Hw|lia]);
    assert (later c3 c6) as Hl by (do 3 (etransitivity; [eassumption|]); done).
  - by apply (gr_belongs _ _ Hl), (gr_belongs _ _ Hl3).
  - apply (counted_later _ _ _ _ _ Hl). by split.
  - by apply (gr_belongs _ _ Hl), (gr_belongs _ _ Hl3).
  - apply (counted_later _ _ _ _ _ Hl). by split.
Qed.

(** ** The handlers *)

Variable good : Tasks -> Prop.
Hypothesis auth_verified : forall r sk, verifyResponse r sk = Ok tt -> auth (tr_taskID r) sk r.
Hypothesis auth_own : forall t key value sig, good t ->
  NumericToBigInt (t_Key t) = Ok key ->
  SignTaskResponse (sign_params (t_TargetAddress t) (t_ChainID t) (t_BlockNumber t) key value)
    = Ok sig ->
  auth (t_TaskID t) mySigningKey (own_response t sig value).
Hypothesis good_response : forall r, good (task_of_response r).
Hypothesis good_key : forall t, key_ok t -> good t.

Lemma keeps_gets {A} (f : World C -> A) : keeps (onW (gets f)).
Proof. by apply gives_onW. Qed.

Lemma keeps_extern {A} (f : nat -> res A) : keeps (onW (extern f)).
Proof. by apply gives_onW. Qed.

Lemma keeps_reads {A} (f : Store -> A) : keeps (reads f).
Proof. apply gives_onS, reads_step. Qed.

Lemma p_store_keeps t sk r w : auth t sk r -> keeps (p_store t sk r w).
Proof. intros Ha. by apply gives_onS, store_locked_step. Qed.

Lemma p_cleanupTask_keeps t : keeps (p_cleanupTask t).
Proof. apply gives_onS, (drop_step auth (delete t)). intros m. apply delete_subseteq. Qed.

Lemma p_cleanupAllTasks_keeps : keeps p_cleanupAllTasks.
Proof. apply gives_onS, (drop_step auth (fun _ => ∅)). apply map_empty_subseteq. Qed.

Create HintDb go_keeps.
#[local] Hint Resolve keeps_done keeps_gets keeps_extern keeps_reads p_store_keeps
  p_cleanupTask_keeps p_cleanupAllTasks_keeps p_checkConsensus_keeps : go_keeps.

(** Walks through a program all of whose parts keep the invariant. *)
Ltac keeps_step :=
  match goal with
  | |- forall _, _ => intros ?
  | |- keeps (pbind _ _) => apply keeps_pbind
  | |- keeps (ptry _) => apply keeps_ptry
  | |- keeps (pwrap _ _) => apply gives_pwrap
  | |- gives ?p (fun _ => True) => change (keeps p)
  | |- keeps (match ?x with _ => _ end) => destruct x
  | |- keeps _ => solve [auto with go_keeps]
  | |- keeps (onW _) => apply keeps_call; intros; solve [solve_preserves]
  end.
Ltac solve_keeps := repeat keeps_step.

Lemma p_state_attempts_keeps cl tg k b n : keeps (p_state_attempts cl tg k b n).
Proof. induction n as [|n IH]; cbn [p_state_attempts]; solve_keeps; exact IH. Qed.

(** The node's own answer is authentic. *)
Lemma p_answer_task_gives t : good t ->
  gives (p_answer_task t) (fun r => tr_taskID r = t_TaskID t /\ auth (t_TaskID t) mySigningKey r).
Proof.
  intros Hg. unfold p_answer_task. destruct (t_BlockNumber t =? 0); [by apply gives_done|].
  eapply (gives_pbind _ _ (fun _ => True)); [by apply gives_done|]. intros cl _.
  eapply (gives_pbind _ _ (fun key => NumericToBigInt (t_Key t) = Ok key)).
  { apply gives_done. intros key E. by destruct (NumericToBigInt (t_Key t)). }
  intros key Hkey. eapply gives_pbind; [apply gives_pwrap, p_state_attempts_keeps|].
  intros value _. eapply (gives_pbind _ _ (fun _ => True)); [by apply gives_done|]. intros want _.
  eapply (gives_pbind _ _ (fun _ => True)); [by apply gives_done|]. intros [] _; try by apply gives_done.
  eapply gives_pbind; [apply gives_pwrap, gives_done; intros sig Hsig; exact Hsig|].
  intros sig Hsig. apply gives_done. intros r [= <-]. split; [done|]. by eapply auth_own.
Qed.

Lemma p_broadcastResponse_keeps r : keeps (p_broadcastResponse r).
Proof.
  unfold p_broadcastResponse. solve_keeps. apply gives_onW. intros log. apply preserves_ensures.
  apply preserves_bind; [apply preserves_and; [|apply preserves_and]; try apply extern_db; apply extern_mem|].
  intros _. apply preserves_modify. intros w (Hc & Ht & Hth). split_and!; [done|done|].
  unfold mem_pred, put_task_mem in *. simpl. intros th. rewrite threshold_set_task. apply Hth.
Qed.
#[local] Hint Resolve p_broadcastResponse_keeps : go_keeps.

Lemma p_ProcessTask_keeps t : good t -> keeps (p_ProcessTask (Some t)).
Proof.
  intros Hg. unfold p_ProcessTask. apply keeps_pbind; [apply keeps_reads|].
  intros []; [apply keeps_done|]. eapply gives_pbind; [by apply p_answer_task_gives|].
  intros r [Hid Ha]. unfold p_give_answer. solve_keeps.
Qed.

Lemma p_accept_response_keeps r sk op :
  verifyResponse r sk = Ok tt -> keeps (p_accept_response r sk op).
Proof.
  intros Hv. unfold p_accept_response.
  apply keeps_pbind; [solve_keeps|]. intros weight.
  apply keeps_pbind; [by apply p_store_keeps, auth_verified|]. intros _.
  apply keeps_pbind; [solve_keeps|]. intros _.
  apply keeps_pbind; [apply keeps_reads|]. intros []; [apply keeps_done|].
  by apply gives_pwrap, p_ProcessTask_keeps.
Qed.

Lemma p_violation_keeps p e : keeps (p_violation p e).
Proof. apply keeps_call; intros; auto with go_inv. Qed.
#[local] Hint Resolve p_violation_keeps : go_keeps.

Lemma p_handleResponse_keeps msg : keeps (p_handleResponse msg).
Proof.
  apply gives_precovered. change (keeps (do& ptry (p_processResponse msg) in Done (Ok tt))).
  apply keeps_pbind; [|intros; apply keeps_done]. apply keeps_ptry.
  unfold p_processResponse. apply keeps_pbind; [solve_keeps|]. intros pb.
  apply keeps_pbind; [apply keeps_gets|]. intros epoch. destruct (negb _); [apply keeps_done|].
  destruct (PeerIDToP2PKey _); [|apply p_violation_keeps|apply keeps_done].
  apply keeps_pbind; [solve_keeps|]. intros [[op|]|e]; [|apply p_violation_keeps..].
  destruct (negb _); [apply p_violation_keeps|].
  apply keeps_pbind; [apply keeps_reads|]. intros []; [apply keeps_done|].
  apply keeps_pbind; [solve_keeps|]. intros cons.
  assert (keeps match verifyResponse (convertProtoToResponse pb) (o_SigningKey op) with
    | Panic s => Done (Panic s)
    | Err err => p_violation (msg_ReceivedFrom msg) (Wrapf "failed to verify response" err)
    | Ok _ => p_accept_response (convertProtoToResponse pb) (o_SigningKey op) op end) as Hk.
  { destruct (verifyResponse _ _) as [[]|e|m] eqn:Hv; [|apply p_violation_keeps|apply keeps_done].
    by apply p_accept_response_keeps. }
  by destruct cons as [[?|]|?]; [apply keeps_done|..].
Qed.

(** A listing of tasks with integer keys *)
Lemma listing_gives (m : M (World C) (list Tasks)) :
  (forall P, preserves (mem_pred P) m) ->
  ensures (db_pred (on_tasks keys_ok)) m (fun l => forall t, t ∈ l -> key_ok t) ->
  (forall R, preserves (db_pred (on_consensus R)) m) ->
  gives (onW m) (fun l => forall t, t ∈ l -> good t).
Proof.
  intros Hm Hl Hc. apply gives_onW. intros log w (Hrows & Hk & Hth).
  destruct (Hl w Hk) as [Hk' Hq]. split; [|intros l E t Ht; by eapply good_key, Hq].
  split; [by apply Hc|]. split; [done|by apply Hm].
Qed.

Lemma p_timeout_task_keeps t : good t -> keeps (p_timeout_task t).
Proof.
  intros Hg. unfold p_timeout_task. apply keeps_pbind.
  { apply keeps_ptry, keeps_call; intros; try solve_preserves.
    apply IncrementRetryCount_tasks. exact keys_ok_retry. }
  intros [[upd|]|e]; [|apply keeps_done..]. destruct (_ <=? _).
  - apply keeps_pbind; [|solve_keeps]. apply keeps_ptry, keeps_call; intros; try solve_preserves.
    apply DeleteTaskByID_tasks. exact keys_ok_delete.
  - apply keeps_pbind; [by apply keeps_ptry, p_ProcessTask_keeps|]. solve_keeps.
Qed.

Lemma p_confirm_task_keeps t : good t -> keeps (p_confirm_task t).
Proof.
  intros Hg. unfold p_confirm_task. do 2 (apply keeps_pbind; [solve_keeps|]; intros ?).
  destruct (_ =? 0); [apply keeps_done|]. destruct (_ <=? _); [|apply keeps_done].
  apply keeps_pbind; [|intros _; by apply p_ProcessTask_keeps].
  apply keeps_call; intros; try solve_preserves.
  apply UpdateTaskToPending_tasks. exact keys_ok_pending.
Qed.

Lemma p_checkTimeouts_keeps : keeps p_checkTimeouts.
Proof.
  unfold p_checkTimeouts. eapply gives_pbind.
  { apply gives_ptry, listing_gives; intros; [apply ListPendingTasks_mem|apply ListPendingTasks_keys|solve_preserves]. }
  intros [l|e] Hl; [|apply keeps_done]. apply keeps_pfor_each. intros t Ht.
  by apply p_timeout_task_keeps, Hl.
Qed.

Lemma p_checkConfirmations_keeps : keeps p_checkConfirmations.
Proof.
  unfold p_checkConfirmations. eapply gives_pbind.
  { apply gives_ptry, listing_gives; intros; [apply ListConfirmingTasks_mem|apply ListConfirmingTasks_keys|solve_preserves]. }
  intros [l|e] Hl; [|apply keeps_done]. apply keeps_pfor_each. intros t Ht.
  by apply p_confirm_task_keeps, Hl.
Qed.

(** ** Any number of goroutines *)

(** What the processor and the API start *)
Inductive handler : prog (CW C) unit -> Prop :=
  | h_message msg : handler (p_handleResponse msg)
  | h_timeouts : handler p_checkTimeouts
  | h_confirmations : handler p_checkConfirmations
  | h_cleanup : handler p_periodicCleanup
  | h_request t : key_ok t -> handler (p_ProcessTask (Some t)).

(** The rest of the node and the world: the epoch, the operators, tasks and
    the cache change, but not the tracker and not what has been published. *)
Inductive elsewhere : CW C -> CW C -> Prop :=
  | elsewhere_step s w w' :
      db_consensus (w_db w') = db_consensus (w_db w) -> keys_ok (db_tasks (w_db w')) ->
      (forall th, GetThresholdWeight (w_mem w') = Some th -> in_force th) ->
      elsewhere (mkCW s w) (mkCW s w').

Lemma handler_keeps p : handler p -> keeps p.
Proof.
  intros []; auto using p_handleResponse_keeps, p_checkTimeouts_keeps, p_checkConfirmations_keeps,
    p_cleanupAllTasks_keeps, p_ProcessTask_keeps.
Qed.

Lemma pool_shared_inv c0 c ps : shared_inv c0 ->
  pool_reach handler elsewhere c0 (c, ps) -> shared_inv c.
Proof.
  intros Hinit Hreach.
  eapply (pool_sound shared_inv later (fun _ => 0) (fun _ (_ : res unit) _ => True)
    handler elsewhere); [| |exact Hinit|done|exact Hreach].
  - intros p c1 Hp _. exact (keeps_safe p c1 (handler_keeps p Hp) 0 (Z.le_refl 0)).
  - intros c1 c2 [s w w' Hc Hk Hth] [Hs (Hrows & _ & _)]. split_and!; [|unfold later; reflexivity|done].
    split; [done|]. split_and!; [|done|done]. unfold db_pred, on_consensus in *. simpl in *. by rewrite Hc.
Qed.
End goroutines.
