(* ===== verification/SharedProps.v ===== *)
(** * The processor under any interleaving: properties

    What [SharedInv] gives for a node that starts empty, and what the
    critical sections do not exclude: a check of consensus reads a map while
    another goroutine writes it, and a task can be answered twice. *)

From S2P Require Import Prelude GoInt GoString Numeric EpochMath Models World Threads.
From S2P Require Import TasksRepo BlacklistRepo OperatorsRepo ConsensusRepo EthLib Signer Chain.
From S2P Require Import Task TaskInv TaskToy TaskConsensus Shared SharedInv.

Section properties.
Context `{EnvOk} `{EthLib} `{P2PLib} `{PubSub} `{OperatorSigner} `{CM : ChainManager} `{MapRange}.
Context {C : Type} `{HasTaskOk C}.

(** A response for the task whose signature verifies against the key it is
    filed under *)
Definition authentic (t sk : string) (r : taskResponse) : Prop :=
  tr_taskID r = t /\ verifyResponse r sk = Ok tt.

(** A processor that starts: nothing tracked, nothing published. *)
Definition shared_init (in_force : Z -> Prop) (c : CW C) : Prop :=
  cw_store c = empty_store /\ db_consensus (w_db (cw_world c)) = ∅ /\
  keys_ok (db_tasks (w_db (cw_world c))) /\
  forall th, GetThresholdWeight (w_mem (cw_world c)) = Some th -> in_force th.

Lemma shared_init_inv in_force c : shared_init in_force c -> shared_inv authentic in_force c.
Proof.
  intros (Es & Ec & Hk & Hth). split.
  - rewrite Es. constructor; [apply empty_store_ok|by intros t l [=]|].
    by intros t sk r w ?%not_elem_of_nil.
  - split_and!; [|done|done]. unfold db_pred, on_consensus. rewrite Ec.
    by intros id row ?%lookup_empty_Some.
Qed.

(** What holds in the pool, from the start on *)
Lemma processor_inv (Hsig : signer_ok) in_force c0 c ps : shared_init in_force c0 ->
  pool_reach handler (elsewhere in_force) c0 (c, ps) -> shared_inv authentic in_force c.
Proof.
  intros Hinit Hrun. eapply (pool_shared_inv authentic in_force task_good); [..|exact Hrun].
  - by intros r sk Hv.
  - intros. split; [done|]. by eapply own_response_verifies.
  - apply task_good_response.
  - apply key_ok_good.
  - by apply shared_init_inv.
Qed.

(** C3: consensus under concurrency.  Let any number of message handlers,
    ticks and requests be cut at every call and every critical section and
    interleaved in any order, with the maps of a task read while others write
    them, and the rest of the node changing meanwhile.  A consensus row that
    is there is a quorum all the same: its signatures verify for its task
    against distinct signers, in the order of the signers, and weights
    recorded for the task under some of them add up to a threshold that was
    in force. *)
Theorem interleaved_consensus_quorum (Hsig : signer_ok) in_force c0 c ps
    (Hinit : shared_init in_force c0)
    (Hrun : pool_reach handler (elsewhere in_force) c0 (c, ps)) id row
    (Hrow : db_consensus (w_db (cw_world c)) !! id = Some row) :
  row_quorum authentic in_force (st_log (cw_store c)) id row.
Proof. destruct (processor_inv Hsig in_force c0 c ps Hinit Hrun) as [_ [Hrows _]]. by apply Hrows. Qed.

(** Two goroutines are about to use an inner map, outside the lock the one
    that reads it: nothing orders the read and the write. *)
Definition races (c : CW C) (ps : list (prog (CW C) unit)) : Prop :=
  exists i j p p' l t sk r w, i <> j /\ ps !! i = Some p /\ ps !! j = Some p' /\
    inside (prange (wmap (Some l))) p /\ inside (p_store t sk r w) p' /\
    st_weights (cw_store c) !! t = Some l.
End properties.

(** ** A node of two goroutines *)

Section toy.
#[local] Existing Instances toy_env toy_eth toy_p2p toy_pubsub toy_signer toy_chains.

#[local] Instance toy_range : MapRange := {|
  range_rank _ _ := 0; range_room _ _ := 0%nat; range_pick _ _ := 0%nat;
|}.

Definition toy_shared : CW ToyNode := mkCW empty_store toy_world80.

Definition toy_in_force (th : Z) : Prop := th = 80.

Lemma toy_shared_init : shared_init toy_in_force toy_shared.
Proof. split_and!; [done|done|exact toy_key_ok|]. by intros th [= <-]. Qed.

Definition toy_answer_pool : list (prog (CW ToyNode) unit) :=
  [p_handleResponse (toy_message2 1000); p_ProcessTask (Some toy_task)].

Lemma toy_pool_handlers : Forall handler toy_answer_pool.
Proof. repeat constructor. exact toy_task_key. Qed.

(** Runs a part of the program to its end, which is [a]. *)
Ltac part a := apply (goes_part _ a); [vm_compute; reflexivity|].
(** Takes the branch that a closed condition decides. *)
Ltac branch b := lazymatch goal with
  | |- goes _ (if ?c then _ else _) _ _ => replace c with b by (vm_compute; reflexivity)
  end; cbv iota.
Ltac scrutinee r := lazymatch goal with
  | |- goes _ (match ?x with _ => _ end) _ _ => replace x with r by (vm_compute; reflexivity)
  end; cbv iota beta.

Definition toy_op2 : Operators := toy_operator toy_addr2 toy_p2p_key 40.

(** The message is handled until the weights are about to be summed, then the
    task is processed until the answer is about to be stored. *)
Lemma toy_goes : exists c p c' p' r,
  goes toy_shared (p_handleResponse (toy_message2 1000)) c p /\
  goes c (p_ProcessTask (Some toy_task)) c' p' /\
  inside (prange (wmap (Some 0%nat))) p /\
  inside (p_store "task" mySigningKey r (Some 60)) p' /\
  st_weights (cw_store c') !! "task" = Some 0%nat.
Proof.
  eexists _, _, _, _, _. split_and!.
  - unfold p_handleResponse. apply goes_recovered, goes_bind, goes_try.
    unfold p_processResponse. part (toy_response2 1000). part 8. branch false.
    scrutinee (Ok toy_p2p_key). part (@inl _ error (Some toy_op2)). branch false.
    part false. part (@inl (option ConsensusResponse) error None).
    scrutinee (@Ok unit tt). unfold p_accept_response. part (Some 40). part tt.
    apply goes_bind, goes_try. unfold p_checkConsensus.
    part (Some 0%nat, Some 0%nat). part 1%nat. cbv beta iota.
    lazymatch goal with |- goes _ (if ?d then _ else _) _ _ => destruct d as [[=]|_] end.
    apply goes_refl.
  - unfold p_ProcessTask. part false. eapply goes_part; [vm_compute; reflexivity|].
    part (Some (toy_operator toy_addr1 "0x11" 60)). part (Some 60). unfold p_give_answer.
    apply goes_refl.
  - repeat constructor.
  - repeat constructor.
  - vm_compute. reflexivity.
Qed.

(** The maps are read outside of the lock.  There is a run of two
    goroutines, a message of a peer and the node's own task, after which one
    is about to range over the weights of the task in [calculateTotalWeight],
    holding no lock, and the other is about to store into that very map: the
    read and the write are not ordered, which Go ends with a fatal error no
    handler recovers from. *)
Theorem checkConsensus_races : exists c ps,
  pool_reach handler (elsewhere toy_in_force) toy_shared (c, ps) /\ races c ps.
Proof.
  destruct toy_goes as (c & p & c' & p' & r & Hg & Hg' & Hin & Hin' & Hw).
  exists c', [p; p']. split.
  - pose proof (pool_spawn_reach handler (elsewhere toy_in_force) toy_shared _ toy_pool_handlers) as Hr.
    pose proof (pool_goes _ _ _ _ _ _ 0%nat _ _ Hr eq_refl Hg) as Hr1.
    exact (pool_goes _ _ _ _ _ _ 1%nat _ _ Hr1 eq_refl Hg').
  - exists 0%nat, 1%nat, p, p', 0%nat, "task", mySigningKey, r, (Some 60). by split_and!.
Qed.

(** The message and the task, step by step in turn *)
Definition toy_turns : list nat := concat (replicate 60 [0; 1]%nat).
Definition toy_pool_end : CW ToyNode * list (prog (CW ToyNode) unit) :=
  pool_exec toy_turns (toy_shared, toy_answer_pool).

Lemma toy_pool_end_reach : pool_reach handler (elsewhere toy_in_force) toy_shared toy_pool_end.
Proof. apply pool_exec_reach, pool_spawn_reach, toy_pool_handlers. Qed.

Lemma interleaved_consensus_quorum_witness : exists row,
  db_consensus (w_db (cw_world toy_pool_end.1)) !! "task" = Some row /\
  length (c_AggregatedSignatures row) = 2%nat /\
  row_quorum authentic toy_in_force (st_log (cw_store toy_pool_end.1)) "task" row.
Proof.
  destruct (db_consensus (w_db (cw_world toy_pool_end.1)) !! "task") as [row|] eqn:E.
  - exists row. split; [reflexivity|]. split.
    + assert ((fun r => length (c_AggregatedSignatures r)) <$>
        db_consensus (w_db (cw_world toy_pool_end.1)) !! "task" = Some 2%nat) as Hn
        by (vm_compute; reflexivity).
      rewrite E in Hn. injection Hn as Hn. exact Hn.
    + apply (interleaved_consensus_quorum toy_signer_ok toy_in_force toy_shared toy_pool_end.1
        toy_pool_end.2 toy_shared_init); [|exact E].
      rewrite <- surjective_pairing. exact toy_pool_end_reach.
  - assert (bool_decide (is_Some (db_consensus (w_db (cw_world toy_pool_end.1)) !! "task")) = true)
      as Hs by (vm_compute; reflexivity).
    rewrite E in Hs. discriminate Hs.
Defined.

(** A retry and the API process the same task at the same time. *)
Definition toy_twice : list (prog (CW ToyNode) unit) :=
  [p_ProcessTask (Some toy_task); p_ProcessTask (Some toy_task)].

Definition toy_together : list nat := [0; 1]%nat ++ replicate 40 0%nat ++ replicate 40 1%nat.

Definition toy_twice_end : CW ToyNode * list (prog (CW ToyNode) unit) :=
  pool_exec toy_together (toy_shared, toy_twice).

(** [ProcessTask] checks that the task has no answer in one critical section
    and stores the answer in another.  Two goroutines that process the same
    task publish its answer twice; one after the other they publish it
    once. *)
Theorem ProcessTask_answers_twice :
  pool_reach handler (elsewhere toy_in_force) toy_shared toy_twice_end /\
  (exists r, tm_published (task_mem (w_mem (cw_world toy_twice_end.1))) = [r; r]) /\
  length (tm_published (task_mem (w_mem (toy_processed (toy_processed toy_world80))))) = 1%nat.
Proof.
  split; [|split; [eexists; vm_compute; reflexivity|vm_compute; reflexivity]].
  apply pool_exec_reach, pool_spawn_reach. repeat constructor; exact toy_task_key.
Qed.
End toy.
