(* ===== verification/Responses.v ===== *)
(** * pkg/operator/task/response.go: the loop that takes messages

    [handleResponses] reads the subscription and starts a goroutine per
    message, at most [maxConcurrent] at a time: a slot of the semaphore is
    taken before the goroutine starts and given back by its deferred function
    when it ends, also when it panicked.  While no slot is free the loop holds
    one message, and drops it after a time.  The rest of the node goes on
    meanwhile: the ticks, the requests, and what [elsewhere] allows. *)

From S2P Require Import Prelude GoInt GoString Numeric EpochMath Models World Threads.
From S2P Require Import TasksRepo BlacklistRepo OperatorsRepo ConsensusRepo EthLib Signer Chain.
From S2P Require Import Task TaskInv TaskToy TaskConsensus Shared SharedInv SharedProps.

Definition maxConcurrent : nat := 20.

Section loop.
Context `{EnvOk} `{EthLib} `{P2PLib} `{PubSub} `{OperatorSigner} `{CM : ChainManager} `{MapRange}.
Context {C : Type} `{HasTaskOk C}.
Context (in_force : Z -> Prop).

(** The loop: the message it holds, the slots that are taken, the goroutines
    it has started and that have not given their slot back, and whether it
    has returned. *)
Record Loop := mkLoop {
  lp_held : option Message;
  lp_semaphore : nat;
  lp_handlers : list (prog (CW C) unit);
  lp_returned : bool;
}.

(** The loop, the shared state, and the other goroutines of the node *)
Record Processor := mkProcessor {
  nd_loop : Loop;
  nd_state : CW C;
  nd_others : list (prog (CW C) unit);
}.

(** What the loop itself does next: one [select], or [sub.Next]. *)
Inductive loop_step : Loop -> Loop -> Prop :=
  | lp_next msg n hs : (** [sub.Next] gives a message *)
      loop_step (mkLoop None n hs false) (mkLoop (Some msg) n hs false)
  | lp_next_err n hs : (** it fails: logged, next round *)
      loop_step (mkLoop None n hs false) (mkLoop None n hs false)
  | lp_start msg n hs : (n < maxConcurrent)%nat -> (** [semaphore <- struct{}{}] *)
      loop_step (mkLoop (Some msg) n hs false)
                (mkLoop None (S n) (hs ++ [p_handleResponse msg]) false)
  | lp_drop msg n hs : (** [<-time.After(processTimeout)] *)
      loop_step (mkLoop (Some msg) n hs false) (mkLoop None n hs false)
  | lp_cancelled held n hs : (** [<-ctx.Done()] *)
      loop_step (mkLoop held n hs false) (mkLoop None n hs true).

Inductive responses_step : Processor -> Processor -> Prop :=
  | rs_loop l l' c others :
      loop_step l l' -> responses_step (mkProcessor l c others) (mkProcessor l' c others)
  | rs_handler held n hs ret i f c others : (** a handler takes a step *)
      hs !! i = Some (Step f) ->
      responses_step (mkProcessor (mkLoop held n hs ret) c others)
                     (mkProcessor (mkLoop held n (<[i := (f c).2]> hs) ret) (f c).1 others)
  | rs_release held n hs hs' ret r c others : (** it ends: [<-semaphore] *)
      responses_step (mkProcessor (mkLoop held (S n) (hs ++ Done r :: hs') ret) c others)
                     (mkProcessor (mkLoop held n (hs ++ hs') ret) c others)
  | rs_others l c others c' others' : (** ticks, requests, the rest of the node *)
      pool_step handler (elsewhere in_force) (c, others) (c', others') ->
      responses_step (mkProcessor l c others) (mkProcessor l c' others').

Definition responses_init (c0 : CW C) (nd : Processor) : Prop :=
  nd = mkProcessor (mkLoop None 0 [] false) c0 [].

(** The semaphore counts the goroutines that run, and never more than it
    holds. *)
Definition loop_inv (nd : Processor) : Prop :=
  lp_semaphore (nd_loop nd) = length (lp_handlers (nd_loop nd)) /\
  (lp_semaphore (nd_loop nd) <= maxConcurrent)%nat.

Lemma responses_loop_inv c0 nd : reachable responses_step (responses_init c0) nd -> loop_inv nd.
Proof.
  apply reachable_invariant.
  - intros s ->. split; [done|]. simpl. lia.
  - intros s s' [He Hle] Hstep. unfold loop_inv.
    destruct Hstep as [l l' c others Hl|? ? ? ? ? ? ? ? ?|held n hs hs' ret r c others|]; simpl in *.
    + destruct Hl; simpl in *; try done. rewrite length_app. simpl. lia.
    + by rewrite length_insert.
    + rewrite length_app in *. simpl in *. lia.
    + done.
Qed.

(** The same run as one of a pool: the goroutines that ended are still there. *)
Definition in_pool (c0 : CW C) (nd : Processor) : Prop := exists ps,
  pool_reach handler (elsewhere in_force) c0 (nd_state nd, ps) /\
  exists ended, ps ≡ₚ ended ++ lp_handlers (nd_loop nd) ++ nd_others nd.

(** A step of some goroutine, wherever it is in the pool *)
Lemma in_pool_step c0 c ps rest f :
  pool_reach handler (elsewhere in_force) c0 (c, ps) -> ps ≡ₚ Step f :: rest ->
  exists ps', pool_reach handler (elsewhere in_force) c0 ((f c).1, ps') /\ ps' ≡ₚ (f c).2 :: rest.
Proof.
  intros Hr Hps. assert (Step f ∈ ps) as [i Hi]%list_elem_of_lookup by (rewrite Hps; by left).
  exists (<[i := (f c).2]> ps). split.
  - eapply reach_step; [exact Hr|]. by apply pool_run.
  - pose proof (take_drop_middle ps i (Step f) Hi) as Hm.
    rewrite insert_take_drop by by eapply lookup_lt_Some.
    rewrite <- Permutation_middle. apply Permutation_cons; [done|].
    apply (Permutation_cons_inv (a := Step f)). rewrite Permutation_middle.
    transitivity ps; [by rewrite Hm|done].
Qed.

Lemma responses_in_pool c0 nd :
  reachable responses_step (responses_init c0) nd -> in_pool c0 nd.
Proof.
  apply reachable_invariant.
  - intros s ->. exists []. split; [by apply reach_init|]. by exists [].
  - intros s s' (ps & Hr & ended & Hps) Hstep.
    destruct Hstep as [l l' c others Hl|held n hs ret i f c others Hi|held n hs hs' ret r c others
      |l c others c' others' Ho]; simpl in *.
    + destruct Hl as [msg n hs|n hs|msg n hs Hn|msg n hs|held n hs]; simpl in *;
        try (exists ps; split; [done|by exists ended]).
      exists (ps ++ [p_handleResponse msg]). split.
      * eapply reach_step; [exact Hr|]. apply pool_spawn, h_message.
      * exists ended. rewrite Hps. simpl. solve_Permutation.
    + pose proof (take_drop_middle hs i (Step f) Hi) as Hm.
      destruct (in_pool_step c0 c ps (ended ++ (take i hs ++ drop (S i) hs) ++ others) f Hr)
        as (ps' & Hr' & Hps').
      { rewrite Hps, <- Hm at 1. solve_Permutation. }
      exists ps'. split; [exact Hr'|]. exists ended. simpl. rewrite Hps'.
      rewrite insert_take_drop by by eapply lookup_lt_Some. solve_Permutation.
    + exists ps. split; [done|]. exists (ended ++ [Done r]). rewrite Hps. solve_Permutation.
    + inversion Ho as [? ? i f Hi|? ? p Hp|? ? ? He]; subst.
      * pose proof (take_drop_middle others i (Step f) Hi) as Hm.
        destruct (in_pool_step c0 c ps (ended ++ lp_handlers l ++ take i others ++ drop (S i) others) f Hr)
          as (ps' & Hr' & Hps').
        { rewrite Hps, <- Hm at 1. solve_Permutation. }
        exists ps'. split; [exact Hr'|]. exists ended. simpl. rewrite Hps'.
        rewrite insert_take_drop by by eapply lookup_lt_Some. solve_Permutation.
      * exists (ps ++ [p]). split; [eapply reach_step; [exact Hr|by apply pool_spawn]|].
        exists ended. rewrite Hps. solve_Permutation.
      * exists ps. split; [eapply reach_step; [exact Hr|by apply pool_env]|by exists ended].
Qed.

(** C17: backpressure.  However messages arrive and whatever their handlers
    do, panics included, at most [maxConcurrent] of them run at once and the
    semaphore counts exactly those; and what they do to the node is what a
    pool of goroutines without a loop could do, so that each published
    consensus is a quorum. *)
Theorem responses_bounded (Hsig : signer_ok) c0 nd (Hinit : shared_init in_force c0)
    (Hrun : reachable responses_step (responses_init c0) nd) :
  (length (lp_handlers (nd_loop nd)) <= maxConcurrent)%nat /\
  lp_semaphore (nd_loop nd) = length (lp_handlers (nd_loop nd)) /\
  rows_quorum authentic in_force (st_log (cw_store (nd_state nd)))
    (db_consensus (w_db (cw_world (nd_state nd)))).
Proof.
  destruct (responses_loop_inv c0 nd Hrun) as [He Hle]. split_and!; [lia|done|].
  destruct (responses_in_pool c0 nd Hrun) as (ps & Hr & _).
  by destruct (processor_inv Hsig in_force c0 (nd_state nd) ps Hinit Hr) as [_ [Hrows _]].
Qed.
End loop.

(** ** Example: a message is taken, handled, and its slot given back *)

Section toy.
#[local] Existing Instances toy_env toy_eth toy_p2p toy_pubsub toy_signer toy_chains toy_range.

Definition toy_loop (held : option Message) (n : nat) (hs : list (prog (CW ToyNode) unit)) : Processor :=
  mkProcessor (mkLoop held n hs false) toy_shared [].

Lemma toy_loop_reach : reachable (responses_step toy_in_force) (responses_init toy_shared)
  (toy_loop None 1 [p_handleResponse (toy_message2 1000)]).
Proof.
  apply (reach_step _ _ (toy_loop (Some (toy_message2 1000)) 0 [])).
  - apply (reach_step _ _ (toy_loop None 0 [])); [by apply reach_init|]. apply rs_loop, lp_next.
  - apply rs_loop, (lp_start _ 0 []). unfold maxConcurrent. lia.
Qed.

Lemma responses_bounded_witness :
  length (lp_handlers (nd_loop (toy_loop None 1 [p_handleResponse (toy_message2 1000)]))) = 1%nat /\
  (1 <= maxConcurrent)%nat.
Proof.
  split; [reflexivity|].
  exact (proj1 (responses_bounded toy_in_force toy_signer_ok toy_shared _ toy_shared_init toy_loop_reach)).
Defined.
End toy.
