(* ===== verification/TaskProps.v ===== *)
(** * The task processor: who is believed, what is answered *)

From S2P Require Import Prelude GoInt GoString Numeric EpochMath Models World.
From S2P Require Import TasksRepo BlacklistRepo OperatorsRepo ConsensusRepo EthLib Signer Chain Task.
From S2P Require Import TaskInv TaskToy TaskConsensus.

Lemma big_Cmp_Eq x y : big_Cmp x y = Ok Eq -> x = y.
Proof.
  destruct x as [a|], y as [b|]; simpl; try done. intros [= E]. by apply Z.compare_eq in E as ->.
Qed.

Section lemmas.
Context `{EnvOk} `{EthLib} `{P2PLib} `{PubSub} `{OperatorSigner} `{CM : ChainManager}.
Context {C : Type} `{HasTaskOk C}.

(** What the attempts do: they count calls, and return what some call of the
    contract returned. *)
Lemma state_attempts_spec cl target key b n (w : World C) :
  let '(w', out) := state_attempts cl target key b n w in
  (exists k, (w_step w <= k <= w_step w + 2 * n)%nat /\ w' = set_step k w) /\
  forall v, out = Ok v -> exists i latest,
    cc_BlockNumber cl i = Ok latest /\ b <= latest /\
    cc_GetStateAtBlock cl (S i) target key b = Ok v.
Proof.
  revert w. induction n as [|n IH]; intros w; cbn [state_attempts].
  { split; [|done]. exists (w_step w). split; [lia|by destruct w]. }
  assert (Hretry : forall k, (w_step w < k <= w_step w + 2)%nat ->
    let '(w', out) := state_attempts cl target key b n (set_step k w) in
    (exists k, (w_step w <= k <= w_step w + 2 * S n)%nat /\ w' = set_step k w) /\
    forall v, out = Ok v -> exists i latest,
      cc_BlockNumber cl i = Ok latest /\ b <= latest /\
      cc_GetStateAtBlock cl (S i) target key b = Ok v).
  { intros k Hk. specialize (IH (set_step k w)).
    destruct (state_attempts _ _ _ _ _ _) as [w' out]. destruct IH as [(k' & Hk' & ->) Hv].
    split; [|done]. exists k'. split; [simpl in Hk'; lia|done]. }
  unfold bind at 1, try at 1, extern at 1, bind at 1, tick at 1, lift at 1. simpl.
  destruct (cc_BlockNumber cl (w_step w)) as [latest|e|s] eqn:Eb.
  - destruct (Z.ltb_spec latest b).
    { split; [|done]. exists (S (w_step w)). split; [lia|done]. }
    unfold bind at 1, try at 1, extern at 1, bind at 1, tick at 1, lift at 1. simpl.
    destruct (cc_GetStateAtBlock cl _ target key b) as [v|e|s] eqn:Es.
    + split; [exists (S (S (w_step w))); split; [lia|done]|]. intros ? [= <-].
      exists (w_step w), latest. done.
    + do 3 (destruct (strings_Contains _ _);
              [split; [exists (S (S (w_step w))); split; [lia|done]|done]|]).
      apply (Hretry (S (S (w_step w)))). lia.
    + split; [exists (S (S (w_step w))); split; [lia|done]|done].
  - apply (Hretry (S (w_step w))). lia.
  - split; [exists (S (w_step w)); split; [lia|done]|done].
Qed.

(** The answer a node signs. *)
Record answer_of (t : Tasks) (r : taskResponse) (key value : option Z) : Prop := {
  an_key : NumericToBigInt (t_Key t) = Ok key;
  an_value : NumericToBigInt (t_Value t) = Ok value;
  an_block : t_BlockNumber t <> 0;
  an_chain : exists cl i, GetClientByChainId (t_ChainID t) the_chains = Ok cl /\
    cc_GetStateAtBlock cl i (HexToAddress (t_TargetAddress t)) key (t_BlockNumber t) = Ok value;
  an_signed : exists sig,
    SignTaskResponse (sign_params (t_TargetAddress t) (t_ChainID t) (t_BlockNumber t) key value)
      = Ok sig /\ r = own_response t sig value;
}.

Lemma answer_task_Ok t (w w' : World C) r :
  answer_task t w = (w', Ok r) ->
  (exists k, w' = set_step k w) /\ exists key value, answer_of t r key value.
Proof.
  unfold answer_task. destruct (Z.eqb_spec (t_BlockNumber t) 0) as [|Hb]; [done|].
  rewrite bind_Ok. intros (w1 & cl & Hcl & Hrun). apply textM_Ok, lift_Ok in Hcl as [-> Hcl].
  apply bind_Ok in Hrun as (w2 & key & Hkey & Hrun). apply textM_Ok, lift_Ok in Hkey as [-> Hkey].
  apply bind_Ok in Hrun as (w3 & value & Hst & Hrun). apply wrapM_Ok in Hst.
  pose proof (state_attempts_spec cl (HexToAddress (t_TargetAddress t)) key (t_BlockNumber t)
    maxRetries w) as Hspec.
  unfold getStateWithRetries in Hst. rewrite Hst in Hspec.
  destruct Hspec as [(k & _ & ->) Hv]. destruct (Hv _ eq_refl) as (i & latest & _ & _ & Hs).
  apply bind_Ok in Hrun as (w4 & want & Hw & Hrun). apply textM_Ok, lift_Ok in Hw as [-> Hw].
  apply bind_Ok in Hrun as (w5 & c & Hc & Hrun). apply lift_Ok in Hc as [-> Hc].
  destruct c; [|done|done]. apply big_Cmp_Eq in Hc as ->.
  apply bind_Ok in Hrun as (w6 & sig & Hsig & Hrun). apply wrapM_Ok, lift_Ok in Hsig as [-> Hsig].
  injection Hrun as <- <-. split; [by exists k|]. exists key, want.
  constructor; eauto.
Qed.

(** A broadcast that succeeds appends the marshalled response. *)
Lemma broadcastResponse_Ok r (w w' : World C) :
  broadcastResponse r w = (w', Ok tt) ->
  exists d, proto_Marshal (response_message r) = Ok d /\ get_track w' = get_track w /\
    tm_published (task_mem (w_mem w')) = tm_published (task_mem (w_mem w)) ++ [d].
Proof.
  unfold broadcastResponse. rewrite bind_Ok. intros (w1 & d & Hd & Hrun).
  apply wrapM_Ok, lift_Ok in Hd as [-> Hd].
  apply bind_Ok in Hrun as (w2 & m & [= <- <-] & Hrun).
  destruct (tm_responseTopic _); [|done].
  apply bind_Ok in Hrun as (w3 & u & Hp & Hrun). unfold extern in Hp.
  apply bind_Ok in Hp as (w4 & i & [= <- <-] & Hp). apply lift_Ok in Hp as [-> Hp].
  injection Hrun as <-. exists d. split; [done|]. unfold get_track, put_task_mem. simpl.
  by rewrite task_mem_set.
Qed.

Lemma run_mem {A} (m : M (World C) A) w w' out :
  (forall P, preserves (mem_pred P) m) -> m w = (w', out) -> w_mem w' = w_mem w.
Proof.
  intros Hm E. pose proof (Hm (eq (w_mem w)) w eq_refl) as Hw. rewrite E in Hw. by symmetry.
Qed.
End lemmas.

Section properties.
Context `{EnvOk} `{EthLib} `{P2PLib} `{PubSubOk} `{OperatorSigner} `{CM : ChainManager}.
Context {C : Type} `{HasTaskOk C}.

(** Responses and weights are held for the same tasks and signing keys in
    every reachable state, so the two-map write never hits a nil map:
    storing always succeeds and adds exactly one entry to each map. *)
Theorem store_never_panics (w : World C) (Hw : reachable tp_step tp_init w) r sk weight :
  exists w', storeResponseAndWeight r sk weight w = (w', Ok tt) /\
    (forall t k, lookup2 (tk_responses (get_track w')) t k =
       if decide (t = tr_taskID r /\ k = sk) then Some r
       else lookup2 (tk_responses (get_track w)) t k) /\
    (forall t k, lookup2 (tk_weights (get_track w')) t k =
       if decide (t = tr_taskID r /\ k = sk) then Some weight
       else lookup2 (tk_weights (get_track w)) t k).
Proof.
  assert (tp_inv (fun _ _ _ => True) w) as [[Hs _] _].
  { by eapply (tp_reachable_inv _ (fun _ => True)). }
  destruct (store_section_spec (tr_taskID r) sk r weight _ Hs) as (k' & E & _ & Hr & Hwt).
  unfold storeResponseAndWeight, locked. rewrite E. eexists. split; [done|].
  by rewrite get_put_track.
Qed.

(** Reading the state from a chain makes at most six calls, changes
    nothing, and returns only a value that the contract returned for that
    block after the chain reported a head not below it. *)
Theorem getStateWithRetries_bounded cl target key b (w : World C) :
  let '(w', out) := getStateWithRetries cl target key b w in
  (exists k, (w_step w <= k <= w_step w + 6)%nat /\ w' = set_step k w) /\
  forall v, out = Ok v -> exists i latest,
    cc_BlockNumber cl i = Ok latest /\ b <= latest /\
    cc_GetStateAtBlock cl (S i) target key b = Ok v.
Proof. apply (state_attempts_spec cl target key b maxRetries w). Qed.

(** A task is answered once: when the node holds its own response,
    processing the task again changes nothing and broadcasts nothing. *)
Theorem ProcessTask_idempotent t (w : World C) r
    (Hr : lookup2 (tk_responses (get_track w)) (t_TaskID t) mySigningKey = Some r) :
  ProcessTask (Some t) w = (w, Ok tt).
Proof.
  unfold ProcessTask, alreadyProcessed, bind, gets, ret. rewrite Hr.
  rewrite bool_decide_eq_true_2 by eauto. done.
Qed.

(** C18: what a node broadcasts for a task is accepted by its peers: when
    [ProcessTask] succeeds on a task not answered yet it publishes exactly
    one message, from which a peer reconstructs the response the node
    holds; the signature verifies from the message's texts against the
    node's signing key, and the value is the one the task expects and the
    contract returned for its block. *)
Theorem ProcessTask_answer_verifies (Hsig : signer_ok) t (w w' : World C)
    (Hgood : key_ok t)
    (Hnew : lookup2 (tk_responses (get_track w)) (t_TaskID t) mySigningKey = None)
    (Hrun : ProcessTask (Some t) w = (w', Ok tt)) :
  exists d m key value,
    tm_published (task_mem (w_mem w')) = tm_published (task_mem (w_mem w)) ++ [d] /\
    proto_Unmarshal d = Ok m /\
    pb_TaskId m = t_TaskID t /\ pb_Epoch m = t_Epoch t /\
    verifyResponse (convertProtoToResponse m) mySigningKey = Ok tt /\
    answer_of t (convertProtoToResponse m) key value /\
    lookup2 (tk_responses (get_track w')) (t_TaskID t) mySigningKey =
      Some (convertProtoToResponse m).
Proof.
  revert Hrun. unfold ProcessTask. rewrite bind_Ok. intros (w0 & p & Hp & Hrun).
  unfold alreadyProcessed, bind, gets, ret in Hp. injection Hp as <- <-.
  rewrite Hnew in Hrun. rewrite bool_decide_eq_false_2 in Hrun by by intros [? ?].
  apply bind_Ok in Hrun as (w1 & r & Ha & Hrun).
  apply answer_task_Ok in Ha as [(k & ->) (key & value & Hans)].
  apply bind_Ok in Hrun as (w2 & op & Hop & Hrun). apply wrapM_Ok in Hop.
  apply run_mem in Hop; [|intros P; apply GetOperatorBySigningKey_mem].
  destruct op as [op|]; [|done].
  apply bind_Ok in Hrun as (w3 & weight & Hwt & Hrun). apply wrapM_Ok, lift_Ok in Hwt as [-> Hwt].
  apply bind_Ok in Hrun as (w4 & [] & Hst & Hrun). apply locked_run in Hst.
  destruct (store_section _ _ _ _ (get_track w2)) as [k'|e|s] eqn:Es;
    [destruct Hst as [-> _]|by destruct Hst..].
  apply bind_Ok in Hrun as (w5 & [] & Hb & Hrun). apply wrapM_Ok in Hb.
  apply broadcastResponse_Ok in Hb as (d & Hd & Htrack & Hpub).
  apply bind_Ok in Hrun as (w6 & c & Hc & Hrun). injection Hrun as <-.
  assert (w_mem w6 = w_mem w5) as Emem.
  { eapply run_mem; [|exact Hc]. intros P. apply preserves_try, checkConsensus_mem. }
  assert (lookup2 (tk_responses k') (t_TaskID t) mySigningKey = Some r) as Hheld.
  { unfold store_section in Es. clear -Es.
    destruct (tk_responses (get_track w2) !! t_TaskID t) as [rs|] eqn:Er; simpl in Es.
    - rewrite Er in Es. destruct (tk_weights _ !! _); [|done]. injection Es as <-.
      unfold lookup2. simpl. rewrite lookup_insert_eq. simpl. apply lookup_insert_eq.
    - rewrite !lookup_insert_eq in Es. injection Es as <-. unfold lookup2. simpl.
      rewrite lookup_insert_eq. simpl. apply lookup_insert_eq. }
  destruct (an_signed _ _ _ _ Hans) as (sig & Hs & Hr).
  exists d, (response_message r), key, value.
  assert (convertProtoToResponse (response_message r) = r) as -> by by destruct r.
  split_and!.
  - rewrite Emem, Hpub. simpl. rewrite task_mem_set. simpl. by rewrite Hop.
  - by apply Unmarshal_Marshal.
  - by rewrite Hr.
  - by rewrite Hr.
  - rewrite Hr. eapply own_response_verifies; [done|by apply key_ok_good|apply Hans|done].
  - done.
  - unfold get_track in *. rewrite Emem, Htrack. fold (get_track (put_track k' w2)).
    by rewrite get_put_track.
Qed.

(** C19: a message changes the tracker only if it decodes, is for the
    current epoch, comes from a peer whose key belongs to an operator the
    repository reports as active, and is signed by that operator's signing
    key; otherwise the tracker stays as it was. *)
Theorem processResponse_authorised msg (w : World C) :
  get_track (processResponse msg w).1 = get_track w \/
  exists m p2pKey w1 op,
    proto_Unmarshal (msg_Data msg) = Ok m /\
    pb_Epoch m = GetCurrentEpochNumber (w_mem w) /\
    PeerIDToP2PKey (msg_ReceivedFrom msg) = Ok p2pKey /\
    GetOperatorByP2PKey p2pKey w = (w1, Ok (Some op)) /\ o_IsActive op = true /\
    lookup2 (tk_responses (get_track w)) (pb_TaskId m) (o_SigningKey op) = None /\
    verifyResponse (convertProtoToResponse m) (o_SigningKey op) = Ok tt.
Proof.
  unfold processResponse, bind at 1, wrapM, lift.
  destruct (proto_Unmarshal (msg_Data msg)) as [m|e|s]; simpl; [|by left..].
  unfold bind at 1, gets.
  destruct (Z.eqb_spec (pb_Epoch m) (GetCurrentEpochNumber (w_mem w))) as [He|];
    [simpl|by left].
  assert (Hviol : forall e (w1 : World C), w_mem w1 = w_mem w ->
    get_track (incrementPeerViolation (msg_ReceivedFrom msg) e w1).1 = get_track w).
  { intros e w1 E1. unfold get_track.
    pose proof (incrementPeerViolation_mem (eq (w_mem w)) (msg_ReceivedFrom msg) e w1) as Hm.
    unfold mem_pred in Hm. by rewrite <- Hm. }
  destruct (PeerIDToP2PKey (msg_ReceivedFrom msg)) as [p2pKey|e|s]; [|left; by apply Hviol|by left].
  unfold bind at 1, try at 1.
  destruct (GetOperatorByP2PKey p2pKey w) as [w1 [[op|]|e|s]] eqn:Eop;
    assert (w_mem w1 = w_mem w) as E1 by (eapply run_mem; [|exact Eop]; intros;
      apply GetOperatorByP2PKey_mem); [|left; by apply Hviol..|left; simpl; unfold get_track; by rewrite E1].
  destruct (o_IsActive op) eqn:Eact; simpl; [|left; by apply Hviol].
  unfold alreadyProcessed, bind at 1, bind at 1, gets, ret at 1.
  case_bool_decide as Hdone; [left; simpl; unfold get_track; by rewrite E1|].
  unfold bind at 1, try at 1.
  destruct (GetConsensusResponseByTaskId (pb_TaskId m) w1) as [w2 rc] eqn:Ec.
  assert (w_mem w2 = w_mem w) as E2.
  { rewrite <- E1. eapply run_mem; [|exact Ec]. intros. apply GetConsensusResponseByTaskId_mem. }
  assert (get_track w1 = get_track w) as Et1 by (unfold get_track; by rewrite E1).
  assert (get_track w2 = get_track w) as Et2 by (unfold get_track; by rewrite E2).
  destruct (verifyResponse (convertProtoToResponse m) (o_SigningKey op)) as [[]|e|s] eqn:Ev.
  - right. exists m, p2pKey, w1, op. split_and!; try done.
    rewrite Et1 in Hdone. by apply eq_None_not_Some.
  - left. destruct rc as [[c|]|?|?]; try done; by apply Hviol.
  - left. by destruct rc as [[c|]|?|?].
Qed.
End properties.

(** ** Examples *)

Lemma store_never_panics_witness :
  exists w', @storeResponseAndWeight toy_env ToyNode _ toy_answer "new key" (Some 5) toy_final = (w', Ok tt).
Proof.
  destruct (@store_never_panics toy_env toy_env_ok toy_eth toy_p2p toy_pubsub toy_signer
    toy_chains ToyNode _ _ _ toy_final toy_final_reachable toy_answer "new key" (Some 5))
    as (w' & Hw' & _).
  exists w'. exact Hw'.
Defined.

Lemma ProcessTask_idempotent_witness :
  toy_processed toy_final = toy_final.
Proof.
  unfold toy_processed.
  erewrite (@ProcessTask_idempotent toy_env toy_eth toy_pubsub toy_signer
    toy_chains ToyNode _ _ toy_task toy_final _ _); reflexivity.
  Unshelve. 2: vm_compute; reflexivity.
Defined.

Lemma ProcessTask_answer_verifies_witness :
  exists d m, tm_published (task_mem (w_mem toy_run)) = [d] /\
    @proto_Unmarshal toy_pubsub d = Ok m /\
    @verifyResponse toy_eth toy_signer (convertProtoToResponse m) toy_addr1 = Ok tt.
Proof.
  assert (lookup2 (tk_responses (get_track toy_node_world)) (t_TaskID toy_task)
            (@mySigningKey toy_eth toy_signer) = None) as Hnew by (vm_compute; reflexivity).
  assert (@ProcessTask toy_env toy_eth toy_pubsub toy_signer toy_chains ToyNode _ _
            (Some toy_task) toy_node_world = (toy_run, Ok tt)) as Hrun by (vm_compute; reflexivity).
  destruct (@ProcessTask_answer_verifies toy_env toy_eth toy_pubsub toy_pubsub_ok toy_signer
    toy_chains ToyNode _ _ _ toy_signer_ok toy_task toy_node_world toy_run toy_task_key
    Hnew Hrun) as (d & m & key & value & Hp & Hm & _ & _ & Hv & _).
  exists d, m. split; [exact Hp|]. split; [exact Hm|exact Hv].
Defined.
