(* ===== verification/Liveness.v ===== *)
(** * Votes that reach the threshold are published

    [TaskConsensus] and [SharedProps] say that nothing is published without a
    quorum; here the converse: on a node whose database answers and whose
    cache misses ([calm]), once the messages of enough operators have been
    handled the consensus is in the table, whatever the node's own answer
    comes to.  In between the node may do what leaves the ballot alone
    ([undisturbed]); the messages about other requests do
    ([handleResponse_undisturbed]). *)

From S2P Require Import Prelude GoInt GoString Numeric EpochMath Models World.
From S2P Require Import TasksRepo BlacklistRepo OperatorsRepo ConsensusRepo EthLib Signer Chain.
From S2P Require Import Task TaskInv TaskProps TaskToy TaskConsensus.

(** Nothing fails: the database answers every call and the cache has nothing. *)
Record calm `{Env} : Prop := {
  calm_pg : forall i, env_pg i = PgDone;
  calm_cache : forall i c k, dc_lookup i c k = None;
}.

(** A call that returns [a] and leaves database and memory alone *)
Definition answers `{Env} {C A} (m : M (World C) A) (w : World C) (a : A) : Prop :=
  exists w', m w = (w', Ok a) /\ w_db w' = w_db w /\ w_mem w' = w_mem w.

Section calm.
Context `{Env} {C : Type} (Hcalm : calm).
Implicit Types w : World C.

Lemma calm_pg_call {A} (s : Z -> DB -> res (DB * A)) w d a :
  s (env_now (w_step w)) (w_db w) = Ok (d, a) ->
  pg_call s w = (set_db d (set_step (S (w_step w)) w), Ok a).
Proof. intros E. unfold pg_call, bind, tick. simpl. by rewrite (calm_pg Hcalm), E. Qed.

Lemma cached_operator_answers key (s : Z -> DB -> res (DB * option Operators)) w o :
  (forall now, s now (w_db w) = Ok (w_db w, o)) ->
  answers (cached_operator key s) w (scan_Operators <$> o).
Proof.
  intros Hs. unfold answers, cached_operator, cached, GetWithTtl.
  destruct dc_present; unfold bind at 1.
  - unfold bind, tick, gets, modify. simpl. rewrite (calm_cache Hcalm).
    rewrite (calm_pg_call s _ (w_db w) o) by apply Hs. simpl. eauto.
  - unfold bind. rewrite (calm_pg_call s _ (w_db w) o) by apply Hs. simpl. eauto.
Qed.

Lemma GetOperatorByP2PKey_answers k w : answers (GetOperatorByP2PKey k) w
  (scan_Operators <$> first_row (fun o => bool_decide (ToLower (o_P2pKey o) = ToLower k))
                        (db_operators (w_db w))).
Proof. by apply cached_operator_answers. Qed.

Lemma GetOperatorBySigningKey_answers k w : answers (GetOperatorBySigningKey k) w
  (scan_Operators <$> first_row (fun o => bool_decide (o_SigningKey o = k)) (db_operators (w_db w))).
Proof. by apply cached_operator_answers. Qed.

Lemma GetConsensusResponseByTaskId_answers id w : answers (GetConsensusResponseByTaskId id) w
  (scan_ConsensusResponse <$> db_consensus (w_db w) !! id).
Proof.
  unfold answers, GetConsensusResponseByTaskId, bind.
  rewrite (calm_pg_call _ w (w_db w) (db_consensus (w_db w) !! id)) by done. eexists. split; [done|].
  by destruct w.
Qed.

Lemma wp_answers {A} (m : M (World C) A) (Q : World C -> res A -> Prop) w a :
  answers m w a -> (forall w', w_db w' = w_db w -> w_mem w' = w_mem w -> Q w' (Ok a)) -> wp m Q w.
Proof. intros (w' & E & Hd & Hm) HQ. unfold wp. rewrite E. by apply HQ. Qed.
End calm.

(** ** Weights that are there add up *)

Definition weight_sum (ws : gmap string (option Z)) : Z :=
  map_fold (fun _ w acc => acc + default 0 w) 0 ws.

Definition good_weights (ws : gmap string (option Z)) : Prop :=
  map_Forall (fun _ w => exists x, w = Some x /\ 0 <= x) ws.

Lemma weight_sum_insert sk w ws : ws !! sk = None ->
  weight_sum (<[sk := w]> ws) = weight_sum ws + default 0 w.
Proof. intros Hn. unfold weight_sum. rewrite map_fold_insert_L; [lia|intros; lia|done]. Qed.

Lemma total_of_good ws : good_weights ws -> calculateTotalWeight ws = Ok (weight_sum ws).
Proof.
  unfold calculateTotalWeight.
  apply (map_fold_weak_ind (fun r ws => good_weights ws -> r = Ok (weight_sum ws))); [done|].
  intros sk w m r Hn IH Hg. apply map_Forall_insert in Hg as [(x & -> & _) Hg]; [|done].
  rewrite (IH Hg), weight_sum_insert by done. done.
Qed.

Definition vote_sum (vs : list (string * Z)) : Z := fold_right Z.add 0 vs.*2.

Lemma votes_within vs ws : good_weights ws -> NoDup vs.*1 ->
  (forall sk x, (sk, x) ∈ vs -> ws !! sk = Some (Some x)) -> vote_sum vs <= weight_sum ws.
Proof.
  revert ws. induction vs as [|[sk x] vs IH]; intros ws Hg Hnd Hin.
  - change (0 <= weight_sum ws). revert Hg. clear. induction ws as [|sk w m Hn IH] using map_ind; [done|].
    intros Hg. apply map_Forall_insert in Hg as [(x & -> & Hx) Hg]; [|done].
    rewrite weight_sum_insert by done. specialize (IH Hg). simpl. lia.
  - apply NoDup_cons in Hnd as [Hni Hnd].
    assert (ws !! sk = Some (Some x)) as Hsk by (apply Hin; by left).
    rewrite <- (insert_delete_id ws sk (Some x)), weight_sum_insert by (done || apply lookup_delete_eq).
    change (x + vote_sum vs <= weight_sum (delete sk ws) + x).
    assert (vote_sum vs <= weight_sum (delete sk ws)); [|lia]. apply IH; [|done|].
    + by apply map_Forall_delete.
    + intros sk' x' Hx'. rewrite lookup_delete_ne; [apply Hin; by right|].
      intros ->. apply Hni, list_elem_of_fmap. by exists (sk', x').
Qed.

(** ** The request that is voted on *)

Record Ballot := mkBallot {
  bl_task : string;
  bl_epoch : Z;
  bl_address : string;
  bl_chain : Z;
  bl_block : Z;
  bl_key : Z;
}.

(** The consensus table takes its values. *)
Definition ballot_fits (b : Ballot) : Prop :=
  fits_int4 (bl_epoch b) = true /\ fits_int4 (bl_chain b) = true /\ fits_int8 (bl_block b) = true /\
  fits_varchar 66 (bl_task b) = true /\ fits_varchar 42 (bl_address b) = true.

Section live.
Context `{EnvOk} `{EthLib} `{P2PLib} `{PubSub} `{OperatorSigner} `{CM : ChainManager}.
Context {C : Type} `{HasTaskOk C}.
Implicit Types w : World C.
Context (Hcalm : calm) (b : Ballot) (ops : gmap string Operators) (threshold : Z).

(** The operator table: addresses that fit their column in the consensus
    table, and weights that are numbers. *)
Definition ops_ok : Prop := forall a op, ops !! a = Some op ->
  fits_varchar 42 (o_Address op) = true /\
  exists x, 0 <= x /\ NumericToBigInt (scan_numeric (o_Weight op)) = Ok (Some x).

(** A response to the ballot, whatever its value *)
Definition answers_ballot (r : taskResponse) : Prop :=
  tr_taskID r = bl_task b /\ tr_epoch r = bl_epoch b /\ tr_targetAddress r = bl_address b /\
  tr_chainID r = bl_chain b /\ tr_blockNumber r = bl_block b /\
  StringToBigInt (tr_key r) = Some (bl_key b) /\ is_Some (StringToBigInt (tr_value r)).

(** A message that carries the vote of an active operator other than the
    node itself, signed, of weight [x] *)
Definition vote (msg : Message) (sk : string) (x : Z) : Prop := exists pb p2pKey op,
  proto_Unmarshal (msg_Data msg) = Ok pb /\ answers_ballot (convertProtoToResponse pb) /\
  PeerIDToP2PKey (msg_ReceivedFrom msg) = Ok p2pKey /\
  first_row (fun o => bool_decide (ToLower (o_P2pKey o) = ToLower p2pKey)) ops = Some op /\
  o_IsActive op = true /\ o_SigningKey op = sk /\ sk <> mySigningKey /\
  verifyResponse (convertProtoToResponse pb) sk = Ok tt /\
  NumericToBigInt (scan_numeric (o_Weight op)) = Ok (Some x).

(** ** What holds of the node meanwhile *)

Definition base w : Prop :=
  db_operators (w_db w) = ops /\ GetThresholdWeight (w_mem w) = Some threshold /\
  GetCurrentEpochNumber (w_mem w) = bl_epoch b.

Definition published (d : DB) : Prop := is_Some (db_consensus d !! bl_task b).

(** Nothing is stored for the task, nor for the request under another task. *)
Definition open (d : DB) : Prop :=
  db_consensus d !! bl_task b = None /\
  forall id row, db_consensus d !! id = Some row ->
    same_request (bl_address b) (bl_chain b) (bl_block b) (BigIntToNumeric (Some (bl_key b))) row = false.

Definition held (k : TaskResponseTrack) : gmap string taskResponse :=
  default ∅ (tk_responses k !! bl_task b).
Definition weights (k : TaskResponseTrack) : gmap string (option Z) :=
  default ∅ (tk_weights k !! bl_task b).

(** The votes are held; what is held comes from operators, with weights that
    are numbers, from the voters or the node itself. *)
Record tracked (vs : list (string * Z)) (k : TaskResponseTrack) : Prop := {
  tr_shape : track_shape k;
  tr_weights : good_weights (weights k);
  tr_votes : forall sk x, (sk, x) ∈ vs -> weights k !! sk = Some (Some x);
  tr_signers : forall sk, is_Some (held k !! sk) ->
    exists a op, ops !! a = Some op /\ o_SigningKey op = sk;
  tr_voters : forall sk, is_Some (held k !! sk) -> sk = mySigningKey \/ sk ∈ vs.*1;
  tr_distinct : NoDup vs.*1;
  tr_others : mySigningKey ∉ vs.*1;
}.

(** Published, or all the votes held and not enough *)
Definition live (vs : list (string * Z)) w : Prop :=
  base w /\ (published (w_db w) \/
    open (w_db w) /\ tracked vs (get_track w) /\ vote_sum vs < threshold).

(** ** Storing a response *)

Lemma held_lookup k sk : held k !! sk = lookup2 (tk_responses k) (bl_task b) sk.
Proof. unfold held, lookup2. by destruct (tk_responses k !! bl_task b). Qed.
Lemma weights_lookup k sk : weights k !! sk = lookup2 (tk_weights k) (bl_task b) sk.
Proof. unfold weights, lookup2. by destruct (tk_weights k !! bl_task b). Qed.

(** One more response of an operator, under a key of its own *)
Lemma store_tracked vs vs' k sk r x : tracked vs k -> 0 <= x ->
  (exists a op, ops !! a = Some op /\ o_SigningKey op = sk) -> sk ∉ vs.*1 ->
  (vs' = vs /\ sk = mySigningKey \/ vs' = (sk, x) :: vs /\ sk <> mySigningKey) ->
  exists k', store_section (bl_task b) sk r (Some x) k = Ok k' /\ tracked vs' k' /\ held k' <> ∅.
Proof.
  intros [Hs Hg Hv Hsg Hvo Hnd Hmy] Hx Hop Hni Hvs.
  destruct (store_section_spec (bl_task b) sk r (Some x) k Hs) as (k' & E & Hs' & Hr & Hw).
  assert (forall sk', held k' !! sk' = if decide (sk' = sk) then Some r else held k !! sk') as Hr'.
  { intros sk'. rewrite !held_lookup, Hr.
    by destruct (decide (sk' = sk)) as [->|Hne];
      [rewrite decide_True|rewrite decide_False by by intros [_ ?]]. }
  assert (forall sk', weights k' !! sk' = if decide (sk' = sk) then Some (Some x) else weights k !! sk') as Hw'.
  { intros sk'. rewrite !weights_lookup, Hw.
    by destruct (decide (sk' = sk)) as [->|Hne];
      [rewrite decide_True|rewrite decide_False by by intros [_ ?]]. }
  exists k'. split; [done|]. split.
  - constructor.
    + done.
    + intros sk' w'. rewrite Hw'. case_decide; [intros [= <-]; eauto|apply Hg].
    + intros sk' x' Hin. rewrite Hw'.
      destruct Hvs as [[-> ->]|[-> _]].
      * rewrite decide_False; [by apply Hv|]. intros ->. apply Hmy, list_elem_of_fmap. by exists (mySigningKey, x').
      * apply elem_of_cons in Hin as [[= -> ->]|Hin]; [by rewrite decide_True|].
        rewrite decide_False; [by apply Hv|]. intros ->. apply Hni, list_elem_of_fmap. by exists (sk, x').
    + intros sk'. rewrite Hr'. case_decide as Hsk; [by subst|apply Hsg].
    + intros sk'. rewrite Hr'. simpl. destruct Hvs as [[-> ->]|[-> _]]; case_decide as Hsk.
      * by left.
      * apply Hvo.
      * intros _. right. rewrite Hsk. by left.
      * intros [?|?]%Hvo; [by left|right; by right].
    + destruct Hvs as [[-> _]|[-> _]]; [done|]. by apply NoDup_cons.
    + destruct Hvs as [[-> _]|[-> Hne]]; [done|]. simpl. by apply not_elem_of_cons.
  - intros Ee. specialize (Hr' sk). rewrite Ee, lookup_empty, decide_True in Hr' by done. done.
Qed.

(** ** Publishing *)

Lemma collect_from_answers rs ks w : ops_ok -> db_operators (w_db w) = ops ->
  (forall sk, is_Some (rs !! sk) -> exists a op, ops !! a = Some op /\ o_SigningKey op = sk) ->
  exists p, answers (collect_from rs ks) w p /\ forallb (fits_varchar 42) p.2 = true.
Proof.
  intros Hops. revert w. induction ks as [|k ks IH]; intros w Hw Hrs; cbn [collect_from].
  { exists ([], []). split; [by exists w|done]. }
  destruct (rs !! k) as [r|] eqn:Er; [|by apply IH].
  destruct (Hrs k) as (a & op & Hop & Hsk); [by eexists|].
  destruct (first_row (fun o => bool_decide (o_SigningKey o = k)) ops) as [row|] eqn:Ef.
  2: { pose proof (first_row_None _ _ Ef a op Hop) as Hb. simpl in Hb. by rewrite bool_decide_true in Hb. }
  apply first_row_Some in Ef as Hrow. destruct Hrow as (_ & a' & Ha').
  destruct (Hops a' row Ha') as [Hfit _].
  destruct (GetOperatorBySigningKey_answers Hcalm k w) as (w1 & E1 & Hd1 & Hm1).
  rewrite Hw, Ef in E1.
  destruct (IH w1) as ([sigs addrs] & (w2 & E2 & Hd2 & Hm2) & Hall); [congruence|done|].
  exists (tr_signature r :: sigs, o_Address row :: addrs). split.
  - exists w2. unfold bind at 1, wrapM. rewrite E1. simpl. unfold bind. rewrite E2. simpl.
    split_and!; [done|congruence..].
  - simpl. by rewrite Hfit.
Qed.

Lemma create_for_ballot r sigs addrs now d : ballot_fits b -> answers_ballot r -> open d ->
  forallb (fits_varchar 42) addrs = true -> exists d' row,
    sql_createConsensusResponse (consensus_params r sigs addrs) now d = Ok (d', row) /\
    db_consensus d' = <[bl_task b := row]> (db_consensus d).
Proof.
  intros (F1 & F2 & F3 & F4 & F5) (Hid & He & Ha & Hc & Hb & Hk & [v Hv]) [Hnone Hnew] Hall.
  unfold sql_createConsensusResponse, consensus_params, StringToNumeric. simpl.
  rewrite Hk, Hv, Hid, He, Ha, Hc, Hb. simpl. rewrite F1, F2, F3, F4, F5, Hall. simpl.
  rewrite decide_False by by rewrite Hnone; intros [? [=]].
  destruct (existsb _ _) eqn:E; [exfalso|by eexists _, _].
  apply existsb_exists in E as (row & Hin & Hs).
  apply list_elem_of_In, elem_of_table_rows in Hin as [id Hid'].
  by rewrite (Hnew id row Hid') in Hs.
Qed.

(** The database of [open] is that of its consensus table. *)
Lemma open_consensus d d' : db_consensus d' = db_consensus d -> open d -> open d'.
Proof. unfold open. by intros ->. Qed.

(** With the votes in and enough of them, a check publishes. *)
Lemma checkConsensus_publishes vs w r : ops_ok -> ballot_fits b -> base w -> open (w_db w) ->
  tracked vs (get_track w) -> held (get_track w) <> ∅ -> answers_ballot r ->
  threshold <= weight_sum (weights (get_track w)) -> published (w_db (checkConsensus r w).1).
Proof.
  intros Hops Hfit (Hop & Hth & _) Hopen [_ Hg _ Hsg _ _ _] Hne Hr Hge.
  pose proof Hr as (Hid & _).
  enough (wp (checkConsensus r) (fun w' _ => published (w_db w')) w) as Hwp by done.
  unfold checkConsensus. rewrite Hid. apply wp_bind, wp_gets.
  change (default ∅ (tk_responses (get_track w) !! bl_task b)) with (held (get_track w)).
  change (default ∅ (tk_weights (get_track w) !! bl_task b)) with (weights (get_track w)).
  rewrite bool_decide_eq_false_2 by done. apply wp_bind, wp_lift. rewrite (total_of_good _ Hg).
  apply wp_bind, wp_gets, wp_bind, wp_lift. rewrite Hth. simpl.
  set (rest := let! _ := _ in _).
  assert (wp rest (fun w' _ => published (w_db w')) w) as Hrest;
    [|destruct (weight_sum (weights (get_track w)) ?= threshold) eqn:E; [exact Hrest| |exact Hrest]].
  2: { change (weight_sum (weights (get_track w)) < threshold) in E. lia. }
  subst rest. apply wp_bind, wp_wrapM.
  destruct (collect_from_answers (held (get_track w)) (sorted_keys (held (get_track w))) w Hops Hop Hsg)
    as ([sigs addrs] & Hans & Hall).
  eapply wp_answers; [exact Hans|]. intros w1 Hd1 Hm1. simpl.
  destruct (create_for_ballot r sigs addrs (env_now (w_step w1)) (w_db w1) Hfit Hr) as (d' & row & Ec & Ed);
    [by apply (open_consensus (w_db w)); [rewrite Hd1|]|done|].
  apply wp_bind, wp_wrapM. unfold CreateConsensusResponse. apply wp_bind. unfold wp at 1.
  rewrite (calm_pg_call Hcalm _ w1 d' row Ec). apply wp_ret. simpl.
  eapply (wp_preserves (db_pred (on_consensus (fun m => is_Some (m !! bl_task b))))).
  - apply preserves_wrapM, markTaskAsCompleted_consensus.
  - unfold db_pred, on_consensus. simpl. rewrite Ed, lookup_insert_eq. by eexists.
  - by intros w2 out.
Qed.

(** ** What keeps the ballot as it is *)

Lemma base_kept {A} (m : M (World C) A) : (forall Q, preserves (mem_pred Q) m) ->
  (forall Q, preserves (db_pred (on_operators Q)) m) -> preserves base m.
Proof.
  intros Hm Hd w (Hop & Hth & He). split_and!.
  - symmetry. exact (Hd (eq ops) w (eq_sym Hop)).
  - exact (Hm (fun c => GetThresholdWeight c = Some threshold) w Hth).
  - exact (Hm (fun c => GetCurrentEpochNumber c = bl_epoch b) w He).
Qed.

Lemma track_kept {A} (m : M (World C) A) w : (forall Q, preserves (mem_pred Q) m) ->
  get_track (m w).1 = get_track w.
Proof. intros Hm. exact (Hm (fun c => tm_track (task_mem c) = get_track w) w eq_refl). Qed.

Lemma live_same vs w w' : w_db w' = w_db w -> w_mem w' = w_mem w -> live vs w -> live vs w'.
Proof. unfold live, base, get_track. by intros -> ->. Qed.

Lemma live_kept {A} (m : M (World C) A) vs : (forall Q, preserves (mem_pred Q) m) ->
  (forall Q, preserves (db_pred (on_operators Q)) m) ->
  (forall Q, preserves (db_pred (on_consensus Q)) m) -> preserves (live vs) m.
Proof.
  intros Hm Ho Hc w [Hb Hs]. split; [by apply base_kept|].
  assert (db_consensus (w_db (m w).1) = db_consensus (w_db w)) as Ec
    by exact (Hc (fun x => x = db_consensus (w_db w)) w eq_refl).
  destruct Hs as [Hp|(Hopen & Ht & Hlt)]; [left; unfold published; by rewrite Ec|right].
  rewrite track_kept by done. split_and!; [by eapply open_consensus|done|done].
Qed.

Lemma live_answers {A} (m : M (World C) A) vs w a : answers m w a -> live vs w ->
  wp m (fun w' r => live vs w' /\ r = Ok a) w.
Proof. intros Ha Hw. eapply wp_answers; [exact Ha|]. intros w' Hd Hm. split; [by eapply live_same|done]. Qed.

Lemma checkConsensus_operators Q r : preserves (db_pred (C:=C) (on_operators Q)) (checkConsensus r).
Proof.
  unfold checkConsensus, collectSignaturesAndAddresses, markTaskAsCompleted.
  solve_preserves; apply collect_from_db; intros; solve_preserves.
Qed.

Lemma checkConsensus_live vs r : tr_taskID r = bl_task b -> preserves (live vs) (checkConsensus r).
Proof.
  intros Hid w [Hb Hs]. split.
  { apply base_kept; [intros; apply checkConsensus_mem|intros; apply checkConsensus_operators|done]. }
  rewrite track_kept by (intros; apply checkConsensus_mem).
  destruct (checkConsensus r w) as [w' out] eqn:E. simpl.
  destruct (checkConsensus_table r w w' out E) as [Ec|(rs & tot & th & row & _ & _ & Ec)].
  - destruct Hs as [Hp|(Hopen & Ht & Hlt)]; [left; unfold published; by rewrite Ec|right].
    split_and!; [by eapply open_consensus|done|done].
  - left. unfold published. rewrite Ec, Hid, lookup_insert_eq. by eexists.
Qed.

(** Storing in the tracker changes neither the database nor the epoch. *)
Lemma put_base k w : base w -> base (put_track k w).
Proof.
  unfold base, put_track, put_task_mem. simpl. by rewrite threshold_set_task, epoch_set_task.
Qed.

Lemma locked_store_base sk r x : preserves base (locked (store_section (bl_task b) sk r x)).
Proof. intros w Hw. unfold locked. by destruct (store_section _ _ _ _ _); [apply put_base|..]. Qed.

Lemma broadcastResponse_base r : preserves base (broadcastResponse r).
Proof.
  intros w Hb. unfold broadcastResponse, bind at 1, wrapM, lift. destruct (wrap _ _); [|done..].
  unfold bind at 1, gets. destruct (tm_responseTopic _); [|done].
  unfold bind, extern, tick, lift, modify. simpl. destruct (topic_Publish _ _); [|done..].
  unfold base, put_task_mem in *. simpl. by rewrite threshold_set_task, epoch_set_task.
Qed.

Lemma broadcastResponse_live vs r : preserves (live vs) (broadcastResponse r).
Proof.
  intros w [Hb Hs]. split; [by apply broadcastResponse_base|].
  pose proof (broadcastResponse_db (eq (w_db w)) r w eq_refl) as Hd.
  pose proof (broadcastResponse_track (eq (get_track w)) r w eq_refl) as Ht.
  unfold db_pred, on_track in Hd, Ht. by rewrite <- Hd, <- Ht.
Qed.

(** ** The node's own answer *)

Lemma answer_task_id (I : World C -> Prop) t : (forall cl tg k n, preserves I (getStateWithRetries cl tg k n)) ->
  ensures I (answer_task t) (fun r => tr_taskID r = t_TaskID t).
Proof.
  intros Hst. eapply ensures_weaken.
  - by apply (answer_task_ensures (fun _ _ _ => True) (fun _ => True)).
  - by intros r [].
Qed.

(** The node's own weight is that of a row of the table. *)
Lemma own_operator vs : ensures (live vs) (GetOperatorBySigningKey mySigningKey)
  (fun o => o = scan_Operators <$> first_row (fun o => bool_decide (o_SigningKey o = mySigningKey)) ops).
Proof.
  intros w Hw. pose proof (live_answers _ vs w _ (GetOperatorBySigningKey_answers Hcalm mySigningKey w) Hw) as [Hl Hr].
  split; [done|]. intros a. rewrite Hr. intros [= <-]. by destruct Hw as [[-> _] _].
Qed.

Lemma own_store_live vs r op x : ops_ok -> first_row (fun o => bool_decide (o_SigningKey o = mySigningKey)) ops = Some op ->
  NumericToBigInt (o_Weight (scan_Operators op)) = Ok x ->
  preserves (live vs) (locked (store_section (bl_task b) mySigningKey r x)).
Proof.
  intros Hops Hop Hx w [Hb Hs]. split; [by apply locked_store_base|].
  pose proof (locked_db (eq (w_db w)) (store_section (bl_task b) mySigningKey r x) w eq_refl) as Hd.
  unfold db_pred in Hd. rewrite <- Hd. destruct Hs as [Hp|(Hopen & Ht & Hlt)]; [by left|right].
  split_and!; [done| |done]. apply first_row_Some in Hop as [Hk (a & Ha)].
  apply bool_decide_eq_true in Hk. destruct (Hops a op Ha) as (_ & y & Hy & Ey).
  simpl in Hx. rewrite Ey in Hx. injection Hx as <-.
  destruct (store_tracked vs vs (get_track w) mySigningKey r y Ht Hy) as (k' & E & Hk' & _).
  - by exists a, op.
  - apply (tr_others _ _ Ht).
  - by left.
  - unfold locked. rewrite E. simpl. by rewrite get_put_track.
Qed.

Lemma ProcessTask_live vs t : ops_ok -> t_TaskID t = bl_task b -> preserves (live vs) (ProcessTask (Some t)).
Proof.
  intros Hops Hid. unfold ProcessTask, alreadyProcessed. apply preserves_bind.
  { apply preserves_bind; [apply preserves_gets|intros; apply preserves_ret]. }
  intros []; [apply preserves_ret|]. eapply preserves_bind_ensures.
  { apply answer_task_id. intros. apply live_kept; intros; unfold getStateWithRetries; solve_preserves. }
  intros r Hr. simpl in Hr. eapply preserves_bind_ensures; [apply ensures_wrapM, own_operator|].
  intros o ->. destruct (first_row _ ops) as [op|] eqn:Ef; [|apply preserves_panic]. simpl.
  eapply preserves_bind_ensures.
  { apply ensures_wrapM, ensures_lift. intros x Hx. exact Hx. }
  intros x Hx. rewrite Hid. apply preserves_bind; [by eapply own_store_live|]. intros _.
  apply preserves_bind; [apply preserves_wrapM, broadcastResponse_live|]. intros _.
  apply preserves_bind; [|intros; apply preserves_ret].
  apply preserves_try, checkConsensus_live. by rewrite Hr.
Qed.

(** ** A vote is handled *)

(** The vote is stored and consensus checked. *)
Lemma accept_live vs sk x r op w : ops_ok -> ballot_fits b -> live vs w -> open (w_db w) ->
  tracked vs (get_track w) -> answers_ballot r -> (exists a, ops !! a = Some op) ->
  o_SigningKey op = sk -> sk ∉ vs.*1 -> sk <> mySigningKey -> 0 <= x ->
  NumericToBigInt (o_Weight (scan_Operators op)) = Ok (Some x) ->
  wp (accept_response r sk (scan_Operators op)) (fun w' _ => live ((sk, x) :: vs) w') w.
Proof.
  intros Hops Hfit [Hb _] Hopen Ht Hr [a Ha] Hsk Hni Hne Hx Hw.
  pose proof Hr as (Hid & _). unfold accept_response.
  apply wp_bind, wp_wrapM, wp_lift. rewrite Hw. cbn [wrap].
  destruct (store_tracked vs ((sk, x) :: vs) (get_track w) sk r x Ht Hx) as (k' & E & Ht' & Hheld).
  { by exists a, op. } { done. } { by right. }
  apply wp_bind. unfold storeResponseAndWeight, wp at 1, locked. rewrite Hid, E. cbn [fst snd].
  set (w1 := put_track k' w).
  assert (base w1) as Hb1 by by apply put_base.
  assert (get_track w1 = k') as Ek by apply get_put_track.
  assert (live ((sk, x) :: vs) (checkConsensus r w1).1) as Hl.
  { destruct (Z_lt_ge_dec (weight_sum (weights k')) threshold) as [Hlt|Hge].
    - apply checkConsensus_live; [done|]. split; [done|]. right. rewrite Ek.
      split_and!; [done|done|]. eapply Z.le_lt_trans; [|exact Hlt].
      apply votes_within; [apply Ht'|apply Ht'|apply Ht'].
    - split.
      + apply base_kept; [intros; apply checkConsensus_mem|intros; apply checkConsensus_operators|done].
      + left. apply (checkConsensus_publishes ((sk, x) :: vs)); rewrite ?Ek; try done. lia. }
  apply wp_bind, wp_try. unfold wp at 1. cbn [fst snd].
  destruct (checkConsensus r w1) as [w2 out]. simpl in Hl.
  assert (wp (let! processed := alreadyProcessed (bl_task b) mySigningKey in
     if processed : bool then ret tt
     else wrapM "failed to process task" (ProcessTask (Some (task_of_response r))))
    (fun w' _ => live ((sk, x) :: vs) w') w2) as Hrest; [|by destruct out].
  eapply (wp_preserves (live ((sk, x) :: vs))); [|done|done].
  apply preserves_bind.
  { apply preserves_bind; [apply preserves_gets|intros; apply preserves_ret]. }
  intros []; [apply preserves_ret|]. apply preserves_wrapM. by apply ProcessTask_live.
Qed.

Lemma processResponse_live vs msg sk x w : ops_ok -> ballot_fits b -> live vs w -> vote msg sk x ->
  sk ∉ vs.*1 -> wp (processResponse msg) (fun w' _ => live ((sk, x) :: vs) w') w.
Proof.
  intros Hops Hfit Hw (pb & p2p & op & Epb & Hr & Ep2p & Ef & Hact & Hsk & Hne & Hver & Hx) Hni.
  pose proof Hr as (Hid & He & _). simpl in Hid. pose proof (proj1 Hw) as (Hop & _ & Hep).
  assert (forall w', published (w_db w') -> base w' -> live ((sk, x) :: vs) w') as Hpub
    by (intros; split; [done|by left]).
  unfold processResponse. apply wp_bind, wp_wrapM, wp_lift. rewrite Epb. simpl.
  apply wp_bind, wp_gets. rewrite Hep. simpl in He. rewrite He, Z.eqb_refl. simpl. rewrite Ep2p.
  apply wp_bind, wp_try. eapply wp_answers; [apply (GetOperatorByP2PKey_answers Hcalm)|].
  intros w1 Hd1 Hm1. rewrite Hop, Ef. simpl. rewrite Hact. simpl. rewrite Hsk.
  assert (live vs w1) as Hw1 by by eapply live_same. pose proof (proj1 Hw1) as Hb1.
  apply wp_bind. unfold alreadyProcessed. apply wp_bind, wp_gets, wp_ret. rewrite Hid.
  destruct (proj2 Hw1) as [Hp|(Hopen & Ht & Hlt)].
  - destruct (bool_decide _); [apply wp_ret; by apply Hpub|].
    apply wp_bind, wp_try. eapply wp_answers; [apply (GetConsensusResponseByTaskId_answers Hcalm)|].
    intros w2 Hd2 Hm2. destruct Hp as [row Hrow]. rewrite Hrow. simpl. apply wp_ret, Hpub.
    + rewrite Hd2. by exists row.
    + unfold base in *. by rewrite Hd2, Hm2.
  - rewrite bool_decide_eq_false_2.
    2: { rewrite <- held_lookup. intros Hin. by destruct (tr_voters _ _ Ht sk Hin). }
    apply wp_bind, wp_try. eapply wp_answers; [apply (GetConsensusResponseByTaskId_answers Hcalm)|].
    intros w2 Hd2 Hm2. rewrite (proj1 Hopen). simpl. rewrite Hver.
    apply first_row_Some in Ef as Ha. destruct Ha as (_ & a & Ha).
    apply accept_live; try done.
    + by eapply live_same.
    + by rewrite Hd2.
    + unfold get_track in *. by rewrite Hm2.
    + by exists a.
    + destruct (Hops a op Ha) as (_ & y & Hy & Ey). rewrite Ey in Hx. by injection Hx as <-.
Qed.

Lemma handleResponse_live vs msg sk x w : ops_ok -> ballot_fits b -> live vs w -> vote msg sk x ->
  sk ∉ vs.*1 -> live ((sk, x) :: vs) (handleResponse msg w).1.
Proof.
  intros. enough (wp (handleResponse msg) (fun w' _ => live ((sk, x) :: vs) w') w) as Hwp by done.
  unfold handleResponse. apply wp_recovered, wp_bind, wp_try.
  eapply wp_mono; [by apply processResponse_live|]. by intros w' [a|e|s].
Qed.

(** ** Votes arrive while the node works *)

(** What else happens may do anything but to this ballot: the operators, the
    epoch and the threshold stay, what is held for the task is not dropped or
    added to, and no consensus is stored for the request under another task. *)
Record undisturbed w w' : Prop := {
  un_base : base w -> base w';
  un_published : published (w_db w) -> published (w_db w');
  un_open : open (w_db w) -> open (w_db w');
  un_shape : track_shape (get_track w) -> track_shape (get_track w');
  un_held : held (get_track w') = held (get_track w);
  un_weights : weights (get_track w') = weights (get_track w);
}.

(** *** Messages about other tasks leave the ballot alone *)

(** A response for another task and another request *)
Definition about_other (r : taskResponse) : Prop := tr_taskID r <> bl_task b /\
  (tr_targetAddress r <> bl_address b \/ tr_chainID r <> bl_chain b \/ tr_blockNumber r <> bl_block b).

(** From [w0] on, with a tracker in shape *)
Definition since w0 w : Prop := undisturbed w0 w /\ track_shape (get_track w).

Lemma undisturbed_refl w : undisturbed w w.
Proof. by constructor. Qed.

Lemma undisturbed_trans w w' w'' : undisturbed w w' -> undisturbed w' w'' -> undisturbed w w''.
Proof. intros [] []. constructor; auto; congruence. Qed.

Lemma since_step {A} (m : M (World C) A) : (forall w, track_shape (get_track w) -> undisturbed w (m w).1) ->
  forall w0, preserves (since w0) m.
Proof.
  intros Hm w0 w [Hu Hs]. specialize (Hm w Hs). split; [by eapply undisturbed_trans|]. by apply Hm.
Qed.

Lemma since_kept {A} (m : M (World C) A) w0 : (forall Q, preserves (mem_pred Q) m) ->
  (forall Q, preserves (db_pred (on_operators Q)) m) ->
  (forall Q, preserves (db_pred (on_consensus Q)) m) -> preserves (since w0) m.
Proof.
  intros Hm Ho Hc. apply since_step. intros w _.
  assert (db_consensus (w_db (m w).1) = db_consensus (w_db w)) as Ec
    by exact (Hc (fun x => x = db_consensus (w_db w)) w eq_refl).
  constructor; rewrite ?(track_kept m w Hm); try done.
  - by apply base_kept.
  - unfold published. by rewrite Ec.
  - by apply open_consensus.
Qed.

Lemma store_since w0 id sk r x : id <> bl_task b -> preserves (since w0) (locked (store_section id sk r x)).
Proof.
  intros Hid. apply since_step. intros w Hs.
  destruct (store_section_spec id sk r x (get_track w) Hs) as (k' & E & Hs' & Hr & Hw).
  assert (forall A (m m' : gmap string (gmap string A)), (forall c, lookup2 m (bl_task b) c = lookup2 m' (bl_task b) c) ->
    default ∅ (m !! bl_task b) = default ∅ (m' !! bl_task b)) as Hext.
  { intros A m m' Hm. apply map_eq. intros c. specialize (Hm c). unfold lookup2 in Hm.
    by destruct (m !! bl_task b), (m' !! bl_task b). }
  unfold locked. rewrite E. simpl. constructor; rewrite ?get_put_track; try done.
  - apply put_base.
  - apply Hext. intros c. rewrite Hr, decide_False; [done|]. by intros [? _].
  - apply Hext. intros c. rewrite Hw, decide_False; [done|]. by intros [? _].
Qed.

Lemma broadcastResponse_since w0 r : preserves (since w0) (broadcastResponse r).
Proof.
  apply since_step. intros w _.
  pose proof (broadcastResponse_db (eq (w_db w)) r w eq_refl) as Hd.
  pose proof (broadcastResponse_track (eq (get_track w)) r w eq_refl) as Ht.
  unfold db_pred, on_track in Hd, Ht. constructor; rewrite <- ?Hd, <- ?Ht; try done.
  apply broadcastResponse_base.
Qed.

Lemma checkConsensus_since w0 r : about_other r -> preserves (since w0) (checkConsensus r).
Proof.
  intros [Hid Hreq]. apply since_step. intros w _.
  destruct (checkConsensus r w) as [w' out] eqn:E. simpl.
  assert (base w -> base w') as Hb.
  { intros Hb. change w' with (w', out).1. rewrite <- E.
    apply base_kept; [intros; apply checkConsensus_mem|intros; apply checkConsensus_operators|done]. }
  assert (get_track w' = get_track w) as Et.
  { change w' with (w', out).1. rewrite <- E. apply track_kept. intros. apply checkConsensus_mem. }
  constructor; rewrite ?Et; try done; unfold published, open;
    (destruct (checkConsensus_table r w w' out E) as [Ec|(rs & tot & th & row & Hrow & _ & Ec)]; rewrite Ec; [done|]).
  - by rewrite lookup_insert_ne.
  - intros [Hn Ho]. split; [by rewrite lookup_insert_ne|].
    intros id row' [[<- <-]|[_ Hr]]%lookup_insert_Some; [|by eapply Ho].
    destruct (cr_identity _ _ _ _ _ _ Hrow) as (_ & _ & Ech & Ebl & Ead).
    unfold same_request. rewrite Ead, Ech, Ebl.
    destruct Hreq as [Hne|[Hne|Hne]]; [rewrite bool_decide_eq_false_2 by done|rewrite (proj2 (Z.eqb_neq _ _) Hne)..];
      by rewrite ?andb_false_r, ?andb_false_l.
Qed.
(** A task for another request, and the answers to it *)
Definition other_task (t : Tasks) : Prop := about_other (own_response t [] None).

Lemma answer_task_since w0 t : other_task t -> ensures (since w0) (answer_task t) about_other.
Proof.
  intros Ht. eapply ensures_weaken.
  - apply (answer_task_ensures (fun _ _ => about_other) other_task); [by intros| |exact Ht].
    intros. apply since_kept; intros; unfold getStateWithRetries; solve_preserves.
  - by intros r [_ ?].
Qed.

Lemma ProcessTask_since w0 t : other_task t -> preserves (since w0) (ProcessTask (Some t)).
Proof.
  intros Ht. unfold ProcessTask, alreadyProcessed. apply preserves_bind.
  { apply preserves_bind; [apply preserves_gets|intros; apply preserves_ret]. }
  intros []; [apply preserves_ret|]. eapply preserves_bind_ensures; [by apply answer_task_since|].
  intros r Hr. apply preserves_bind; [apply since_kept; intros; solve_preserves|].
  intros [op|]; [|apply preserves_panic]. apply preserves_bind; [apply preserves_wrapM, preserves_lift|].
  intros x. apply preserves_bind; [apply store_since, Ht|]. intros _.
  apply preserves_bind; [apply preserves_wrapM, broadcastResponse_since|]. intros _.
  apply preserves_bind; [by apply preserves_try, checkConsensus_since|]. intros _. apply preserves_ret.
Qed.

Lemma accept_response_since w0 r sk op : about_other r -> preserves (since w0) (accept_response r sk op).
Proof.
  intros Hr. unfold accept_response. apply preserves_bind; [apply preserves_wrapM, preserves_lift|].
  intros x. apply preserves_bind; [apply store_since, Hr|]. intros _.
  apply preserves_bind; [by apply preserves_try, checkConsensus_since|]. intros _.
  apply preserves_bind; [apply preserves_bind; [apply preserves_gets|intros; apply preserves_ret]|].
  intros []; [apply preserves_ret|]. by apply preserves_wrapM, ProcessTask_since.
Qed.

(** A message about another request: whoever sent it, whatever it says, and
    whether or not it is accepted. *)
Lemma handleResponse_undisturbed msg w : track_shape (get_track w) ->
  (forall pb, proto_Unmarshal (msg_Data msg) = Ok pb -> about_other (convertProtoToResponse pb)) ->
  undisturbed w (handleResponse msg w).1.
Proof.
  intros Hs Hmsg. enough (preserves (since w) (handleResponse msg)) as Hp
    by (apply Hp; split; [apply undisturbed_refl|done]).
  unfold handleResponse. apply preserves_recovered, preserves_bind; [|intros; apply preserves_ret].
  apply preserves_try. unfold processResponse. eapply preserves_bind_ensures.
  { apply ensures_wrapM, ensures_lift. exact Hmsg. }
  intros pb Hpb. apply preserves_bind; [apply preserves_gets|]. intros ep.
  destruct (negb _); [apply preserves_ret|].
  assert (forall e, preserves (since w) (incrementPeerViolation (msg_ReceivedFrom msg) e)) as Hviol
    by (intros; apply since_kept; intros; unfold incrementPeerViolation; solve_preserves).
  destruct (PeerIDToP2PKey _) as [pk|e|m]; [|done|apply preserves_panic].
  apply preserves_bind; [apply since_kept; intros; solve_preserves|].
  intros [[op|]|e]; try done. destruct (negb _); [done|].
  apply preserves_bind; [apply preserves_bind; [apply preserves_gets|intros; apply preserves_ret]|].
  intros []; [apply preserves_ret|].
  apply preserves_bind; [apply since_kept; intros; solve_preserves|].
  intros cons. set (k := match verifyResponse _ _ with Ok _ => _ | Err _ => _ | Panic _ => _ end).
  assert (preserves (since w) k) as Hk; [|by destruct cons as [[?|]|?]; [apply preserves_ret|..]].
  subst k. destruct (verifyResponse _ _); [by apply accept_response_since|done|apply preserves_panic].
Qed.

(** The node has handled the votes [vs], the last one first. *)
Inductive voted : list (string * Z) -> World C -> Prop :=
  | voted_start w : base w -> open (w_db w) -> tracked [] (get_track w) -> voted [] w
  | voted_message vs w msg sk x : voted vs w -> vote msg sk x -> sk ∉ vs.*1 ->
      voted ((sk, x) :: vs) (handleResponse msg w).1
  | voted_other vs w w' : voted vs w -> undisturbed w w' -> voted vs w'.

Lemma voted_live vs w : ops_ok -> ballot_fits b -> 0 < threshold -> voted vs w -> live vs w.
Proof.
  intros Hops Hfit Hth. induction 1 as [w Hb Ho Ht|vs w msg sk x _ IH Hv Hni|vs w w' _ IH Hu].
  - split; [done|]. by right.
  - by apply handleResponse_live.
  - destruct Hu as [Ub Up Uo Us Uh Uw], IH as [Hb [Hp|(Ho & [T1 T2 T3 T4 T5 T6 T7] & Hlt)]].
    + split; [by apply Ub|]. left. by apply Up.
    + split; [by apply Ub|]. right. split_and!; [by apply Uo| |done].
      constructor; rewrite ?Uh, ?Uw; auto.
Qed.

End live.

(** ** A vote that suffices *)

(** The environment of [toy_env] with a cache that keeps nothing *)
Definition calm_env : Env := {|
  env_now := fun i => Z.of_nat i;
  env_pg := fun _ => PgDone;
  env_scan_numeric := fun n => n;
  env_nil_numeric := Panic "nil Int";
  env_sched := fun _ => O;
  sha256_Sum256 := fun bs => bs;
  dc_present := true;
  dc_state := unit;
  dc_lookup := fun _ _ _ => None;
  dc_store := fun _ _ _ _ _ => tt;
  dc_invalidate := fun _ _ _ => (tt, None);
|}.

Lemma calm_env_ok : @EnvOk calm_env.
Proof. constructor; simpl; intros; auto. Qed.

#[local] Existing Instances calm_env calm_env_ok toy_eth toy_p2p toy_pubsub toy_signer toy_chains.

(** The node of [toy_db] with a threshold of 40, the weight of the second
    operator, whose response it receives *)
Definition calm_start : @World calm_env ToyNode :=
  @mkWorld calm_env ToyNode 0 toy_db tt [] (mkToyNode (mkTaskMem empty_track true []) (Some 40) 8).

Definition calm_ballot : Ballot :=
  mkBallot "task" 8 "BBBBBBBBBBBBBBBBBBBB" MainnetChainID 7698500 3.

(** First a message about another task arrives, then the vote. *)
Definition calm_other : Message :=
  mkMessage (match toy_Marshal (mkTaskResponseMessage "other" [] 8 MainnetChainID
    "BBBBBBBBBBBBBBBBBBBB" "3" "1000" 7698501) with Ok d => d | _ => [] end) toy_peer.

Definition calm_mid : @World calm_env ToyNode :=
  (@handleResponse calm_env toy_eth toy_p2p toy_pubsub toy_signer toy_chains ToyNode _ _
     calm_other calm_start).1.

Definition calm_end : @World calm_env ToyNode :=
  (@handleResponse calm_env toy_eth toy_p2p toy_pubsub toy_signer toy_chains ToyNode _ _
     (toy_message2 1000) calm_mid).1.

Lemma tracked_empty : tracked calm_ballot (db_operators toy_db) [] empty_track.
Proof.
  constructor.
  - apply track_shape_empty.
  - apply map_Forall_empty.
  - by intros sk x ?%not_elem_of_nil.
  - intros sk [r [=]].
  - intros sk [r [=]].
  - constructor.
  - apply not_elem_of_nil.
Qed.

Lemma calm_voted : voted calm_ballot (db_operators toy_db) 40 [(toy_addr2, 40)] calm_end.
Proof.
  apply (voted_message _ _ _ []).
  - apply (voted_other _ _ _ _ calm_start); [apply voted_start; [done..|exact tracked_empty]|].
    apply handleResponse_undisturbed; [done|]. intros pb Hpb. vm_compute in Hpb. injection Hpb as <-.
    split; [done|]. by right; right.
  - exists (toy_response2 1000), toy_p2p_key, (toy_operator toy_addr2 toy_p2p_key 40).
    split_and!; try by vm_compute.
    split_and!; try by vm_compute. by eexists; vm_compute.
  - by apply not_elem_of_nil.
Qed.

Lemma calm_ops : ops_ok (db_operators toy_db).
Proof.
  intros a op Ha. unfold toy_db in Ha. cbn [db_operators] in Ha.
  apply lookup_insert_Some in Ha as [[<- <-]|[_ [<- <-]%lookup_singleton_Some]].
  - split; [by vm_compute|]. by exists 60.
  - split; [by vm_compute|]. by exists 40.
Qed.

