(* ===== verification/TaskJobs.v ===== *)
(** * The periodic jobs: retries are bounded, confirmations are waited for *)

From S2P Require Import Prelude GoInt GoString Numeric EpochMath Models World.
From S2P Require Import TasksRepo BlacklistRepo OperatorsRepo ConsensusRepo EthLib Signer Chain Task.
From S2P Require Import TaskInv TaskToy TaskConsensus TaskProps.

(** A database that answers every statement. *)
Definition reliable `{Env} : Prop := forall i, env_pg i = PgDone.

(** Rows are filed under their task ID. *)
Definition tasks_keyed (m : gmap string Tasks) : Prop :=
  forall id t, m !! id = Some t -> t_TaskID t = id.

Lemma tasks_keyed_alter f id m : (forall t, t_TaskID (f t) = t_TaskID t) ->
  tasks_keyed m -> tasks_keyed (alter f id m).
Proof.
  intros Hf Hm id' t Ht. destruct (decide (id = id')) as [<-|Hne].
  - rewrite lookup_alter_eq in Ht. apply fmap_Some in Ht as (x & Hx & ->).
    rewrite Hf. by apply Hm.
  - rewrite lookup_alter_ne in Ht by done. by apply Hm.
Qed.
Lemma tasks_keyed_insert f id m x : (forall t, t_TaskID (f t) = t_TaskID t) -> m !! id = Some x ->
  tasks_keyed m -> tasks_keyed (<[id := f x]> m).
Proof.
  intros Hf Hx Hm id' t [[<- <-]|[_ Ht]]%lookup_insert_Some; [rewrite Hf|]; by apply Hm.
Qed.
Lemma tasks_keyed_delete id m : tasks_keyed m -> tasks_keyed (delete id m).
Proof. intros Hm id' t [_ Ht]%lookup_delete_Some. by apply Hm. Qed.

(** The rows a status query lists, each once. *)
Lemma listed_rows (m : gmap string Tasks) s t : tasks_keyed m ->
  t ∈ List.filter (has_status s) (table_rows m) <-> m !! t_TaskID t = Some t /\ t_Status t = s.
Proof.
  intros Hk. rewrite list_elem_of_In, filter_In, <- list_elem_of_In, elem_of_table_rows.
  unfold has_status. rewrite bool_decide_eq_true. split.
  - intros [[k Hl] Hs]. by rewrite (Hk _ _ Hl).
  - intros [Hl Hs]. eauto.
Qed.

Lemma listed_NoDup (m : gmap string Tasks) P : tasks_keyed m ->
  NoDup (t_TaskID <$> List.filter P (table_rows m)).
Proof.
  intros Hk. unfold table_rows. pose proof (NoDup_fst_map_to_list m) as Hnd.
  assert (Forall (fun p => t_TaskID p.2 = p.1) (map_to_list m)) as Hall.
  { apply Forall_forall. intros [k t] Hin%elem_of_map_to_list. by apply Hk. }
  induction (map_to_list m) as [|[k t] l IH]; [constructor|]. simpl in *.
  apply NoDup_cons in Hnd as [Hnin Hnd]. apply Forall_cons in Hall as [Hkt Hall]. simpl in Hkt.
  destruct (P t); [|by apply IH]. simpl. constructor; [|by apply IH].
  rewrite Hkt. intros (x & Hx & Hin)%list_elem_of_fmap. apply Hnin.
  apply list_elem_of_In, filter_In in Hin as [Hin _]. apply list_elem_of_In in Hin.
  apply list_elem_of_fmap in Hin as ([k' x'] & -> & Hin). simpl in Hx.
  apply list_elem_of_fmap. exists (k', x'). split; [|done]. simpl.
  rewrite Hx. exact (proj1 (Forall_forall _ _) Hall _ Hin).
Qed.

Section jobs.
Context `{EnvOk} `{EthLib} `{P2PLib} `{PubSub} `{OperatorSigner} `{CM : ChainManager}.
Context {C : Type} `{HasTaskOk C}.

Lemma for_each_app {A} (l1 l2 : list A) body (w w' : World C) :
  for_each (l1 ++ l2) body w = (w', Ok tt) ->
  exists w1, for_each l1 body w = (w1, Ok tt) /\ for_each l2 body w1 = (w', Ok tt).
Proof.
  revert w. induction l1 as [|x l1 IH]; intros w; simpl; [eauto|].
  rewrite bind_Ok. intros (w1 & r & Hx & Hrun). apply IH in Hrun as (w2 & Hl1 & Hl2).
  exists w2. split; [|done]. apply bind_Ok. eauto.
Qed.

(** ** Tasks other than the one at hand *)

Definition retries (id : string) (m : gmap string Tasks) : option Z := t_RetryCount <$> m !! id.

Lemma retries_completed id x id' s now m :
  retries id m = x -> retries id (alter (task_with_status s now) id' m) = x.
Proof.
  unfold retries. intros <-. destruct (decide (id' = id)) as [->|Hne].
  - rewrite lookup_alter_eq. by destruct (m !! id).
  - by rewrite lookup_alter_ne.
Qed.

Lemma IncrementRetryCount_other (T : option Tasks -> Prop) id id' : id' <> id ->
  preserves (db_pred (C:=C) (on_tasks (fun m => T (m !! id)))) (IncrementRetryCount id').
Proof.
  intros Hne. apply preserves_bind; [|solve_preserves]. apply pg_call_db. unfold on_tasks.
  intros now d d' out Hd E. unfold sql_incrementRetryCount in E. sql_inv; simpl; [|done].
  by rewrite lookup_insert_ne.
Qed.

Lemma DeleteTaskByID_other (T : option Tasks -> Prop) id id' : id' <> id ->
  preserves (db_pred (C:=C) (on_tasks (fun m => T (m !! id)))) (DeleteTaskByID id').
Proof.
  intros Hne. apply pg_call_db. unfold on_tasks. intros now d d' out Hd E.
  injection E as <- <-. simpl. by rewrite lookup_delete_ne.
Qed.

Lemma timeout_task_other_retries id x tk : t_TaskID tk <> id ->
  preserves (db_pred (C:=C) (on_tasks (fun m => retries id m = x))) (timeout_task tk).
Proof.
  intros Hne. unfold timeout_task. apply preserves_bind.
  { apply preserves_try, (IncrementRetryCount_other (fun r => t_RetryCount <$> r = x)), Hne. }
  intros [[upd|]|e]; [|apply preserves_panic|apply preserves_ret].
  destruct (_ <=? _).
  - apply preserves_bind; [|intros; apply locked_db].
    apply preserves_try, (DeleteTaskByID_other (fun r => t_RetryCount <$> r = x)), Hne.
  - apply preserves_bind; [|intros; apply preserves_ret]. apply preserves_try, ProcessTask_tasks.
    intros. by apply retries_completed.
Qed.

Lemma timeout_task_other_track id tk : t_TaskID tk <> id ->
  preserves (on_track (C:=C) (fun k => tk_responses k !! id = None)) (timeout_task tk).
Proof.
  intros Hne.
  assert (preserves (on_track (C:=C) (fun k => tk_responses k !! id = None))
            (ProcessTask (Some tk))) as Hp.
  { unfold ProcessTask, alreadyProcessed. apply preserves_bind.
    { apply preserves_bind; [apply preserves_gets|intros; apply preserves_ret]. }
    intros []; [apply preserves_ret|].
    apply preserves_bind; [apply on_track_of_mem; intros; solve_preserves|]. intros r.
    apply preserves_bind; [apply on_track_of_mem; intros; solve_preserves|].
    intros [op|]; [|apply preserves_panic]. apply preserves_bind; [solve_preserves|].
    intros weight. apply preserves_bind.
    { apply locked_track. intros k k' Hk E. unfold store_section in E.
      destruct (tk_responses k !! t_TaskID tk) as [rs|]; simpl in E; sql_inv; simplify_eq; simpl;
        rewrite ?lookup_insert_ne by done; done. }
    intros _. apply preserves_bind; [apply preserves_wrapM, broadcastResponse_track|].
    intros _. apply preserves_bind; [|intros; apply preserves_ret].
    apply on_track_of_mem. intros. solve_preserves. }
  unfold timeout_task. apply preserves_bind; [apply on_track_of_mem; intros; solve_preserves|].
  intros [[upd|]|e]; [|apply preserves_panic|apply preserves_ret].
  destruct (_ <=? _).
  - apply preserves_bind; [apply on_track_of_mem; intros; solve_preserves|]. intros _.
    apply locked_track. intros k k' Hk [= <-]. simpl. by rewrite lookup_delete_ne.
  - apply preserves_bind; [by apply preserves_try|intros; apply preserves_ret].
Qed.

(** ** The task at hand *)

Lemma pg_call_reliable {A} (s : Z -> DB -> res (DB * A)) (w : World C) : reliable ->
  pg_call s w =
    (let w1 := set_step (S (w_step w)) w in
     match s (env_now (w_step w)) (w_db w) with
     | Ok (d, a) => (set_db d w1, Ok a)
     | Err e => (w1, Err e)
     | Panic p => (w1, Panic p)
     end).
Proof. intros Hr. unfold pg_call, bind, tick. simpl. rewrite Hr. done. Qed.

Lemma timeout_task_self id t tk (w w' : World C) (Hr : reliable) :
  t_TaskID tk = id -> db_tasks (w_db w) !! id = Some t -> 0 <= t_RetryCount t < 2 ^ 15 - 1 ->
  timeout_task tk w = (w', Ok tt) ->
  if maxRetryCount <=? t_RetryCount t + 1
  then db_tasks (w_db w') !! id = None /\ tk_responses (get_track w') !! id = None
  else retries id (db_tasks (w_db w')) = Some (t_RetryCount t + 1).
Proof.
  intros <- Hl Hrange. unfold timeout_task, IncrementRetryCount, bind at 1, try, bind at 1.
  rewrite pg_call_reliable by done. cbv zeta. unfold sql_incrementRetryCount. rewrite Hl.
  assert (fits_int2 (t_RetryCount t + 1) = true) as ->.
  { unfold fits_int2. apply andb_true_intro. split; [apply Z.leb_le|apply Z.ltb_lt]; lia. }
  cbn [require res_bind ret]. simpl.
  set (w1 := set_db _ _).
  assert (retries (t_TaskID tk) (db_tasks (w_db w1)) = Some (t_RetryCount t + 1)) as Hret.
  { unfold retries. simpl. by rewrite lookup_insert_eq. }
  destruct (_ <=? _).
  - unfold DeleteTaskByID, bind, try. rewrite pg_call_reliable by done. simpl.
    unfold cleanupTask, locked. intros [= <-]. split.
    + apply lookup_delete_eq.
    + rewrite get_put_track. simpl. apply lookup_delete_eq.
  - rewrite bind_Ok. intros (w2 & r & Hp & [= <-]).
    assert (preserves (db_pred (C:=C) (on_tasks (fun m => retries (t_TaskID tk) m
              = Some (t_RetryCount t + 1)))) (ProcessTask (Some tk))) as Hpt.
    { apply ProcessTask_tasks. intros. by apply retries_completed. }
    apply (preserves_run _ _ _ _ _ (preserves_try _ _ Hpt) Hp). exact Hret.
Qed.

Lemma checkTimeouts_list (w w' : World C) (Hr : reliable) :
  checkTimeouts w = (w', Ok tt) ->
  exists l w1, for_each l timeout_task w1 = (w', Ok tt) /\
    w_db w1 = w_db w /\
    t_TaskID <$> l = t_TaskID <$> order_asc t_CreatedAt
      (List.filter (has_status TaskStatusPending) (table_rows (db_tasks (w_db w)))).
Proof.
  unfold checkTimeouts. rewrite bind_Ok. intros (w1 & r & Hl & Hrun).
  unfold ListPendingTasks, try, bind in Hl. rewrite pg_call_reliable in Hl by done.
  simpl in Hl. injection Hl as <- <-. eexists _, _. split; [exact Hrun|]. split; [done|].
  rewrite <- list_fmap_compose. by apply list_fmap_ext.
Qed.

Lemma timeout_task_no_error tk (w w' : World C) e : timeout_task tk w <> (w', Err e).
Proof.
  unfold timeout_task, bind at 1, try at 1.
  destruct (IncrementRetryCount _ _) as [? [[?|]|?|?]]; try done.
  case_match; unfold bind, try; [destruct (DeleteTaskByID _ _) as [? [?|?|?]]
    |destruct (ProcessTask _ _) as [? [?|?|?]]]; done.
Qed.

Lemma others_retries id x l : (forall y, y ∈ l -> t_TaskID y <> id) ->
  preserves (db_pred (C:=C) (on_tasks (fun m => retries id m = x))) (for_each l timeout_task).
Proof. intros Hl. apply preserves_for_each_in. auto using timeout_task_other_retries. Qed.

Lemma others_track id l : (forall y, y ∈ l -> t_TaskID y <> id) ->
  preserves (on_track (C:=C) (fun k => tk_responses k !! id = None)) (for_each l timeout_task).
Proof. intros Hl. apply preserves_for_each_in. auto using timeout_task_other_track. Qed.

(** A pending task has its turn in the tick, once. *)
Lemma checkTimeouts_split id t (w w' : World C) (Hr : reliable) :
  tasks_keyed (db_tasks (w_db w)) ->
  db_tasks (w_db w) !! id = Some t -> t_Status t = TaskStatusPending ->
  checkTimeouts w = (w', Ok tt) ->
  exists l1 tk l2 w1 w2 w3, t_TaskID tk = id /\ w_db w1 = w_db w /\
    (forall y, y ∈ l1 -> t_TaskID y <> id) /\ (forall y, y ∈ l2 -> t_TaskID y <> id) /\
    for_each l1 timeout_task w1 = (w2, Ok tt) /\ timeout_task tk w2 = (w3, Ok tt) /\
    for_each l2 timeout_task w3 = (w', Ok tt).
Proof.
  intros Hk Hl Hs Hrun.
  destruct (checkTimeouts_list w w' Hr Hrun) as (l & w1 & Hfor & Ew1 & El).
  assert (NoDup (t_TaskID <$> l)) as Hnd.
  { rewrite El. unfold order_asc. rewrite merge_sort_Permutation. by apply listed_NoDup. }
  assert (id ∈ t_TaskID <$> l) as Hin.
  { rewrite El. apply list_elem_of_fmap. exists t. rewrite (Hk _ _ Hl). split; [done|].
    apply elem_of_order_asc, listed_rows; [done|]. by rewrite (Hk _ _ Hl). }
  apply list_elem_of_fmap in Hin as (tk & Hid & (l1 & l2 & ->)%list_elem_of_split).
  rewrite fmap_app, fmap_cons in Hnd. apply NoDup_app in Hnd as (_ & Hdisj & Hnd2).
  apply NoDup_cons in Hnd2 as [Hnin2 _].
  apply for_each_app in Hfor as (w2 & Hfor1 & Hfor2).
  cbn [for_each] in Hfor2. apply bind_Ok in Hfor2 as (w3 & r & Htk & Hfor2).
  exists l1, tk, l2, w1, w2, w3. split_and!; try done.
  - intros y Hy E. apply (Hdisj id); [rewrite <- E; by apply list_elem_of_fmap_2|rewrite Hid; by left].
  - intros y Hy E. apply Hnin2. rewrite <- Hid, <- E. by apply list_elem_of_fmap_2.
  - unfold try in Htk. destruct (timeout_task tk w2) as [w3' [[]|e|s]] eqn:E; simplify_eq; [done|].
    by destruct (timeout_task_no_error tk w2 w3 e).
Qed.

(** A tick as seen by one pending task. *)
Lemma timeouts_tick id t (w w' : World C) (Hr : reliable) :
  tasks_keyed (db_tasks (w_db w)) ->
  db_tasks (w_db w) !! id = Some t -> t_Status t = TaskStatusPending ->
  0 <= t_RetryCount t < 2 ^ 15 - 1 ->
  checkTimeouts w = (w', Ok tt) ->
  if maxRetryCount <=? t_RetryCount t + 1
  then db_tasks (w_db w') !! id = None /\ tk_responses (get_track w') !! id = None
  else retries id (db_tasks (w_db w')) = Some (t_RetryCount t + 1).
Proof.
  intros Hk Hl Hs Hrange Hrun.
  destruct (checkTimeouts_split id t w w' Hr Hk Hl Hs Hrun)
    as (l1 & tk & l2 & w1 & w2 & w3 & Hid & Ew1 & Hne1 & Hne2 & Hfor1 & Htk & Hfor2).
  assert (retries id (db_tasks (w_db w2)) = Some (t_RetryCount t)) as Hr2.
  { apply (preserves_run _ _ _ _ _ (others_retries id _ l1 Hne1) Hfor1).
    unfold db_pred, on_tasks, retries. by rewrite Ew1, Hl. }
  apply fmap_Some in Hr2 as (t2 & Hl2 & Hrt).
  pose proof (timeout_task_self id t2 tk w2 w3 Hr Hid Hl2) as Hself.
  rewrite <- Hrt in Hself. specialize (Hself Hrange Htk).
  destruct (maxRetryCount <=? t_RetryCount t + 1).
  - destruct Hself as [Hdel Htrk]. split.
    + apply (fmap_None t_RetryCount).
      apply (preserves_run _ _ _ _ _ (others_retries id None l2 Hne2) Hfor2).
      unfold db_pred, on_tasks, retries. by rewrite Hdel.
    + by apply (preserves_run _ _ _ _ _ (others_track id l2 Hne2) Hfor2).
  - by apply (preserves_run _ _ _ _ _ (others_retries id _ l2 Hne2) Hfor2).
Qed.
End jobs.

(** ** Properties *)

Section properties.
Context `{EnvOk} `{EthLib} `{P2PLib} `{PubSub} `{OperatorSigner} `{CM : ChainManager}.
Context {C : Type} `{HasTaskOk C}.

(** A tick of [checkTimeouts] counts one retry for every pending task
    and gives up on the third: the row and the responses held for it are
    gone after the tick, whatever the other tasks of the tick did. *)
Theorem checkTimeouts_counts id t (w w' : World C) (Hr : reliable)
    (Hk : tasks_keyed (db_tasks (w_db w)))
    (Hl : db_tasks (w_db w) !! id = Some t) (Hs : t_Status t = TaskStatusPending)
    (Hrange : 0 <= t_RetryCount t < 2 ^ 15 - 1)
    (Hrun : checkTimeouts w = (w', Ok tt)) :
  if 3 <=? t_RetryCount t + 1
  then db_tasks (w_db w') !! id = None /\ tk_responses (get_track w') !! id = None
  else retries id (db_tasks (w_db w')) = Some (t_RetryCount t + 1).
Proof. by eapply timeouts_tick. Qed.

(** What ticks keep of the table: keying, and the absence of a pending row. *)
Definition not_pending (id : string) (m : gmap string Tasks) : Prop :=
  forall t, m !! id = Some t -> t_Status t <> TaskStatusPending.

Lemma checkTimeouts_tasks (T : gmap string Tasks -> Prop) :
  (forall id now m, T m -> T (alter (task_with_status TaskStatusCompleted now) id m)) ->
  (forall id n now m x, T m -> m !! id = Some x -> T (<[id := task_with_retry n now x]> m)) ->
  (forall id m, T m -> T (delete id m)) ->
  preserves (db_pred (C:=C) (on_tasks T)) checkTimeouts.
Proof.
  intros Hc Hret Hd. unfold checkTimeouts. apply preserves_bind; [solve_preserves|].
  intros [l|e]; [|apply preserves_ret]. apply preserves_for_each. intros tk.
  by apply timeout_task_tasks.
Qed.

Lemma checkTimeouts_keyed :
  preserves (db_pred (C:=C) (on_tasks tasks_keyed)) checkTimeouts.
Proof.
  apply checkTimeouts_tasks; intros;
    [by apply tasks_keyed_alter|by apply (tasks_keyed_insert (task_with_retry n now))
    |by apply tasks_keyed_delete].
Qed.

Lemma checkTimeouts_not_pending id :
  preserves (db_pred (C:=C) (on_tasks (not_pending id))) checkTimeouts.
Proof.
  apply checkTimeouts_tasks; unfold not_pending.
  - intros id' now m Hm t. destruct (decide (id' = id)) as [->|Hne].
    + rewrite lookup_alter_eq. by intros (x & _ & ->)%fmap_Some.
    + rewrite lookup_alter_ne by done. apply Hm.
  - intros id' n now m x Hm Hx t [[-> <-]|[_ Ht]]%lookup_insert_Some; [exact (Hm x Hx)|by apply Hm].
  - intros id' m Hm t [_ Ht]%lookup_delete_Some. by apply Hm.
Qed.

Lemma not_pending_dec id m : not_pending id m \/
  exists t, m !! id = Some t /\ t_Status t = TaskStatusPending.
Proof.
  unfold not_pending. destruct (m !! id) as [t|]; [|by left].
  destruct (decide (t_Status t = TaskStatusPending)); [right|left]; naive_solver.
Qed.

(** The row [id] may be completed or go away, and is otherwise as it was,
    with the same status and retry count. *)
Definition row_kept (id : string) (m m' : gmap string Tasks) : Prop :=
  forall t', m' !! id = Some t' -> t_Status t' = TaskStatusCompleted \/
    exists t, m !! id = Some t /\ t_Status t' = t_Status t /\ t_RetryCount t' = t_RetryCount t.

Definition keeps_row (id : string) (w w' : World C) : Prop :=
  row_kept id (db_tasks (w_db w)) (db_tasks (w_db w')) /\
  (tasks_keyed (db_tasks (w_db w)) -> tasks_keyed (db_tasks (w_db w'))).

Lemma row_kept_completed id id' now m0 m : row_kept id m0 m ->
  row_kept id m0 (alter (task_with_status TaskStatusCompleted now) id' m).
Proof.
  intros Hm t'. destruct (decide (id' = id)) as [->|Hne]; [|by rewrite lookup_alter_ne; [apply Hm|]].
  rewrite lookup_alter_eq. intros (x & _ & ->)%fmap_Some. by left.
Qed.

(** What the processor does between two ticks keeps the row: messages, and
    requests for tasks that exist. *)
Lemma handler_keeps_row {A} id (m : M (World C) A) w :
  (forall T : gmap string Tasks -> Prop,
     (forall id now m, T m -> T (alter (task_with_status TaskStatusCompleted now) id m)) ->
     preserves (db_pred (on_tasks T)) m) ->
  keeps_row id w (m w).1.
Proof.
  intros Hm. split.
  - apply (Hm (row_kept id (db_tasks (w_db w)))); [intros; by apply row_kept_completed|].
    intros t Ht. right. by exists t.
  - apply (Hm tasks_keyed). intros id' now x. by apply tasks_keyed_alter.
Qed.

Lemma handleResponse_keeps_row id msg w : keeps_row id w (handleResponse msg w).1.
Proof. apply handler_keeps_row. intros T HT. by apply handleResponse_tasks. Qed.

Lemma ProcessTask_keeps_row id t w : keeps_row id w (ProcessTask t w).1.
Proof. apply handler_keeps_row. intros T HT. by apply ProcessTask_tasks. Qed.

Lemma periodicCleanup_keeps_row id w : keeps_row id w (periodicCleanup w).1.
Proof. apply handler_keeps_row. intros T _. apply locked_db. Qed.

(** From [w] on the node has made [n] ticks of [checkTimeouts], each to its
    end, and between them what keeps the row. *)
Inductive ticked (id : string) (w : World C) : nat -> World C -> Prop :=
  | ticked_start : ticked id w 0 w
  | ticked_tick n w1 w2 : ticked id w n w1 -> checkTimeouts w1 = (w2, Ok tt) -> ticked id w (S n) w2
  | ticked_other n w1 w2 : ticked id w n w1 -> keeps_row id w1 w2 -> ticked id w n w2.

(** The row is completed or gone, or still pending with [n] retries counted. *)
Definition counted_row (id : string) (n : nat) (m : gmap string Tasks) : Prop :=
  forall t, m !! id = Some t -> t_Status t = TaskStatusCompleted \/
    t_Status t = TaskStatusPending /\ Z.of_nat n <= t_RetryCount t /\
    (n <> 0%nat -> t_RetryCount t < 3) /\ t_RetryCount t < 2 ^ 15 - 1.

Lemma tick_keeps_status id : preserves (db_pred (C:=C) (on_tasks (fun m => forall t, m !! id = Some t ->
  t_Status t = TaskStatusCompleted \/ t_Status t = TaskStatusPending))) checkTimeouts.
Proof.
  apply checkTimeouts_tasks.
  - intros id' now m Hm t. destruct (decide (id' = id)) as [->|Hne]; [|by rewrite lookup_alter_ne; [apply Hm|]].
    rewrite lookup_alter_eq. intros (x & _ & ->)%fmap_Some. by left.
  - intros id' n now m x Hm Hx t [[-> <-]|[_ Ht]]%lookup_insert_Some; [exact (Hm x Hx)|by apply Hm].
  - intros id' m Hm t [_ Ht]%lookup_delete_Some. by apply Hm.
Qed.

Lemma tick_counted id n (w w' : World C) : reliable -> tasks_keyed (db_tasks (w_db w)) ->
  counted_row id n (db_tasks (w_db w)) -> checkTimeouts w = (w', Ok tt) ->
  counted_row id (S n) (db_tasks (w_db w')).
Proof.
  intros Hr Hk Hc Hrun t' Ht'.
  destruct (preserves_run _ _ _ _ _ (tick_keeps_status id) Hrun) with (t := t') as [Hs'|Hs']; [|done|by left|].
  { intros t Ht. destruct (Hc t Ht) as [?|[? _]]; [by left|by right]. }
  destruct (not_pending_dec id (db_tasks (w_db w))) as [Hnp|(t & Hl & Hs)].
  { destruct (preserves_run _ _ _ _ _ (checkTimeouts_not_pending id) Hrun Hnp t' Ht' Hs'). }
  destruct (Hc t Hl) as [?|(_ & Hn & _ & Hmax)]; [congruence|].
  pose proof (timeouts_tick id t w w' Hr Hk Hl Hs ltac:(lia) Hrun) as Ht.
  unfold maxRetryCount in Ht. destruct (Z.leb_spec 3 (t_RetryCount t + 1)) as [|Hlt].
  - destruct Ht as [Hnone _]. congruence.
  - unfold retries in Ht. rewrite Ht' in Ht. injection Ht as Ht. right. split; [done|]. lia.
Qed.

(** C22: no task stays pending: when [checkTimeouts] has ticked three times
    since the task was seen pending, each tick to its end (a tick that panics
    ends the process), on a database that answers, the task is completed or
    its row is gone.  Whatever the chains and the peers answered, whatever
    the other tasks did, and whatever the node did between the ticks that
    only completes or removes the row of this task, as handling messages,
    processing tasks and cleaning up do. *)
Theorem pending_leaves_in_three_ticks id t (w w' : World C) (Hr : reliable)
    (Hk : tasks_keyed (db_tasks (w_db w)))
    (Hl : db_tasks (w_db w) !! id = Some t) (Hs : t_Status t = TaskStatusPending)
    (Hrange : 0 <= t_RetryCount t < 2 ^ 15 - 1)
    (Hticks : ticked id w 3 w') t' (Hl' : db_tasks (w_db w') !! id = Some t') :
  t_Status t' = TaskStatusCompleted.
Proof.
  enough (tasks_keyed (db_tasks (w_db w')) /\ counted_row id 3 (db_tasks (w_db w'))) as [_ Hc].
  { destruct (Hc t' Hl') as [?|(_ & ? & ? & _)]; [done|lia]. }
  clear Hl'. induction Hticks as [|n w1 w2 _ [Hk1 Hc1] Hrun|n w1 w2 _ [Hk1 Hc1] [Hrow Hkeyed]].
  - split; [done|]. intros t0 Ht0. rewrite Hl in Ht0. injection Ht0 as <-. right. split; [done|lia].
  - split; [exact (preserves_run _ _ _ _ _ checkTimeouts_keyed Hrun Hk1)|by eapply tick_counted].
  - split; [by apply Hkeyed|]. intros t2 Ht2. destruct (Hrow t2 Ht2) as [?|(t1 & Ht1 & Es & Er)]; [by left|].
    unfold counted_row in Hc1. specialize (Hc1 t1 Ht1). by rewrite Es, Er.
Qed.

(** The chain of a task reported a head at least the required confirmations
    above the task's block. *)
Definition confirmed (t : Tasks) : Prop :=
  t_BlockNumber t <> 0 /\
  exists cl i latest, GetClientByChainId (t_ChainID t) the_chains = Ok cl /\
    cc_BlockNumber cl i = Ok latest /\
    u64 (t_BlockNumber t + t_RequiredConfirmations t) <= latest.

(** The row [id] is not pending, unless the task was confirmed. *)
Definition pending_confirmed (id : string) (t0 : Tasks) (m : gmap string Tasks) : Prop :=
  forall t, m !! id = Some t -> t_Status t = TaskStatusPending -> confirmed t0.

Lemma pending_confirmed_alter id t0 id' s now m :
  (s = TaskStatusPending -> id' = id -> confirmed t0) ->
  pending_confirmed id t0 m -> pending_confirmed id t0 (alter (task_with_status s now) id' m).
Proof.
  intros Hs Hm t. destruct (decide (id' = id)) as [->|Hne].
  - rewrite lookup_alter_eq. intros (x & _ & ->)%fmap_Some. simpl. auto.
  - rewrite lookup_alter_ne by done. apply Hm.
Qed.

Lemma confirm_task_pending id t0 tk :
  (t_TaskID tk = id -> t_ChainID tk = t_ChainID t0 /\ t_BlockNumber tk = t_BlockNumber t0 /\
     t_RequiredConfirmations tk = t_RequiredConfirmations t0) ->
  preserves (db_pred (C:=C) (on_tasks (pending_confirmed id t0))) (confirm_task tk).
Proof.
  intros Heq. unfold confirm_task. eapply preserves_bind_ensures.
  { apply ensures_lift. intros cl Hcl. exact Hcl. }
  intros cl Hcl. simpl in Hcl. eapply preserves_bind_ensures.
  { intros w Hw. split; [by apply extern_db|]. unfold extern, bind, tick, lift. simpl.
    intros latest Hlat. instantiate (1 := fun latest => exists i, cc_BlockNumber cl i = Ok latest).
    simpl. eauto. }
  intros latest (i & Hlat). destruct (Z.eqb_spec (t_BlockNumber tk) 0) as [|Hb]; [apply preserves_ret|].
  destruct (Z.leb_spec (u64 (t_BlockNumber tk + t_RequiredConfirmations tk)) latest);
    [|apply preserves_ret].
  apply preserves_bind.
  - apply pg_call_db. unfold on_tasks. intros now d d' out Hd E. injection E as <- <-. simpl.
    apply pending_confirmed_alter; [|done]. intros _ Hid.
    destruct (Heq Hid) as (Ec & Eb & Er). rewrite Eb, Er in *. rewrite Ec in Hcl.
    split; [done|]. eauto 10.
  - intros _. apply ProcessTask_tasks. intros. by apply pending_confirmed_alter.
Qed.

(** C23: a task is not promoted early: a confirming task that is pending
    after a tick of [checkConfirmations] has a chain that reported a head at
    or above its block plus the required confirmations. *)
Theorem confirmations_respected id t (w w' : World C) out
    (Hk : tasks_keyed (db_tasks (w_db w)))
    (Hl : db_tasks (w_db w) !! id = Some t) (Hs : t_Status t = TaskStatusConfirming)
    (Hrun : checkConfirmations w = (w', out)) t'
    (Hl' : db_tasks (w_db w') !! id = Some t') (Hs' : t_Status t' = TaskStatusPending) :
  confirmed t.
Proof.
  set (I := fun w1 : World C => pending_confirmed id t (db_tasks (w_db w1))).
  enough (wp checkConfirmations (fun w1 _ => I w1) w) as Hwp.
  { by apply (wp_run _ _ _ _ _ Hwp Hrun t'). }
  assert (I w) as Hw.
  { intros t1 Ht1 Hp. rewrite Hl in Ht1. injection Ht1 as <-. congruence. }
  unfold checkConfirmations. apply wp_bind, wp_try. unfold ListConfirmingTasks.
  apply wp_bind, wp_pg_call.
  - intros d l [= <- <-]. apply wp_ret.
    assert (preserves I (for_each (scan_Tasks <$> order_desc t_CreatedAt (List.filter
      (has_status TaskStatusConfirming) (table_rows (db_tasks (w_db w))))) confirm_task)) as Hp.
    { apply preserves_for_each_in. intros x (y & -> & Hy)%list_elem_of_fmap.
      apply elem_of_order_desc, listed_rows in Hy as [Hy _]; [|done].
      apply (confirm_task_pending id t). simpl. intros E. rewrite E in Hy.
      rewrite Hl in Hy. injection Hy as <-. done. }
    apply (wp_preserves I); [exact Hp|exact Hw|done].
  - intros d l e [= <- <-]. exact Hw.
  - intros e. exact Hw.
  - intros m [=].
Qed.
End properties.

(** ** Examples: a node that cannot reach the task's chain, and one that waits
    for confirmations *)

Definition toy_no_chains : ChainManager := {| the_chains := ∅ |}.

Definition toy_tick (w : @World toy_env ToyNode) : @World toy_env ToyNode :=
  (@checkTimeouts toy_env toy_eth toy_pubsub toy_signer toy_no_chains ToyNode _ _ w).1.

Lemma toy_reliable : @reliable toy_env.
Proof. by intros i. Qed.

Lemma toy_keyed : tasks_keyed (db_tasks (w_db toy_node_world)).
Proof.
  intros id t Ht. unfold toy_node_world, toy_db in Ht. cbn in Ht.
  by apply lookup_singleton_Some in Ht as [<- <-].
Qed.

Lemma checkTimeouts_counts_witness :
  retries "task" (db_tasks (w_db (toy_tick toy_node_world))) = Some 1.
Proof.
  assert (db_tasks (w_db toy_node_world) !! "task" = Some toy_task) as Hl by (vm_compute; reflexivity).
  assert (@checkTimeouts toy_env toy_eth toy_pubsub toy_signer toy_no_chains ToyNode _ _ toy_node_world
          = (toy_tick toy_node_world, Ok tt)) as Hrun by (vm_compute; reflexivity).
  refine (@checkTimeouts_counts toy_env toy_eth toy_pubsub toy_signer toy_no_chains ToyNode
    _ _ _ "task" toy_task toy_node_world _ toy_reliable toy_keyed Hl eq_refl _ Hrun).
  simpl. lia.
Defined.

(** A message arrives between the first tick and the second. *)
Definition toy_between (w : @World toy_env ToyNode) : @World toy_env ToyNode :=
  (@handleResponse toy_env toy_eth toy_p2p toy_pubsub toy_signer toy_no_chains ToyNode _ _
     (toy_message2 1000) w).1.

Lemma toy_three_ticks : @ticked toy_env toy_eth toy_pubsub toy_signer toy_no_chains ToyNode _ _ "task"
  toy_node_world 3 (toy_tick (toy_tick (toy_between (toy_tick toy_node_world)))).
Proof.
  apply (ticked_tick _ _ _ (toy_tick (toy_between (toy_tick toy_node_world)))); [|vm_compute; reflexivity].
  apply (ticked_tick _ _ _ (toy_between (toy_tick toy_node_world))); [|vm_compute; reflexivity].
  apply (ticked_other _ _ _ (toy_tick toy_node_world)).
  - apply (ticked_tick _ _ _ toy_node_world); [apply ticked_start|vm_compute; reflexivity].
  - unfold toy_between. eapply @handleResponse_keeps_row.
Qed.

Lemma pending_leaves_in_three_ticks_witness :
  t_Status toy_task = TaskStatusPending /\
  forall t', db_tasks (w_db (toy_tick (toy_tick (toy_between (toy_tick toy_node_world))))) !! "task" = Some t' ->
    t_Status t' = TaskStatusCompleted.
Proof.
  split; [reflexivity|]. intros t' Ht'.
  assert (db_tasks (w_db toy_node_world) !! "task" = Some toy_task) as Hl by (vm_compute; reflexivity).
  refine (@pending_leaves_in_three_ticks toy_env toy_eth toy_pubsub toy_signer toy_no_chains ToyNode
    _ _ _ "task" toy_task toy_node_world _ toy_reliable toy_keyed Hl eq_refl _ toy_three_ticks t' Ht').
  simpl. lia.
Defined.

Definition toy_confirming : Tasks := task_with_status TaskStatusConfirming 0 toy_task.
Definition toy_confirming_world : @World toy_env ToyNode :=
  set_db (db_set_tasks {[ "task" := toy_confirming ]} toy_db) toy_world80.
Definition toy_confirm_run :=
  @checkConfirmations toy_env toy_eth toy_pubsub toy_signer toy_chains ToyNode _ _
    toy_confirming_world.

Lemma confirmations_respected_witness : @confirmed toy_chains toy_confirming.
Proof.
  assert (exists t', db_tasks (w_db toy_confirm_run.1) !! "task" = Some t' /\
            t_Status t' = TaskStatusPending) as (t' & Ht' & Hs').
  { eexists. split; vm_compute; reflexivity. }
  assert (db_tasks (w_db toy_confirming_world) !! "task" = Some toy_confirming) as Hl
    by (vm_compute; reflexivity).
  refine (@confirmations_respected toy_env toy_eth toy_pubsub toy_signer toy_chains ToyNode
    _ _ "task" toy_confirming toy_confirming_world toy_confirm_run.1 toy_confirm_run.2
    _ Hl eq_refl (surjective_pairing _) t' Ht' Hs').
  intros id t Ht. unfold toy_confirming_world in Ht. cbn in Ht.
  by apply lookup_singleton_Some in Ht as [<- <-].
Defined.
