(* ===== verification/Gater.v ===== *)
(** * pkg/operator/gater: who may connect

    The libp2p connection gater.  Every intercept but the two that carry no
    peer identity asks [checkPeerPermission]: the peer must not be blocked and
    must be an active operator; an error of either question refuses. *)

From S2P Require Import Prelude GoInt GoString Numeric EpochMath Models World.
From S2P Require Import TasksRepo BlacklistRepo OperatorsRepo EthLib Signer Chain Task.
From S2P Require Import TaskInv TaskToy TaskProps TaskJobs.

(** [ma.P_IP4] and [ma.P_TCP] *)
Definition P_IP4 : Z := 4.
Definition P_TCP : Z := 6.

(** go-multiaddr and net, as far as the gater calls them *)
Class AddrLib := {
  Multiaddr : Type;
  ValueForProtocol : Multiaddr -> Z -> res string;
  net_ParseIP : string -> bool;
}.

Section addr.
Context `{AddrLib}.

(** One iteration of the loop over [required] *)
Definition validateProtocol (addr : Multiaddr) (proto : Z) : bool :=
  match ValueForProtocol addr proto with
  | Ok value =>
      if proto =? P_IP4 then net_ParseIP value
      else if proto =? P_TCP then
        match Atoi value with
        | Some port => negb ((port <? 1) || (65535 <? port))
        | None => false
        end
      else true
  | _ => false
  end.

Definition validateBasicAddr (addr : option Multiaddr) : bool :=
  match addr with
  | None => false
  | Some addr => forallb (validateProtocol addr) [P_IP4; P_TCP]
  end.
End addr.

Record ViolationParams := mkViolationParams {
  vp_PeerID : string;
  vp_ViolationCount : Z;
  vp_ExpiresAt : option Z;
}.

(** The dependencies of [NewConnectionGater]: whether each is non-nil. *)
Record GaterConfig := mkGaterConfig {
  gc_BlacklistRepo : bool;
  gc_OperatorRepo : bool;
}.

Definition NewConnectionGater (cfg : option GaterConfig) : res unit :=
  match cfg with
  | None => Err (Errorf "[ConnectionGater] config is nil")
  | Some cfg =>
      if negb (gc_BlacklistRepo cfg) then Err (Errorf "[ConnectionGater] blacklist repo is nil")
      else if negb (gc_OperatorRepo cfg) then Err (Errorf "[ConnectionGater] operator repo is nil")
      else Ok tt
  end.

Section gater.
Context `{Env} `{P2PLib} {C : Type}.

Definition isBlocked (peerID : string) : M (World C) bool :=
  let! blocked := IsBlocked (PeerID_String peerID) in
  match blocked with
  | None => ret false
  | Some b => ret b
  end.

Definition isActiveOperator (peerID : string) : M (World C) bool :=
  let! p2pKey := wrapM "failed to convert peerID to p2p key" (lift (PeerIDToP2PKey peerID)) in
  let! operator := GetOperatorByP2PKey p2pKey in
  match operator with
  | None => ret false
  | Some operator => ret (o_IsActive operator)
  end.

Definition checkPeerPermission (peerID : string) : M (World C) bool :=
  let! blocked := try (isBlocked peerID) in
  match blocked with
  | inr _ => ret false
  | inl true => ret false
  | inl false =>
      let! isActive := try (isActiveOperator peerID) in
      match isActive with
      | inr _ => ret false
      | inl false => ret false
      | inl true => ret true
      end
  end.

Definition InterceptPeerDial := checkPeerPermission.
Definition InterceptAddrDial {A : Type} (peerID : string) (addr : A) : M (World C) bool :=
  checkPeerPermission peerID.
Definition InterceptSecured {A B : Type} (direction : A) (peerID : string) (addrs : B) :
    M (World C) bool :=
  checkPeerPermission peerID.
Definition InterceptAccept `{AddrLib} (remote : option Multiaddr) : M (World C) bool :=
  ret (validateBasicAddr remote).
Definition InterceptUpgraded {A : Type} (conn : A) : M (World C) bool := ret true.

(** blacklist.go: the cache key to invalidate is nil in both. *)
Definition gater_IncrementViolationCount (params : ViolationParams) : M (World C) unit :=
  do! IncrementViolationCount WConn
        (mkIncrementViolationCountParams (PeerID_String (vp_PeerID params))
           (vp_ViolationCount params) (vp_ExpiresAt params)) None in
  ret tt.

Definition gater_UnblockNode (peerID : string) : M (World C) unit :=
  UnblockNode (PeerID_String peerID) None.
End gater.

(** ** Lemmas *)

Section lemmas.
Context `{EnvOk} `{P2PLib} {C : Type}.

(** Invalidating a cache key always succeeds. *)
Definition invalidates : Prop := dc_present = true /\ forall j k c, (dc_invalidate j k c).2 = None.

(** The row of a peer, with a count below [n]. *)
Definition row_ok (peerID : string) (n : Z) (w : World C) : Prop :=
  match db_blacklist (w_db w) !! peerID with
  | None => 0 < n
  | Some b => b_PeerID b = peerID /\ 0 <= b_ViolationCount b < n
  end.

Definition count_of (peerID : string) (w : World C) : Z :=
  default 0 (b_ViolationCount <$> db_blacklist (w_db w) !! peerID).

(** The verdict on a peer is not cached. *)
Definition uncached (peerID : string) (w : World C) : Prop :=
  forall i, dc_lookup i (w_cache w) (isBlockedKey peerID) = None.

(** The statement on a good row: one more violation, never expiring. *)
Lemma sql_increment_ok peerID now d :
  fits_varchar 128 peerID = true ->
  (match db_blacklist d !! peerID with
   | None => True
   | Some b => b_PeerID b = peerID /\ 0 <= b_ViolationCount b < 2 ^ 31 - 1
   end) ->
  exists row, sql_incrementViolationCount (mkIncrementViolationCountParams peerID 1 None) now d =
      Ok (db_set_blacklist (<[peerID := row]> (db_blacklist d)) d, row) /\
    b_PeerID row = peerID /\ b_ExpiresAt row = None /\
    b_ViolationCount row = default 0 (b_ViolationCount <$> db_blacklist d !! peerID) + 1.
Proof.
  intros Hfit Hrow. unfold sql_incrementViolationCount, blacklist_row_ok. simpl.
  rewrite Hfit. simpl. destruct (db_blacklist d !! peerID) as [b|]; simpl; [|eexists; split; done].
  destruct Hrow as [Hid Hc]. rewrite Hid, Hfit. simpl.
  assert (fits_int4 (b_ViolationCount b + 1) = true) as ->.
  { unfold fits_int4. apply andb_true_intro. split; [apply Z.leb_le|apply Z.ltb_lt]; lia. }
  rewrite (proj2 (Z.leb_le 0 (b_ViolationCount b + 1))) by lia. simpl. eexists. split; done.
Qed.

Lemma PostExec_one (w : World C) k (Hi : invalidates) :
  exists w' i, PostExec WConn [k] w = (w', Ok None) /\ w_db w' = w_db w /\
    w_cache w' = (dc_invalidate i k (w_cache w)).1.
Proof.
  destruct Hi as [Hp Hi]. unfold PostExec. cbn [invalidate_all]. unfold Invalidate. rewrite Hp.
  unfold bind, tick, ret. simpl.
  destruct (dc_invalidate (w_step w) k (w_cache w)) as [c e] eqn:E.
  pose proof (Hi (w_step w) k (w_cache w)) as He. rewrite E in He. simpl in He. subst e.
  change (length [@None error]) with 1%nat. rewrite Nat.mod_1_r.
  eexists _, (w_step w). split; [reflexivity|]. split; [done|by rewrite E].
Qed.

(** One violation, on a database and a cache that answer. *)
Lemma violation_counted peerID (w : World C) (Hr : reliable) (Hi : invalidates) :
  fits_varchar 128 peerID = true -> row_ok peerID (2 ^ 31 - 1) w ->
  let w' := (IncrementViolationCount WConn (mkIncrementViolationCountParams peerID 1 None)
               (Some peerID) w).1 in
  count_of peerID w' = count_of peerID w + 1 /\ uncached peerID w' /\
  exists b, db_blacklist (w_db w') !! peerID = Some b /\ b_PeerID b = peerID /\ b_ExpiresAt b = None.
Proof.
  intros Hfit Hrow. cbv zeta.
  destruct (sql_increment_ok peerID (env_now (w_step w)) (w_db w) Hfit) as (row & Esql & Hid & Hexp & Hc).
  { unfold row_ok in Hrow. by destruct (db_blacklist (w_db w) !! peerID). }
  set (w1 := set_db (db_set_blacklist (<[peerID := row]> (db_blacklist (w_db w))) (w_db w))
               (set_step (S (w_step w)) w)).
  destruct (PostExec_one w1 (isBlockedKey peerID) Hi) as (w2 & i & Hpost & Hdb & Hcache).
  assert (IncrementViolationCount WConn (mkIncrementViolationCountParams peerID 1 None)
            (Some peerID) w = (w2, Ok (Some row))) as ->.
  { unfold IncrementViolationCount, bind at 1. rewrite pg_call_reliable by done. rewrite Esql.
    cbn [isBlockedKeys]. fold w1. unfold bind. by rewrite Hpost. }
  unfold count_of, uncached. cbn [fst]. rewrite Hdb, Hcache. simpl. rewrite lookup_insert_eq. simpl.
  split; [by rewrite Hc|]. split; [|by exists row].
  intros j. destruct (dc_invalidate i (isBlockedKey peerID) (w_cache w)) as [c e] eqn:E.
  apply (dc_lookup_invalidate j i (isBlockedKey peerID) (w_cache w)). rewrite E. f_equal.
  destruct Hi as [_ Hi]. specialize (Hi i (isBlockedKey peerID) (w_cache w)). by rewrite E in Hi.
Qed.

(** The gater reads an uncached verdict from the database. *)
Lemma checkPeerPermission_uncached peerID (w : World C) b (Hr : reliable) :
  uncached (PeerID_String peerID) w ->
  db_blacklist (w_db w) !! PeerID_String peerID = Some b ->
  3 <= b_ViolationCount b -> b_ExpiresAt b = None ->
  (checkPeerPermission peerID w).2 = Ok false.
Proof.
  intros Hu Hl Hc He. unfold checkPeerPermission, isBlocked, IsBlocked, cached, GetWithTtl.
  unfold bind, try, tick, gets, ret, modify.
  assert (Hs : forall w1 : World C, w_db w1 = w_db w ->
    pg_call (sql_isBlocked (PeerID_String peerID)) w1 =
      (set_db (w_db w) (set_step (S (w_step w1)) w1), Ok true)).
  { intros w1 E1. rewrite pg_call_reliable by done. unfold sql_isBlocked. rewrite E1, Hl.
    unfold row_blocks. rewrite He, (proj2 (Z.leb_le 3 _)) by done. done. }
  destruct dc_present; simpl; [rewrite Hu|]; simpl; rewrite Hs by done; done.
Qed.
End lemmas.

(** ** Properties *)

Section properties.
Context `{EnvOk} `{P2PLib} {C : Type}.

(** C12: the gater fails closed: it admits a peer only when the blacklist
    answers that it is not blocked (or has no entry) and the operator table
    answers that the key derived from its identity belongs to an active
    operator; no error of the database, of the cache or of the key derivation
    lets a peer through. *)
Theorem gater_fails_closed peerID (w w' : World C) :
  checkPeerPermission peerID w = (w', Ok true) <->
  exists w1 verdict p2pKey op,
    IsBlocked (PeerID_String peerID) w = (w1, Ok verdict) /\ verdict <> Some true /\
    PeerIDToP2PKey peerID = Ok p2pKey /\
    GetOperatorByP2PKey p2pKey w1 = (w', Ok (Some op)) /\ o_IsActive op = true.
Proof.
  unfold checkPeerPermission, isBlocked, isActiveOperator, bind, try, ret, wrapM, lift.
  destruct (IsBlocked (PeerID_String peerID) w) as [w1 [verdict|e|s]];
    [|split; [done|by intros (?&?&?&?&[=]&_)]..].
  assert (verdict = Some true \/ verdict <> Some true /\
    match verdict with Some b => (w1, Ok b) | None => (w1, Ok false) end = (w1, Ok false))
    as [->|[Hv Ev]].
  { destruct verdict as [[]|]; eauto. }
  { split; [done|]. by intros (?&?&?&?&[= <- <-]&?&_). }
  replace (match verdict with Some b => _ | None => _ end w1) with
    (w1, Ok false : res bool) by (by destruct verdict as [[]|]).
  destruct (PeerIDToP2PKey peerID) as [k|e|s]; simpl;
    [|split; [done|by intros (?&?&?&?&_&_&[=]&_)]..].
  destruct (GetOperatorByP2PKey k w1) as [w2 [[op|]|e|s]] eqn:Eop;
    [|split; [done|intros (?&?&?&?&[= <- <-]&_&[= <-]&?&_); congruence]..].
  destruct (o_IsActive op) eqn:Ea; split; try done.
  - intros [= <-]. exists w1, verdict, k, op. done.
  - intros (?&?&?&?&[= <- <-]&_&[= <-]&Hop&_). rewrite Eop in Hop. by injection Hop as <- _.
  - intros (?&?&?&?&[= <- <-]&_&[= <-]&Hop&?). rewrite Eop in Hop. injection Hop as <- <-. congruence.
Qed.

(** One recorded violation, as the task processor records it. *)
Lemma incrementPeerViolation_counted peerID e (w : World C) (Hr : reliable) (Hi : invalidates) :
  fits_varchar 128 (PeerID_String peerID) = true ->
  row_ok (PeerID_String peerID) (2 ^ 31 - 1) w ->
  let w' := (incrementPeerViolation peerID e w).1 in
  count_of (PeerID_String peerID) w' = count_of (PeerID_String peerID) w + 1 /\
  uncached (PeerID_String peerID) w' /\
  exists b, db_blacklist (w_db w') !! PeerID_String peerID = Some b /\
    b_PeerID b = PeerID_String peerID /\ b_ExpiresAt b = None.
Proof.
  intros Hfit Hrow. pose proof (violation_counted _ w Hr Hi Hfit Hrow) as Hv. cbv zeta in Hv |- *.
  unfold incrementPeerViolation, bind, try.
  by destruct (IncrementViolationCount _ _ _ w) as [w1 [?|?|?]].
Qed.

(** C20: three violations block: whatever was cached or counted before, after
    three messages of a peer were rejected as violations the gater refuses
    the peer, with no expiry, on a database and a cache that answer. *)
Theorem three_violations_block peerID e1 e2 e3 (w : World C) (Hr : reliable) (Hi : invalidates)
    (Hfit : fits_varchar 128 (PeerID_String peerID) = true)
    (Hrow : row_ok (PeerID_String peerID) (2 ^ 31 - 3) w) :
  let w3 := (incrementPeerViolation peerID e3
              (incrementPeerViolation peerID e2 (incrementPeerViolation peerID e1 w).1).1).1 in
  (checkPeerPermission peerID w3).2 = Ok false.
Proof.
  set (p := PeerID_String peerID) in *.
  assert (Hnext : forall (w1 : World C) e n, 0 <= count_of p w1 < n -> n <= 2 ^ 31 - 1 ->
    row_ok p n w1 ->
    let w2 := (incrementPeerViolation peerID e w1).1 in
    count_of p w2 = count_of p w1 + 1 /\ row_ok p (n + 1) w2 /\ uncached p w2 /\
    exists b, db_blacklist (w_db w2) !! p = Some b /\ b_ExpiresAt b = None).
  { intros w1 e n Hc Hn Hok. cbv zeta.
    assert (row_ok p (2 ^ 31 - 1) w1) as Hok'.
    { unfold row_ok in *. destruct (db_blacklist (w_db w1) !! p); lia || (split; [tauto|lia]). }
    destruct (incrementPeerViolation_counted peerID e w1 Hr Hi Hfit Hok') as (Hct & Hu & b & Hb & Hid & He).
    fold p in Hct, Hu, Hb, Hid. split; [done|]. split; [|eauto].
    unfold row_ok. rewrite Hb. split; [done|].
    unfold count_of in Hct at 1. rewrite Hb in Hct. simpl in Hct. lia. }
  assert (0 <= count_of p w < 2 ^ 31 - 3) as Hc0.
  { unfold row_ok, count_of in *. destruct (db_blacklist (w_db w) !! p); simpl; lia. }
  destruct (Hnext w e1 (2 ^ 31 - 3) Hc0 ltac:(lia) Hrow) as (Hc1 & Hrow1 & _).
  set (w1 := (incrementPeerViolation peerID e1 w).1) in *.
  destruct (Hnext w1 e2 (2 ^ 31 - 3 + 1) ltac:(lia) ltac:(lia) Hrow1) as (Hc2 & Hrow2 & _).
  set (w2 := (incrementPeerViolation peerID e2 w1).1) in *.
  destruct (Hnext w2 e3 (2 ^ 31 - 1) ltac:(lia) ltac:(lia)) as (Hc3 & _ & Hu & b & Hb & He).
  { by replace (2 ^ 31 - 1) with (2 ^ 31 - 3 + 1 + 1) by lia. }
  cbv zeta. eapply checkPeerPermission_uncached; [done|done|exact Hb| |done].
  unfold count_of in Hc3 at 1. rewrite Hb in Hc3. simpl in Hc3. lia.
Qed.
End properties.

(** An address is accepted exactly when its IPv4 part parses and its TCP
    port is a number from 1 to 65535. *)
Theorem validateBasicAddr_iff `{AddrLib} (addr : option Multiaddr) :
  validateBasicAddr addr = true <->
  exists a ip port n, addr = Some a /\
    ValueForProtocol a P_IP4 = Ok ip /\ net_ParseIP ip = true /\
    ValueForProtocol a P_TCP = Ok port /\ Atoi port = Some n /\ 1 <= n <= 65535.
Proof.
  destruct addr as [a|]; simpl; [|split; [done|by intros (?&?&?&?&[=]&_)]].
  rewrite andb_true_r, andb_true_iff. unfold validateProtocol. simpl.
  destruct (ValueForProtocol a P_IP4) as [ip|e|s] eqn:Eip;
    [|split; [by intros [? _]|intros (?&?&?&?&[= <-]&?&_); congruence]..].
  destruct (ValueForProtocol a P_TCP) as [port|e|s] eqn:Eport;
    [|split; [by intros [_ ?]|intros (?&?&?&?&[= <-]&_&_&?&_); congruence]..].
  destruct (Atoi port) as [n|] eqn:En;
    [|split; [by intros [_ ?]|intros (?&?&?&?&[= <-]&_&_&Hp&?&_); congruence]].
  rewrite negb_true_iff, orb_false_iff, Z.ltb_ge, Z.ltb_ge. split.
  - intros (Hip & Hn). exists a, ip, port, n. split_and!; (done || lia).
  - intros (a'&ip'&port'&n'&[= <-]&Hi&Hip&Hp&Hn&Hr).
    rewrite Eip in Hi. injection Hi as <-. rewrite Eport in Hp. injection Hp as <-.
    rewrite En in Hn. injection Hn as <-. split; [done|lia].
Qed.

(** ** Examples *)

Section toy.
#[local] Existing Instance toy_env.
#[local] Existing Instance toy_p2p.

Definition toy_gate (w : World ToyNode) : World ToyNode * res bool := checkPeerPermission toy_peer w.

Lemma gater_admits_example : (toy_gate toy_node_world).2 = Ok true.
Proof. vm_compute. reflexivity. Qed.

Definition toy_violation (w : World ToyNode) : World ToyNode :=
  (incrementPeerViolation toy_peer (Errorf "bad signature") w).1.

Lemma toy_invalidates : invalidates.
Proof. by split. Qed.

Lemma three_violations_block_witness :
  (toy_gate (toy_violation (toy_violation (toy_violation (toy_gate toy_node_world).1)))).2 = Ok false.
Proof.
  refine (three_violations_block toy_peer (Errorf "bad signature") (Errorf "bad signature")
    (Errorf "bad signature") (toy_gate toy_node_world).1 toy_reliable toy_invalidates _ _).
  - vm_compute. reflexivity.
  - vm_compute. reflexivity.
Defined.

(** Violations recorded through the gater itself do not reach it: it
    passes no key to invalidate, so a cached verdict outlives the three
    violations and the peer still connects, while the database says it is
    blocked. *)
Theorem gater_violation_not_seen :
  let w1 := (toy_gate toy_node_world).1 in
  let w2 := (gater_IncrementViolationCount (mkViolationParams toy_peer 3 None) w1).1 in
  (toy_gate toy_node_world).2 = Ok true /\
  b_ViolationCount <$> db_blacklist (w_db w2) !! PeerID_String toy_peer = Some 3 /\
  (toy_gate w2).2 = Ok true.
Proof. cbv zeta. split_and!; vm_compute; reflexivity. Qed.
End toy.
