(* ===== verification/Epoch.v ===== *)
(** * pkg/operator/epoch: the epoch updator

    Every five seconds the updator compares the epoch of the chain's head with
    the last one it processed; in a new epoch it refreshes the epoch state in
    memory and, in one transaction, the state of every operator row. *)

From S2P Require Import Prelude GoInt GoString Numeric EpochMath Models World.
From S2P Require Import TasksRepo OperatorsRepo EthLib Signer Chain Task TaskInv TaskToy.

Record EpochState := mkEpochState {
  es_EpochNumber : Z;
  es_MinimumWeight : option Z;
  es_TotalWeight : option Z;
  es_ThresholdWeight : option Z;
}.

(** The fields of [epochUpdator] that change. *)
Record EpochMem := mkEpochMem {
  em_currentEpochState : EpochState;
  em_lastProcessedEpoch : Z;
}.

(** The dependencies of [NewEpochUpdator]: whether each is non-nil. *)
Record EpochConfig := mkEpochConfig {
  epc_OperatorRepo : bool;
  epc_MainnetClient : option ChainClient;
  epc_TxManager : bool;
}.

(** The zero values of a fresh updator *)
Definition NewEpochUpdator (cfg : option EpochConfig) : res EpochMem :=
  match cfg with
  | None => Err (Errorf "config is nil")
  | Some cfg =>
      if negb (epc_OperatorRepo cfg) then Err (Errorf "operatorRepo is nil")
      else
        match epc_MainnetClient cfg with
        | None => Err (Errorf "mainnetClient is nil")
        | Some _ =>
            if negb (epc_TxManager cfg) then Err (Errorf "txManager is nil")
            else Ok (mkEpochMem (mkEpochState 0 None None None) 0)
        end
  end.

(** Where the updator's state lives in the node's memory. *)
Class HasEpoch (C : Type) := {
  epoch_mem : C -> EpochMem;
  set_epoch_mem : EpochMem -> C -> C;
}.

Class HasEpochOk (C : Type) `{HasEpoch C} := {
  epoch_mem_set : forall m c, epoch_mem (set_epoch_mem m c) = m;
}.

Definition GetEpochState `{HasEpoch C} (c : C) : EpochState := em_currentEpochState (epoch_mem c).

(** The updator implements the interface the task processor reads. *)
#[export] Instance updator_EpochStateQuerier `{HasEpoch C} : EpochStateQuerier C := {|
  GetThresholdWeight c := es_ThresholdWeight (em_currentEpochState (epoch_mem c));
  GetCurrentEpochNumber c := es_EpochNumber (em_currentEpochState (epoch_mem c));
|}.

Section epoch.
Context `{Env} `{EthLib} {C : Type} `{HasEpoch C}.
Variable mainnetClient : ChainClient.
Local Abbreviation MW := (M (World C)).

Definition put_epoch (m : EpochMem) : MW unit :=
  modify (fun w => set_mem (set_epoch_mem m (w_mem w)) w).

Definition updateEpochState (currentEpoch : Z) : MW unit :=
  let! minimumStake := wrapM "failed to get minimum stake"
                         (extern (cc_GetMinimumWeight mainnetClient)) in
  let! totalWeight := wrapM "failed to get total stake"
                        (extern (cc_GetTotalWeight mainnetClient)) in
  let! thresholdWeight := wrapM "failed to get threshold weight"
                            (extern (cc_GetThresholdWeight mainnetClient)) in
  let! m := gets (fun w => epoch_mem (w_mem w)) in
  put_epoch (mkEpochMem (mkEpochState currentEpoch minimumStake totalWeight thresholdWeight)
               (em_lastProcessedEpoch m)).

(** The body of the loop over the operators *)
Definition update_operator (currentBlock currentEpoch : Z) (operator : Operators) : MW unit :=
  let isActive := IsOperatorActive currentBlock (o_ActiveEpoch operator) (o_ExitEpoch operator) in
  let address := HexToAddress (o_Address operator) in
  let! currentWeight := wrapM "failed to get weight for operator"
    (extern (fun i => cc_GetOperatorWeight mainnetClient i address)) in
  let! currentSigningKey := wrapM "failed to get signing key for operator"
    (extern (fun i => cc_GetOperatorSigningKey mainnetClient i address currentEpoch)) in
  let! currentP2PKey := wrapM "failed to get P2P key for operator"
    (extern (fun i => cc_GetOperatorP2PKey mainnetClient i address currentEpoch)) in
  do! wrapM "failed to update operator state"
        (UpdateOperatorState WTx
           (mkUpdateOperatorStateParams (o_Address operator) isActive
              (BigIntToNumeric currentWeight) (Address_Hex currentSigningKey)
              (Address_Hex currentP2PKey))
           (mkInvalidateKeys (Some (o_Address operator)) (Some (o_SigningKey operator))
              (Some (o_P2pKey operator)) (Some (o_P2pKey operator)))) in
  ret tt.

Definition update_operators (currentBlock currentEpoch : Z) : MW unit :=
  do! wrapM "failed to update epoch state" (updateEpochState currentEpoch) in
  let! allOperators := wrapM "failed to get all operators" ListAllOperators in
  for_all allOperators (update_operator currentBlock currentEpoch).

Definition handleEpochUpdate (currentEpoch : Z) : MW unit :=
  let! currentBlock := wrapM "failed to get current block number"
                         (extern (cc_BlockNumber mainnetClient)) in
  wrapM "transaction failed" (Transact (update_operators currentBlock currentEpoch)).

(** One tick of [start]: errors are logged, the epoch counts as processed
    only after a committed update. *)
Definition epoch_tick : MW unit :=
  let! blockNumber := try (extern (cc_BlockNumber mainnetClient)) in
  match blockNumber with
  | inr _ => ret tt
  | inl blockNumber =>
      let currentEpoch := CalculateCurrentEpochNumber blockNumber in
      let! m := gets (fun w => epoch_mem (w_mem w)) in
      if em_lastProcessedEpoch m <? currentEpoch then
        let! r := try (handleEpochUpdate currentEpoch) in
        match r with
        | inr _ => ret tt
        | inl _ =>
            let! m := gets (fun w => epoch_mem (w_mem w)) in
            put_epoch (mkEpochMem (em_currentEpochState m) currentEpoch)
        end
      else ret tt
  end.
End epoch.

(** ** All or nothing *)

(** Operator rows are filed under their address. *)
Definition operators_keyed (m : gmap string Operators) : Prop :=
  forall a o, m !! a = Some o -> o_Address o = a.

Section lemmas.
Context `{Env} `{EthLib} {C : Type} `{HasEpochOk C}.
Variable cl : ChainClient.

Lemma put_epoch_db D m : preserves (db_pred (C:=C) D) (put_epoch m).
Proof. by intros w. Qed.

Lemma updateEpochState_db D e : preserves (db_pred (C:=C) D) (updateEpochState cl e).
Proof. unfold updateEpochState. solve_preserves; apply put_epoch_db. Qed.

(** What an operator row becomes in an update: activity by the block, weight
    and keys by the registry. *)
Definition refreshed (block epoch : Z) (o o' : Operators) : Prop :=
  o_Address o' = o_Address o /\ o_ActiveEpoch o' = o_ActiveEpoch o /\
  o_ExitEpoch o' = o_ExitEpoch o /\
  o_RegisteredAtBlockNumber o' = o_RegisteredAtBlockNumber o /\
  o_IsActive o' = IsOperatorActive block (o_ActiveEpoch o) (o_ExitEpoch o) /\
  exists i j k weight sk pk,
    cc_GetOperatorWeight cl i (HexToAddress (o_Address o)) = Ok weight /\
    cc_GetOperatorSigningKey cl j (HexToAddress (o_Address o)) epoch = Ok sk /\
    cc_GetOperatorP2PKey cl k (HexToAddress (o_Address o)) epoch = Ok pk /\
    numeric_arg (BigIntToNumeric weight) = Ok (Some (o_Weight o')) /\
    o_SigningKey o' = Address_Hex sk /\ o_P2pKey o' = Address_Hex pk.

(** The rows of [l] are refreshed, the others are those of [m0]. *)
Definition partly_refreshed (block epoch : Z) (m0 : gmap string Operators) (l : list string)
    (m : gmap string Operators) : Prop :=
  forall a, match m0 !! a, m !! a with
            | Some o, Some o' => if decide (a ∈ l) then refreshed block epoch o o' else o' = o
            | None, None => True
            | _, _ => False
            end.

Lemma update_operator_step block epoch m0 l o (w w' : World C) :
  operators_keyed m0 -> m0 !! o_Address o = Some o -> o_Address o ∉ l ->
  partly_refreshed block epoch m0 l (db_operators (w_db w)) ->
  update_operator cl block epoch (scan_Operators o) w = (w', Ok tt) ->
  partly_refreshed block epoch m0 (o_Address o :: l) (db_operators (w_db w')).
Proof.
  intros Hk Ho Hnin Hpart. unfold update_operator. rewrite bind_Ok.
  intros (w1 & weight & Hw & Hrun). apply wrapM_Ok, extern_Ok in Hw as [-> Hw].
  apply bind_Ok in Hrun as (w2 & sk & Hsk & Hrun). apply wrapM_Ok, extern_Ok in Hsk as [-> Hsk].
  apply bind_Ok in Hrun as (w3 & pk & Hpk & Hrun). apply wrapM_Ok, extern_Ok in Hpk as [-> Hpk].
  apply bind_Ok in Hrun as (w4 & out & Hupd & Hrun). injection Hrun as <-.
  apply wrapM_Ok, update_returning_Ok in Hupd as (now & d' & row & Hs & ->).
  cbn [o_Address scan_Operators] in *. pose proof (Hpart (o_Address o)) as Ha. rewrite Ho in Ha.
  unfold sql_updateOperatorState in Hs. apply res_bind_Ok in Hs as (wt & Hwt & Hs). simpl in Hs, Hwt.
  destruct (db_operators (w_db w) !! o_Address o) as [o1|] eqn:Eo1; [|done].
  rewrite decide_False in Ha by done. subst o1.
  apply res_bind_Ok in Hs as (_ & _ & Hs). destruct wt as [wt|]; [|done]. injection Hs as <- _. simpl.
  intros a. destruct (decide (a = o_Address o)) as [->|Hne].
  - rewrite Ho, lookup_insert_eq, decide_True by (by left).
    unfold refreshed. simpl. split_and!; try done. eauto 12.
  - rewrite lookup_insert_ne by done. specialize (Hpart a).
    destruct (m0 !! a), (db_operators (w_db w) !! a); try done.
    rewrite (decide_ext _ (a ∈ l)); [done|]. rewrite elem_of_cons. tauto.
Qed.

Lemma update_operators_loop block epoch m0 os : forall l (w w' : World C),
  operators_keyed m0 -> (forall o, o ∈ os -> m0 !! o_Address o = Some o) ->
  NoDup (o_Address <$> os) -> (forall o, o ∈ os -> o_Address o ∉ l) ->
  partly_refreshed block epoch m0 l (db_operators (w_db w)) ->
  for_all (scan_Operators <$> os) (update_operator cl block epoch) w = (w', Ok tt) ->
  exists l', (forall a, a ∈ l' <-> a ∈ l \/ a ∈ o_Address <$> os) /\
    partly_refreshed block epoch m0 l' (db_operators (w_db w')).
Proof.
  induction os as [|o os IH]; intros l w w' Hk Hm Hnd Hl Hpart Hrun.
  { injection Hrun as <-. exists l. split; [set_solver|done]. }
  rewrite fmap_cons in Hrun. apply for_all_cons_Ok in Hrun as (w1 & Hstep & Hrun).
  rewrite fmap_cons in Hnd. apply NoDup_cons in Hnd as [Hnin Hnd].
  apply (update_operator_step block epoch m0 l) in Hstep; [|done|apply Hm; by left|apply Hl; by left|done].
  apply (IH (o_Address o :: l)) in Hrun as (l' & Hl' & Hp); [|done|intros; apply Hm; by right|done| |done].
  - exists l'. split; [|done]. intros a. rewrite Hl'. set_solver.
  - intros o' Ho'. apply not_elem_of_cons. split; [|apply Hl; by right].
    intros E. apply Hnin. rewrite <- E. by apply list_elem_of_fmap_2.
Qed.

(** The rows of a table, each once. *)
Lemma operator_rows (m : gmap string Operators) : operators_keyed m ->
  NoDup (o_Address <$> table_rows m) /\
  (forall o, o ∈ table_rows m -> m !! o_Address o = Some o) /\
  (forall a, a ∈ o_Address <$> table_rows m <-> is_Some (m !! a)).
Proof.
  intros Hk. assert (o_Address <$> table_rows m = (map_to_list m).*1) as E.
  { unfold table_rows. rewrite <- list_fmap_compose. apply list_fmap_ext. intros i [a o] Hi. simpl.
    apply Hk, elem_of_map_to_list. by eapply list_elem_of_lookup_2. }
  split_and!.
  - rewrite E. apply NoDup_fst_map_to_list.
  - intros o (a & Ha)%elem_of_table_rows. by rewrite (Hk a o Ha).
  - intros a. rewrite E, list_elem_of_fmap. split.
    + intros ([a' o] & -> & Ho%elem_of_map_to_list). eauto.
    + intros [o Ho]. exists (a, o). split; [done|]. by apply elem_of_map_to_list.
Qed.

(** Every row is refreshed, and there are no others. *)
Definition all_refreshed (block epoch : Z) (m m' : gmap string Operators) : Prop :=
  forall a, match m !! a, m' !! a with
            | Some o, Some o' => refreshed block epoch o o'
            | None, None => True
            | _, _ => False
            end.

Lemma update_operators_Ok block epoch (w w' : World C) :
  operators_keyed (db_operators (w_db w)) ->
  update_operators cl block epoch w = (w', Ok tt) ->
  all_refreshed block epoch (db_operators (w_db w)) (db_operators (w_db w')).
Proof.
  intros Hk. unfold update_operators. rewrite bind_Ok. intros (w1 & [] & Hs & Hrun).
  apply wrapM_Ok in Hs.
  pose proof (preserves_run _ _ _ _ _ (updateEpochState_db (eq (w_db w)) epoch) Hs eq_refl) as E1.
  apply bind_Ok in Hrun as (w2 & os & Hl & Hrun). apply wrapM_Ok in Hl. unfold ListAllOperators in Hl.
  apply bind_Ok in Hl as (w3 & rows & Hpg & Hl). apply pg_call_Ok in Hpg as (d & [= <- <-] & ->).
  injection Hl as <- <-. unfold db_pred in E1. rewrite <- E1 in *.
  destruct (operator_rows _ Hk) as (Hnd & Hrows & Hall).
  apply (update_operators_loop block epoch (db_operators (w_db w)) _ []) in Hrun
    as (l' & Hl' & Hp); [|done|done|done|set_solver|].
  - intros a. specialize (Hp a). specialize (Hl' a). specialize (Hall a).
    destruct (db_operators (w_db w) !! a) as [o|]; [|done].
    destruct (db_operators (w_db w') !! a) as [o'|]; [|done].
    rewrite decide_True in Hp; [done|]. apply Hl'. right. apply Hall. eauto.
  - intros a. cbn [set_db set_step w_db]. destruct (db_operators (w_db w) !! a); [|done].
    by rewrite decide_False by set_solver.
Qed.
End lemmas.

Section transact.
Context `{Env} {C : Type}.

(** A transaction leaves the database as it was, or as its body left it; it
    returns a value only in the second case. *)
Lemma Transact_db_cases {A} (f : M (World C) A) w w' out :
  Transact f w = (w', out) ->
  (exists w1 a, f (set_pending [] w) = (w1, Ok a) /\ w_db w' = w_db w1) \/
  (w_db w' = w_db w /\ forall a, out <> Ok a).
Proof.
  unfold Transact. destruct (f (set_pending [] w)) as [w1 [a|e|s]]; [|by intros [= <- <-]; right..].
  unfold bind, tick. simpl. destruct (env_pg (w_step w1)); [|by intros [= <- <-]; right|].
  - intros Hrun. left. exists w1, a. split; [done|].
    pose proof (invalidate_all_db (eq (w_db w1)) (w_pending w1)
      (set_step (S (w_step w1)) (set_pending (w_pending w) w1)) eq_refl) as Hi.
    destruct (invalidate_all _ _) as [w2 [?|?|?]]; injection Hrun as <- _; by symmetry.
  - intros [= <- <-]. left. by exists w1, a.
Qed.

(** What the body leaves in memory stays there, however it ends. *)
Lemma Transact_leaves {A} P (f : M (World C) A) w :
  mem_pred P (f (set_pending [] w)).1 -> mem_pred P (Transact f w).1.
Proof.
  intros Hf. unfold Transact.
  destruct (f (set_pending [] w)) as [w' [a|e|s]]; simpl in *; [|done|done].
  unfold bind, tick. simpl. destruct (env_pg _); [|done|done].
  pose proof (invalidate_all_mem P (w_pending w')
    (set_step (S (w_step w')) (set_pending (w_pending w) w')) Hf) as Hi.
  by destruct (invalidate_all _ _) as [w2 [?|?|?]].
Qed.

Lemma invalidate_all_no_error ks (w w' : World C) e : invalidate_all ks w <> (w', Err e).
Proof.
  revert w. induction ks as [|k ks IH]; intros w; cbn [invalidate_all]; [done|].
  unfold Invalidate. destruct dc_present; [|done]. unfold bind, tick. simpl.
  destruct (dc_invalidate _ _ _) as [c o]. specialize (IH (set_cache c (set_step (S (w_step w)) w))).
  destruct (invalidate_all ks _) as [w2 [?|e'|?]]; [done| |done]. intros [= -> ->]. by apply IH.
Qed.

(** A transaction that fails has left the database alone, unless it is the
    answer to its commit that was lost. *)
Lemma Transact_failed {A} (f : M (World C) A) w w' e : Transact f w = (w', Err e) ->
  w_db w' = w_db w \/ exists i e', env_pg i = PgLost e'.
Proof.
  unfold Transact. destruct (f (set_pending [] w)) as [w1 [a|e1|s]]; [|by intros [= <- <-]; left|done].
  unfold bind, tick. simpl. destruct (env_pg (w_step w1)) as [|e1|e1] eqn:Ep; [|by intros [= <- <-]; left|eauto].
  destruct (invalidate_all _ _) as [w2 [?|e2|?]] eqn:Ei; [done| |done].
  by apply invalidate_all_no_error in Ei.
Qed.
End transact.

(** ** Properties *)

Section properties.
Context `{Env} `{EthLib} {C : Type} `{HasEpochOk C}.
Variable cl : ChainClient.

(** The two ways a refresh ends. *)
Lemma handleEpochUpdate_cases epoch (w w' : World C) out
    (Hk : operators_keyed (db_operators (w_db w)))
    (Hrun : handleEpochUpdate cl epoch w = (w', out)) :
  (db_operators (w_db w') = db_operators (w_db w) /\ out <> Ok tt) \/
  exists i block, cc_BlockNumber cl i = Ok block /\
    all_refreshed cl block epoch (db_operators (w_db w)) (db_operators (w_db w')).
Proof.
  revert Hrun. unfold handleEpochUpdate, bind, wrapM at 1, extern, bind, tick, lift.
  destruct (cc_BlockNumber cl (w_step w)) as [block|e|s] eqn:Eb; simpl;
    [|by intros [= <- <-]; left..].
  set (w0 := set_step _ w). unfold wrapM.
  destruct (Transact (update_operators cl block epoch) w0) as [w1 o] eqn:Et.
  intros [= <- <-]. apply Transact_db_cases in Et as [(w2 & [] & Hok & ->)|[-> Hno]].
  - right. exists (w_step w), block. split; [done|].
    by apply (update_operators_Ok cl block epoch (set_pending [] w0)).
  - left. split; [done|]. intros E. apply wrap_Ok in E. by apply (Hno tt).
Qed.

(** C11: an epoch update is all or nothing: whatever call fails, the operator
    table is left either as it was or with every row refreshed, for one
    reported block, from the registry's data; without an error it is the
    latter. *)
Theorem epoch_update_atomic epoch (w w' : World C) out
    (Hk : operators_keyed (db_operators (w_db w)))
    (Hrun : handleEpochUpdate cl epoch w = (w', out)) :
  (db_operators (w_db w') = db_operators (w_db w) /\ out <> Ok tt) \/
  exists i block, cc_BlockNumber cl i = Ok block /\
    all_refreshed cl block epoch (db_operators (w_db w)) (db_operators (w_db w')).
Proof. by apply handleEpochUpdate_cases. Qed.

Definition last_epoch (w : World C) : Z := em_lastProcessedEpoch (epoch_mem (w_mem w)).

Lemma update_operator_mem P b e o : preserves (mem_pred (C:=C) P) (update_operator cl b e o).
Proof. unfold update_operator. solve_preserves. Qed.

Lemma handleEpochUpdate_last epoch x :
  preserves (fun w => last_epoch w = x) (handleEpochUpdate cl epoch).
Proof.
  apply preserves_bind; [by apply preserves_wrapM; intros w|]. intros block.
  apply preserves_wrapM, (Transact_mem (fun c => em_lastProcessedEpoch (epoch_mem c) = x)).
  apply preserves_bind.
  - apply preserves_wrapM. unfold updateEpochState. do 3 (apply preserves_bind; [solve_preserves|]; intros ?).
    intros w Hw. unfold bind, gets, put_epoch, modify, mem_pred in *. simpl. by rewrite epoch_mem_set.
  - intros _. apply preserves_bind; [solve_preserves|]. intros os.
    apply preserves_for_all. intros o. apply update_operator_mem.
Qed.

(** C34: the last processed epoch never decreases, and it advances only to the
    epoch of a block the chain reported, together with a committed refresh of
    every operator row for that epoch: a failed update is tried again at the
    next tick. *)
Theorem epoch_marked_when_refreshed (w w' : World C) out
    (Hk : operators_keyed (db_operators (w_db w)))
    (Hrun : epoch_tick cl w = (w', out)) :
  last_epoch w' = last_epoch w \/
  (last_epoch w < last_epoch w' /\
   exists i j head block, cc_BlockNumber cl i = Ok head /\
     last_epoch w' = CalculateCurrentEpochNumber head /\
     cc_BlockNumber cl j = Ok block /\
     all_refreshed cl block (last_epoch w') (db_operators (w_db w)) (db_operators (w_db w'))).
Proof.
  revert Hrun. unfold epoch_tick, bind at 1, try at 1, extern, bind at 1, tick, lift.
  destruct (cc_BlockNumber cl (w_step w)) as [head|e|s] eqn:Eb; simpl;
    [|by intros [= <- <-]; left..].
  unfold bind at 1, gets. cbn [w_mem set_step]. destruct (Z.ltb_spec (em_lastProcessedEpoch (epoch_mem (w_mem w)))
    (CalculateCurrentEpochNumber head)) as [Hlt|]; [|cbn; by intros [= <- <-]; left].
  set (w0 := set_step _ w). unfold bind at 1, try at 1.
  destruct (handleEpochUpdate cl (CalculateCurrentEpochNumber head) w0) as [w1 r] eqn:Eh.
  assert (last_epoch w1 = last_epoch w) as El.
  { by apply (preserves_run _ _ _ _ _ (handleEpochUpdate_last _ (last_epoch w)) Eh). }
  apply handleEpochUpdate_cases in Eh; [|done].
  destruct r as [[]|e|s]; [|by intros [= <- <-]; left..].
  intros [= <- <-]. set (w2 := set_mem _ _).
  assert (last_epoch w2 = CalculateCurrentEpochNumber head) as ->.
  { unfold last_epoch. simpl. by rewrite epoch_mem_set. }
  destruct Eh as [[_ ?]|(j & block & Hb & Hall)]; [done|].
  right. split; [done|]. exists (w_step w), j, head, block. done.
Qed.

(** The state of an epoch is in memory as soon as the three weights are read. *)
Lemma updateEpochState_puts epoch (w : World C) minimum total threshold :
  cc_GetMinimumWeight cl (w_step w) = Ok minimum ->
  cc_GetTotalWeight cl (S (w_step w)) = Ok total ->
  cc_GetThresholdWeight cl (S (S (w_step w))) = Ok threshold ->
  exists w1, updateEpochState cl epoch w = (w1, Ok tt) /\
    em_currentEpochState (epoch_mem (w_mem w1)) = mkEpochState epoch minimum total threshold.
Proof.
  intros Hmin Htotal Hthreshold.
  unfold updateEpochState, wrapM, extern, bind, tick, lift, gets, put_epoch, modify. simpl.
  rewrite Hmin. simpl. rewrite Htotal. simpl. rewrite Hthreshold. simpl. eexists. split; [reflexivity|].
  simpl. by rewrite epoch_mem_set.
Qed.

(** A refresh whose weights were read and that then failed *)
Lemma handleEpochUpdate_failed epoch (w w' : World C) e block minimum total threshold :
  cc_BlockNumber cl (w_step w) = Ok block ->
  cc_GetMinimumWeight cl (1 + w_step w) = Ok minimum ->
  cc_GetTotalWeight cl (2 + w_step w) = Ok total ->
  cc_GetThresholdWeight cl (3 + w_step w) = Ok threshold ->
  handleEpochUpdate cl epoch w = (w', Err e) ->
  em_currentEpochState (epoch_mem (w_mem w')) = mkEpochState epoch minimum total threshold /\
  (w_db w' = w_db w \/ exists i e', env_pg i = PgLost e').
Proof.
  intros Hblock Hmin Htotal Hthreshold. unfold handleEpochUpdate, bind, wrapM at 1, extern, bind, tick, lift.
  cbn. rewrite Hblock. cbn. set (w2 := set_step _ w).
  destruct (updateEpochState_puts epoch (set_pending [] w2) minimum total threshold Hmin Htotal Hthreshold)
    as (w3 & Eupd & Estate).
  set (state c := em_currentEpochState (epoch_mem c) = mkEpochState epoch minimum total threshold).
  assert (mem_pred state (update_operators cl block epoch (set_pending [] w2)).1) as Hbody.
  { unfold update_operators, bind at 1, wrapM at 1. rewrite Eupd. simpl. revert Estate. generalize w3.
    change (preserves (mem_pred state) (bind (wrapM "failed to get all operators" ListAllOperators)
      (fun os => for_all os (update_operator cl block epoch)))).
    apply preserves_bind; [solve_preserves|]. intros os. apply preserves_for_all. intros o. apply update_operator_mem. }
  apply Transact_leaves in Hbody. unfold wrapM.
  destruct (Transact (update_operators cl block epoch) w2) as [w4 [?|e'|?]] eqn:Et; [done| |done].
  intros [= <- _]. split; [exact Hbody|]. by apply Transact_failed in Et.
Qed.


(** A head below the genesis block stops the updator: its epoch wraps to a
    number near 1.4 billion, and once it is marked processed every later tick
    up to that epoch, thousands of years of blocks, changes nothing. *)
Theorem epoch_wrap_stalls (w : World C) b
    (Hlast : last_epoch w = CalculateCurrentEpochNumber (GenesisBlock - 1))
    (Hb : cc_BlockNumber cl (w_step w) = Ok b)
    (Hrange : GenesisBlock <= b <= GenesisBlock + 2 ^ 33) :
  CalculateCurrentEpochNumber (GenesisBlock - 1) = 1431655765 /\
  epoch_tick cl w = (set_step (S (w_step w)) w, Ok tt).
Proof.
  assert (CalculateCurrentEpochNumber (GenesisBlock - 1) = 1431655765) as E by reflexivity.
  split; [done|]. unfold epoch_tick, bind at 1, try at 1, extern, bind at 1, tick, lift.
  rewrite Hb. unfold bind at 1, gets. cbn [w_mem set_step].
  unfold last_epoch in Hlast. rewrite Hlast, E.
  destruct (Z.ltb_spec 1431655765 (CalculateCurrentEpochNumber b)) as [Hlt|]; [|done]. exfalso.
  unfold CalculateCurrentEpochNumber, GenesisBlock, EpochPeriod in *.
  rewrite u64_id in Hlt by (unfold is_u64; lia).
  assert (0 <= (b - 7698497) / 12 <= 715827883) as Hd.
  { split; [apply Z.div_pos; lia|]. apply Z.div_le_upper_bound; lia. }
  rewrite u32_id in Hlt by (unfold is_u32; lia). lia.
Qed.
End properties.

(** ** The memory of a node: the processor's state and the updator's *)

Record NodeMem := mkNodeMem { nm_task : TaskMem; nm_epoch : EpochMem }.

#[export] Instance NodeMem_HasTask : HasTask NodeMem := {|
  task_mem := nm_task;
  set_task_mem m c := mkNodeMem m (nm_epoch c);
|}.
#[export] Instance NodeMem_HasEpoch : HasEpoch NodeMem := {|
  epoch_mem := nm_epoch;
  set_epoch_mem m c := mkNodeMem (nm_task c) m;
|}.
#[export] Instance NodeMem_HasTaskOk : HasTaskOk NodeMem.
Proof. by constructor; intros; try destruct c. Qed.
#[export] Instance NodeMem_HasEpochOk : HasEpochOk NodeMem.
Proof. by constructor. Qed.

(** ** Examples *)

Section toy.
#[local] Existing Instance toy_env.
#[local] Existing Instance toy_eth.

Definition toy_epoch_mem (last : Z) : EpochMem := mkEpochMem (mkEpochState 0 None None None) last.

Definition toy_epoch_world (last : Z) : World NodeMem :=
  toy_world toy_db (mkNodeMem (mkTaskMem empty_track true []) (toy_epoch_mem last)).

(** The toy chain with its head in epoch 8 *)
Definition toy_epoch_tick (w : World NodeMem) : World NodeMem * res unit := epoch_tick toy_chain_client w.

Lemma toy_operators_keyed : operators_keyed (db_operators toy_db).
Proof.
  intros a o Ho. unfold toy_db in Ho. cbn [db_operators] in Ho.
  apply lookup_insert_Some in Ho as [[<- <-]|[_ Ho]]; [done|].
  by apply lookup_singleton_Some in Ho as [<- <-].
Qed.

Lemma epoch_update_atomic_witness :
  exists w', handleEpochUpdate toy_chain_client 8 (toy_epoch_world 0) = (w', Ok tt) /\
    exists i block, cc_BlockNumber toy_chain_client i = Ok block /\
      all_refreshed toy_chain_client block 8 (db_operators toy_db) (db_operators (w_db w')).
Proof.
  destruct (handleEpochUpdate toy_chain_client 8 (toy_epoch_world 0)) as [w' out] eqn:E.
  assert (out = Ok tt) as Hout.
  { change out with (w', out).2. rewrite <- E. vm_compute. reflexivity. }
  exists w'. split; [by rewrite Hout|].
  destruct (epoch_update_atomic toy_chain_client 8 (toy_epoch_world 0) w' out
    toy_operators_keyed E) as [[_ Hno]|Hall]; [by destruct Hno|exact Hall].
Defined.

Lemma epoch_marked_when_refreshed_witness :
  last_epoch (toy_epoch_tick (toy_epoch_world 0)).1 = 8 /\
  exists block, all_refreshed toy_chain_client block 8
    (db_operators toy_db) (db_operators (w_db (toy_epoch_tick (toy_epoch_world 0)).1)).
Proof.
  assert (last_epoch (toy_epoch_tick (toy_epoch_world 0)).1 = 8) as E8 by (vm_compute; reflexivity).
  split; [exact E8|].
  destruct (epoch_marked_when_refreshed toy_chain_client (toy_epoch_world 0)
    (toy_epoch_tick (toy_epoch_world 0)).1 (toy_epoch_tick (toy_epoch_world 0)).2
    toy_operators_keyed (surjective_pairing _))
    as [E|(_ & i & j & head & block & _ & _ & _ & Hall)].
  - rewrite E8 in E. discriminate E.
  - exists block. rewrite E8 in Hall. exact Hall.
Defined.

Lemma epoch_wrap_stalls_witness :
  toy_epoch_tick (toy_epoch_world 1431655765) =
  (set_step 1 (toy_epoch_world 1431655765), Ok tt).
Proof.
  refine (proj2 (epoch_wrap_stalls toy_chain_client (toy_epoch_world 1431655765) 7698600 _ _ _)).
  - vm_compute. reflexivity.
  - vm_compute. reflexivity.
  - unfold GenesisBlock. lia.
Defined.

(** A registry that does not answer for weights *)
Definition toy_broken_client : ChainClient := {|
  cc_BlockNumber := cc_BlockNumber toy_chain_client;
  cc_BlockByNumber := cc_BlockByNumber toy_chain_client;
  cc_Close := cc_Close toy_chain_client;
  cc_GetLatestState := cc_GetLatestState toy_chain_client;
  cc_GetStateAtBlock := cc_GetStateAtBlock toy_chain_client;
  cc_GetStateAtTimestamp := cc_GetStateAtTimestamp toy_chain_client;
  cc_GetCurrentEpoch := cc_GetCurrentEpoch toy_chain_client;
  cc_GetEffectiveEpochForBlock := cc_GetEffectiveEpochForBlock toy_chain_client;
  cc_GetOperatorWeight _ _ := Err (Errorf "execution reverted");
  cc_GetTotalWeight := cc_GetTotalWeight toy_chain_client;
  cc_GetMinimumWeight := cc_GetMinimumWeight toy_chain_client;
  cc_GetThresholdWeight := cc_GetThresholdWeight toy_chain_client;
  cc_IsOperatorRegistered := cc_IsOperatorRegistered toy_chain_client;
  cc_GetOperatorSigningKey := cc_GetOperatorSigningKey toy_chain_client;
  cc_GetOperatorP2PKey := cc_GetOperatorP2PKey toy_chain_client;
|}.

End toy.
