(* ===== verification/Listener.v ===== *)
(** * pkg/operator/event: registrations and deregistrations

    The listener turns the registry's events into operator rows.  The two
    kinds come from two independent watchers through two channels; [select]
    takes whichever is ready, so the inputs of the loop are any interleaving
    of the two histories. *)

From S2P Require Import Prelude GoInt GoString Numeric EpochMath Models World.
From S2P Require Import TasksRepo OperatorsRepo EthLib Signer Chain Watch Task TaskInv TaskToy.

(** What [select] can hand to the loop *)
Inductive Input :=
  | InRegistered (e : OperatorRegisteredEvent)
  | InDeregistered (e : OperatorDeregisteredEvent)
  | InRegSubErr (e : error)
  | InDeregSubErr (e : error)
  | InDone.

(** The dependencies of [NewEventListener]: whether each is non-nil. *)
Record ListenerConfig := mkListenerConfig { lc_MainnetClient : bool; lc_OperatorRepo : bool }.

Section listener.
Context `{Env} `{EthLib} {C : Type}.
Local Abbreviation MW := (M (World C)).

Definition registered_params (event : OperatorRegisteredEvent) : UpsertOperatorParams :=
  let blockNumber := u64 (er_BlockNumber event) in {|
    up_Address := Address_Hex (er_Operator event);
    up_SigningKey := Address_Hex (er_SigningKey event);
    up_P2pKey := Address_Hex (er_P2PKey event);
    up_RegisteredAtBlockNumber := blockNumber;
    up_ActiveEpoch := GetEffectiveEpochByBlockNumber blockNumber;
    up_ExitEpoch := 4294967295;
    up_IsActive := false;
    up_Weight := mkNumeric (Some 0) 0 true;
  |}.

Definition handleOperatorRegistered (event : OperatorRegisteredEvent) : MW unit :=
  let params := registered_params event in
  do! wrapM "failed to upsert operator"
        (UpsertOperator WConn params
           (mkInvalidateKeys (Some (up_Address params)) (Some (up_SigningKey params))
              (Some (up_P2pKey params)) (Some (up_P2pKey params)))) in
  ret tt.

Definition handleOperatorDeregistered (event : OperatorDeregisteredEvent) : MW unit :=
  let blockNumber := u64 (ed_BlockNumber event) in
  let exitEpoch := GetEffectiveEpochByBlockNumber blockNumber in
  let operatorAddress := Address_Hex (ed_Operator event) in
  let! operator := wrapM "failed to get operator" (GetOperatorByAddress operatorAddress) in
  match operator with
  | None => panic "operator.SigningKey: nil pointer dereference"
  | Some operator =>
      do! wrapM "failed to update operator exit epoch"
            (UpdateOperatorExitEpoch WConn
               (mkUpdateOperatorExitEpochParams operatorAddress exitEpoch)
               (mkInvalidateKeys (Some operatorAddress) (Some (o_SigningKey operator))
                  (Some (o_P2pKey operator)) (Some (o_P2pKey operator)))) in
      ret tt
  end.

(** The [for { select { ... } }] loop on the inputs it receives *)
Fixpoint listener_loop (inputs : list Input) : MW unit :=
  match inputs with
  | [] => ret tt
  | InDone :: _ => ret tt
  | InRegSubErr e :: _ => throw (Wrapf "registration subscription error" e)
  | InDeregSubErr e :: _ => throw (Wrapf "deregistration subscription error" e)
  | InRegistered event :: rest =>
      let! _ := try (handleOperatorRegistered event) in listener_loop rest
  | InDeregistered event :: rest =>
      let! _ := try (handleOperatorDeregistered event) in listener_loop rest
  end.

(** [subscribeToEvents]: at most three attempts, a second apart; [done i]
    tells whether the context has ended by then. *)
Fixpoint subscribe_attempts (watchReg watchDereg : nat -> res unit) (done : nat -> bool)
    (err : error) (attempts : nat) : MW unit :=
  match attempts with
  | O => throw (Wrapf "failed to subscribe after retries" err)
  | S attempts =>
      let again e :=
        let! i := tick in
        if done i then throw (Errorf "context canceled")
        else subscribe_attempts watchReg watchDereg done e attempts in
      let! r := try (extern watchReg) in
      match r with
      | inr e => again e
      | inl _ =>
          let! d := try (extern watchDereg) in
          match d with
          | inr e => again e
          | inl _ => ret tt
          end
      end
  end.

Definition subscribeToEvents (watchReg watchDereg : nat -> res unit) (done : nat -> bool) : MW unit :=
  subscribe_attempts watchReg watchDereg done (Errorf "") 3.

Definition start (watchReg watchDereg : nat -> res unit) (done : nat -> bool)
    (inputs : list Input) : MW unit :=
  do! wrapM "failed to subscribe to events" (subscribeToEvents watchReg watchDereg done) in
  listener_loop inputs.

(** The goroutine of [NewEventListener]: it recovers from panics and logs
    errors, and ends. *)
Definition listener_goroutine (watchReg watchDereg : nat -> res unit) (done : nat -> bool)
    (inputs : list Input) : MW unit :=
  recovered (do! try (start watchReg watchDereg done inputs) in ret tt).

Definition NewEventListener (cfg : option ListenerConfig) : res unit :=
  match cfg with
  | None => Err (Errorf "config is nil")
  | Some cfg =>
      if negb (lc_MainnetClient cfg) then Err (Errorf "mainnet client not initialized")
      else if negb (lc_OperatorRepo cfg) then Err (Errorf "operator repo not initialized")
      else Ok tt
  end.
End listener.

(** ** Properties *)

Section properties.
Context `{Env} `{EthLib} {C : Type}.

(** The row a registration leaves: it restarts the life of the operator. *)
Definition registered_row (e : OperatorRegisteredEvent) (o : Operators) : Prop :=
  o_Address o = Address_Hex (er_Operator e) /\ o_SigningKey o = Address_Hex (er_SigningKey e) /\
  o_P2pKey o = Address_Hex (er_P2PKey e) /\ o_IsActive o = false /\
  o_Weight o = BigIntToNumeric (Some 0) /\
  o_RegisteredAtBlockNumber o = u64 (er_BlockNumber e) /\
  o_ActiveEpoch o = GetEffectiveEpochByBlockNumber (u64 (er_BlockNumber e)) /\
  o_ExitEpoch o = NoExitEpoch.

Lemma registered_Ok e (w w' : World C) :
  handleOperatorRegistered e w = (w', Ok tt) ->
  exists o, db_operators (w_db w') !! Address_Hex (er_Operator e) = Some o /\ registered_row e o.
Proof.
  unfold handleOperatorRegistered. rewrite bind_Ok. intros (w1 & out & Hup & [= <-]).
  apply wrapM_Ok, update_returning_Ok in Hup as (now & d' & row & Hs & ->).
  apply res_bind_Ok in Hs as ([d'' o] & Hs & [= <- <-]). unfold sql_upsertOperator in Hs.
  sql_inv. simpl. rewrite lookup_insert_eq. eexists. split; [done|].
  unfold registered_row. simpl. split_and!; try done.
  match goal with E : numeric_arg _ = Ok _ |- _ => cbn in E; by injection E as <- end.
Qed.

Lemma deregistered_Ok e (w w' : World C) o :
  db_operators (w_db w) !! Address_Hex (ed_Operator e) = Some o ->
  handleOperatorDeregistered e w = (w', Ok tt) ->
  exists now, db_operators (w_db w') !! Address_Hex (ed_Operator e) =
    Some (with_exit_epoch (GetEffectiveEpochByBlockNumber (u64 (ed_BlockNumber e))) now o).
Proof.
  intros Ho. unfold handleOperatorDeregistered. rewrite bind_Ok. intros (w1 & op & Hop & Hrun).
  apply wrapM_Ok in Hop.
  pose proof (preserves_run _ _ _ _ _ (GetOperatorByAddress_operators
    (eq (db_operators (w_db w))) _) Hop eq_refl) as Edb. unfold db_pred, on_operators in Edb.
  destruct op as [op|]; [|done]. apply bind_Ok in Hrun as (w2 & out & Hup & [= <-]).
  apply wrapM_Ok, update_returning_Ok in Hup as (now & d' & row & Hs & ->).
  unfold sql_updateOperatorExitEpoch in Hs. cbn [ue_Address ue_ExitEpoch] in Hs.
  rewrite <- Edb, Ho in Hs. injection Hs as <- <-. simpl. exists now. by rewrite lookup_insert_eq.
Qed.

(** C21: the life of an operator through the listener: after its registration
    at block [rb] and its deregistration at block [db] have been handled, the
    row makes it active exactly in the blocks from the effective epoch of
    [rb] up to the effective epoch of [db]. *)
Theorem listener_lifecycle (er : OperatorRegisteredEvent) (ed : OperatorDeregisteredEvent)
    (w w1 w2 : World C)
    (Hop : ed_Operator ed = er_Operator er)
    (Hrb : in_epoch_range (er_BlockNumber er)) (Hdb : in_epoch_range (ed_BlockNumber ed))
    (Hle : er_BlockNumber er <= ed_BlockNumber ed)
    (Hreg : handleOperatorRegistered er w = (w1, Ok tt))
    (Hdereg : handleOperatorDeregistered ed w1 = (w2, Ok tt)) :
  exists o, db_operators (w_db w2) !! Address_Hex (er_Operator er) = Some o /\
    forall cur, IsOperatorActive cur (o_ActiveEpoch o) (o_ExitEpoch o) = true <->
      epoch_start (GetEffectiveEpochByBlockNumber (er_BlockNumber er)) <= cur <
      epoch_start (GetEffectiveEpochByBlockNumber (ed_BlockNumber ed)).
Proof.
  apply registered_Ok in Hreg as (o & Ho & _ & _ & _ & _ & _ & _ & Ha & _).
  rewrite <- Hop in Ho. apply (deregistered_Ok ed w1 w2 o Ho) in Hdereg as (now & Hdereg).
  rewrite Hop in Hdereg. eexists. split; [exact Hdereg|]. intros cur. simpl. rewrite Ha.
  assert (forall b, in_epoch_range b -> u64 b = b) as Hid.
  { intros b Hb. apply u64_id.
    unfold in_epoch_range, is_u64, epoch_start, GenesisBlock, EpochPeriod in *. lia. }
  rewrite !Hid by done.
  apply IsOperatorActive_interval; [by apply effective_epoch_spec..| |by apply effective_epoch_exit].
  by apply effective_epoch_mono.
Qed.

Lemma subscribe_attempts_spec watchReg watchDereg done err n (w : World C) :
  let '(w', out) := subscribe_attempts watchReg watchDereg done err n w in
  (exists k, (w_step w <= k <= w_step w + 3 * n)%nat /\ w' = set_step k w) /\
  (out = Ok tt -> exists i, watchReg i = Ok tt /\ watchDereg (S i) = Ok tt).
Proof.
  revert w err. induction n as [|n IH]; intros w err; cbn [subscribe_attempts].
  { split; [|by intros]. exists (w_step w). split; [lia|by destruct w]. }
  assert (Hagain : forall e k, (w_step w <= k <= w_step w + 2)%nat ->
    let '(w', out) := (let! i := tick in
        if done i then throw (Errorf "context canceled")
        else subscribe_attempts watchReg watchDereg done e n) (set_step k w) in
    (exists k, (w_step w <= k <= w_step w + 3 * S n)%nat /\ w' = set_step k w) /\
    (out = Ok tt -> exists i, watchReg i = Ok tt /\ watchDereg (S i) = Ok tt)).
  { intros e k Hk. unfold bind, tick. cbn [w_step set_step]. destruct (done k).
    { split; [|by intros]. exists (S k). split; [lia|done]. }
    specialize (IH (set_step (S k) (set_step k w)) e).
    destruct (subscribe_attempts _ _ _ _ _ _) as [w' out]. destruct IH as [(k' & Hk' & ->) Hok].
    split; [|done]. exists k'. split; [simpl in Hk'; lia|done]. }
  unfold bind at 1, try at 1, extern at 1, bind at 1, tick at 1, lift at 1. cbn [w_step set_step].
  destruct (watchReg (w_step w)) as [[]|e|s] eqn:Er.
  - unfold bind at 1, try at 1, extern at 1, bind at 1, tick at 1, lift at 1. cbn [w_step set_step].
    destruct (watchDereg (S (w_step w))) as [[]|e|s] eqn:Ed.
    + split; [exists (S (S (w_step w))); split; [lia|done]|]. intros _. by exists (w_step w).
    + apply (Hagain e (S (S (w_step w)))). lia.
    + split; [exists (S (S (w_step w))); split; [lia|done]|by intros].
  - apply (Hagain e (S (w_step w))). lia.
  - split; [exists (S (w_step w)); split; [lia|done]|by intros].
Qed.

(** Subscribing makes at most three attempts, never touches the database,
    and reports success only after both watchers were accepted in the same
    attempt. *)
Theorem subscribeToEvents_attempts watchReg watchDereg done (w : World C) :
  let '(w', out) := subscribeToEvents watchReg watchDereg done w in
  (exists k, (w_step w <= k <= w_step w + 9)%nat /\ w' = set_step k w) /\
  (out = Ok tt -> exists i, watchReg i = Ok tt /\ watchDereg (S i) = Ok tt).
Proof. apply (subscribe_attempts_spec watchReg watchDereg done _ 3). Qed.

(** The deregistration of an operator the node does not know ends the
    listener: the nil row is dereferenced, the panic is recovered outside the
    loop, and no later event is handled. *)
Theorem unknown_deregistration_stops watchReg watchDereg done e rest (w w0 w1 : World C)
    (Hsub : subscribeToEvents watchReg watchDereg done w = (w0, Ok tt))
    (Hget : GetOperatorByAddress (Address_Hex (ed_Operator e)) w0 = (w1, Ok None)) :
  listener_goroutine watchReg watchDereg done (InDeregistered e :: rest) w = (w1, Ok tt).
Proof.
  unfold listener_goroutine, recovered, start, bind at 1, try at 1, bind at 1, wrapM at 1.
  rewrite Hsub. cbn [wrap listener_loop]. unfold bind at 1, try at 1.
  unfold handleOperatorDeregistered, bind at 1, wrapM at 1. by rewrite Hget.
Qed.
End properties.

(** ** Examples *)

Section toy.
#[local] Existing Instance toy_env.
#[local] Existing Instance toy_eth.

Definition toy_registered (block : Z) : OperatorRegisteredEvent :=
  mkRegistered (replicate 20 65) block (replicate 20 65) (replicate 20 65) [].

Definition toy_deregistered (block : Z) : OperatorDeregisteredEvent :=
  mkDeregistered (replicate 20 65) block [].

Definition toy_reg1 : World ToyNode := (handleOperatorRegistered (toy_registered 7698500) toy_node_world).1.

Lemma listener_lifecycle_witness :
  exists w2 o, handleOperatorDeregistered (toy_deregistered 7698530) toy_reg1 = (w2, Ok tt) /\
    db_operators (w_db w2) !! toy_addr1 = Some o /\
    IsOperatorActive 7698510 (o_ActiveEpoch o) (o_ExitEpoch o) = true.
Proof.
  destruct (handleOperatorDeregistered (toy_deregistered 7698530) toy_reg1) as [w2 out] eqn:E.
  assert (out = Ok tt) as -> by (change out with (w2, out).2; rewrite <- E; vm_compute; reflexivity).
  assert (handleOperatorRegistered (toy_registered 7698500) toy_node_world = (toy_reg1, Ok tt)) as Hreg
    by (vm_compute; reflexivity).
  destruct (listener_lifecycle (toy_registered 7698500) (toy_deregistered 7698530)
    toy_node_world toy_reg1 w2 eq_refl ltac:(vm_compute; split; congruence)
    ltac:(vm_compute; split; congruence) ltac:(vm_compute; congruence) Hreg E) as (o & Ho & Hact).
  exists w2, o. split; [done|]. split; [exact Ho|]. apply Hact.
  vm_compute. split; congruence.
Defined.

(** An operator the node has no row for *)
Definition toy_stranger : OperatorDeregisteredEvent := mkDeregistered (replicate 20 90) 7698530 [].

Definition toy_subscribed : World ToyNode :=
  (subscribeToEvents (fun _ => Ok tt) (fun _ => Ok tt) (fun _ => false) toy_node_world).1.

Lemma unknown_deregistration_stops_witness :
  exists w1, listener_goroutine (fun _ => Ok tt) (fun _ => Ok tt) (fun _ => false)
    [InDeregistered toy_stranger; InRegistered (toy_registered 7698500)] toy_node_world =
    (w1, Ok tt).
Proof.
  destruct (GetOperatorByAddress (Address_Hex (ed_Operator toy_stranger)) toy_subscribed)
    as [w1 out] eqn:E.
  assert (out = Ok None) as -> by (change out with (w1, out).2; rewrite <- E; vm_compute; reflexivity).
  exists w1. eapply unknown_deregistration_stops; [|exact E]. vm_compute. reflexivity.
Defined.

Definition toy_listen (inputs : list Input) : World ToyNode :=
  (listener_loop inputs toy_node_world).1.

Definition toy_active_at (block : Z) (w : World ToyNode) : bool :=
  match db_operators (w_db w) !! toy_addr1 with
  | Some o => IsOperatorActive block (o_ActiveEpoch o) (o_ExitEpoch o)
  | None => false
  end.

(** The registry emitted a registration and, later, a deregistration.  On
    a restart both histories are replayed through two channels: read in chain
    order they leave the operator inactive, but when [select] takes the
    deregistration first the registration wipes its exit epoch and the
    operator that left counts as active for ever after. *)
Theorem interleaving_resurrects_operator :
  let reg := InRegistered (toy_registered 7698500) in
  let dereg := InDeregistered (toy_deregistered 7698530) in
  toy_active_at 7699000 (toy_listen [reg; dereg]) = false /\
  toy_active_at 7699000 (toy_listen [dereg; reg]) = true.
Proof. cbv zeta. split; vm_compute; reflexivity. Qed.
End toy.
