(* ===== verification/BlockTime.v ===== *)
(** * pkg/common/utils.go: block numbers and timestamps

    [TimestampToBlockNumber] first jumps back by the average block time of
    the chain, then walks one block at a time.  The jump is computed in
    binary64, here by [SpecFloat]; the loops carry a fuel that their counters
    bound. *)

From Stdlib Require Import Floats.SpecFloat.
From S2P Require Import Prelude GoInt EthLib Config Models World Chain.

(** [float64(x)] for an integer *)
Definition float64 (x : Z) : spec_float := binary_normalize 53 1024 x 0 false.

(** [math.Floor] of a finite float, as the integer it is.  The quotients it is
    applied to are finite: the dividend is below [2 ^ 64], the divisor at
    least 2. *)
Definition math_Floor (f : spec_float) : Z :=
  match f with
  | S754_finite s m e =>
      let m' := if s : bool then Z.neg m else Z.pos m in
      if 0 <=? e then m' * 2 ^ e else m' / 2 ^ (- e)
  | _ => 0
  end.

(** [uint64(f)] of an integral float; out of range it is what amd64 gives. *)
Definition uint64_of_float (x : Z) : Z := if (0 <=? x) && (x <? 2 ^ 64) then x else 2 ^ 63.

Definition averageBlockTime (chainID : Z) : spec_float :=
  if chainID =? 1 then binary_normalize 53 1024 25 (-1) false
  else if chainID =? 137 then float64 2
  else if chainID =? 56 then float64 3
  else binary_normalize 53 1024 25 (-1) false.

(** [math.Floor(float64(d) / averageBlockTime)] *)
Definition decreaseBlocks (average : spec_float) (d : Z) : Z :=
  math_Floor (SFdiv 53 1024 (float64 d) average).

Section blocktime.
Context `{Env} {C : Type}.
Local Abbreviation MW := (M (World C)).

Definition block_at (client : ChainClient) (n : Z) : MW Block :=
  extern (fun i => cc_BlockByNumber client i (Some n)).

Definition BlockNumberToTimestamp (client : ChainClient) (chainID blockNumber : Z) : MW Z :=
  let! block := wrapM "failed to get block" (block_at client blockNumber) in
  ret (blk_Time block).

(** Jump back by the average block time until the block is not later than
    the timestamp or less than one block away. *)
Fixpoint first_pass (fuel : nat) (client : ChainClient) (average : spec_float)
    (timestamp blockNumber : Z) (block : Block) : MW (Z * Block) :=
  match fuel with
  | O => panic "fuel"
  | S fuel =>
      if timestamp <? blk_Time block then
        let decrease := decreaseBlocks average (u64 (blk_Time block - timestamp)) in
        if decrease <? 1 then ret (blockNumber, block)
        else if blockNumber <=? uint64_of_float decrease then ret (0, block)
        else
          let blockNumber := u64 (blockNumber - uint64_of_float decrease) in
          let! block := wrapM "failed to get block" (block_at client blockNumber) in
          first_pass fuel client average timestamp blockNumber block
      else ret (blockNumber, block)
  end.

(** The forward walk: [inl] when it returns, [inr] when it breaks. *)
Fixpoint walk_forward (fuel : nat) (client : ChainClient) (current timestamp blockNumber : Z)
    (block : Block) : MW (Z + Z * Block) :=
  match fuel with
  | O => panic "fuel"
  | S fuel =>
      if blk_Time block <? timestamp then
        let nextBlockNumber := u64 (blockNumber + 1) in
        if current <? nextBlockNumber then ret (inr (blockNumber, block))
        else
          let! next := try (block_at client nextBlockNumber) in
          match next with
          | inr _ => ret (inr (blockNumber, block))
          | inl nextBlock =>
              if timestamp <? blk_Time nextBlock then
                if u64 (timestamp - blk_Time block) <? u64 (blk_Time nextBlock - timestamp)
                then ret (inl blockNumber)
                else ret (inl nextBlockNumber)
              else walk_forward fuel client current timestamp nextBlockNumber nextBlock
          end
      else ret (inr (blockNumber, block))
  end.

(** The backward walk *)
Fixpoint walk_back (fuel : nat) (client : ChainClient) (timestamp blockNumber : Z)
    (block : Block) : MW Z :=
  match fuel with
  | O => panic "fuel"
  | S fuel =>
      if timestamp <? blk_Time block then
        if blockNumber =? 0 then ret blockNumber
        else
          let prevBlockNumber := u64 (blockNumber - 1) in
          let! prev := try (block_at client prevBlockNumber) in
          match prev with
          | inr _ => ret blockNumber
          | inl prevBlock =>
              if blk_Time prevBlock <? timestamp then
                if u64 (timestamp - blk_Time prevBlock) <? u64 (blk_Time block - timestamp)
                then ret prevBlockNumber
                else ret blockNumber
              else walk_back fuel client timestamp prevBlockNumber prevBlock
          end
      else ret blockNumber
  end.

(** Each loop moves its block number by at least one per round. *)
Definition TimestampToBlockNumber (client : ChainClient) (chainID timestamp : Z) : MW Z :=
  let! current := wrapM "failed to get latest block" (extern (cc_BlockNumber client)) in
  let! currentBlock := wrapM "failed to get current block" (block_at client current) in
  let! (blockNumber, block) :=
    first_pass (S (Z.to_nat current)) client (averageBlockTime chainID) timestamp current
      currentBlock in
  let! r := walk_forward (S (Z.to_nat (current - blockNumber))) client current timestamp
              blockNumber block in
  match r with
  | inl blockNumber => ret blockNumber
  | inr (blockNumber, block) =>
      walk_back (S (Z.to_nat blockNumber)) client timestamp blockNumber block
  end.

Definition ValidateBlockNumberAndTimestamp (client : ChainClient) (chainID : Z)
    (blockNumber timestamp : option Z) : MW (Z * Z) :=
  match blockNumber, timestamp with
  | Some blockNumber, None =>
      let! timestamp := wrapM "failed to convert block number to timestamp"
                          (BlockNumberToTimestamp client chainID blockNumber) in
      ret (blockNumber, timestamp)
  | None, Some timestamp =>
      let! blockNumber := wrapM "failed to convert timestamp to block number"
                            (TimestampToBlockNumber client chainID timestamp) in
      ret (blockNumber, timestamp)
  | _, _ => throw (Errorf "exactly one of block_number or timestamp must be provided")
  end.
End blocktime.

(** ** Properties *)

Lemma uint64_of_float_pos d : 1 <= d -> 1 <= uint64_of_float d < 2 ^ 64.
Proof.
  intros. unfold uint64_of_float.
  destruct (Z.leb_spec 0 d), (Z.ltb_spec d (2 ^ 64)); simpl; lia.
Qed.

Section properties.
Context `{Env} {C : Type} (client : ChainClient).

(** A client that may fail but does not panic, with heads below the largest
    [uint64]. *)
Record no_panics : Prop := {
  np_head : forall i s, cc_BlockNumber client i <> Panic s;
  np_block : forall i n s, cc_BlockByNumber client i n <> Panic s;
  np_range : forall i n, cc_BlockNumber client i = Ok n -> 0 <= n < 2 ^ 64 - 1;
}.

Definition no_panic {A} (w : World C) (r : res A) : Prop := forall s, r <> Panic s.

Lemma wp_block_at n (Q : World C -> res Block -> Prop) w : no_panics ->
  (forall w' r, no_panic w' r -> Q w' r) -> wp (block_at client n) Q w.
Proof. intros Hnp HQ. apply wp_extern, HQ. intros s. apply np_block, Hnp. Qed.

Lemma first_pass_total average ts w fuel n b : no_panics ->
  (Z.to_nat n < fuel)%nat -> 0 <= n < 2 ^ 64 ->
  wp (first_pass fuel client average ts n b)
     (fun _ r => match r with Ok (n', _) => 0 <= n' <= n | Err _ => True | Panic _ => False end)
     (w : World C).
Proof.
  intros Hnp. revert w n b. induction fuel as [|fuel IH]; intros w n b Hf Hn; [lia|].
  cbn [first_pass]. destruct (ts <? blk_Time b); [|apply wp_ret; lia].
  destruct (Z.ltb_spec (decreaseBlocks average (u64 (blk_Time b - ts))) 1) as [|Hd];
    [apply wp_ret; lia|].
  pose proof (uint64_of_float_pos _ Hd) as Hu. set (d := uint64_of_float _) in *. clearbody d.
  destruct (Z.leb_spec n d); [apply wp_ret; lia|].
  assert (u64 (n - d) = n - d) as -> by (apply u64_id; unfold is_u64; lia).
  apply wp_bind, wp_wrapM, wp_block_at; [done|]. intros w' [b'|e|s] Hr; simpl.
  - eapply wp_mono; [apply IH; lia|]. intros _ [[n' ?]|e|s]; [lia|done..].
  - done.
  - by destruct (Hr s).
Qed.

Lemma walk_forward_total current ts w fuel n b : no_panics ->
  (Z.to_nat (current - n) < fuel)%nat -> 0 <= n <= current -> current < 2 ^ 64 - 1 ->
  wp (walk_forward fuel client current ts n b)
     (fun _ r => match r with Ok (inr (n', _)) => 0 <= n' <= current | Ok (inl _) => True
                 | _ => False end) (w : World C).
Proof.
  intros Hnp. revert w n b. induction fuel as [|fuel IH]; intros w n b Hf Hn Hc; [lia|].
  cbn [walk_forward]. destruct (blk_Time b <? ts); [|apply wp_ret; lia].
  assert (u64 (n + 1) = n + 1) as -> by (apply u64_id; unfold is_u64; lia).
  destruct (Z.ltb_spec current (n + 1)); [apply wp_ret; lia|].
  apply wp_bind, wp_try, wp_block_at; [done|]. intros w' [b'|e|s] Hr.
  - destruct (ts <? blk_Time b'); [by destruct (_ <? _)|]. apply IH; lia.
  - apply wp_ret. lia.
  - by destruct (Hr s).
Qed.

Lemma walk_back_total ts w fuel n b : no_panics ->
  (Z.to_nat n < fuel)%nat -> 0 <= n < 2 ^ 64 ->
  wp (walk_back fuel client ts n b) (fun _ r => is_ok r = true) (w : World C).
Proof.
  intros Hnp. revert w n b. induction fuel as [|fuel IH]; intros w n b Hf Hn; [lia|].
  cbn [walk_back]. destruct (ts <? blk_Time b); [|by apply wp_ret].
  destruct (Z.eqb_spec n 0); [by apply wp_ret|].
  assert (u64 (n - 1) = n - 1) as -> by (apply u64_id; unfold is_u64; lia).
  apply wp_bind, wp_try, wp_block_at; [done|]. intros w' [b'|e|s] Hr.
  - destruct (blk_Time b' <? ts); [by destruct (_ <? _)|]. apply IH; lia.
  - by apply wp_ret.
  - by destruct (Hr s).
Qed.

(** C25: the search for the block of a timestamp terminates, whatever block
    times the node reports and whichever of its calls fail: the fuel of the
    three loops is never used up, so the outcome is a block number or an
    error. *)
Theorem TimestampToBlockNumber_terminates (Hnp : no_panics) chainID ts (w : World C) s :
  (TimestampToBlockNumber client chainID ts w).2 <> Panic s.
Proof.
  enough (wp (TimestampToBlockNumber client chainID ts) (fun _ r => r <> Panic s) w) by done.
  unfold TimestampToBlockNumber.
  apply wp_bind, wp_wrapM, wp_extern. pose proof (np_head Hnp (w_step w)) as Hh.
  pose proof (np_range Hnp (w_step w)) as Hr.
  destruct (cc_BlockNumber client (w_step w)) as [head|e|s']; cbn [wrap]; [|done|by destruct (Hh s')].
  specialize (Hr head eq_refl).
  apply wp_bind, wp_wrapM, wp_block_at; [done|]. intros w1 [b|e|s'] Hb; cbn [wrap];
    [|done|by destruct (Hb s')].
  eapply wp_bind, wp_mono; [apply (first_pass_total _ ts w1 _ head b Hnp); lia|].
  intros w2 [[n1 b1]|e|s'] H1; [|done|done].
  eapply wp_bind, wp_mono; [apply (walk_forward_total head ts w2 _ n1 b1 Hnp); lia|].
  intros w3 [[n2|[n2 b2]]|e|s'] H2; [by apply wp_ret| |done|done].
  eapply wp_mono; [apply (walk_back_total ts w3 _ n2 b2 Hnp); lia|]. by intros _ [?|?|?].
Qed.

(** ** A chain that answers *)

Context (time : Z -> Z) (head : Z).

(** The node serves every block up to its head, times never decrease. *)
Record chain_times : Prop := {
  ct_head : forall i, cc_BlockNumber client i = Ok head;
  ct_block : forall i n, 0 <= n <= head -> exists b,
    cc_BlockByNumber client i (Some n) = Ok b /\ blk_Time b = time n;
  ct_mono : forall m n, 0 <= m -> m <= n -> n <= head -> time m <= time n;
  ct_u64 : forall n, 0 <= n <= head -> is_u64 (time n);
  ct_range : 0 <= head < 2 ^ 64 - 1;
}.

(** No block of the chain is closer in time. *)
Definition nearest (ts r : Z) : Prop :=
  0 <= r <= head /\ forall k, 0 <= k <= head -> Z.abs (time r - ts) <= Z.abs (time k - ts).

(** Two neighbours around a timestamp: the closer one is the nearest block. *)
Lemma nearest_between ts n r : chain_times -> 0 <= n -> n + 1 <= head ->
  time n <= ts -> ts <= time (n + 1) ->
  r = n /\ ts - time n <= time (n + 1) - ts \/ r = n + 1 /\ time (n + 1) - ts <= ts - time n ->
  nearest ts r.
Proof.
  intros Hc Hn Hh Hlo Hhi Hr. split; [lia|]. intros k Hk.
  assert (k <= n \/ n + 1 <= k) as [Hle|Hle] by lia.
  - pose proof (ct_mono Hc k n). destruct Hr as [[-> ?]|[-> ?]]; lia.
  - pose proof (ct_mono Hc (n + 1) k). destruct Hr as [[-> ?]|[-> ?]]; lia.
Qed.

Lemma nearest_exact ts n : 0 <= n <= head -> time n = ts -> nearest ts n.
Proof. intros Hn E. split; [done|]. intros k _. rewrite E. lia. Qed.

Lemma wp_block_time n (Q : World C -> res Block -> Prop) w : chain_times -> 0 <= n <= head ->
  (forall w' b, blk_Time b = time n -> Q w' (Ok b)) -> wp (block_at client n) Q w.
Proof.
  intros Hc Hn HQ. apply wp_extern. destruct (ct_block Hc (w_step w) n Hn) as (b & -> & Eb).
  by apply HQ.
Qed.

Lemma first_pass_times average ts w fuel n b : chain_times -> (Z.to_nat n < fuel)%nat ->
  0 <= n <= head -> blk_Time b = time n ->
  wp (first_pass fuel client average ts n b)
     (fun _ r => exists n' b', r = Ok (n', b') /\ 0 <= n' <= head /\
        (blk_Time b' = time n' \/ n' = 0 /\ ts < blk_Time b')) (w : World C).
Proof.
  intros Hc. revert w n b. induction fuel as [|fuel IH]; intros w n b Hf Hn Hb; [lia|].
  cbn [first_pass]. pose proof (ct_range Hc).
  destruct (Z.ltb_spec ts (blk_Time b)) as [Hlt|]; [|apply wp_ret; exists n, b; auto].
  destruct (Z.ltb_spec (decreaseBlocks average (u64 (blk_Time b - ts))) 1) as [|Hd];
    [apply wp_ret; exists n, b; auto|].
  pose proof (uint64_of_float_pos _ Hd) as Hu. set (d := uint64_of_float _) in *. clearbody d.
  destruct (Z.leb_spec n d); [apply wp_ret; exists 0, b; split; [done|split; [lia|auto]]|].
  assert (u64 (n - d) = n - d) as -> by (apply u64_id; unfold is_u64; lia).
  apply wp_bind, wp_wrapM, wp_block_time; [done|lia|]. intros w' b' Hb'. apply IH; [lia|lia|done].
Qed.

Lemma walk_forward_times ts w fuel n b : chain_times -> (Z.to_nat (head - n) < fuel)%nat ->
  is_u64 ts -> 0 <= n <= head -> blk_Time b = time n ->
  wp (walk_forward fuel client head ts n b)
     (fun _ r => exists x, r = Ok x /\ match x with
        | inl r => nearest ts r
        | inr (n', b') => 0 <= n' <= head /\ blk_Time b' = time n' /\ (ts <= time n' \/ n' = head)
        end) (w : World C).
Proof.
  intros Hc. revert w n b. induction fuel as [|fuel IH]; intros w n b Hf Hts Hn Hb; [lia|].
  cbn [walk_forward]. pose proof (ct_range Hc). rewrite Hb.
  destruct (Z.ltb_spec (time n) ts) as [Hlt|];
    [|apply wp_ret; exists (inr (n, b)); split; [done|auto]].
  assert (u64 (n + 1) = n + 1) as -> by (apply u64_id; unfold is_u64; lia).
  destruct (Z.ltb_spec head (n + 1)).
  { apply wp_ret. exists (inr (n, b)). split; [done|]. split; [done|]. split; [done|lia]. }
  apply wp_bind, wp_try, wp_block_time; [done|lia|]. intros w' b' Hb'.
  rewrite Hb'. pose proof (ct_u64 Hc n ltac:(lia)). pose proof (ct_u64 Hc (n + 1) ltac:(lia)).
  destruct (Z.ltb_spec ts (time (n + 1))) as [Hlt'|].
  - rewrite !u64_id by (unfold is_u64 in *; lia).
    destruct (Z.ltb_spec (ts - time n) (time (n + 1) - ts)); apply wp_ret;
      (eexists; split; [reflexivity|]); apply (nearest_between ts n); (done || lia).
  - apply IH; [lia|done|lia|done].
Qed.

Lemma walk_back_times ts w fuel n b : chain_times -> (Z.to_nat n < fuel)%nat ->
  is_u64 ts -> 0 <= n <= head -> blk_Time b = time n -> ts <= time n \/ n = head ->
  wp (walk_back fuel client ts n b) (fun _ r => exists x, r = Ok x /\ nearest ts x) (w : World C).
Proof.
  intros Hc. revert w n b. induction fuel as [|fuel IH]; intros w n b Hf Hts Hn Hb Hle; [lia|].
  cbn [walk_back]. pose proof (ct_range Hc). rewrite Hb.
  destruct (Z.ltb_spec ts (time n)) as [Hlt|Hge].
  2:{ apply wp_ret. exists n. split; [done|]. split; [done|]. intros k Hk.
      pose proof (ct_mono Hc k n). destruct Hle as [|]; [|subst]; lia. }
  destruct (Z.eqb_spec n 0) as [->|].
  { apply wp_ret. exists 0. split; [done|]. split; [done|]. intros k Hk.
    pose proof (ct_mono Hc 0 k). lia. }
  assert (u64 (n - 1) = n - 1) as -> by (apply u64_id; unfold is_u64; lia).
  apply wp_bind, wp_try, wp_block_time; [done|lia|]. intros w' b' Hb'. rewrite Hb'.
  pose proof (ct_u64 Hc n ltac:(lia)). pose proof (ct_u64 Hc (n - 1) ltac:(lia)).
  assert (time (n - 1 + 1) = time n) as En by (f_equal; lia).
  destruct (Z.ltb_spec (time (n - 1)) ts) as [Hlt'|].
  - rewrite !u64_id by (unfold is_u64 in *; lia).
    destruct (Z.ltb_spec (ts - time (n - 1)) (time n - ts)); apply wp_ret;
      (eexists; split; [reflexivity|]); apply (nearest_between ts (n - 1)); (done || lia).
  - apply IH; [lia|done|lia|done|by left].
Qed.

(** C24: on a chain whose block times do not decrease, the search answers, with
    a block of the chain, and unless that answer is block 0 no block is
    closer in time to the timestamp: the jumps by the average block time cost
    calls, never precision. *)
Theorem TimestampToBlockNumber_nearest (Hc : chain_times) chainID ts (w : World C)
    (Hts : is_u64 ts) :
  exists r, (TimestampToBlockNumber client chainID ts w).2 = Ok r /\ 0 <= r <= head /\
    (r <> 0 -> nearest ts r).
Proof.
  enough (wp (TimestampToBlockNumber client chainID ts)
    (fun _ out => exists r, out = Ok r /\ 0 <= r <= head /\ (r <> 0 -> nearest ts r)) w) by done.
  unfold TimestampToBlockNumber. pose proof (ct_range Hc).
  apply wp_bind, wp_wrapM, wp_extern. rewrite (ct_head Hc). cbn [wrap].
  apply wp_bind, wp_wrapM, wp_block_time; [done|lia|]. intros w1 b Hb. cbn [wrap].
  eapply wp_bind, wp_mono; [apply first_pass_times; [done|lia|lia|done]|].
  intros w2 r1 (n1 & b1 & -> & Hn1 & [Hb1|[-> Hlt]]).
  - eapply wp_bind, wp_mono; [apply walk_forward_times; [done|lia|done|lia|done]|].
    intros w3 r2 ([r|[n2 b2]] & -> & Hr).
    + apply wp_ret. exists r. destruct Hr as [? ?]. done.
    + destruct Hr as (Hn2 & Hb2 & Hle).
      eapply wp_mono; [apply walk_back_times; [done|lia|done|done|done|done]|].
      intros w4 r4 (x & -> & Hx). exists x. pose proof Hx as [? _]. done.
  - apply wp_bind. cbn [walk_forward]. destruct (Z.ltb_spec (blk_Time b1) ts); [lia|].
    apply wp_ret. cbn [walk_back]. destruct (Z.ltb_spec ts (blk_Time b1)); [|lia].
    apply wp_ret. exists 0. split; [done|]. split; [lia|done].
Qed.
End properties.

(** ** Examples *)

Section toy.
#[local] Existing Instance toy_env.

(** A chain of 11 blocks, [period] seconds apart *)
Definition toy_timed_client (period : Z) : ChainClient := {|
  cc_BlockNumber _ := Ok 10;
  cc_BlockByNumber _ n := Ok (mkBlock (default 0 n) (1000 + period * default 0 n));
  cc_Close _ := Ok tt;
  cc_GetLatestState _ _ _ := Ok None;
  cc_GetStateAtBlock _ _ _ _ := Ok None;
  cc_GetStateAtTimestamp _ _ _ _ := Ok None;
  cc_GetCurrentEpoch _ := Ok 0;
  cc_GetEffectiveEpochForBlock _ _ := Ok 0;
  cc_GetOperatorWeight _ _ := Ok None;
  cc_GetTotalWeight _ := Ok None;
  cc_GetMinimumWeight _ := Ok None;
  cc_GetThresholdWeight _ := Ok None;
  cc_IsOperatorRegistered _ _ := Ok true;
  cc_GetOperatorSigningKey _ a _ := Ok a;
  cc_GetOperatorP2PKey _ a _ := Ok a;
|}.

Definition toy_world0 : World unit := toy_world empty_db tt.

Lemma toy_chain_times : chain_times (toy_timed_client 12) (fun n => 1000 + 12 * n) 10.
Proof.
  constructor; intros; unfold is_u64; simpl in *; try lia; try done.
  eexists. split; [done|]. done.
Qed.

Lemma toy_no_panics : no_panics (toy_timed_client 12).
Proof. constructor; simpl; intros; [done|done|]. simplify_eq. lia. Qed.

Lemma TimestampToBlockNumber_terminates_witness :
  (TimestampToBlockNumber (toy_timed_client 12) 10 1061 toy_world0).2 <> Panic "fuel".
Proof. apply TimestampToBlockNumber_terminates, toy_no_panics. Defined.

Lemma TimestampToBlockNumber_nearest_witness :
  (TimestampToBlockNumber (toy_timed_client 12) 10 1061 toy_world0).2 = Ok 5 /\
  nearest (fun n => 1000 + 12 * n) 10 1061 5.
Proof.
  assert ((TimestampToBlockNumber (toy_timed_client 12) 10 1061 toy_world0).2 = Ok 5) as E
    by (vm_compute; reflexivity).
  split; [exact E|].
  destruct (TimestampToBlockNumber_nearest (toy_timed_client 12) (fun n => 1000 + 12 * n) 10
    toy_chain_times 10 1061 toy_world0 ltac:(unfold is_u64; lia)) as (r & Er & _ & Hr).
  rewrite E in Er. injection Er as <-. by apply Hr.
Defined.

(** Near the start of a chain slower than its assumed average the jump
    overshoots block 0 and the search answers 0, although the block of that
    very timestamp exists. *)
Theorem TimestampToBlockNumber_clamps :
  (TimestampToBlockNumber (toy_timed_client 20) 10 1060 toy_world0).2 = Ok 0 /\
  cc_BlockByNumber (toy_timed_client 20) 0 (Some 3) = Ok (mkBlock 3 1060).
Proof. split; vm_compute; reflexivity. Qed.
End toy.
