(* ===== verification/Api.v ===== *)
(** * pkg/operator/api: the HTTP handlers

    A handler writes one response and returns; it is a computation that
    returns that response.  [json_Decode] is the decoder of the request body;
    encoding the response and routing are the library's.  The manager holds no
    nil clients, so the nil checks of [SendRequest] on them have no branch
    here; of the message texts, the list of supported chains and the time of
    a consensus are left out. *)

From Stdlib Require Import Floats.SpecFloat.
From S2P Require Import Prelude GoInt GoString Numeric EpochMath Config Models World.
From S2P Require Import TasksRepo OperatorsRepo ConsensusRepo EthLib Signer Chain BlockTime.
From S2P Require Import Task TaskInv TaskProps TaskJobs TaskToy.

Record SendRequestParams := mkSendRequestParams {
  rp_ChainID : Z;
  rp_TargetAddress : string;
  rp_Key : string;
  rp_BlockNumber : Z;
  rp_Timestamp : Z;
}.

Record SendRequestResponse := mkSendRequestResponse {
  sr_TaskID : string;
  sr_Status : string;
  sr_RequiredConfirmations : Z;
  sr_Message : string;
  sr_Error : string;
}.

Record ConsensusResponseWrapper := mkConsensusResponseWrapper {
  cw_Data : ConsensusResponse;
  cw_Message : string;
}.

Inductive Body :=
  | BSend (r : SendRequestResponse)
  | BConsensus (r : ConsensusResponseWrapper).

Record Response := mkResponse { rs_Status : Z; rs_Body : Body }.

(** The parts of a [*http.Request] the handlers read. *)
Record Request := mkRequest { rq_Method : string; rq_Body : bytes }.

(** The query of a consensus lookup; an absent parameter is empty. *)
Record Query := mkQuery {
  q_target_address : string;
  q_chain_id : string;
  q_block_number : string;
  q_key : string;
}.

Class HttpLib := { json_Decode : bytes -> res SendRequestParams }.

Definition StatusOK : Z := 200.
Definition StatusBadRequest : Z := 400.
Definition StatusNotFound : Z := 404.
Definition StatusMethodNotAllowed : Z := 405.
Definition StatusInternalServerError : Z := 500.

Definition writeError (status : Z) (err : string) : Response :=
  mkResponse status (BSend (mkSendRequestResponse "" "error" 0 "" err)).

Definition writeSuccess (taskID status : string) (confirmations : Z) (message : string) : Response :=
  mkResponse StatusOK (BSend (mkSendRequestResponse taskID status confirmations message "")).

(** The dependencies of [NewHandler]: whether each is non-nil, and the
    configuration, which it does not check. *)
Record HandlerConfig := mkHandlerConfig {
  hc_ChainManager : bool;
  hc_TaskRepo : bool;
  hc_ConsensusResponseRepo : bool;
  hc_TaskProcessor : bool;
  hc_Config : option Config;
}.

Record Handler := mkHandler { h_config : option Config }.

Definition NewHandler (cfg : HandlerConfig) : res Handler :=
  if negb (hc_TaskProcessor cfg) then Err (Errorf "[API] Task processor not initialized")
  else if negb (hc_ChainManager cfg) then Err (Errorf "[API] Chain manager not initialized")
  else if negb (hc_TaskRepo cfg) then Err (Errorf "[API] Task repo not initialized")
  else if negb (hc_ConsensusResponseRepo cfg) then
    Err (Errorf "[API] Consensus response repo not initialized")
  else Ok (mkHandler (hc_Config cfg)).

(** [h.config.Chains[chainID]]; reading a nil configuration panics. *)
Definition config_chain (h : Handler) (chainID : Z) : res (option ChainConfig) :=
  match h_config h with
  | None => Panic "h.config: nil pointer dereference"
  | Some c => Ok (cf_Chains c !! chainID)
  end.

Definition getRequiredConfirmations (h : Handler) (chainID : Z) : res Z :=
  let? c := config_chain h chainID in
  Ok (match c with Some chainConfig => cf_RequiredConfirmations chainConfig | None => 12 end).

Section api.
Context `{Env} `{EthLib} `{PubSub} `{OperatorSigner} `{CM : ChainManager} `{HttpLib}.
Context {C : Type} `{HasTask C, EpochStateQuerier C}.
Local Abbreviation MW := (M (World C)).

(** [x, err := m; if err != nil { write(...); return }] *)
Definition answer_or {A} (m : MW A) (write : error -> Response) (k : A -> MW Response) :
    MW Response :=
  let! r := try m in
  match r with
  | inr err => ret (write err)
  | inl x => k x
  end.

Definition bad_request (err : error) : Response := writeError StatusBadRequest (Error err).
Definition failure (msg : string) (err : error) : Response :=
  writeError StatusInternalServerError (msg +:+ ": " +:+ Error err).
Definition internal (_ : error) : Response :=
  writeError StatusInternalServerError "Internal server error".

Definition generateTaskID (params : SendRequestParams) (value : string) : string :=
  Bytes2Hex (Keccak256
    (HexToAddress (rp_TargetAddress params) ++ [u8 (rp_ChainID params)] ++
     [u8 (rp_BlockNumber params)] ++ string_bytes (rp_Key params) ++ string_bytes value)).

Definition validateRequest (h : Handler) (params : SendRequestParams) : MW unit :=
  if rp_ChainID params <=? 0 then throw (Errorf "invalid chain ID: must be positive integer")
  else
  let! supported := lift (config_chain h (rp_ChainID params)) in
  match supported with
  | None => throw (Errorf ("unsupported chain ID " +:+ big_String (rp_ChainID params)))
  | Some _ =>
  if negb (IsHexAddress (rp_TargetAddress params)) then
    throw (Errorf "invalid target address: must be valid EVM address")
  else
  match SetString (rp_Key params) 0 with
  | None => throw (Errorf "invalid key: must be valid uint256")
  | Some keyBig =>
  if (keyBig <? 0) || (2 ^ 256 - 1 <? keyBig) then
    throw (Errorf "invalid key: must be within uint256 range")
  else if (rp_BlockNumber params =? 0) && (rp_Timestamp params =? 0) then
    throw (Errorf "either block number or timestamp must be provided")
  else if negb (rp_BlockNumber params =? 0) && negb (rp_Timestamp params =? 0) then
    throw (Errorf "only one of block number or timestamp should be provided")
  else
  do! (if negb (rp_BlockNumber params =? 0) then
         let! chainClient := wrapM "failed to get state client"
           (lift (GetClientByChainId (rp_ChainID params) the_chains)) in
         let! latestBlock := wrapM "failed to get latest block"
           (extern (cc_BlockNumber chainClient)) in
         if latestBlock <? rp_BlockNumber params then
           throw (Errorf ("block number " +:+ big_String (rp_BlockNumber params) +:+
             " is in the future (latest: " +:+ big_String latestBlock +:+ ")"))
         else ret tt
       else ret tt) in
  if negb (rp_Timestamp params =? 0) then
    let! now := time_Now in
    if u64 (now / 1000000) <? rp_Timestamp params then throw (Errorf "timestamp is in the future")
    else ret tt
  else ret tt
  end
  end.

(** The row [SendRequest] stores *)
Definition new_task (params : SendRequestParams) (taskID : string) (blockNumber currentEpoch : Z)
    (keyBig value : option Z) (status : TaskStatus) (requiredConfirmations : Z) :
    CreateTaskParams := {|
  ct_TaskID := taskID;
  ct_TargetAddress := rp_TargetAddress params;
  ct_ChainID := rp_ChainID params;
  ct_BlockNumber := blockNumber;
  ct_Epoch := currentEpoch;
  ct_Key := BigIntToNumeric keyBig;
  ct_Value := BigIntToNumeric value;
  ct_Status := status;
  ct_RequiredConfirmations := requiredConfirmations;
|}.

(** From the missing task on: create it, and process it when its block is
    deep enough. *)
Definition create_and_process (h : Handler) (params : SendRequestParams)
    (stateClient : ChainClient) (taskID : string) (blockNumber currentEpoch : Z)
    (keyBig value : option Z) : MW Response :=
  let! requiredConfirmations := lift (getRequiredConfirmations h (rp_ChainID params)) in
  answer_or (extern (cc_BlockNumber stateClient)) (failure "Failed to get latest block")
    (fun latestBlock =>
  let confirming := latestBlock <? u64 (blockNumber + requiredConfirmations) in
  let status := if confirming then TaskStatusConfirming else TaskStatusPending in
  let statusMessage := if confirming
    then "Waiting for " +:+ big_String requiredConfirmations +:+ " block confirmations"
    else "Task has sufficient confirmations" in
  answer_or
    (CreateTask (new_task params taskID blockNumber currentEpoch keyBig value status
                   requiredConfirmations))
    (failure "Failed to create task")
    (fun task =>
  match task with
  | None => ret (internal (Errorf ""))
  | Some task =>
      let success msg := writeSuccess (t_TaskID task) (TaskStatus_string (t_Status task))
                           (t_RequiredConfirmations task) msg in
      if decide (t_Status task = TaskStatusConfirming) then ret (success statusMessage)
      else if decide (t_Status task = TaskStatusPending) then
        let! r := try (ProcessTask (Some task)) in
        match r with
        | inr err => ret (success ("Task created but processing failed: " +:+ Error err))
        | inl _ => ret (success statusMessage)
        end
      else ret (success statusMessage)
  end)).

(** From the task ID on: a known consensus or task is reported as it is. *)
Definition find_or_create (h : Handler) (params : SendRequestParams) (stateClient : ChainClient)
    (blockNumber currentEpoch : Z) (keyBig value : option Z) : MW Response :=
  let taskID := generateTaskID params (big_String_ptr value) in
  answer_or (GetConsensusResponseByTaskId taskID) internal (fun consensus =>
  match consensus with
  | Some _ => ret (writeSuccess taskID (TaskStatus_string TaskStatusCompleted) 0
                     "Task already completed with consensus reached")
  | None =>
  answer_or (GetTaskByID taskID) internal (fun existingTask =>
  match existingTask with
  | Some existing =>
      ret (writeSuccess (t_TaskID existing) (TaskStatus_string (t_Status existing))
             (u16 (t_RequiredConfirmations existing))
             ("Task already exists with status: " +:+ TaskStatus_string (t_Status existing)))
  | None => create_and_process h params stateClient taskID blockNumber currentEpoch keyBig value
  end)
  end).

(** The client the state is read from *)
Definition state_client (mainnetClient : ChainClient) (chainID : Z) : res ChainClient :=
  if chainID =? 1 then Ok mainnetClient else GetClientByChainId chainID the_chains.

Definition request_block (client : ChainClient) (params : SendRequestParams) : MW Z :=
  if negb (rp_Timestamp params =? 0)
  then TimestampToBlockNumber client (rp_ChainID params) (rp_Timestamp params)
  else ret (rp_BlockNumber params).

Definition SendRequest (h : Handler) (rq : Request) : MW Response :=
  if negb (bool_decide (rq_Method rq = "POST")) then
    ret (writeError StatusMethodNotAllowed "Method not allowed")
  else
  answer_or (lift (json_Decode (rq_Body rq)))
    (fun _ => writeError StatusBadRequest "Invalid request body") (fun params =>
  answer_or (validateRequest h params) bad_request (fun _ =>
  answer_or (lift (GetMainnetClient the_chains)) (failure "Failed to get mainnet client")
    (fun mainnetClient =>
  answer_or (extern (cc_GetCurrentEpoch mainnetClient)) (failure "Failed to get current epoch")
    (fun currentEpoch =>
  answer_or (lift (state_client mainnetClient (rp_ChainID params)))
    (fun err => writeError StatusBadRequest ("Failed to get state client for chain " +:+ big_String (rp_ChainID params) +:+ ": " +:+ Error err))
    (fun stateClient =>
  answer_or (request_block stateClient params)
    (failure "Failed to convert timestamp to block number") (fun blockNumber =>
  let keyBig := StringToBigInt (rp_Key params) in
  answer_or (extern (fun i => cc_GetStateAtBlock stateClient i
                                (HexToAddress (rp_TargetAddress params)) keyBig blockNumber))
    (failure "Failed to get state at block") (fun value =>
  find_or_create h params stateClient blockNumber currentEpoch keyBig value))))))).

Definition found (consensus : option ConsensusResponse) : MW Response :=
  match consensus with
  | None => ret (writeError StatusNotFound "Consensus not found")
  | Some c => ret (mkResponse StatusOK
                (BConsensus (mkConsensusResponseWrapper c "Consensus found successfully")))
  end.

Definition GetTaskConsensusByTaskID (taskID : string) : MW Response :=
  answer_or (GetConsensusResponseByTaskId taskID) (failure "Failed to get consensus") found.

(** The handler; the lookup it makes has the name
    [ConsensusRepo.GetConsensusResponseByRequest]. *)
Definition handler_GetConsensusResponseByRequest (q : Query) : MW Response :=
  if negb (IsHexAddress (q_target_address q)) then
    ret (writeError StatusBadRequest "Invalid target address")
  else
  match ParseUint64 (q_chain_id q) with
  | None => ret (writeError StatusBadRequest "Invalid chain_id")
  | Some chainID =>
  match ParseUint64 (q_block_number q) with
  | None => ret (writeError StatusBadRequest "Invalid block_number")
  | Some blockNumber =>
  answer_or (GetConsensusResponseByRequest
               (mkGetConsensusResponseByRequestParams (q_target_address q) (u32 chainID) blockNumber
                  (mkNumeric (StringToBigInt (q_key q)) 0 true)))
    (failure "Failed to get consensus") found
  end
  end.
End api.

(** ** Lemmas *)

Section lemmas.
Context `{Env} `{EthLib} `{PubSub} `{OperatorSigner} `{CM : ChainManager} `{HttpLib}.
Context {C : Type} `{HasTaskOk C}.

Lemma answer_or_Ok {A} (m : M (World C) A) write k (w w' : World C) resp :
  answer_or m write k w = (w', Ok resp) ->
  (exists w1 a, m w = (w1, Ok a) /\ k a w1 = (w', Ok resp)) \/
  (exists e, m w = (w', Err e) /\ resp = write e).
Proof.
  unfold answer_or, bind, try. destruct (m w) as [w1 [a|e|s]]; [|intros [= <- <-]|done]; eauto.
Qed.

(** The successful branch, when the error branch answers with another status. *)
Lemma answer_or_200 {A} (m : M (World C) A) write k (w w' : World C) resp :
  answer_or m write k w = (w', Ok resp) -> rs_Status resp = StatusOK ->
  (forall e, rs_Status (write e) <> StatusOK) ->
  exists w1 a, m w = (w1, Ok a) /\ k a w1 = (w', Ok resp).
Proof.
  intros [?|(e & _ & ->)]%answer_or_Ok Hst Hne; [done|]. by destruct (Hne e).
Qed.

Lemma config_chain_Ok h id c : config_chain h id = Ok c <->
  exists cfg, h_config h = Some cfg /\ cf_Chains cfg !! id = c.
Proof.
  unfold config_chain. destruct (h_config h) as [cfg|]; split.
  - intros [= <-]. eauto.
  - by intros (? & [= <-] & ->).
  - done.
  - by intros (? & [=] & _).
Qed.

(** What a request must satisfy to be processed. *)
Record request_ok (h : Handler) (p : SendRequestParams) (i : nat) : Prop := {
  ro_chain : 0 < rp_ChainID p;
  ro_supported : exists cfg c, h_config h = Some cfg /\ cf_Chains cfg !! rp_ChainID p = Some c;
  ro_address : IsHexAddress (rp_TargetAddress p) = true;
  ro_key : exists k, SetString (rp_Key p) 0 = Some k /\ 0 <= k < 2 ^ 256;
  ro_when :
    (rp_BlockNumber p <> 0 /\ rp_Timestamp p = 0 /\ exists client head,
       the_chains !! rp_ChainID p = Some client /\ cc_BlockNumber client i = Ok head /\
       rp_BlockNumber p <= head) \/
    (rp_BlockNumber p = 0 /\ rp_Timestamp p <> 0 /\
       rp_Timestamp p <= u64 (env_now i / 1000000));
}.

(** The last two checks, as one computation. *)
Definition check_when (p : SendRequestParams) : M (World C) unit :=
  do! (if negb (rp_BlockNumber p =? 0) then
         let! chainClient := wrapM "failed to get state client"
           (lift (GetClientByChainId (rp_ChainID p) the_chains)) in
         let! latestBlock := wrapM "failed to get latest block"
           (extern (cc_BlockNumber chainClient)) in
         if latestBlock <? rp_BlockNumber p then
           throw (Errorf ("block number " +:+ big_String (rp_BlockNumber p) +:+
             " is in the future (latest: " +:+ big_String latestBlock +:+ ")"))
         else ret tt
       else ret tt) in
  if negb (rp_Timestamp p =? 0) then
    let! now := time_Now in
    if u64 (now / 1000000) <? rp_Timestamp p then throw (Errorf "timestamp is in the future")
    else ret tt
  else ret tt.

Lemma check_block p (w : World C) : rp_BlockNumber p <> 0 -> rp_Timestamp p = 0 ->
  (check_when p w).2 = Ok tt <-> exists client head,
    the_chains !! rp_ChainID p = Some client /\ cc_BlockNumber client (w_step w) = Ok head /\
    rp_BlockNumber p <= head.
Proof.
  intros Hb Ht. unfold check_when. rewrite Ht. destruct (Z.eqb_spec (rp_BlockNumber p) 0); [done|].
  cbn [negb Z.eqb]. unfold GetClientByChainId, bind, wrapM, lift, extern, tick, ret, throw.
  destruct (the_chains !! rp_ChainID p) as [cl|]; cbn -[Z.ltb];
    [|split; [done|by intros (? & ? & [=] & _)]].
  destruct (cc_BlockNumber cl (w_step w)) as [head|e|s] eqn:E; cbn -[Z.ltb].
  - destruct (Z.ltb_spec head (rp_BlockNumber p)); cbn.
    + split; [done|]. intros (? & ? & [= <-] & E' & ?). rewrite E in E'. injection E' as <-. lia.
    + split; [|done]. intros _. exists cl, head. auto.
  - split; [done|]. intros (? & ? & [= <-] & E' & _). by rewrite E in E'.
  - split; [done|]. intros (? & ? & [= <-] & E' & _). by rewrite E in E'.
Qed.

Lemma check_time p (w : World C) : rp_BlockNumber p = 0 -> rp_Timestamp p <> 0 ->
  (check_when p w).2 = Ok tt <-> rp_Timestamp p <= u64 (env_now (w_step w) / 1000000).
Proof.
  intros Hb Ht. unfold check_when. rewrite Hb. destruct (Z.eqb_spec (rp_Timestamp p) 0); [done|].
  cbn [negb Z.eqb]. unfold time_Now, bind, lift, extern, tick, ret, throw. cbn -[Z.ltb u64 Z.div].
  destruct (Z.ltb_spec (u64 (env_now (w_step w) / 1000000)) (rp_Timestamp p)); cbn.
  - split; [done|lia].
  - done.
Qed.

(** A request passes exactly when it meets its specification. *)
Lemma validateRequest_spec h p (w : World C) :
  (validateRequest h p w).2 = Ok tt <-> request_ok h p (w_step w).
Proof.
  unfold validateRequest. destruct (Z.leb_spec (rp_ChainID p) 0) as [|Hpos].
  { split; [done|]. intros [? _ _ _ _]. lia. }
  unfold bind at 1, lift at 1. destruct (config_chain h (rp_ChainID p)) as [c|e|s] eqn:Hc.
  2,3: split; [done|]; intros [_ (cfg & c & Hcfg & Hl) _ _ _];
    rewrite (proj2 (config_chain_Ok h _ _) (ex_intro _ cfg (conj Hcfg Hl))) in Hc; done.
  apply config_chain_Ok in Hc as (cfg & Hcfg & Hl). destruct c as [c|].
  2:{ split; [done|]. intros [_ (cfg' & c & Hcfg' & Hl') _ _ _]. congruence. }
  destruct (IsHexAddress (rp_TargetAddress p)) eqn:Ha; cbn [negb].
  2:{ split; [done|]. intros [_ _ E _ _]. congruence. }
  destruct (SetString (rp_Key p) 0) as [k|] eqn:Hk.
  2:{ split; [done|]. intros [_ _ _ (k & E & _) _]. congruence. }
  destruct (Z.ltb_spec k 0); cbn [orb].
  { split; [done|]. intros [_ _ _ (k' & E & ?) _]. rewrite Hk in E. injection E as <-. lia. }
  destruct (Z.ltb_spec (2 ^ 256 - 1) k).
  { split; [done|]. intros [_ _ _ (k' & E & ?) _]. rewrite Hk in E. injection E as <-. lia. }
  assert (exists k, SetString (rp_Key p) 0 = Some k /\ 0 <= k < 2 ^ 256) as Hkey.
  { exists k. split; [done|lia]. }
  destruct (Z.eqb_spec (rp_BlockNumber p) 0) as [Hb|Hb],
    (Z.eqb_spec (rp_Timestamp p) 0) as [Ht|Ht]; cbn [negb andb].
  - split; [done|]. intros [_ _ _ _ [(? & _)|(_ & ? & _)]]; done.
  - pose proof (check_time p w Hb Ht) as Hw. unfold check_when in Hw.
    rewrite Hb, (proj2 (Z.eqb_neq _ _) Ht) in Hw. cbn [Z.eqb negb] in Hw. rewrite Hw. split.
    + intros. constructor; eauto.
    + intros [_ _ _ _ [(? & _)|(_ & _ & ?)]]; done.
  - pose proof (check_block p w Hb Ht) as Hw. unfold check_when in Hw.
    rewrite Ht, (proj2 (Z.eqb_neq _ _) Hb) in Hw. cbn [Z.eqb negb] in Hw. rewrite Hw. split.
    + intros. constructor; eauto.
    + intros [_ _ _ _ [(_ & _ & ?)|(? & _)]]; done.
  - split; [done|]. intros [_ _ _ _ [(_ & ? & _)|(? & _)]]; done.
Qed.

(** ** What the steps of a request leave alone *)

Lemma run_db {A} (m : M (World C) A) w w' out :
  (forall D, preserves (db_pred D) m) -> m w = (w', out) -> w_db w' = w_db w.
Proof.
  intros Hm E. pose proof (Hm (eq (w_db w)) w eq_refl) as Hw. rewrite E in Hw. by symmetry.
Qed.

(** The search for a block only calls the chain. *)
Lemma TimestampToBlockNumber_calls (I : World C -> Prop) cl chainID ts :
  (forall A (f : nat -> res A), preserves I (extern f)) ->
  preserves I (TimestampToBlockNumber cl chainID ts).
Proof.
  intros Hcall.
  assert (forall n, preserves I (block_at cl n)) by (intros; apply Hcall).
  assert (forall f avg n b, preserves I (first_pass f cl avg ts n b)).
  { induction f; intros; simpl; solve_preserves. }
  assert (forall f cur n b, preserves I (walk_forward f cl cur ts n b)).
  { induction f; intros; simpl; solve_preserves. }
  assert (forall f n b, preserves I (walk_back f cl ts n b)).
  { induction f; intros; simpl; solve_preserves. }
  unfold TimestampToBlockNumber. solve_preserves; apply Hcall.
Qed.

Lemma request_block_calls (I : World C -> Prop) cl p :
  (forall A (f : nat -> res A), preserves I (extern f)) -> preserves I (request_block cl p).
Proof.
  intros. unfold request_block.
  destruct (negb _); [by apply TimestampToBlockNumber_calls|apply preserves_ret].
Qed.

Lemma request_block_db D cl p : preserves (db_pred (C:=C) D) (request_block cl p).
Proof. apply request_block_calls. intros. apply extern_db. Qed.

Lemma validateRequest_db D h p : preserves (db_pred (C:=C) D) (validateRequest h p).
Proof. unfold validateRequest, time_Now. solve_preserves. Qed.

Lemma request_block_mem Q cl p : preserves (mem_pred (C:=C) Q) (request_block cl p).
Proof. apply request_block_calls. intros. apply extern_mem. Qed.

Lemma validateRequest_mem Q h p : preserves (mem_pred (C:=C) Q) (validateRequest h p).
Proof. unfold validateRequest, time_Now. solve_preserves. Qed.

(** Processing a task can only complete the row of that task. *)
Section at_task.
Variables (T : gmap string Tasks -> Prop) (id : string).
Hypothesis T_completed : forall now m,
  T m -> T (alter (task_with_status TaskStatusCompleted now) id m).

Lemma checkConsensus_at r : tr_taskID r = id ->
  preserves (db_pred (C:=C) (on_tasks T)) (checkConsensus r).
Proof.
  intros Hid. unfold checkConsensus, collectSignaturesAndAddresses, markTaskAsCompleted.
  assert (preserves (db_pred (C:=C) (on_tasks T)) (UpdateTaskToCompleted (tr_taskID r))).
  { apply pg_call_db. intros now d d' a Hd E. injection E as <- <-.
    unfold on_tasks. simpl. rewrite Hid. by apply T_completed. }
  solve_preserves; try (apply collect_from_db; solve_preserves).
Qed.

Lemma ProcessTask_at t : t_TaskID t = id ->
  preserves (db_pred (C:=C) (on_tasks T)) (ProcessTask (Some t)).
Proof.
  intros Hid. unfold ProcessTask, alreadyProcessed.
  apply preserves_bind; [solve_preserves|]. intros []; [apply preserves_ret|].
  apply (preserves_bind_ensures _ _ _ (fun r => tr_taskID r = id)).
  - intros w Hw. split; [by apply answer_task_db|]. intros r Hr.
    destruct (answer_task t w) as [w1 out] eqn:E. simpl in Hr. subst out.
    apply answer_task_Ok in E as [_ (key & value & Hans)].
    destruct (an_signed _ _ _ _ Hans) as (sig & _ & ->). done.
  - intros r Hr. solve_preserves. by apply checkConsensus_at.
Qed.
End at_task.
End lemmas.

(** ** Properties *)

Section properties.
Context `{Env} `{EthLib} `{PubSub} `{OperatorSigner} `{CM : ChainManager} `{HttpLib}.
Context {C : Type} `{HasTaskOk C}.

(** C26: validation accepts exactly the requests for a configured chain, a
    well-formed address, a key in the uint256 range, and exactly one of a
    block the chain has reached and a time that has passed. *)
Theorem validateRequest_iff h p (w : World C) :
  (validateRequest h p w).2 = Ok tt <-> request_ok h p (w_step w).
Proof. apply validateRequest_spec. Qed.

(** A row as it was stored, or since completed. *)
Definition kept_or_completed (row t : Tasks) : Prop :=
  t = row \/ exists now, t = task_with_status TaskStatusCompleted now row.

(** The task table after a task has been stored under [id]. *)
Definition stored (m0 : gmap string Tasks) (id : string) (row : Tasks) (m : gmap string Tasks) : Prop :=
  (forall id', id' <> id -> m !! id' = m0 !! id') /\
  exists t, m !! id = Some t /\ kept_or_completed row t.

Lemma stored_completed m0 id row now m : stored m0 id row m ->
  stored m0 id row (alter (task_with_status TaskStatusCompleted now) id m).
Proof.
  intros [Ho (t & Ht & Hk)]. split.
  - intros id' Hne. rewrite lookup_alter_ne by done. by apply Ho.
  - exists (task_with_status TaskStatusCompleted now t). rewrite lookup_alter_eq, Ht.
    split; [done|]. right. exists now. destruct Hk as [->|[? ->]]; done.
Qed.

(** The row a request asks for, when the chain's client is [client] and the
    state that was read is [value].  The task waits for confirmations exactly
    when the head that this client reported is below the block plus the
    required confirmations. *)
Record row_of (h : Handler) (mainnet client : ChainClient) (p : SendRequestParams) (value : option Z)
    (id : string) (row : Tasks) : Prop := {
  ro_id : t_TaskID row = id;
  ro_chainID : t_ChainID row = rp_ChainID p;
  ro_target : t_TargetAddress row = rp_TargetAddress p;
  ro_block : rp_Timestamp p = 0 -> t_BlockNumber row = rp_BlockNumber p;
  ro_stored_key : forall k, StringToBigInt (rp_Key p) = Some k ->
    t_Key row = BigIntToNumeric (Some k);
  ro_value : forall v, value = Some v -> t_Value row = BigIntToNumeric (Some v);
  ro_state : exists i, cc_GetStateAtBlock client i (HexToAddress (rp_TargetAddress p))
    (StringToBigInt (rp_Key p)) (t_BlockNumber row) = Ok value;
  ro_epoch : exists i, cc_GetCurrentEpoch mainnet i = Ok (t_Epoch row);
  ro_retries : t_RetryCount row = 0;
  ro_confirmations : getRequiredConfirmations h (rp_ChainID p) = Ok (t_RequiredConfirmations row);
  ro_status : exists i head, cc_BlockNumber client i = Ok head /\
    t_Status row = if head <? u64 (t_BlockNumber row + t_RequiredConfirmations row)
                   then TaskStatusConfirming else TaskStatusPending;
}.

Lemma CreateTask_Ok arg (w w' : World C) t : CreateTask arg w = (w', Ok t) ->
  exists now k v, numeric_arg (ct_Key arg) = Ok (Some k) /\ numeric_arg (ct_Value arg) = Ok v /\
    db_tasks (w_db w) !! ct_TaskID arg = None /\
    let row := mkTasks (ct_TaskID arg) (ct_ChainID arg) (ct_TargetAddress arg) k
      (ct_BlockNumber arg) (default (mkNumeric None 0 false) v) (ct_Epoch arg) (ct_Status arg)
      (ct_RequiredConfirmations arg) 0 now now in
    w_db w' = db_set_tasks (<[ct_TaskID arg := row]> (db_tasks (w_db w))) (w_db w) /\
    t = Some (scan_Tasks row).
Proof.
  unfold CreateTask. rewrite bind_Ok. intros (w1 & row & Hpg & [= <- <-]).
  apply pg_call_Ok in Hpg as (d & Hs & ->). unfold sql_createTask in Hs. sql_inv.
  eexists _, _, _. simpl. split_and!; eauto.
Qed.

Lemma new_task_row h mc cl p id b e key value rc now k v i i' i'' head :
  numeric_arg (BigIntToNumeric key) = Ok (Some k) -> numeric_arg (BigIntToNumeric value) = Ok v ->
  key = StringToBigInt (rp_Key p) ->
  (rp_Timestamp p = 0 -> b = rp_BlockNumber p) ->
  cc_GetStateAtBlock cl i' (HexToAddress (rp_TargetAddress p)) key b = Ok value ->
  cc_GetCurrentEpoch mc i'' = Ok e ->
  getRequiredConfirmations h (rp_ChainID p) = Ok rc -> cc_BlockNumber cl i = Ok head ->
  let st := if head <? u64 (b + rc) then TaskStatusConfirming else TaskStatusPending in
  let arg := new_task p id b e key value st rc in
  row_of h mc cl p value id (mkTasks (ct_TaskID arg) (ct_ChainID arg) (ct_TargetAddress arg) k
    (ct_BlockNumber arg) (default (mkNumeric None 0 false) v) (ct_Epoch arg) (ct_Status arg)
    (ct_RequiredConfirmations arg) 0 now now).
Proof.
  intros Hk Hv -> Hb Hst He Hrc Hh. constructor; try done; try by eexists; eauto.
  - intros x Hx. simpl. unfold numeric_arg in Hk. simpl in Hk. rewrite Hx in Hk. by injection Hk as <-.
  - intros x ->. simpl. unfold numeric_arg in Hv. simpl in Hv. by injection Hv as <-.
Qed.

Lemma create_and_process_200 h mc cl p id b e value i i' (w w' : World C) resp :
  (rp_Timestamp p = 0 -> b = rp_BlockNumber p) ->
  cc_GetStateAtBlock cl i (HexToAddress (rp_TargetAddress p)) (StringToBigInt (rp_Key p)) b = Ok value ->
  cc_GetCurrentEpoch mc i' = Ok e ->
  create_and_process h p cl id b e (StringToBigInt (rp_Key p)) value w = (w', Ok resp) ->
  rs_Status resp = StatusOK ->
  exists row, row_of h mc cl p value id row /\ db_tasks (w_db w) !! id = None /\
    stored (db_tasks (w_db w)) id row (db_tasks (w_db w')).
Proof.
  intros Hb Hstate Hepoch Hrun H200. unfold create_and_process in Hrun.
  apply bind_Ok in Hrun as (w1 & rc & [-> Hrc]%lift_Ok & Hrun).
  apply answer_or_200 in Hrun as (w2 & latest & [-> Hlatest]%extern_Ok & Hrun); [|done..].
  apply answer_or_200 in Hrun as (w3 & t & Hcreate & Hrun); [|done..].
  apply CreateTask_Ok in Hcreate as (now & k & v & Hk & Hv & Hnone & Hdb & ->).
  pose proof (new_task_row h mc cl p id b e _ value rc now k v _ _ _ latest Hk Hv eq_refl Hb
    Hstate Hepoch Hrc Hlatest) as Hrow.
  eexists. split; [exact Hrow|]. clear Hrow. split; [exact Hnone|].
  match type of Hdb with w_db w3 = db_set_tasks (<[_ := ?r]> _) _ => set (row := r) in * end.
  assert (stored (db_tasks (w_db w)) id row (db_tasks (w_db w3))) as Hst.
  { rewrite Hdb. simpl. split.
    - intros id' Hne. by rewrite lookup_insert_ne.
    - exists row. rewrite lookup_insert_eq. split; [done|by left]. }
  destruct (decide _); [by injection Hrun as <- _|].
  destruct (decide _); [|by injection Hrun as <- _].
  apply bind_Ok in Hrun as (w4 & r & Hp & Hrun).
  assert (stored (db_tasks (w_db w)) id row (db_tasks (w_db w4))) as Hst4.
  { refine (preserves_run _ _ _ _ _ (preserves_try _ _ (ProcessTask_at
      (stored (db_tasks (w_db w)) id row) id _ (scan_Tasks row) eq_refl)) Hp Hst).
    intros. by apply stored_completed. }
  destruct r; by injection Hrun as <- _.
Qed.

(** C15: what a 200 answer of [SendRequest] means.  The request was valid, and
    either its task or a consensus was there already and nothing changed, or
    there was none and exactly one row was added: the request's, with the
    value that the client of its chain (the mainnet client for chain 1) gave
    for its block and the epoch the mainnet client reported; confirming
    exactly when the head that the chain's client reported was below the
    block plus the required confirmations, and else pending; at most
    completed since. *)
Theorem SendRequest_accepts h rq (w w' : World C) resp
    (Hrun : SendRequest h rq w = (w', Ok resp)) (H200 : rs_Status resp = StatusOK) :
  exists p value mainnet client, json_Decode (rq_Body rq) = Ok p /\ request_ok h p (w_step w) /\
    GetMainnetClient the_chains = Ok mainnet /\ state_client mainnet (rp_ChainID p) = Ok client /\
    let id := generateTaskID p (big_String_ptr value) in
    (w_db w' = w_db w /\
       (is_Some (db_consensus (w_db w) !! id) \/ is_Some (db_tasks (w_db w) !! id))) \/
    (db_consensus (w_db w) !! id = None /\ db_tasks (w_db w) !! id = None /\
       exists row, row_of h mainnet client p value id row /\
         stored (db_tasks (w_db w)) id row (db_tasks (w_db w'))).
Proof.
  unfold SendRequest in Hrun. destruct (negb _); [injection Hrun as <- <-; done|].
  apply answer_or_200 in Hrun as (w1 & p & [-> Hp]%lift_Ok & Hrun); [|done..].
  apply answer_or_200 in Hrun as (w2 & [] & Hval & Hrun); [|done..].
  assert (request_ok h p (w_step w)) as Hok by (apply validateRequest_spec; by rewrite Hval).
  apply run_db in Hval; [|intros; apply validateRequest_db].
  apply answer_or_200 in Hrun as (w3 & mc & [-> Hmc]%lift_Ok & Hrun); [|done..].
  apply answer_or_200 in Hrun as (w4 & epoch & [-> Hepoch]%extern_Ok & Hrun); [|done..].
  apply answer_or_200 in Hrun as (w5 & cl & [-> Hcl]%lift_Ok & Hrun); [|done..].
  apply answer_or_200 in Hrun as (w6 & b & Hblk & Hrun); [|done..].
  assert (rp_Timestamp p = 0 -> b = rp_BlockNumber p) as Hb.
  { intros Ht. unfold request_block in Hblk. rewrite Ht in Hblk. by injection Hblk. }
  apply run_db in Hblk; [|intros; apply request_block_db].
  apply answer_or_200 in Hrun as (w7 & value & [-> Hstate]%extern_Ok & Hrun); [|done..].
  exists p, value, mc, cl. do 4 (split; [done|]). intros id. unfold find_or_create in Hrun.
  fold id in Hrun.
  apply answer_or_200 in Hrun as (w8 & cons & Hcons & Hrun); [|done..].
  unfold GetConsensusResponseByTaskId in Hcons. apply bind_Ok in Hcons as (w9 & c & Hc & [= <- <-]).
  apply pg_call_Ok in Hc as (d & [= <- <-] & ->). simpl in Hrun, Hblk. rewrite Hblk, Hval in Hrun.
  destruct (db_consensus (w_db w) !! id) as [c|] eqn:Ec; simpl in Hrun.
  { injection Hrun as <- _. simpl. left. split; [done|]. left. eauto. }
  apply answer_or_200 in Hrun as (w8 & existing & Hex & Hrun); [|done..].
  unfold GetTaskByID in Hex. apply bind_Ok in Hex as (w9 & t & Ht & [= <- <-]).
  apply pg_call_Ok in Ht as (d & [= <- <-] & ->). simpl in Hrun.
  destruct (db_tasks (w_db w) !! id) as [t|] eqn:Et; simpl in Hrun.
  { injection Hrun as <- _. simpl. left. split; [done|]. right. eauto. }
  right. split; [done|]. split; [done|].
  eapply (create_and_process_200 h mc) in Hrun as (row & Hrow & _ & Hst); [|done..]. by exists row.
Qed.

Lemma string_bytes_app s t : string_bytes (s +:+ t) = string_bytes s ++ string_bytes t.
Proof. unfold string_bytes. by rewrite chars_app, map_app. Qed.

Lemma u8_add x a : u8 (x + 256 * a) = u8 x.
Proof. unfold u8. change (2 ^ 8) with 256. by rewrite Z.mul_comm, Z_mod_plus_full. Qed.

(** The task ID does not identify a request: it keeps one byte of the
    chain and one of the block, ignores the timestamp, and runs the key and
    the value together. *)
Theorem generateTaskID_collides chain addr key block value a b t t' s :
  generateTaskID (mkSendRequestParams (chain + 256 * a) addr key (block + 256 * b) t) value =
    generateTaskID (mkSendRequestParams chain addr key block t') value /\
  generateTaskID (mkSendRequestParams chain addr (key +:+ s) block t) value =
    generateTaskID (mkSendRequestParams chain addr key block t) (s +:+ value).
Proof.
  unfold generateTaskID. simpl. rewrite !u8_add, !string_bytes_app, <- app_assoc. done.
Qed.

Lemma found_Ok c (w w' : World C) resp : found c w = (w', Ok resp) ->
  w' = w /\ match c with
  | Some row => resp = mkResponse StatusOK
                 (BConsensus (mkConsensusResponseWrapper row "Consensus found successfully"))
  | None => rs_Status resp = StatusNotFound
  end.
Proof. by destruct c; intros [= <- <-]. Qed.

(** C39: what a consensus lookup answers: with 200, a stored row of that
    address, of that chain modulo [2 ^ 32], of that block and of that key
    read in base 10; with 404, that no such row is stored. *)
Theorem query_by_request_sound q (w w' : World C) resp
    (Hrun : handler_GetConsensusResponseByRequest q w = (w', Ok resp)) :
  let matches row := exists c b k, ParseUint64 (q_chain_id q) = Some c /\
    ParseUint64 (q_block_number q) = Some b /\
    (forall x, StringToBigInt (q_key q) = Some x -> k = BigIntToNumeric (Some x)) /\
    same_request (q_target_address q) (u32 c) b k row = true in
  w_db w' = w_db w /\
  (rs_Status resp = StatusOK -> exists id row msg, db_consensus (w_db w) !! id = Some row /\
     rs_Body resp = BConsensus (mkConsensusResponseWrapper (scan_ConsensusResponse row) msg) /\
     matches row) /\
  (rs_Status resp = StatusNotFound -> forall x, StringToBigInt (q_key q) = Some x ->
     forall id row, db_consensus (w_db w) !! id = Some row -> ~ matches row).
Proof.
  unfold handler_GetConsensusResponseByRequest in Hrun.
  destruct (negb _); [by injection Hrun as <- <-|].
  destruct (ParseUint64 (q_chain_id q)) as [c|]; [|by injection Hrun as <- <-].
  destruct (ParseUint64 (q_block_number q)) as [b|]; [|by injection Hrun as <- <-].
  cbv zeta. split.
  { apply run_db in Hrun; [done|]. intros D. unfold answer_or, found, GetConsensusResponseByRequest.
    solve_preserves. }
  apply answer_or_Ok in Hrun as [(w1 & out & Hget & Hrun)|(e & _ & ->)]; [|by split].
  unfold GetConsensusResponseByRequest in Hget.
  apply bind_Ok in Hget as (w2 & row & Hpg & [= -> <-]).
  apply pg_call_Ok in Hpg as (d & Hs & _). unfold sql_getConsensusResponseByRequest in Hs. sql_inv.
  match goal with E : numeric_arg _ = Ok ?x |- _ => rename E into Hk; destruct x as [k|] end.
  2:{ unfold numeric_arg in Hk. simpl in Hk. destruct (StringToBigInt _); [done|].
      by destruct env_nil_numeric. }
  assert (forall x, StringToBigInt (q_key q) = Some x -> k = BigIntToNumeric (Some x)) as Hkey.
  { intros x Hx. unfold numeric_arg in Hk. simpl in Hk. rewrite Hx in Hk. by injection Hk. }
  apply found_Ok in Hrun as [_ Hresp].
  destruct (first_row _ _) as [row|] eqn:E; simpl in Hresp.
  - subst resp. split; [|done]. intros _. apply first_row_Some in E as [Hm [id Hid]].
    exists id, row, "Consensus found successfully". split; [done|]. split; [done|]. by exists c, b, k.
  - split; [by rewrite Hresp|]. intros _ x Hx id row Hid (c' & b' & k' & [= <-] & [= <-] & Hk' & Hm).
    pose proof (first_row_None _ _ E _ _ Hid) as Hn. rewrite (Hk' x Hx) in Hm.
    rewrite (Hkey x Hx) in Hn. congruence.
Qed.
End properties.

(** ** Examples *)

Section toy.
#[local] Existing Instance toy_env.
#[local] Existing Instance toy_eth.
#[local] Existing Instance toy_pubsub.
#[local] Existing Instance toy_signer.
#[local] Existing Instance toy_chains.

Definition toy_request (p : SendRequestParams) : Request :=
  mkRequest "POST" [Zpos (encode (rp_ChainID p, rp_TargetAddress p, rp_Key p,
                                  (rp_BlockNumber p, rp_Timestamp p)))].

#[local] Instance toy_http : HttpLib := {|
  json_Decode d :=
    match d with
    | [Zpos p] =>
        match decode p with
        | Some (a, b, c, (e, f)) => Ok (mkSendRequestParams a b c e f)
        | None => Err (Errorf "json: cannot parse")
        end
    | _ => Err (Errorf "json: cannot parse")
    end;
|}.

Definition toy_handler : Handler := mkHandler (Some (mkConfig
  {[ MainnetChainID := mkChainConfig "http://node" (mkContractsConfig "" "" "") 12
       (S754_zero false) ]} zero_DatabaseConfig (mkP2PConfig 0 [] "") 0 0 zero_RedisConfig)).

Definition toy_params (key : string) (block : Z) : SendRequestParams :=
  mkSendRequestParams MainnetChainID "BBBBBBBBBBBBBBBBBBBB" key block 0.

Definition toy_send (p : SendRequestParams) (w : World ToyNode) : World ToyNode * res Response :=
  SendRequest toy_handler (toy_request p) w.

(** The outcome of a computation that returns, with the state it leaves. *)
Lemma run_returns {W A} (m : M W A) (w : W) (P : A -> bool) :
  match (m w).2 with Ok a => P a | _ => false end = true ->
  exists w' a, m w = (w', Ok a) /\ P a = true.
Proof. destruct (m w) as [w' [a|e|s]]; simpl; [eauto|done|done]. Qed.

Definition is_200 (resp : Response) : bool := rs_Status resp =? StatusOK.

Lemma SendRequest_accepts_witness :
  exists p, json_Decode (rq_Body (toy_request (toy_params "3" 7698500))) = Ok p /\
    request_ok toy_handler p (w_step toy_node_world).
Proof.
  destruct (run_returns (SendRequest toy_handler (toy_request (toy_params "3" 7698500)))
    toy_node_world is_200) as (w' & resp & E & Hst); [vm_compute; reflexivity|].
  destruct (SendRequest_accepts toy_handler (toy_request (toy_params "3" 7698500))
    toy_node_world w' resp E (proj1 (Z.eqb_eq _ _) Hst)) as (p & value & mc & cl & Hp & Hok & _).
  exists p. split; [exact Hp|exact Hok].
Defined.

(** The answer for a block that was never read: the node has reached
    consensus on the request for block 7698500, and reports it as the result
    of the request for block 7698244, 256 blocks earlier. *)
Definition toy_first : World ToyNode := (toy_send (toy_params "3" 7698500) toy_node_world).1.

Definition reported (r : res Response) : option (string * string) :=
  match r with
  | Ok (mkResponse _ (BSend r)) => Some (sr_TaskID r, sr_Status r)
  | _ => None
  end.

(** After a request has been answered, a request for another block of the
    same chain, address and key whose value is the same is reported as
    completed under the first one's task, and no task is created for it. *)
Theorem SendRequest_shadows :
  let id := generateTaskID (toy_params "3" 7698500) "1000" in
  let second := toy_send (toy_params "3" 7698244) toy_first in
  reported second.2 = Some (id, "completed") /\
  c_BlockNumber <$> db_consensus (w_db toy_first) !! id = Some 7698500 /\
  w_db second.1 = w_db toy_first.
Proof. cbv zeta. split_and!; vm_compute; reflexivity. Qed.

(** A key is validated in Go's literal syntax and used in base 10: an
    octal key is accepted and read as another number, a hexadecimal key is
    accepted and read as nil. *)
Theorem validated_key_read_in_base_10 :
  (validateRequest toy_handler (toy_params "010" 7698500) toy_node_world).2 = Ok tt /\
  SetString "010" 0 = Some 8 /\ StringToBigInt "010" = Some 10 /\
  (validateRequest toy_handler (toy_params "0x1f" 7698500) toy_node_world).2 = Ok tt /\
  SetString "0x1f" 0 = Some 31 /\ StringToBigInt "0x1f" = None.
Proof. split_and!; vm_compute; reflexivity. Qed.

(** Chain 4306122407 is chain 11155111 modulo [2 ^ 32]. *)
Definition toy_query : Query :=
  mkQuery "BBBBBBBBBBBBBBBBBBBB" "4306122407" "7698500" "3".

Lemma query_by_request_sound_witness :
  exists id row, db_consensus (w_db toy_first) !! id = Some row /\
    same_request "BBBBBBBBBBBBBBBBBBBB" MainnetChainID 7698500 (BigIntToNumeric (Some 3)) row = true.
Proof.
  destruct (run_returns (handler_GetConsensusResponseByRequest toy_query) toy_first is_200)
    as (w' & resp & E & Hst); [vm_compute; reflexivity|].
  destruct (query_by_request_sound toy_query toy_first w' resp E) as (_ & Hfound & _).
  destruct (Hfound (proj1 (Z.eqb_eq _ _) Hst)) as (id & row & msg & Hrow & _ & (c & b & k & Hc & Hb & Hk & Hm)).
  exists id, row. split; [exact Hrow|].
  assert (ParseUint64 (q_chain_id toy_query) = Some 4306122407) as Ec by (vm_compute; reflexivity).
  assert (ParseUint64 (q_block_number toy_query) = Some 7698500) as Eb by (vm_compute; reflexivity).
  rewrite Ec in Hc. rewrite Eb in Hb. injection Hc as <-. injection Hb as <-.
  rewrite (Hk 3) in Hm by (vm_compute; reflexivity). exact Hm.
Defined.
End toy.
