(* ===== verification/Router.v ===== *)
(** * pkg/operator/api: router.go and server.go

    The router is chi's and the listener is net/http's: [Chi], [Middleware]
    and [NetHttp] are their interfaces, [ChiOk] and [MiddlewareOk] what their
    documentation says of the calls the code makes.  A handler is a function
    of the request to a computation that ends with the reply written. *)

From Stdlib Require Import Floats.SpecFloat.
From S2P Require Import Prelude GoInt GoString Numeric EpochMath Config Models World.
From S2P Require Import TasksRepo OperatorsRepo ConsensusRepo EthLib Signer Chain BlockTime.
From S2P Require Import Task TaskToy Api.

(** What the handlers and the router read of an [*http.Request]: the path,
    the first value of each query parameter, and the URL parameters the router
    found, the last one first. *)
Record HttpRequest := mkHttpRequest {
  hr_Method : string;
  hr_Path : string;
  hr_Query : string -> string;
  hr_Body : bytes;
  hr_Params : list (string * string);
}.

Definition with_params (ps : list (string * string)) (r : HttpRequest) : HttpRequest :=
  mkHttpRequest (hr_Method r) (hr_Path r) (hr_Query r) (hr_Body r) (ps ++ hr_Params r).

(** A handler's response, or the status the router or a middleware answers
    with *)
Inductive Reply :=
  | Wrote (r : Response)
  | Plain (status : Z).

Definition StatusTooManyRequests : Z := 429.
Definition Second : Z := 1000000000.


(** [chi.URLParam]: the last value, or the empty string *)
Fixpoint url_param (ps : list (string * string)) (key : string) : string :=
  match ps with
  | [] => ""
  | (k, v) :: ps => if decide (k = key) then v else url_param ps key
  end.

Definition URLParam (r : HttpRequest) (key : string) : string := url_param (hr_Params r) key.

(** ** chi's patterns

    A pattern is literal text and named parameters [{name}], each of which
    stands for a non-empty part of the path up to the next slash. *)
Inductive Tok := Lit (c : ascii) | Param (name : string).

(** Reads a pattern, the name in progress reversed; wildcards, regular
    expressions and parameters that end before a slash are left out. *)
Fixpoint parse_pattern (l : list ascii) (name : option (list ascii)) : option (list Tok) :=
  match l, name with
  | [], None => Some []
  | [], Some _ => None
  | c :: l, None =>
      if decide (c = "{"%char) then parse_pattern l (Some [])
      else if decide (c = "}"%char \/ c = "*"%char) then None
      else cons (Lit c) <$> parse_pattern l None
  | c :: l, Some n =>
      if decide (c = "}"%char) then
        if decide (l = [] \/ head l = Some "/"%char)
        then cons (Param (of_chars (rev n))) <$> parse_pattern l None
        else None
      else if decide (c = "/"%char \/ c = "{"%char \/ c = ":"%char) then None
      else parse_pattern l (Some (c :: n))
  end.

(** The text up to the next slash, and what follows it *)
Fixpoint up_to_slash (l : list ascii) : list ascii * list ascii :=
  match l with
  | [] => ([], [])
  | c :: l' =>
      if decide (c = "/"%char) then ([], l)
      else let '(v, rest) := up_to_slash l' in (c :: v, rest)
  end.

(** The values of the parameters, the last one first *)
Fixpoint match_toks (ts : list Tok) (path : list ascii) (ps : list (string * string)) :
    option (list (string * string)) :=
  match ts with
  | [] => match path with [] => Some ps | _ => None end
  | Lit c :: ts =>
      match path with
      | c' :: path => if decide (c = c') then match_toks ts path ps else None
      | [] => None
      end
  | Param x :: ts =>
      let '(v, rest) := up_to_slash path in
      match v with [] => None | _ => match_toks ts rest ((x, of_chars v) :: ps) end
  end.

Definition pattern_ok (pat : string) : bool :=
  match chars pat with
  | c :: _ => bool_decide (c = "/"%char) && bool_decide (is_Some (parse_pattern (chars pat) None))
  | [] => false
  end.

Definition pattern_match (pat path : string) : option (list (string * string)) :=
  ts ← parse_pattern (chars pat) None; match_toks ts (chars path) [].

Fixpoint strip (pre l : list ascii) : option (list ascii) :=
  match pre, l with
  | [], _ => Some l
  | c :: pre, c' :: l => if decide (c = c') then strip pre l else None
  | _ :: _, [] => None
  end.

(** The path a router mounted along [pat] sees *)
Definition mounted (pat path : string) : option string :=
  match strip (chars pat) (chars path) with
  | Some [] => Some "/"
  | Some (c :: l) => if decide (c = "/"%char) then Some (of_chars (c :: l)) else None
  | None => None
  end.

Inductive Found (Hd : Type) :=
  | FoundRoute (h : Hd) (ps : list (string * string))
  | NotFound
  | MethodNotAllowed.
Arguments FoundRoute {Hd} h ps.
Arguments NotFound {Hd}.
Arguments MethodNotAllowed {Hd}.

(** The methods chi knows of *)
Definition http_methods : list string :=
  ["CONNECT"; "DELETE"; "GET"; "HEAD"; "OPTIONS"; "PATCH"; "POST"; "PUT"; "TRACE"].

(** ** The libraries *)

(** [chi.Router] over handlers [Hd]; a registration that chi rejects panics. *)
Class Chi (Hd : Type) := {
  Mux : Type;
  NewRouter : Mux;
  Use : (Hd -> Hd) -> Mux -> res Mux;
  Post : string -> Hd -> Mux -> res Mux;
  Get : string -> Hd -> Mux -> res Mux;
  Route : string -> (Mux -> res Mux) -> Mux -> res Mux;
  ServeHTTP : Mux -> Hd;
  mx_middlewares : Mux -> list (Hd -> Hd);
  mx_routed : Mux -> bool;                             (** a route has been added *)
  mx_find : Mux -> string -> string -> Found Hd;       (** by method and path *)
}.

Class Middleware (Hd : Type) := {
  Recoverer : Hd -> Hd;
  Timeout : Z -> Hd -> Hd;
  ThrottleBacklog : Z -> Z -> Z -> res (Hd -> Hd);
}.

(** [net/http]: the loop that serves connections until it is shut down *)
Class NetHttp (Hd : Type) (Comp : Type -> Type) := {
  ListenAndServe : string -> Hd -> Comp unit;
  Shutdown : string -> Comp unit;
}.

Section router.
Context `{Env} `{EthLib} `{PubSub} `{OperatorSigner} `{CM : ChainManager} `{HttpLib}.
Context {C : Type} `{HasTask C, EpochStateQuerier C}.
Local Abbreviation MW := (M (World C)).

Definition HandlerFunc : Type := HttpRequest -> MW Reply.

Context `{!Chi HandlerFunc} `{!Middleware HandlerFunc}.

(** *** The handlers, as functions of the request *)

Definition wrote (m : MW Response) : MW Reply := let! r := m in ret (Wrote r).

Definition h_SendRequest (h : Handler) : HandlerFunc := fun r =>
  wrote (SendRequest h (mkRequest (hr_Method r) (hr_Body r))).

Definition h_GetConsensusResponseByRequest : HandlerFunc := fun r =>
  wrote (handler_GetConsensusResponseByRequest
           (mkQuery (hr_Query r "target_address") (hr_Query r "chain_id")
              (hr_Query r "block_number") (hr_Query r "key"))).

Definition h_GetTaskConsensusByTaskID : HandlerFunc := fun r =>
  wrote (GetTaskConsensusByTaskID (URLParam r "taskID")).

(** *** router.go *)

Definition RegisterRoutes (h : Handler) (r : Mux) : res Mux :=
  let? r := Use Recoverer r in
  let? r := Use (Timeout (30 * Second)) r in
  let? throttle := ThrottleBacklog 50 100 Second in
  let? r := Use throttle r in
  Route "/api/v1" (fun r =>
    let? r := Post "/tasks" (h_SendRequest h) r in
    Route "/consensus" (fun r =>
      let? r := Get "/" h_GetConsensusResponseByRequest r in
      Get "/tasks/{taskID}" h_GetTaskConsensusByTaskID r) r) r.

(** *** server.go *)

Record Server := mkServer {
  sv_handler : Handler;
  sv_Addr : string;
  sv_Handler : Mux;
}.

Definition NewServer (h : Handler) (port : Z) : res Server :=
  let? r := RegisterRoutes h NewRouter in
  Ok (mkServer h (":" +:+ big_String port) r).

Definition Start `{!NetHttp HandlerFunc MW} (s : Server) : MW unit :=
  ListenAndServe (sv_Addr s) (ServeHTTP (sv_Handler s)).

Definition Stop `{!NetHttp HandlerFunc MW} (s : Server) : MW unit := Shutdown (sv_Addr s).

(** ** What the libraries document *)

(** The handler behind the middlewares of a router *)
Definition route (r : Mux) : HandlerFunc := fun rq =>
  if decide (hr_Method rq ∈ http_methods) then
    match mx_find r (hr_Method rq) (hr_Path rq) with
    | FoundRoute h ps => h (with_params ps rq)
    | NotFound => ret (Plain StatusNotFound)
    | MethodNotAllowed => ret (Plain StatusMethodNotAllowed)
    end
  else ret (Plain StatusMethodNotAllowed).

(** No route of [r] has a path in [P]. *)
Definition unrouted (r : Mux) (P : string -> Prop) : Prop :=
  forall method path, P path -> mx_find r method path = NotFound.

(** A route along [pat] for the method [name] is added, where no other route
    takes its paths. *)
Definition adds_route (name : string) (add : string -> HandlerFunc -> Mux -> res Mux) : Prop :=
  forall pat h r, pattern_ok pat = true -> unrouted r (fun path => is_Some (pattern_match pat path)) ->
  exists r', add pat h r = Ok r' /\ mx_middlewares r' = mx_middlewares r /\
    forall method path, mx_find r' method path =
      match pattern_match pat path with
      | Some ps => if decide (method = name) then FoundRoute h ps else MethodNotAllowed
      | None => mx_find r method path
      end.

Class ChiOk : Prop := {
  NewRouter_find : forall method path, mx_find NewRouter method path = NotFound;
  NewRouter_empty : mx_middlewares NewRouter = [] /\ mx_routed NewRouter = false;
  Use_Ok : forall mw r, mx_routed r = false -> exists r', Use mw r = Ok r' /\
    mx_middlewares r' = mx_middlewares r ++ [mw] /\ mx_routed r' = false /\
    forall method path, mx_find r' method path = mx_find r method path;
  Post_Ok : adds_route "POST" Post;
  Get_Ok : adds_route "GET" Get;
  Route_Ok : forall pat fn r sub, pattern_ok pat = true -> fn NewRouter = Ok sub ->
    mx_middlewares sub = [] -> unrouted r (fun path => is_Some (mounted pat path)) ->
    exists r', Route pat fn r = Ok r' /\ mx_middlewares r' = mx_middlewares r /\
      forall method path, mx_find r' method path =
        match mounted pat path with
        | Some rest => mx_find sub method rest
        | None => mx_find r method path
        end;
  ServeHTTP_Ok : forall r rq w, ServeHTTP (Hd := HandlerFunc) r rq w =
    foldr (fun mw h => mw h) (route r) (mx_middlewares (Hd := HandlerFunc) r) rq w;
}.

(** The panic that aborts a connection on purpose *)
Definition ErrAbortHandler : string := "net/http: abort Handler".

(** The deadline of [Timeout] ends the request's context: it is one of the
    reasons for which the calls of a handler fail, and nothing is added to a
    reply that has been written.  [ThrottleBacklog] runs a request or refuses
    it; which one depends on the others in the server. *)
Class MiddlewareOk : Prop := {
  Recoverer_Ok : forall (h : HandlerFunc) rq w w' reply,
    h rq w = (w', Ok reply) -> Recoverer h rq w = (w', Ok reply);
  Recoverer_Panic : forall (h : HandlerFunc) rq w w' s, h rq w = (w', Panic s) ->
    s <> ErrAbortHandler -> exists status, Recoverer h rq w = (w', Ok (Plain status));
  Timeout_Ok : forall d (h : HandlerFunc) rq w, Timeout d h rq w = h rq w;
  ThrottleBacklog_Ok : forall limit backlog timeout, 0 < limit -> 0 <= backlog ->
    exists mw : HandlerFunc -> HandlerFunc, ThrottleBacklog limit backlog timeout = Ok mw /\
      forall h rq w, mw h rq w = h rq w \/ mw h rq w = (w, Ok (Plain StatusTooManyRequests));
}.

(** ** The routes, without the router *)

(** The task a path below [consensus/tasks] names *)
Definition task_path (path : string) : option string :=
  l ← strip (chars "/api/v1/consensus/tasks/") (chars path);
  if decide (l = [] \/ "/"%char ∈ l) then None else Some (of_chars l).

(** The method and the handler of a path *)
Definition endpoint (h : Handler) (path : string) : option (string * HandlerFunc) :=
  if decide (path = "/api/v1/tasks") then Some ("POST", h_SendRequest h)
  else if decide (path = "/api/v1/consensus" \/ path = "/api/v1/consensus/") then
    Some ("GET", h_GetConsensusResponseByRequest)
  else
    id ← task_path path; Some ("GET", fun _ => wrote (GetTaskConsensusByTaskID id)).

Definition answer (h : Handler) : HandlerFunc := fun rq =>
  match endpoint h (hr_Path rq) with
  | Some (method, f) =>
      if decide (hr_Method rq = method) then f rq else ret (Plain StatusMethodNotAllowed)
  | None =>
      ret (Plain (if decide (hr_Method rq ∈ http_methods) then StatusNotFound
                  else StatusMethodNotAllowed))
  end.
End router.

(** ** Patterns and paths *)

Lemma strip_Some a l r : strip a l = Some r <-> l = a ++ r.
Proof.
  revert l. induction a as [|c a IH]; intros l; [simpl; naive_solver|].
  destruct l as [|c' l]; simpl; [naive_solver|].
  destruct (decide (c = c')) as [->|Hne]; [rewrite IH|]; naive_solver.
Qed.

Lemma strip_app a b l : strip (a ++ b) l = strip a l ≫= strip b.
Proof.
  revert l. induction a as [|c a IH]; intros l; [done|].
  destruct l as [|c' l]; simpl; [done|]. by destruct (decide (c = c')).
Qed.

Lemma of_chars_eq l s : of_chars l = s <-> l = chars s.
Proof. split; [intros <-; by rewrite chars_of_chars|intros ->; apply of_chars_chars]. Qed.

Lemma match_lits a ts l ps :
  match_toks (map Lit a ++ ts) l ps = strip a l ≫= fun r => match_toks ts r ps.
Proof.
  revert l. induction a as [|c a IH]; intros l; [done|].
  destruct l as [|c' l]; simpl; [done|]. by destruct (decide (c = c')).
Qed.

(** A pattern without parameters matches itself. *)
Lemma match_static pat path : parse_pattern (chars pat) None = Some (map Lit (chars pat)) ->
  pattern_match pat path = if decide (path = pat) then Some [] else None.
Proof.
  intros Hp. unfold pattern_match. rewrite Hp. simpl.
  rewrite <- (app_nil_r (map Lit (chars pat))), match_lits. simpl.
  destruct (strip (chars pat) (chars path)) as [l|] eqn:E; simpl.
  - apply strip_Some in E. destruct l as [|c l].
    + rewrite app_nil_r in E. rewrite decide_True; [done|].
      by rewrite <- (of_chars_chars path), E, of_chars_chars.
    + rewrite decide_False; [done|]. intros ->. apply (f_equal length) in E.
      rewrite length_app in E. simpl in E. lia.
  - rewrite decide_False; [done|]. intros ->.
    by rewrite (proj2 (strip_Some _ _ [])) in E by by rewrite app_nil_r.
Qed.

Lemma up_to_slash_all l : "/"%char ∉ l -> up_to_slash l = (l, []).
Proof.
  induction l as [|c l IH]; simpl; [done|]. intros [Hc Hl]%not_elem_of_cons.
  rewrite decide_False by done. by rewrite IH.
Qed.

Lemma up_to_slash_rest l v : up_to_slash l = (v, []) -> v = l /\ "/"%char ∉ l.
Proof.
  revert v. induction l as [|c l IH]; simpl; intros v.
  - intros [= <-]. split; [done|]. apply not_elem_of_nil.
  - destruct (decide (c = "/"%char)) as [|Hc]; [done|].
    destruct (up_to_slash l) as [v' rest]. intros [= <- ->].
    destruct (IH v' eq_refl) as [-> Hl]. split; [done|]. by apply not_elem_of_cons.
Qed.

(** A pattern whose only parameter is its last part *)
Lemma match_last pat pre x path :
  parse_pattern (chars pat) None = Some (map Lit pre ++ [Param x]) ->
  pattern_match pat path = l ← strip pre (chars path);
    if decide (l = [] \/ "/"%char ∈ l) then None else Some [(x, of_chars l)].
Proof.
  intros Hp. unfold pattern_match. rewrite Hp. simpl. rewrite match_lits.
  destruct (strip pre (chars path)) as [l|]; simpl; [|done].
  destruct (up_to_slash l) as [v rest] eqn:E. destruct (decide (_ \/ _)) as [[->|Hin]|Hn].
  - by injection E as <- <-.
  - destruct v, rest; try done. by apply up_to_slash_rest in E as [-> ?].
  - rewrite up_to_slash_all in E by tauto. injection E as <- <-. destruct l; [tauto|done].
Qed.

(** The paths of the API, by the part each router sees *)
Lemma mounted_api path : match mounted "/api/v1" path with
  | Some p => path = "/api/v1" /\ p = "/" \/ exists l, chars p = "/"%char :: l /\
      chars path = chars "/api/v1/" ++ l
  | None => forall l, chars path <> chars "/api/v1/" ++ l
  end.
Proof.
  unfold mounted. destruct (strip _ _) as [[|c l]|] eqn:E.
  - apply strip_Some in E. left. split; [|done]. by rewrite <- (of_chars_chars path), E.
  - apply strip_Some in E. destruct (decide (c = "/"%char)) as [->|Hc].
    + right. exists l. by rewrite chars_of_chars, E.
    + intros l' E'. rewrite E in E'. by injection E' as ->.
  - intros l' E'. by rewrite (proj2 (strip_Some _ _ ("/"%char :: l'))) in E.
Qed.

Lemma mounted_slash pat pre p l : chars pat = "/"%char :: pre -> chars p = "/"%char :: l ->
  mounted pat p = match strip pre l with
    | Some [] => Some "/"
    | Some (c :: r) => if decide (c = "/"%char) then Some (of_chars (c :: r)) else None
    | None => None
    end.
Proof. intros Ep E. unfold mounted. by rewrite Ep, E. Qed.

Section table.
Context `{Env} `{EthLib} `{PubSub} `{OperatorSigner} `{CM : ChainManager} `{HttpLib}.
Context {C : Type} `{HasTask C, EpochStateQuerier C}.
Context `{!Chi (HandlerFunc (C:=C))} `{!ChiOk}.
Abbreviation Hd := (HandlerFunc (C:=C)).

(** What the route [name pat] makes of a path *)
Definition only (name : string) (h : Hd) (ps : option (list (string * string))) (method : string) (rest : Found Hd) : Found Hd :=
  match ps with
  | Some ps => if decide (method = name) then FoundRoute h ps else MethodNotAllowed
  | None => rest
  end.

Definition find_consensus (method p : string) : Found Hd :=
  only "GET" h_GetTaskConsensusByTaskID (pattern_match "/tasks/{taskID}" p) method
    (only "GET" h_GetConsensusResponseByRequest (pattern_match "/" p) method NotFound).

Definition find_v1 (h : Handler) (method p : string) : Found Hd :=
  match mounted "/consensus" p with
  | Some p => find_consensus method p
  | None => only "POST" (h_SendRequest h) (pattern_match "/tasks" p) method NotFound
  end.

Definition find_api (h : Handler) (method p : string) : Found Hd :=
  match mounted "/api/v1" p with Some p => find_v1 h method p | None => NotFound end.

Lemma add_route name add pat h r : adds_route name add -> pattern_ok pat = true ->
  unrouted r (fun path => is_Some (pattern_match pat path)) ->
  exists r', add pat h r = Ok r' /\ mx_middlewares r' = mx_middlewares r /\
    forall method path, mx_find r' method path =
      only name h (pattern_match pat path) method (mx_find r method path).
Proof. intros Hadd Hp Hu. exact (Hadd pat h r Hp Hu). Qed.

Lemma unrouted_new P : unrouted NewRouter P.
Proof. intros method path _. apply NewRouter_find. Qed.

Lemma match_slash path : pattern_match "/" path = if decide (path = "/") then Some [] else None.
Proof. by apply match_static. Qed.

Lemma match_tasks path : pattern_match "/tasks" path = if decide (path = "/tasks") then Some [] else None.
Proof. by apply match_static. Qed.

Lemma match_task path : pattern_match "/tasks/{taskID}" path = l ← strip (chars "/tasks/") (chars path);
  if decide (l = [] \/ "/"%char ∈ l) then None else Some [("taskID", of_chars l)].
Proof. by apply match_last. Qed.

Lemma consensus_routes : exists r, (let? r := Get "/" h_GetConsensusResponseByRequest NewRouter in
    Get "/tasks/{taskID}" h_GetTaskConsensusByTaskID r) = Ok r /\
  mx_middlewares r = [] /\ forall method p, mx_find r method p = find_consensus method p.
Proof.
  destruct (add_route "GET" Get "/" h_GetConsensusResponseByRequest NewRouter Get_Ok)
    as (r1 & E1 & M1 & F1); [done|apply unrouted_new|]. rewrite E1. simpl.
  destruct (add_route "GET" Get "/tasks/{taskID}" h_GetTaskConsensusByTaskID r1 Get_Ok)
    as (r2 & E2 & M2 & F2); [done| |].
  - intros method path [ps Hps]. rewrite F1, match_slash, decide_False; [apply NewRouter_find|].
    intros ->. rewrite match_task in Hps. done.
  - exists r2. split_and!; [done|rewrite M2, M1; apply NewRouter_empty|].
    intros method p. by rewrite F2, F1, NewRouter_find.
Qed.

Lemma v1_routes h : exists r, (let? r := Post "/tasks" (h_SendRequest h) NewRouter in
    Route "/consensus" (fun r =>
      let? r := Get "/" h_GetConsensusResponseByRequest r in
      Get "/tasks/{taskID}" h_GetTaskConsensusByTaskID r) r) = Ok r /\
  mx_middlewares r = [] /\ forall method p, mx_find r method p = find_v1 h method p.
Proof.
  destruct (add_route "POST" Post "/tasks" (h_SendRequest h) NewRouter Post_Ok)
    as (r1 & E1 & M1 & F1); [done|apply unrouted_new|]. rewrite E1. simpl.
  destruct consensus_routes as (sub & Es & Ms & Fs).
  destruct (Route_Ok "/consensus" (fun r => let? r := Get "/" h_GetConsensusResponseByRequest r in
    Get "/tasks/{taskID}" h_GetTaskConsensusByTaskID r) r1 sub) as (r2 & E2 & M2 & F2); [done..| |].
  - intros method path [p' Hp]. rewrite F1, match_tasks, decide_False; [apply NewRouter_find|].
    intros ->. done.
  - exists r2. split_and!; [done|rewrite M2, M1; apply NewRouter_empty|].
    intros method p. rewrite F2. unfold find_v1. destruct (mounted _ _); [apply Fs|].
    by rewrite F1, NewRouter_find.
Qed.

Context `{!Middleware Hd} `{!MiddlewareOk}.

(** The server's router: its middlewares, the first outermost, and its routes *)
Lemma api_routes h : exists (throttle : Hd -> Hd) r, ThrottleBacklog 50 100 Second = Ok throttle /\
  RegisterRoutes h NewRouter = Ok r /\
  mx_middlewares r = [Recoverer; Timeout (30 * Second); throttle] /\
  forall method p, mx_find r method p = find_api h method p.
Proof.
  unfold RegisterRoutes. destruct NewRouter_empty as [Mn Rn].
  destruct (Use_Ok Recoverer NewRouter Rn) as (r1 & E1 & M1 & R1 & F1). rewrite E1. simpl.
  destruct (Use_Ok (Timeout (30 * Second)) r1 R1) as (r2 & E2 & M2 & R2 & F2). rewrite E2. simpl.
  destruct (ThrottleBacklog_Ok 50 100 Second) as (throttle & Et & _); [lia..|]. rewrite Et. simpl.
  destruct (Use_Ok throttle r2 R2) as (r3 & E3 & M3 & R3 & F3). rewrite E3. simpl.
  destruct (v1_routes h) as (sub & Es & Ms & Fs).
  match goal with |- context [Route "/api/v1" ?fn _] =>
    destruct (Route_Ok "/api/v1" fn r3 sub ltac:(done) Es Ms) as (r4 & E4 & M4 & F4) end.
  { intros method path _. rewrite F3, F2, F1. apply NewRouter_find. }
  exists throttle, r4. split_and!; [done|exact E4|by rewrite M4, M3, M2, M1, Mn|].
  intros method p. rewrite F4. unfold find_api. destruct (mounted _ _); [apply Fs|].
  by rewrite F3, F2, F1, NewRouter_find.
Qed.

(** ** The routes are the table *)

Lemma path_eq path s : path = s <-> chars path = chars s.
Proof. split; [by intros ->|]. intros E. by rewrite <- (of_chars_chars path), E, of_chars_chars. Qed.

(** What the table holds below [/api/v1/] *)
Lemma endpoint_below h path l : chars path = chars "/api/v1/" ++ l ->
  endpoint h path =
    if decide (l = chars "tasks") then Some ("POST", h_SendRequest h)
    else if decide (l = chars "consensus" \/ l = chars "consensus/") then
      Some ("GET", h_GetConsensusResponseByRequest)
    else
      id ← (l ← strip (chars "consensus/tasks/") l;
            if decide (l = [] \/ "/"%char ∈ l) then None else Some (of_chars l));
      Some ("GET", fun _ => wrote (GetTaskConsensusByTaskID (C:=C) id)).
Proof.
  intros E. unfold endpoint, task_path. rewrite E.
  assert (forall t, path = "/api/v1/" +:+ t <-> l = chars t) as Ht.
  { intros t. rewrite path_eq, E, chars_app.
    split; [by intros ?%(inj (app (chars "/api/v1/")))|by intros ->]. }
  rewrite (decide_ext _ _ _ _ (Ht "tasks")). f_equal.
  rewrite (decide_ext (path = "/api/v1/consensus" \/ _) (l = chars "consensus" \/ l = chars "consensus/"))
    by (rewrite <- !Ht; done).
  by f_equal.
Qed.

(** What the router holds there *)
Lemma find_below h method p l : chars p = "/"%char :: l -> find_v1 h method p =
  if decide (l = chars "tasks") then
    if decide (method = "POST") then FoundRoute (h_SendRequest h) [] else MethodNotAllowed
  else if decide (l = chars "consensus" \/ l = chars "consensus/") then
    if decide (method = "GET") then FoundRoute h_GetConsensusResponseByRequest [] else MethodNotAllowed
  else
    match l ← strip (chars "consensus/tasks/") l;
          if decide (l = [] \/ "/"%char ∈ l) then None else Some (of_chars l) with
    | Some id =>
        if decide (method = "GET") then FoundRoute h_GetTaskConsensusByTaskID [("taskID", id)]
        else MethodNotAllowed
    | None => NotFound
    end.
Proof.
  intros E. unfold find_v1. rewrite (mounted_slash "/consensus" (chars "consensus") p l eq_refl E).
  change (chars "consensus/tasks/") with (chars "consensus" ++ chars "/tasks/"). rewrite strip_app.
  destruct (strip (chars "consensus") l) as [r|] eqn:Er.
  - apply strip_Some in Er as ->.
    rewrite (decide_False (P := _ = chars "tasks")) by done.
    assert ((chars "consensus" ++ r = chars "consensus" \/ chars "consensus" ++ r = chars "consensus/")
      <-> r = [] \/ r = chars "/") as Hr.
    { change (chars "consensus/") with (chars "consensus" ++ chars "/").
      rewrite <- (app_nil_r (chars "consensus")) at 2. split.
      - intros [E'|E']; apply app_inv_head in E' as ->; [by left|by right].
      - by intros [->| ->]; [left|right]. }
    rewrite (decide_ext _ _ _ _ Hr).
    change (Some r ≫= strip (chars "/tasks/")) with (strip (chars "/tasks/") r).
    destruct r as [|c r]; [by rewrite decide_True by by left|].
    destruct (decide (c = "/"%char)) as [->|Hc].
    + unfold find_consensus. rewrite match_task, chars_of_chars, match_slash.
      destruct (decide (_ \/ _)) as [Hr0|Hn].
      * destruct Hr0 as [|Hr0]; [done|]. injection Hr0 as ->. by rewrite decide_True.
      * rewrite (decide_False (P := of_chars _ = "/")) by (rewrite of_chars_eq; intros Er; apply Hn; by right).
        destruct (strip (chars "/tasks/") _) as [t|]; [|done]. cbn. by destruct (decide _).
    + rewrite decide_False by naive_solver.
      rewrite match_tasks, decide_False by by rewrite path_eq, E.
      destruct (strip _ _) as [t|] eqn:Es; [|done]. apply strip_Some in Es. by injection Es as ->.
  - rewrite (decide_False (P := _ \/ _)).
    2: { intros [->| ->]; discriminate Er. }
    rewrite match_tasks. rewrite (decide_ext (p = "/tasks") (l = chars "tasks")).
    2: { rewrite path_eq, E. split; [by intros [= ->]|by intros ->]. }
    by destruct (decide (l = chars "tasks")).
Qed.

(** A path with one route *)
Lemma route_one name f ps r rq : mx_find r (hr_Method rq) (hr_Path rq) =
    (if decide (hr_Method rq = name) then FoundRoute f ps else MethodNotAllowed) ->
  bool_decide (name ∈ http_methods) = true ->
  route r rq = if decide (hr_Method rq = name) then f (with_params ps rq)
               else ret (Plain StatusMethodNotAllowed).
Proof.
  intros E Hn%bool_decide_eq_true. unfold route. rewrite E. destruct (decide (hr_Method rq = name)) as [->|].
  - by rewrite decide_True.
  - by destruct (decide (_ ∈ _)).
Qed.

Lemma route_none r rq : mx_find r (hr_Method rq) (hr_Path rq) = NotFound ->
  route r rq = ret (Plain (if decide (hr_Method rq ∈ http_methods) then StatusNotFound
                           else StatusMethodNotAllowed)).
Proof. intros E. unfold route. rewrite E. by destruct (decide (_ ∈ _)). Qed.

Lemma endpoint_outside h path : (forall l, chars path <> chars "/api/v1/" ++ l) ->
  endpoint h path = None.
Proof.
  intros Hm. unfold endpoint, task_path. rewrite !decide_False.
  - destruct (strip _ _) as [l|] eqn:E; [|done]. apply strip_Some in E.
    by destruct (Hm (chars "consensus/tasks/" ++ l)).
  - intros [E|E]; apply path_eq in E; [by destruct (Hm (chars "consensus"))|].
    by destruct (Hm (chars "consensus/")).
  - intros E; apply path_eq in E. by destruct (Hm (chars "tasks")).
Qed.

Lemma route_answer h r rq : (forall method p, mx_find r method p = find_api h method p) ->
  route r rq = answer h rq.
Proof.
  intros Hf. pose proof (Hf (hr_Method rq) (hr_Path rq)) as E. unfold find_api in E. unfold answer.
  pose proof (mounted_api (hr_Path rq)) as Hm. destruct (mounted "/api/v1" _) as [p|].
  2: { by rewrite (route_none r rq E), endpoint_outside. }
  destruct Hm as [[Hpath ->]|(l & Hp & Hpath)].
  { rewrite (route_none r rq E), endpoint_outside; [done|]. by rewrite Hpath. }
  rewrite (find_below h _ p l Hp) in E. rewrite (endpoint_below h _ l Hpath).
  destruct (decide (l = chars "tasks")); [by rewrite (route_one _ _ _ _ _ E eq_refl)|].
  destruct (decide (l = chars "consensus" \/ _)); [by rewrite (route_one _ _ _ _ _ E eq_refl)|].
  destruct (_ ≫= _) as [id|]; [by rewrite (route_one _ _ _ _ _ E eq_refl)|].
  by rewrite (route_none r rq E).
Qed.

(** ** Every request is answered *)

(** A computation that returns or panics, and leaves no error to its caller *)
Definition handled {A} (m : M (World C) A) : Prop :=
  forall w, match (m w).2 with Err _ => False | _ => True end.

Lemma handled_ret {A} (a : A) : handled (ret a).
Proof. done. Qed.

Lemma handled_bind {A B} (m : M (World C) A) (k : A -> M (World C) B) :
  handled m -> (forall a, handled (k a)) -> handled (bind m k).
Proof.
  intros Hm Hk w. unfold bind. specialize (Hm w). destruct (m w) as [w' [a|e|s]]; [apply Hk|done..].
Qed.

Lemma handled_try {A} (m : M (World C) A) : handled (try m).
Proof. intros w. unfold try. by destruct (m w) as [w' [a|e|s]]. Qed.

Lemma handled_answer_or {A} (m : M (World C) A) write k :
  (forall a, handled (k a)) -> handled (answer_or m write k).
Proof. intros Hk. apply handled_bind; [apply handled_try|]. intros [a|e]; [apply Hk|done]. Qed.

Lemma found_handled c : handled (found c).
Proof. by destruct c. Qed.

Lemma create_and_process_handled h p client id block epoch key value :
  handled (create_and_process h p client id block epoch key value).
Proof.
  unfold create_and_process. apply handled_bind.
  { intros w. unfold lift, getRequiredConfirmations, config_chain. by destruct (h_config h) as [[]|]. }
  intros conf. apply handled_answer_or. intros head. apply handled_answer_or. intros [t|]; [|done].
  destruct (decide _); [done|]. destruct (decide _); [|done].
  apply handled_bind; [apply handled_try|]. by intros [].
Qed.

Lemma SendRequest_handled h rq : handled (SendRequest h rq).
Proof.
  unfold SendRequest, find_or_create. destruct (negb _); [done|].
  repeat (apply handled_answer_or; intros ?). destruct (_ : option ConsensusResponse); [done|].
  apply handled_answer_or. intros [t|]; [done|apply create_and_process_handled].
Qed.

Lemma by_request_handled q : handled (handler_GetConsensusResponseByRequest q).
Proof.
  unfold handler_GetConsensusResponseByRequest. destruct (negb _); [done|].
  destruct (ParseUint64 _); [|done]. destruct (ParseUint64 _); [|done].
  apply handled_answer_or, found_handled.
Qed.

Lemma wrote_handled m : handled m -> handled (wrote (C:=C) m).
Proof. intros Hm. by apply handled_bind. Qed.

Lemma answer_handled h rq : handled (answer h rq).
Proof.
  unfold answer, endpoint. destruct (decide _).
  { destruct (decide _); [apply wrote_handled, SendRequest_handled|done]. }
  destruct (decide _); [destruct (decide _); [apply wrote_handled, by_request_handled|done]|].
  destruct (task_path _); [|done]. simpl. destruct (decide _); [|done].
  apply wrote_handled, handled_answer_or, found_handled.
Qed.

(** C16: the server. It can be made on every port, and serves the table: a
    request is turned away with 429 by the throttle and changes nothing, or
    gets the reply of the endpoint its path and method name ([answer]: 404 and
    405 for what is no endpoint) with that endpoint's effect; a handler never
    leaves an error to the server, and a panic of a handler, with what it has
    done so far, ends in a reply too. *)
Theorem server_answers h port : exists srv, NewServer h port = Ok srv /\
  sv_Addr srv = ":" +:+ big_String port /\
  forall rq w, ServeHTTP (Hd := Hd) (sv_Handler srv) rq w = (w, Ok (Plain StatusTooManyRequests)) \/
    match answer h rq w with
    | (w', Ok reply) => ServeHTTP (Hd := Hd) (sv_Handler srv) rq w = (w', Ok reply)
    | (w', Panic s) => s <> ErrAbortHandler ->
        exists status, ServeHTTP (Hd := Hd) (sv_Handler srv) rq w = (w', Ok (Plain status))
    | (_, Err _) => False
    end.
Proof.
  destruct (api_routes h) as (throttle & r & Et & Er & Em & Ef).
  unfold NewServer. rewrite Er. eexists. split_and!; [done..|]. intros rq w. cbn [sv_Handler].
  rewrite (ServeHTTP_Ok r rq w), Em. cbn [foldr].
  destruct (ThrottleBacklog_Ok 50 100 Second ltac:(lia) ltac:(lia)) as (throttle' & Et' & Ht).
  rewrite Et in Et'. injection Et' as <-.
  pose proof (Timeout_Ok (30 * Second) (throttle (route r)) rq w) as Hd.
  destruct (Ht (route r) rq w) as [E|E]; rewrite E in Hd.
  - right. rewrite (route_answer h r rq Ef) in Hd. pose proof (answer_handled h rq w) as Ha.
    destruct (answer h rq w) as [w' [reply|e|s]]; [by apply Recoverer_Ok|done|].
    intros Hs. by eapply Recoverer_Panic.
  - left. by apply Recoverer_Ok.
Qed.

(** The method check of [SendRequest] is never what turns a request away:
    the router has let only POST through. *)
Lemma method_check_idle h rq w : hr_Path rq = "/api/v1/tasks" ->
  (hr_Method rq = "POST" /\ answer h rq w = h_SendRequest h rq w) \/
  answer h rq w = (w, Ok (Plain StatusMethodNotAllowed)).
Proof. intros Hp. unfold answer, endpoint. rewrite Hp, decide_True by done. destruct (decide _); [by left|by right]. Qed.
End table.

(** ** A router for the witness *)

Record toy_Mux (Hd : Type) := mkToyMux {
  tx_middlewares : list (Hd -> Hd);
  tx_routed : bool;
  tx_find : string -> string -> Found Hd;
}.
Arguments mkToyMux {Hd} _ _ _.
Arguments tx_middlewares {Hd} _.
Arguments tx_routed {Hd} _.
Arguments tx_find {Hd} _ _ _.

Definition toy_add {Hd} (name pat : string) (h : Hd) (r : toy_Mux Hd) : res (toy_Mux Hd) :=
  if pattern_ok pat then
    Ok (mkToyMux (tx_middlewares r) true (fun method path =>
      match pattern_match pat path with
      | Some ps => if decide (method = name) then FoundRoute h ps else MethodNotAllowed
      | None => tx_find r method path
      end))
  else Panic "chi: invalid pattern".

Section toy.
Context `{Env} {C : Type}.
Abbreviation Hd := (HandlerFunc (C:=C)).

Definition toy_Route (pat : string) (fn : toy_Mux Hd -> res (toy_Mux Hd)) (r : toy_Mux Hd) :
    res (toy_Mux Hd) :=
  if pattern_ok pat then
    let? sub := fn (mkToyMux [] false (fun _ _ => NotFound)) in
    Ok (mkToyMux (tx_middlewares r) true (fun method path =>
      match mounted pat path with
      | Some rest => tx_find sub method rest
      | None => tx_find r method path
      end))
  else Panic "chi: invalid pattern".

Definition toy_route (r : toy_Mux Hd) : Hd := fun rq =>
  if decide (hr_Method rq ∈ http_methods) then
    match tx_find r (hr_Method rq) (hr_Path rq) with
    | FoundRoute h ps => h (with_params ps rq)
    | NotFound => ret (Plain StatusNotFound)
    | MethodNotAllowed => ret (Plain StatusMethodNotAllowed)
    end
  else ret (Plain StatusMethodNotAllowed).

#[export] Instance toy_chi : Chi Hd := {|
  Mux := toy_Mux Hd;
  NewRouter := mkToyMux [] false (fun _ _ => NotFound);
  Use mw r := if tx_routed r then Panic "chi: all middlewares must be defined before routes on a mux"
              else Ok (mkToyMux (tx_middlewares r ++ [mw]) false (tx_find r));
  Post := toy_add "POST";
  Get := toy_add "GET";
  Route := toy_Route;
  ServeHTTP r := foldr (fun mw h => mw h) (toy_route r) (tx_middlewares r);
  mx_middlewares := tx_middlewares;
  mx_routed := tx_routed;
  mx_find := tx_find;
|}.

#[export] Instance toy_middleware : Middleware Hd := {|
  Recoverer h rq w :=
    match h rq w with
    | (w', Panic s) => if decide (s = ErrAbortHandler) then (w', Panic s)
                       else (w', Ok (Plain StatusInternalServerError))
    | out => out
    end;
  Timeout _ h := h;
  ThrottleBacklog limit backlog _ :=
    if (limit <? 1) || (backlog <? 0) then Panic "chi/middleware: Throttle expects limit > 0"
    else Ok (fun h => h);
|}.

#[export] Instance toy_chi_ok : ChiOk (C:=C).
Proof.
  constructor; cbn; try done.
  - intros mw r Hr. rewrite Hr. by eexists.
  - intros pat h r Hp _. cbn. unfold toy_add. rewrite Hp. by eexists.
  - intros pat h r Hp _. cbn. unfold toy_add. rewrite Hp. by eexists.
  - intros pat fn r sub Hp Hs _ _. unfold toy_Route. rewrite Hp, Hs. by eexists.
Qed.

#[export] Instance toy_middleware_ok : MiddlewareOk (C:=C).
Proof.
  constructor; cbn.
  - intros h rq w w' reply E. by rewrite E.
  - intros h rq w w' s E Hs. rewrite E, decide_False by done. by eexists.
  - done.
  - intros limit backlog timeout Hl Hb. eexists. split; [|by left].
    destruct (Z.ltb_spec limit 1), (Z.ltb_spec backlog 0); simpl; done || lia.
Qed.
End toy.

#[local] Existing Instances toy_env toy_eth toy_pubsub toy_signer toy_chains toy_http.

Definition toy_get (path : string) : HttpRequest := mkHttpRequest "GET" path (fun _ => "") [] [].

(** The consensus the toy node has reached, over the server *)
Definition is_consensus (r : Reply) : bool :=
  match r with Wrote (mkResponse _ (BConsensus _)) => true | _ => false end.

Lemma server_answers_witness : exists srv reply,
  NewServer (C:=ToyNode) toy_handler 8080 = Ok srv /\
  (ServeHTTP (Hd := HandlerFunc) (sv_Handler srv) (toy_get "/api/v1/consensus/tasks/task") toy_run).2
    = Ok reply /\
  (reply = Plain StatusTooManyRequests \/ is_consensus reply = true).
Proof.
  destruct (server_answers (C:=ToyNode) toy_handler 8080) as (srv & E & _ & Hs).
  destruct (run_returns (answer toy_handler (toy_get "/api/v1/consensus/tasks/task")) toy_run is_consensus)
    as (w' & reply & Ea & Hc); [vm_compute; reflexivity|].
  specialize (Hs (toy_get "/api/v1/consensus/tasks/task") toy_run). rewrite Ea in Hs.
  destruct Hs as [Hs|Hs]; exists srv; [exists (Plain StatusTooManyRequests)|exists reply];
    (split_and!; [done|exact (f_equal snd Hs)|auto]).
Defined.

(** A panic in a handler (here: no configuration) does not take the server down. *)
Example panic_recovered :
  match NewServer (C:=ToyNode) (mkHandler None) 8080 with
  | Ok srv => (ServeHTTP (Hd := HandlerFunc) (sv_Handler srv)
      (mkHttpRequest "POST" "/api/v1/tasks" (fun _ => "")
         (rq_Body (toy_request (toy_params "3" 7698500))) []) toy_node_world).2
  | _ => Panic ""
  end = Ok (Plain StatusInternalServerError).
Proof. vm_compute. reflexivity. Qed.
