(* ===== verification/Network.v ===== *)
(** * pkg/operator/health and the disconnection of peers (pkg/operator/node)

    The libp2p host, its peerstore and the ping service are parameters; every
    call to the host may change its state.  The health checker pings the
    connected peers, remembers the round trip of those that answer and has
    the node disconnect the others. *)

From S2P Require Import Prelude.

(** What arrives on a channel within the deadline: an answer, or nothing. *)
Class Host := {
  net_state : Type;
  Network_Peers : net_state -> list string;
  Connectedness : string -> net_state -> bool;   (** [== network.Connected] *)
  ClosePeer : nat -> string -> net_state -> net_state * option (res unit);
  ClearAddrs : string -> net_state -> net_state;
  RemovePeer : string -> net_state -> net_state;
  Addrs : string -> net_state -> list string;
  (** [<-Ping(ctx, p)]: [None] when the channel is closed without a result,
      as at the deadline *)
  ping_Ping : nat -> string -> option (res Z);
}.

(** Only [ClearAddrs] touches the address book, and only for its peer. *)
Class HostOk `{Host} := {
  Addrs_ClearAddrs : forall p s, Addrs p (ClearAddrs p s) = [];
  Addrs_ClearAddrs_ne : forall p q s, p <> q -> Addrs q (ClearAddrs p s) = Addrs q s;
  Addrs_RemovePeer : forall p q s, Addrs q (RemovePeer p s) = Addrs q s;
  Addrs_ClosePeer : forall i p q s, Addrs q (ClosePeer i p s).1 = Addrs q s;
}.

(** [HealthCheckInterval], in nanoseconds *)
Definition HealthCheckInterval : Z := 20 * 1000000000.

Section network.
Context `{Host}.

(** The node's host, the checker's status map and interval, and whether its
    context has been cancelled. *)
Record healthChecker := mkHealthChecker {
  hc_step : nat;
  hc_net : net_state;
  hc_peerStatus : gmap string Z;
  hc_checkInterval : Z;
  hc_cancelled : bool;
}.

Definition set_net (s : net_state) (h : healthChecker) : healthChecker :=
  mkHealthChecker (hc_step h) s (hc_peerStatus h) (hc_checkInterval h) (hc_cancelled h).

Abbreviation HM := (M healthChecker).

Definition next : HM nat := fun h =>
  (mkHealthChecker (S (hc_step h)) (hc_net h) (hc_peerStatus h) (hc_checkInterval h)
     (hc_cancelled h), Ok (hc_step h)).

(** ** node/disconnect.go *)

Definition cleanupPeerResources (peer : string) : HM unit :=
  do! modify (fun h => set_net (ClearAddrs peer (hc_net h)) h) in
  modify (fun h => set_net (RemovePeer peer (hc_net h)) h).

Definition closeConnection (peer : string) : HM unit :=
  let! s := gets hc_net in
  if negb (Connectedness peer s) then ret tt
  else
    let! i := next in
    let! answer := (fun h => let '(s, r) := ClosePeer i peer (hc_net h) in (set_net s h, Ok r)) in
    match answer with
    | None => throw (Errorf "timeout closing connection to peer")
    | Some (Err err) => throw err
    | Some (Panic why) => panic why
    | Some (Ok _) =>
        do! cleanupPeerResources peer in
        let! s := gets hc_net in
        if Connectedness peer s then throw (Errorf "failed to close all connections to peer")
        else ret tt
    end.

Definition DisconnectPeer (targetPeer : string) : HM unit :=
  do! try (closeConnection targetPeer) in
  cleanupPeerResources targetPeer.

Definition GetConnectedPeers : HM (list string) := gets (fun h => Network_Peers (hc_net h)).

(** ** health/health.go *)

Definition NewHealthChecker (node pingService : bool) (s : net_state) : res healthChecker :=
  if negb node then Err (Errorf "node is nil")
  else if negb pingService then Err (Errorf "ping service is nil")
  else Ok (mkHealthChecker 0 s ∅ HealthCheckInterval false).

Definition Stop : HM unit := modify (fun h =>
  mkHealthChecker (hc_step h) (hc_net h) (hc_peerStatus h) (hc_checkInterval h) true).

Definition GetStatus : HM (gmap string Z) := gets hc_peerStatus.

(** A receive from a closed channel gives the zero [ping.Result]: no error, a
    round trip of 0. *)
Definition pingPeer (p : string) : HM unit :=
  let! i := next in
  let! rtt := lift (default (Ok 0) (ping_Ping i p)) in
  modify (fun h => mkHealthChecker (hc_step h) (hc_net h) (<[p := rtt]> (hc_peerStatus h))
                     (hc_checkInterval h) (hc_cancelled h)).

Definition check_peer (peerID : string) : HM unit :=
  let! r := try (pingPeer peerID) in
  match r with
  | inr _ => do! try (DisconnectPeer peerID) in ret tt
  | inl _ => ret tt
  end.

Definition checkPeers : HM unit :=
  let! peers := GetConnectedPeers in
  for_all peers check_peer.

Definition TriggerCheck : HM unit := checkPeers.

Definition SetCheckInterval (d : Z) : HM unit := modify (fun h =>
  mkHealthChecker (hc_step h) (hc_net h) (hc_peerStatus h) d (hc_cancelled h)).

(** One iteration of [start]'s loop: [false] when it has returned. *)
Definition health_tick : HM bool :=
  let! done := gets hc_cancelled in
  if (done : bool) then ret false
  else do! checkPeers in ret true.
End network.

(** ** Properties *)

Section properties.
Context `{HostOk}.

(** Host and service calls that answer with values or errors, not panics *)
Definition answers : Prop :=
  (forall i p s why, (ClosePeer i p s).2 <> Some (Panic why)) /\
  (forall i p why, ping_Ping i p <> Some (Panic why)).

(** What one peer's check leaves of it, and of every other peer. *)
Definition checked (p : string) (h h' : healthChecker) : Prop :=
  exists i, match default (Ok 0) (ping_Ping i p) with
  | Ok rtt => hc_peerStatus h' !! p = Some rtt /\ Addrs p (hc_net h') = Addrs p (hc_net h)
  | _ => hc_peerStatus h' !! p = hc_peerStatus h !! p /\ Addrs p (hc_net h') = []
  end.

Definition untouched (p : string) (h h' : healthChecker) : Prop :=
  hc_peerStatus h' !! p = hc_peerStatus h !! p /\ Addrs p (hc_net h') = Addrs p (hc_net h).

Lemma untouched_trans p h1 h2 h3 : untouched p h1 h2 -> untouched p h2 h3 -> untouched p h1 h3.
Proof. intros [E1 E2] [E3 E4]. split; congruence. Qed.

Lemma cleanup_run p h : exists h', cleanupPeerResources p h = (h', Ok tt) /\
  hc_peerStatus h' = hc_peerStatus h /\ Addrs p (hc_net h') = [] /\
  forall q, q <> p -> Addrs q (hc_net h') = Addrs q (hc_net h).
Proof.
  eexists. split; [reflexivity|]. simpl. split; [done|]. split.
  - by rewrite Addrs_RemovePeer, Addrs_ClearAddrs.
  - intros q Hq. by rewrite Addrs_RemovePeer, Addrs_ClearAddrs_ne.
Qed.

Lemma close_run p h : answers -> exists h' r, closeConnection p h = (h', r) /\
  (forall why, r <> Panic why) /\ hc_peerStatus h' = hc_peerStatus h /\
  forall q, q <> p -> Addrs q (hc_net h') = Addrs q (hc_net h).
Proof.
  intros [Hc _]. unfold closeConnection, bind at 1, gets at 1.
  destruct (negb _); [eexists _, _; split; [reflexivity|]; done|].
  unfold bind at 1, next, bind at 1. cbn [hc_net].
  pose proof (Hc (hc_step h) p (hc_net h)) as Hp.
  pose proof (Addrs_ClosePeer (hc_step h) p) as Ha.
  specialize (fun q => Ha q (hc_net h)).
  destruct (ClosePeer (hc_step h) p (hc_net h)) as [s [[[]|e|why]|]]; simpl in Hp, Ha.
  - set (h1 := set_net s _). destruct (cleanup_run p h1) as (h2 & Hrun & Est & _ & Ho).
    unfold bind at 1. rewrite Hrun. unfold bind, gets. simpl.
    destruct (Connectedness p (hc_net h2)); (eexists _, _; split; [reflexivity|]);
      (split; [done|]); (split; [by rewrite Est|]);
      intros q Hq; rewrite Ho by done; apply Ha.
  - eexists _, _. split; [reflexivity|]. split; [done|]. split; [done|]. intros q _. apply Ha.
  - by destruct (Hp why).
  - eexists _, _. split; [reflexivity|]. split; [done|]. split; [done|]. intros q _. apply Ha.
Qed.

Lemma disconnect_run p h : answers -> exists h', DisconnectPeer p h = (h', Ok tt) /\
  hc_peerStatus h' = hc_peerStatus h /\ Addrs p (hc_net h') = [] /\
  forall q, q <> p -> Addrs q (hc_net h') = Addrs q (hc_net h).
Proof.
  intros Hans. destruct (close_run p h Hans) as (h1 & r & Hclose & Hr & Est & Ho).
  destruct (cleanup_run p h1) as (h2 & Hrun & Est2 & Hp & Ho2).
  exists h2. unfold DisconnectPeer, bind, try. rewrite Hclose.
  destruct r as [[]|e|why]; [| |by destruct (Hr why)]; rewrite Hrun;
    (split; [done|]); (split; [congruence|]); (split; [done|]);
    intros q Hq; rewrite Ho2 by done; by apply Ho.
Qed.

Lemma check_peer_run p h : answers -> exists h', check_peer p h = (h', Ok tt) /\
  checked p h h' /\ forall q, q <> p -> untouched q h h'.
Proof.
  intros Hans. unfold check_peer, bind at 1, try at 1, pingPeer, bind at 1, next, bind at 1, lift.
  destruct (default (Ok 0) (ping_Ping (hc_step h) p)) as [rtt|e|why] eqn:E.
  - eexists. split; [reflexivity|]. split.
    + exists (hc_step h). rewrite E. simpl. by rewrite lookup_insert_eq.
    + intros q Hq. split; simpl; [by rewrite lookup_insert_ne|done].
  - set (h1 := mkHealthChecker _ _ _ _ _).
    destruct (disconnect_run p h1 Hans) as (h2 & Hrun & Est & Hp & Ho).
    unfold bind, try. rewrite Hrun. exists h2. split; [done|]. split.
    + exists (hc_step h). rewrite E. by rewrite Est.
    + intros q Hq. split; [by rewrite Est|by rewrite Ho].
  - destruct (ping_Ping (hc_step h) p) as [r|] eqn:Er; [|done]. simpl in E. subst r.
    by destruct (proj2 Hans (hc_step h) p why).
Qed.

Lemma checked_frame p h1 h2 h3 h4 : untouched p h1 h2 -> checked p h2 h3 -> untouched p h3 h4 ->
  checked p h1 h4.
Proof.
  intros [E1 E2] (i & Hi) [E3 E4]. exists i.
  destruct (default (Ok 0) (ping_Ping i p)); destruct Hi; split; congruence.
Qed.

Lemma check_all_run l : NoDup l -> answers -> forall h, exists h',
  for_all l check_peer h = (h', Ok tt) /\ (forall p, p ∈ l -> checked p h h') /\
  (forall q, q ∉ l -> untouched q h h').
Proof.
  intros Hnd Hans. induction Hnd as [|p l Hp Hnd IH]; intros h.
  { exists h. split; [done|]. split; [by intros p ?%elem_of_nil|done]. }
  destruct (check_peer_run p h Hans) as (h1 & Hrun & Hck & Hun).
  destruct (IH h1) as (h2 & Hrun2 & Hck2 & Hun2). exists h2. split.
  { apply for_all_cons_Ok. eauto. }
  split.
  - intros q [->|Hq]%elem_of_cons.
    + by apply (checked_frame p h h h1 h2); [|done|apply Hun2].
    + apply (checked_frame q h h1 h2 h2); [apply Hun; set_solver|by apply Hck2|done].
  - intros q [Hne Hq]%not_elem_of_cons. eapply untouched_trans; [by apply Hun|by apply Hun2].
Qed.

(** A health check visits every connected peer: one whose ping fails
    loses its addresses, whatever happens to its connection, and keeps its
    last round trip in the status; one whose ping is answered, or closed at
    the deadline without an answer, is recorded and left alone; no other
    peer is touched. *)
Theorem health_check_peers (Hans : answers) h (Hnd : NoDup (Network_Peers (hc_net h))) :
  exists h', checkPeers h = (h', Ok tt) /\
    (forall p, p ∈ Network_Peers (hc_net h) -> checked p h h') /\
    (forall q, q ∉ Network_Peers (hc_net h) -> untouched q h h').
Proof. unfold checkPeers, bind, GetConnectedPeers, gets. by apply check_all_run. Qed.
End properties.

(** ** Example: two peers, of which [q] answers pings and [p] refuses to close *)

Definition toy_host : Host := {|
  net_state := gmap string (list string);
  Network_Peers s := ["p"; "q"];
  Connectedness p s := true;
  ClosePeer i p s := (s, None);
  ClearAddrs p s := <[p := []]> s;
  RemovePeer p s := s;
  Addrs p s := default [] (s !! p);
  ping_Ping i p := Some (if decide (p = "q") then Ok 7 else Err (Errorf "refused"));
|}.

#[local] Instance toy_host_ok : @HostOk toy_host.
Proof.
  constructor; intros; simpl; try done.
  - by rewrite lookup_insert_eq.
  - by rewrite lookup_insert_ne.
Qed.

Lemma health_check_peers_witness :
  let h := @mkHealthChecker toy_host 0 {[ "p" := ["/ip4/1.2.3.4"]; "q" := ["/ip4/5.6.7.8"] ]} ∅ 0 false in
  exists h', @checkPeers toy_host h = (h', Ok tt) /\ @Addrs toy_host "p" (hc_net h') = [] /\
    @Addrs toy_host "q" (hc_net h') = ["/ip4/5.6.7.8"].
Proof.
  intros h. assert (@answers toy_host) as Hans.
  { split; intros; simpl; [done|]. by destruct (decide (p = "q")). }
  assert (NoDup (@Network_Peers toy_host (hc_net h))) as Hnd.
  { simpl. repeat constructor; set_solver. }
  destruct (@health_check_peers toy_host toy_host_ok Hans h Hnd) as (h' & Hrun & Hck & _).
  exists h'. split; [exact Hrun|]. split.
  - destruct (Hck "p") as [i Hi]; [set_solver|]. simpl in Hi. apply Hi.
  - destruct (Hck "q") as [i Hi]; [set_solver|]. simpl in Hi. apply Hi.
Defined.
