(* ===== verification/Sight.v ===== *)
(** * The operators a node has seen

    The operator a handler works with was read from the operator table, now
    or earlier: from the cache it may be old, but it is a row that was there.
    [sighted seen] says so of a state: the rows of the table, and the
    operators the cache may serve, are in [seen].  The lookups return
    operators in [seen], and what does not write the operator table keeps
    [sighted], whatever is cached, evicted, stale or lost. *)

From S2P Require Import Prelude GoInt GoString Numeric EpochMath Models World.
From S2P Require Import TasksRepo BlacklistRepo OperatorsRepo ConsensusRepo.
From S2P Require Import EthLib Signer Config Chain Watch Task TaskInv Gater Epoch Listener BlockTime Api.

(** A property of what is cached *)
Definition cache_pred `{Env} {C} (K : dc_state -> Prop) (w : World C) : Prop := K (w_cache w).

Section cache_frames.
Context `{Env} {C : Type}.
Implicit Types K : dc_state -> Prop.

Lemma tick_cache K : preserves (cache_pred (C:=C) K) tick.
Proof. by intros w. Qed.
Lemma extern_cache {A} K (f : nat -> res A) : preserves (cache_pred (C:=C) K) (extern f).
Proof. by intros w. Qed.
Lemma pg_call_cache {A} K (s : Z -> DB -> res (DB * A)) : preserves (cache_pred (C:=C) K) (pg_call s).
Proof.
  intros w Hw. unfold pg_call, bind, tick. simpl.
  by destruct (s (env_now (w_step w)) (w_db w)) as [[d a]|e'|m], (env_pg (w_step w)).
Qed.
End cache_frames.

#[export] Hint Resolve tick_cache extern_cache pg_call_cache : go_inv.

(** Methods that do not use the cache *)
Section uncached.
Context `{Env} `{EthLib} `{CM : ChainManager} {C : Type}.
Implicit Types K : dc_state -> Prop.

Lemma CreateTask_cache K arg : preserves (cache_pred (C:=C) K) (CreateTask arg).
Proof. unfold CreateTask. solve_preserves. Qed.
Lemma GetTaskByID_cache K id : preserves (cache_pred (C:=C) K) (GetTaskByID id).
Proof. unfold GetTaskByID. solve_preserves. Qed.
Lemma GetConsensusResponseByTaskId_cache K id :
  preserves (cache_pred (C:=C) K) (GetConsensusResponseByTaskId id).
Proof. unfold GetConsensusResponseByTaskId. solve_preserves. Qed.
Lemma GetConsensusResponseByRequest_cache K arg :
  preserves (cache_pred (C:=C) K) (GetConsensusResponseByRequest arg).
Proof. unfold GetConsensusResponseByRequest. solve_preserves. Qed.
Lemma validateRequest_cache K h p : preserves (cache_pred (C:=C) K) (validateRequest h p).
Proof. unfold validateRequest, time_Now. solve_preserves. Qed.
Lemma request_block_cache K cl p : preserves (cache_pred (C:=C) K) (request_block cl p).
Proof. apply request_block_calls. intros. apply extern_cache. Qed.
Lemma state_attempts_cache K cl t k b n : preserves (cache_pred (C:=C) K) (state_attempts cl t k b n).
Proof. induction n; cbn [state_attempts]; solve_preserves. Qed.
End uncached.

#[export] Hint Resolve CreateTask_cache GetTaskByID_cache GetConsensusResponseByTaskId_cache
  GetConsensusResponseByRequest_cache
  validateRequest_cache request_block_cache state_attempts_cache : go_inv.

(** ** What has been seen *)

Section sight.
Context `{EnvOk} {C : Type}.
Variable seen : Operators -> Prop.
Abbreviation W := (World C).

Definition rows_seen (m : gmap string Operators) : Prop :=
  forall a o, m !! a = Some o -> seen (scan_Operators o).

(** The key an operator is cached under is that of one of its columns; a
    value longer than 64 bytes only counts by its hash. *)
Definition filed (key : string) (o : Operators) : Prop :=
  (exists a, key = byAddressKey a) \/ (exists k, key = byP2PKeyKey k) \/
  key = bySigningKeyKey (o_SigningKey o).

Definition cache_seen (c : dc_state) : Prop :=
  forall i k o, dc_lookup i c k = Some (COperator (Some o)) -> seen o /\ filed k o.

Definition sighted (w : W) : Prop :=
  db_pred (on_operators rows_seen) w /\ cache_pred cache_seen w.

Lemma sighted_frame {A} (m : M W A) : (forall Q, preserves (db_pred (on_operators Q)) m) ->
  preserves (cache_pred cache_seen) m -> preserves sighted m.
Proof. intros Ho Hc. by apply preserves_and. Qed.

(** *** The cache *)

Lemma cache_seen_store j k ttl v c : cache_seen c ->
  (forall o, v = COperator (Some o) -> seen o /\ filed k o) ->
  cache_seen (dc_store j k ttl v c).
Proof.
  intros Hc Hv i k' o. destruct (decide (k = k')) as [<-|Hne].
  - intros Hl. destruct (dc_lookup_store i j k ttl v c) as [E|E]; rewrite E in Hl; [done|].
    injection Hl as ->. by apply Hv.
  - intros Hl. apply (Hc i k'). by eapply dc_lookup_store_ne.
Qed.

Lemma cache_seen_invalidate j k c : cache_seen c -> cache_seen (dc_invalidate j k c).1.
Proof.
  intros Hc i k' o Hl. apply (Hc i k'). destruct (decide (k = k')) as [<-|Hne].
  - by eapply dc_lookup_invalidate_old.
  - by rewrite dc_lookup_invalidate_ne in Hl.
Qed.

Lemma Invalidate_seen k : preserves (cache_pred (C:=C) cache_seen) (Invalidate k).
Proof.
  intros w Hw. unfold Invalidate. destruct dc_present; [|done]. unfold bind, tick. simpl.
  pose proof (cache_seen_invalidate (w_step w) k (w_cache w) Hw) as Hi.
  by destruct (dc_invalidate _ _ _).
Qed.
#[local] Hint Resolve Invalidate_seen : go_inv.

Lemma invalidate_all_seen ks : preserves (cache_pred (C:=C) cache_seen) (invalidate_all ks).
Proof. induction ks; simpl; solve_preserves. Qed.

Lemma PostExec_seen q ks : preserves (cache_pred (C:=C) cache_seen) (PostExec q ks).
Proof. destruct q; simpl; solve_preserves; eauto using invalidate_all_seen, preserves_modify. Qed.

Lemma Transact_seen {A} (f : M W A) : preserves (cache_pred cache_seen) f ->
  preserves (cache_pred cache_seen) (Transact f).
Proof.
  intros Hf w Hw. specialize (Hf (set_pending [] w) Hw). unfold Transact.
  destruct (f (set_pending [] w)) as [w' [a|e|s]]; simpl in *; [|done|done].
  unfold bind, tick. simpl. destruct (env_pg _); [|done|done].
  pose proof (invalidate_all_seen (w_pending w')
    (set_step (S (w_step w')) (set_pending (w_pending w) w')) Hf) as Hi.
  by destruct (invalidate_all _ _) as [w2 [?|?|?]].
Qed.

(** Reading through the cache: what is returned was stored, or is read now. *)
Lemma cached_ensures (I : W -> Prop) (Q : CacheVal -> Prop) key (m : M W (CacheVal * Z)) :
  (forall w, I w -> I (set_step (S (w_step w)) w)) ->
  (forall w v, I w -> dc_lookup (w_step w) (w_cache w) key = Some v -> Q v) ->
  (forall w j ttl v, I w -> Q v -> I (set_cache (dc_store j key ttl v (w_cache w)) w)) ->
  ensures I m (fun p => Q p.1) -> ensures I (cached key m) Q.
Proof.
  intros Ht Hl Hs Hm. unfold cached. destruct dc_present.
  - set (fill := let! (v, ttl) := m in
      let! j := tick in
      do! modify (fun w => set_cache (dc_store j key ttl v (w_cache w)) w) in ret v).
    assert (ensures I fill Q) as Hfill.
    { eapply ensures_bind; [exact Hm|]. intros [v ttl] Hv w Hw. split; [|by intros ? [= <-]].
      apply (Hs (set_step (S (w_step w)) w)); [by apply Ht|done]. }
    intros w Hw.
    change (GetWithTtl key m w) with (match dc_lookup (w_step w) (w_cache w) key with
      | Some v => ret v | None => fill end (set_step (S (w_step w)) w)).
    destruct (dc_lookup _ _ _) as [v|] eqn:E; [|by apply Hfill, Ht].
    split; [by apply Ht|]. intros a [= <-]. exact (Hl w v Hw E).
  - eapply ensures_bind; [exact Hm|]. intros [v ttl] Hv. by apply ensures_ret.
Qed.

Lemma cached_sighted key m :
  ensures sighted m (fun p => forall o, p.1 = COperator (Some o) -> seen o /\ filed key o) ->
  ensures sighted (cached key m) (fun v => forall o, v = COperator (Some o) -> seen o /\ filed key o).
Proof.
  intros Hm. apply (cached_ensures sighted (fun v => forall o, v = COperator (Some o) -> seen o /\ filed key o));
    [done| | |exact Hm].
  - intros w v [_ Hc] Hl o ->. by eapply Hc.
  - intros w j ttl v [Hr Hc] Hv. split; [done|]. by apply cache_seen_store.
Qed.

(** A cached lookup of an operator returns one that was seen, and that is
    filed under the key. *)
Lemma cached_operator_seen key (s : Z -> DB -> res (DB * option Operators)) :
  (forall now d d' o, s now d = Ok (d', o) -> d' = d /\
     forall x, o = Some x -> (exists a, db_operators d !! a = Some x) /\ filed key x) ->
  ensures sighted (cached_operator key s) (fun o => forall x, o = Some x -> seen x /\ filed key x).
Proof.
  intros Hs. unfold cached_operator. eapply ensures_bind.
  - apply cached_sighted.
    apply (ensures_bind _ _ _ (fun o => forall x, o = Some x -> seen (scan_Operators x) /\ filed key x)).
    + intros w [Hr Hc]. split; [split|].
      * refine (pg_call_db _ s _ w Hr). intros now d d' o Hd [-> _]%Hs. exact Hd.
      * exact (pg_call_cache cache_seen s w Hc).
      * intros o Ho x ->. destruct (pg_call s w) as [w' r] eqn:E. simpl in Ho. subst r.
        apply pg_call_Ok in E as (d & [_ Hx]%Hs & _). destruct (Hx x eq_refl) as [[a Ha] Hf].
        split; [by eapply Hr|done].
    + intros o Ho. apply ensures_ret. simpl. intros x [= Hx]. destruct o as [o'|]; [|done].
      injection Hx as <-. exact (Ho o' eq_refl).
  - intros [o|b] Ho; [|apply ensures_throw]. apply ensures_ret. intros x ->. by apply Ho.
Qed.

Lemma GetOperatorByAddress_seen a :
  ensures sighted (GetOperatorByAddress a) (fun o => forall x, o = Some x -> seen x).
Proof.
  eapply ensures_weaken.
  - apply cached_operator_seen. intros now d d' o [= <- <-]. split; [done|].
    intros x Hx. split; [by exists a|]. left. by exists a.
  - intros o Ho x Hx. by apply Ho.
Qed.

Lemma GetOperatorByP2PKey_seen k :
  ensures sighted (GetOperatorByP2PKey k) (fun o => forall x, o = Some x -> seen x).
Proof.
  eapply ensures_weaken.
  - apply cached_operator_seen. intros now d d' o [= <- <-]. split; [done|].
    intros x (_ & a & Ha)%first_row_Some. split; [by exists a|]. right. left. by exists k.
  - intros o Ho x Hx. by apply Ho.
Qed.

Lemma GetOperatorBySigningKey_seen k : ensures sighted (GetOperatorBySigningKey k)
  (fun o => forall x, o = Some x -> seen x /\ hashIfLong (o_SigningKey x) = hashIfLong k).
Proof.
  eapply ensures_weaken.
  - apply cached_operator_seen. intros now d d' o [= <- <-]. split; [done|].
    intros x (Hk & a & Ha)%first_row_Some. split; [by exists a|]. right. right.
    apply bool_decide_eq_true_1 in Hk. by rewrite Hk.
  - intros o Ho x Hx. destruct (Ho x Hx) as [Hs [[a Ea]|[[a Ea]|E]]]; [done..|].
    split; [done|]. unfold bySigningKeyKey in E. by injection E.
Qed.

Lemma cached_verdict_sighted key (s : Z -> DB -> res (DB * bool)) ttl :
  (forall Q, preserves (db_pred (C:=C) (on_operators Q)) (pg_call s)) ->
  preserves sighted (cached key (let! b := pg_call s in ret (CVerdict (Some b), ttl))).
Proof.
  intros Hs. eapply ensures_preserves, cached_sighted. eapply ensures_bind.
  - apply preserves_ensures, sighted_frame; [done|apply pg_call_cache].
  - intros b _. by apply ensures_ret.
Qed.

(** *** What keeps [sighted] *)

Lemma pg_call_sighted {A} (s : Z -> DB -> res (DB * A)) :
  (forall Q, preserves (db_pred (C:=C) (on_operators Q)) (pg_call s)) -> preserves sighted (pg_call s).
Proof. intros Hs. by apply sighted_frame; [|apply pg_call_cache]. Qed.

Lemma PostExec_sighted q ks : preserves sighted (PostExec q ks).
Proof. apply sighted_frame; [intros; apply PostExec_db|apply PostExec_seen]. Qed.

Lemma extern_sighted {A} (f : nat -> res A) : preserves sighted (extern f).
Proof. by intros w. Qed.

Lemma tick_sighted : preserves sighted tick.
Proof. by intros w. Qed.

Lemma GetOperatorByAddress_sighted a : preserves sighted (GetOperatorByAddress a).
Proof. eapply ensures_preserves, GetOperatorByAddress_seen. Qed.
Lemma GetOperatorByP2PKey_sighted k : preserves sighted (GetOperatorByP2PKey k).
Proof. eapply ensures_preserves, GetOperatorByP2PKey_seen. Qed.
Lemma GetOperatorBySigningKey_sighted k : preserves sighted (GetOperatorBySigningKey k).
Proof. eapply ensures_preserves, GetOperatorBySigningKey_seen. Qed.
End sight.

#[export] Hint Resolve Invalidate_seen PostExec_seen PostExec_sighted extern_sighted tick_sighted
  GetOperatorByAddress_sighted GetOperatorByP2PKey_sighted GetOperatorBySigningKey_sighted
  as_operator_any as_verdict_any : go_inv.
#[export] Hint Extern 2 (preserves (sighted _) (pg_call _)) =>
  (apply pg_call_sighted; intros; apply pg_call_db; solve_stmt) : go_inv.
#[export] Hint Extern 2 (preserves (sighted _) (cached _ _)) =>
  (apply cached_verdict_sighted; intros; apply pg_call_db; solve_stmt) : go_inv.

(** ** The methods and handlers that keep it *)

Section methods.
Context `{EnvOk} `{EthLib} `{P2PLib} `{PubSub} `{OperatorSigner} `{CM : ChainManager}.
Context {C : Type} `{HasTaskOk C}.
Variable seen : Operators -> Prop.
Abbreviation W := (World C).
Abbreviation sighted := (sighted (C:=C) seen).

Lemma CreateTask_sighted arg : preserves sighted (CreateTask arg).
Proof. unfold CreateTask. solve_preserves. Qed.
Lemma DeleteTaskByID_sighted id : preserves sighted (DeleteTaskByID id).
Proof. unfold DeleteTaskByID. solve_preserves. Qed.
Lemma IncrementRetryCount_sighted id : preserves sighted (IncrementRetryCount id).
Proof. unfold IncrementRetryCount. solve_preserves. Qed.
Lemma UpdateTaskToCompleted_sighted id : preserves sighted (UpdateTaskToCompleted id).
Proof. unfold UpdateTaskToCompleted. solve_preserves. Qed.
Lemma UpdateTaskToPending_sighted id : preserves sighted (UpdateTaskToPending id).
Proof. unfold UpdateTaskToPending. solve_preserves. Qed.
Lemma GetTaskByID_sighted id : preserves sighted (GetTaskByID id).
Proof. unfold GetTaskByID. solve_preserves. Qed.
Lemma ListPendingTasks_sighted : preserves sighted ListPendingTasks.
Proof. unfold ListPendingTasks. solve_preserves. Qed.
Lemma ListConfirmingTasks_sighted : preserves sighted ListConfirmingTasks.
Proof. unfold ListConfirmingTasks. solve_preserves. Qed.
Lemma CreateConsensusResponse_sighted arg : preserves sighted (CreateConsensusResponse arg).
Proof. unfold CreateConsensusResponse. solve_preserves. Qed.
Lemma GetConsensusResponseByTaskId_sighted id : preserves sighted (GetConsensusResponseByTaskId id).
Proof. unfold GetConsensusResponseByTaskId. solve_preserves. Qed.
Lemma GetConsensusResponseByRequest_sighted arg : preserves sighted (GetConsensusResponseByRequest arg).
Proof. unfold GetConsensusResponseByRequest. solve_preserves. Qed.
Lemma IncrementViolationCount_sighted q arg k : preserves sighted (IncrementViolationCount q arg k).
Proof. unfold IncrementViolationCount. solve_preserves. Qed.
Lemma UnblockNode_sighted p k : preserves sighted (UnblockNode p k).
Proof. unfold UnblockNode. solve_preserves. Qed.
Lemma IsBlocked_sighted p : preserves sighted (IsBlocked p).
Proof. unfold IsBlocked. solve_preserves. Qed.
Lemma IsActiveOperator_sighted k : preserves sighted (IsActiveOperator k).
Proof. unfold IsActiveOperator. solve_preserves. Qed.
#[local] Hint Resolve CreateTask_sighted DeleteTaskByID_sighted IncrementRetryCount_sighted
  UpdateTaskToCompleted_sighted UpdateTaskToPending_sighted GetTaskByID_sighted
  ListPendingTasks_sighted ListConfirmingTasks_sighted CreateConsensusResponse_sighted
  GetConsensusResponseByTaskId_sighted GetConsensusResponseByRequest_sighted
  IncrementViolationCount_sighted UnblockNode_sighted IsBlocked_sighted IsActiveOperator_sighted : go_inv.

(** What only changes the memory *)
Lemma mem_sighted (f : W -> W) : (forall w, w_db (f w) = w_db w /\ w_cache (f w) = w_cache w) ->
  preserves sighted (modify f).
Proof.
  intros Hf w [Ho Hc]. destruct (Hf w) as [Ed Ec]. unfold Sight.sighted, db_pred, cache_pred in *.
  change (modify f w).1 with (f w). by rewrite Ed, Ec.
Qed.

Lemma locked_sighted section : preserves sighted (locked section).
Proof. intros w Hw. unfold locked. by destruct (section (get_track w)). Qed.

Lemma collect_from_sighted rs ks : preserves sighted (collect_from rs ks).
Proof. induction ks; simpl; solve_preserves. Qed.
#[local] Hint Resolve locked_sighted collect_from_sighted : go_inv.

Lemma checkConsensus_sighted r : preserves sighted (checkConsensus r).
Proof. unfold checkConsensus, collectSignaturesAndAddresses, markTaskAsCompleted. solve_preserves. Qed.

Lemma broadcastResponse_sighted r : preserves sighted (broadcastResponse r).
Proof. unfold broadcastResponse. solve_preserves. Qed.

Lemma state_attempts_sighted cl t k b n : preserves sighted (state_attempts cl t k b n).
Proof. induction n; cbn [state_attempts]; solve_preserves. Qed.

Lemma incrementPeerViolation_sighted p e : preserves sighted (incrementPeerViolation p e).
Proof. unfold incrementPeerViolation. solve_preserves. Qed.

Lemma checkPeerPermission_sighted p : preserves sighted (checkPeerPermission p).
Proof. unfold checkPeerPermission, isBlocked, isActiveOperator. solve_preserves. Qed.
End methods.

#[export] Hint Resolve CreateTask_sighted DeleteTaskByID_sighted IncrementRetryCount_sighted
  UpdateTaskToCompleted_sighted UpdateTaskToPending_sighted GetTaskByID_sighted
  ListPendingTasks_sighted ListConfirmingTasks_sighted CreateConsensusResponse_sighted
  GetConsensusResponseByTaskId_sighted GetConsensusResponseByRequest_sighted
  IncrementViolationCount_sighted UnblockNode_sighted IsBlocked_sighted IsActiveOperator_sighted
  locked_sighted checkConsensus_sighted broadcastResponse_sighted state_attempts_sighted
  incrementPeerViolation_sighted checkPeerPermission_sighted : go_inv.

(** *** What writes the operator table keeps what is cached *)

Section writers.
Context `{EnvOk} `{EthLib} {C : Type} `{HasEpoch C}.
Variable seen : Operators -> Prop.
Abbreviation cached_seen := (cache_pred (C:=C) (cache_seen seen)).

Lemma update_returning_seen q k s : preserves cached_seen (update_returning q k s).
Proof. unfold update_returning. solve_preserves. Qed.
#[local] Hint Resolve update_returning_seen : go_inv.

Lemma epoch_tick_seen cl : preserves cached_seen (epoch_tick cl).
Proof.
  assert (forall m, preserves cached_seen (put_epoch m)) as Hput by by intros m w.
  unfold epoch_tick, handleEpochUpdate. solve_preserves. apply Transact_seen.
  unfold update_operators, update_operator, updateEpochState, ListAllOperators, UpdateOperatorState.
  solve_preserves.
Qed.

Lemma handleOperatorRegistered_seen e : preserves cached_seen (handleOperatorRegistered e).
Proof. unfold handleOperatorRegistered, UpsertOperator. solve_preserves. Qed.

Lemma handleOperatorDeregistered_seen e w : sighted (C:=C) seen w ->
  cached_seen (handleOperatorDeregistered e w).1.
Proof.
  intros Hw. unfold handleOperatorDeregistered.
  set (k := fun o : option Operators => match o with None => _ | Some _ => _ end).
  pose proof (preserves_wrapM _ "failed to get operator" _ (GetOperatorByAddress_sighted (C:=C) seen (Address_Hex (ed_Operator e)))) as Hg.
  specialize (Hg w Hw). unfold bind.
  destruct (wrapM _ _ w) as [w1 [o|err|s]]; [|apply Hg..].
  assert (preserves cached_seen (k o)) as Hk
    by (unfold k, UpdateOperatorExitEpoch; solve_preserves).
  apply Hk, Hg.
Qed.
End writers.
