(* ===== verification/Node.v ===== *)
(** * The node as a whole

    One step of a node is one run of one handler, tick or callback of one of
    its components on the shared database and memory; [node_step] has a
    constructor for each.  What every statement keeps, every step keeps, also
    when it fails half-way; and the steps outside the task processor do not
    touch its tracker. *)

From S2P Require Import Prelude GoInt GoString Numeric EpochMath Models World.
From S2P Require Import TasksRepo BlacklistRepo OperatorsRepo ConsensusRepo Sql Tables Schema.
From S2P Require Import EthLib Signer Config Chain Watch Task TaskInv TaskProps TaskConsensus.
From S2P Require Import TaskToy Gater Epoch Listener BlockTime Api Sight.

(** ** Handlers keep what statements keep *)

Section closed.
Context `{Env} `{EthLib} `{P2PLib} `{PubSub} `{OperatorSigner} `{CM : ChainManager} `{HttpLib}.
Context {C : Type} `{HasTaskOk C} `{HasEpoch C}.
Variable D : DB -> Prop.
Hypothesis D_closed : closed D.

Lemma pg_call_closed {A} (s : Z -> DB -> res (DB * A)) :
  (forall now d d' a, s now d = Ok (d', a) -> db_step now d d') ->
  preserves (db_pred (C:=C) D) (pg_call s).
Proof. intros Hs. apply pg_call_db. intros. eapply D_closed; eauto. Qed.

Lemma reads_closed {A} (s : Z -> DB -> res (DB * A)) :
  (forall now d d' a, s now d = Ok (d', a) -> d' = d) ->
  preserves (db_pred (C:=C) D) (pg_call s).
Proof. intros Hs. apply pg_call_closed. intros. apply st_read. eauto. Qed.

(** A statement that only reads. *)
Ltac reads := apply reads_closed; intros; sql_unfold; by sql_inv.
(** A statement that writes. *)
Ltac writes := apply pg_call_closed; intros; econstructor; eassumption.

Lemma cached_operator_closed k s :
  (forall now d d' a, s now d = Ok (d', a) -> d' = d) ->
  preserves (db_pred (C:=C) D) (cached_operator k s).
Proof.
  intros Hs. unfold cached_operator. apply preserves_bind; [|apply as_operator_any].
  apply cached_db, preserves_bind; [by apply reads_closed|]. intros. apply preserves_ret.
Qed.

Lemma update_returning_closed q k s :
  (forall now d d' a, s now d = Ok (d', a) -> db_step now d d') ->
  preserves (db_pred (C:=C) D) (update_returning q k s).
Proof.
  intros Hs. unfold update_returning. apply preserves_bind; [by apply pg_call_closed|].
  intros [o|]; [|apply preserves_ret]. apply preserves_bind; [apply PostExec_db|]. solve_preserves.
Qed.

(** A repository method: its statement by [tac], the rest by the frames. *)
Tactic Notation "repo_closed" tactic3(tac) :=
  repeat first [progress solve_preserves | apply cached_db | tac].

Lemma CreateTask_closed arg : preserves (db_pred (C:=C) D) (CreateTask arg).
Proof. unfold CreateTask. repo_closed writes. Qed.
Lemma DeleteTaskByID_closed id : preserves (db_pred (C:=C) D) (DeleteTaskByID id).
Proof. unfold DeleteTaskByID. repo_closed writes. Qed.
Lemma IncrementRetryCount_closed id : preserves (db_pred (C:=C) D) (IncrementRetryCount id).
Proof. unfold IncrementRetryCount. repo_closed writes. Qed.
Lemma UpdateTaskToCompleted_closed id : preserves (db_pred (C:=C) D) (UpdateTaskToCompleted id).
Proof. unfold UpdateTaskToCompleted. repo_closed writes. Qed.
Lemma UpdateTaskToPending_closed id : preserves (db_pred (C:=C) D) (UpdateTaskToPending id).
Proof. unfold UpdateTaskToPending. repo_closed writes. Qed.
Lemma CreateConsensusResponse_closed arg : preserves (db_pred (C:=C) D) (CreateConsensusResponse arg).
Proof. unfold CreateConsensusResponse. repo_closed writes. Qed.
Lemma IncrementViolationCount_closed q arg k : preserves (db_pred (C:=C) D) (IncrementViolationCount q arg k).
Proof. unfold IncrementViolationCount. repo_closed writes. Qed.
Lemma UnblockNode_closed p k : preserves (db_pred (C:=C) D) (UnblockNode p k).
Proof. unfold UnblockNode. repo_closed writes. Qed.
Lemma GetTaskByID_closed id : preserves (db_pred (C:=C) D) (GetTaskByID id).
Proof. unfold GetTaskByID. repo_closed reads. Qed.
Lemma ListPendingTasks_closed : preserves (db_pred (C:=C) D) ListPendingTasks.
Proof. unfold ListPendingTasks. repo_closed reads. Qed.
Lemma ListConfirmingTasks_closed : preserves (db_pred (C:=C) D) ListConfirmingTasks.
Proof. unfold ListConfirmingTasks. repo_closed reads. Qed.
Lemma GetConsensusResponseByTaskId_closed id : preserves (db_pred (C:=C) D) (GetConsensusResponseByTaskId id).
Proof. unfold GetConsensusResponseByTaskId. repo_closed reads. Qed.
Lemma GetConsensusResponseByRequest_closed arg : preserves (db_pred (C:=C) D) (GetConsensusResponseByRequest arg).
Proof. unfold GetConsensusResponseByRequest. repo_closed reads. Qed.
Lemma IsBlocked_closed p : preserves (db_pred (C:=C) D) (IsBlocked p).
Proof. unfold IsBlocked. repo_closed reads. Qed.
Lemma ListAllOperators_closed : preserves (db_pred (C:=C) D) ListAllOperators.
Proof. unfold ListAllOperators. repo_closed reads. Qed.
Lemma GetOperatorByAddress_closed k : preserves (db_pred (C:=C) D) (GetOperatorByAddress k).
Proof. apply cached_operator_closed. intros. sql_unfold. by sql_inv. Qed.
Lemma GetOperatorByP2PKey_closed k : preserves (db_pred (C:=C) D) (GetOperatorByP2PKey k).
Proof. apply cached_operator_closed. intros. sql_unfold. by sql_inv. Qed.
Lemma GetOperatorBySigningKey_closed k : preserves (db_pred (C:=C) D) (GetOperatorBySigningKey k).
Proof. apply cached_operator_closed. intros. sql_unfold. by sql_inv. Qed.
Lemma UpdateOperatorExitEpoch_closed q arg k : is_u32 (ue_ExitEpoch arg) ->
  preserves (db_pred (C:=C) D) (UpdateOperatorExitEpoch q arg k).
Proof. intros Hu. apply update_returning_closed. intros. econstructor; eassumption. Qed.
Lemma UpdateOperatorState_closed q arg k : preserves (db_pred (C:=C) D) (UpdateOperatorState q arg k).
Proof. apply update_returning_closed. intros. econstructor; eassumption. Qed.
Lemma UpsertOperator_closed q arg k : is_u32 (up_ActiveEpoch arg) -> is_u32 (up_ExitEpoch arg) ->
  preserves (db_pred (C:=C) D) (UpsertOperator q arg k).
Proof.
  intros Ha He. apply update_returning_closed. intros now d d' a ([d1 o] & Hs & [= <- <-])%res_bind_Ok.
  by eapply st_upsertOperator.
Qed.

 #[local] Hint Resolve CreateTask_closed DeleteTaskByID_closed IncrementRetryCount_closed
  UpdateTaskToCompleted_closed UpdateTaskToPending_closed CreateConsensusResponse_closed
  IncrementViolationCount_closed UnblockNode_closed GetTaskByID_closed ListPendingTasks_closed
  ListConfirmingTasks_closed GetConsensusResponseByTaskId_closed
  GetConsensusResponseByRequest_closed IsBlocked_closed ListAllOperators_closed
  GetOperatorByAddress_closed GetOperatorByP2PKey_closed GetOperatorBySigningKey_closed
  UpdateOperatorExitEpoch_closed UpdateOperatorState_closed UpsertOperator_closed : go_inv.

(** ** The handlers *)

Lemma checkConsensus_closed r : preserves (db_pred (C:=C) D) (checkConsensus r).
Proof.
  unfold checkConsensus, collectSignaturesAndAddresses, markTaskAsCompleted.
  assert (forall rs ks, preserves (db_pred (C:=C) D) (collect_from rs ks)).
  { intros rs ks. induction ks; simpl; solve_preserves. }
  solve_preserves.
Qed.
#[local] Hint Resolve checkConsensus_closed : go_inv.

Lemma ProcessTask_closed t : preserves (db_pred (C:=C) D) (ProcessTask t).
Proof. unfold ProcessTask, alreadyProcessed. solve_preserves. Qed.
#[local] Hint Resolve ProcessTask_closed : go_inv.

Lemma handleResponse_closed msg : preserves (db_pred (C:=C) D) (handleResponse msg).
Proof.
  unfold handleResponse, processResponse, incrementPeerViolation, accept_response,
    alreadyProcessed, storeResponseAndWeight. solve_preserves.
Qed.

Lemma checkTimeouts_closed : preserves (db_pred (C:=C) D) checkTimeouts.
Proof. unfold checkTimeouts, timeout_task, cleanupTask. solve_preserves. Qed.

Lemma checkConfirmations_closed : preserves (db_pred (C:=C) D) checkConfirmations.
Proof. unfold checkConfirmations, confirm_task. solve_preserves. Qed.

Lemma SendRequest_closed h rq : preserves (db_pred (C:=C) D) (SendRequest h rq).
Proof.
  unfold SendRequest, find_or_create, create_and_process, answer_or.
  solve_preserves; apply validateRequest_db || apply request_block_db.
Qed.

Lemma epoch_tick_closed cl : preserves (db_pred (C:=C) D) (epoch_tick cl).
Proof.
  unfold epoch_tick, handleEpochUpdate, update_operators, update_operator, updateEpochState.
  solve_preserves; try apply put_epoch_db.
Qed.

Lemma handleOperatorRegistered_closed e : preserves (db_pred (C:=C) D) (handleOperatorRegistered e).
Proof.
  unfold handleOperatorRegistered. solve_preserves.
  by apply UpsertOperator_closed; [apply effective_epoch_u32|].
Qed.

Lemma handleOperatorDeregistered_closed e :
  preserves (db_pred (C:=C) D) (handleOperatorDeregistered e).
Proof.
  unfold handleOperatorDeregistered. solve_preserves.
  apply UpdateOperatorExitEpoch_closed, effective_epoch_u32.
Qed.

Lemma checkPeerPermission_closed p : preserves (db_pred (C:=C) D) (checkPeerPermission p).
Proof. unfold checkPeerPermission, isBlocked, isActiveOperator. solve_preserves. Qed.
End closed.

(** ** One step of a node *)

Section node.
Context `{EnvOk} `{EthLib} `{P2PLib} `{PubSub} `{OperatorSigner} `{CM : ChainManager} `{HttpLib}.
Variable h : Handler.
Abbreviation NW := (World NodeMem).

Inductive node_step : NW -> NW -> Prop :=
  | ns_request rq w : node_step w (SendRequest h rq w).1
  | ns_lookup_task id w : node_step w (GetTaskConsensusByTaskID id w).1
  | ns_lookup_request q w : node_step w (handler_GetConsensusResponseByRequest q w).1
  | ns_message msg w : node_step w (handleResponse msg w).1
  | ns_timeouts w : node_step w (checkTimeouts w).1
  | ns_confirmations w : node_step w (checkConfirmations w).1
  | ns_cleanup w : node_step w (periodicCleanup w).1
  | ns_stop w : node_step w (Stop w).1
  | ns_epoch cl w : GetMainnetClient the_chains = Ok cl -> node_step w (epoch_tick cl w).1
  | ns_registered e w : node_step w (handleOperatorRegistered e w).1
  | ns_deregistered e w : node_step w (handleOperatorDeregistered e w).1
  | ns_connection p w : node_step w (checkPeerPermission p w).1
  | ns_violation params w : node_step w (gater_IncrementViolationCount params w).1
  | ns_unblock p w : node_step w (gater_UnblockNode p w).1.

Lemma node_step_closed D w w' : closed D -> db_pred D w -> node_step w w' -> db_pred D w'.
Proof.
  intros HD Hw Hstep. destruct Hstep; revert w Hw;
    match goal with |- forall w, db_pred D w -> db_pred D (?m w).1 => change (preserves (db_pred D) m) end.
  - by apply SendRequest_closed.
  - apply preserves_bind; [by apply preserves_try, GetConsensusResponseByTaskId_closed|].
    unfold found. solve_preserves.
  - unfold handler_GetConsensusResponseByRequest, answer_or, found.
    pose proof (GetConsensusResponseByRequest_closed (C:=NodeMem) D HD). solve_preserves.
  - by apply handleResponse_closed.
  - by apply checkTimeouts_closed.
  - by apply checkConfirmations_closed.
  - apply locked_db.
  - apply preserves_bind; [by apply preserves_modify|intros; apply locked_db].
  - by apply epoch_tick_closed.
  - by apply handleOperatorRegistered_closed.
  - by apply handleOperatorDeregistered_closed.
  - by apply checkPeerPermission_closed.
  - apply preserves_bind; [by apply IncrementViolationCount_closed|]. intros. apply preserves_ret.
  - by apply UnblockNode_closed.
Qed.

(** A node that starts: nothing tracked, a database that satisfies its schema
    and whose tasks have integer keys. *)
Definition node_init (w : NW) : Prop :=
  get_track w = empty_track /\ db_ok (w_db w) /\ keys_ok (db_tasks (w_db w)).

(** In every state a node can reach, by requests, messages, ticks,
    events, connections, failed and half-finished ones included, the tables
    satisfy the schema: rows are filed under their key with a real status,
    counters stay within their column, and there is at most one consensus
    row per task and at most one per request. *)
Theorem node_schema w (Hw : reachable node_step node_init w) : db_ok (w_db w).
Proof.
  revert w Hw. apply reachable_invariant; [by intros w (_ & ? & _)|].
  intros w w'. apply node_step_closed, db_ok_closed.
Qed.

(** C8: the tables stay as they are declared.  A node whose database conforms
    to the four [CREATE TABLE]s when it starts conforms to them in every state
    it reaches: each column holds a value of its type, within its width or
    length, and no NULL where none is allowed, each row is filed under its
    primary key, the CHECKs hold, and no two rows agree on a unique
    constraint. *)
Theorem node_tables_conform (Hnil : nil_is_integer) w
    (Hw : reachable node_step (fun w0 => node_init w0 /\ conforms (w_db w0)) w) :
  conforms (w_db w).
Proof.
  revert w Hw. apply (reachable_invariant node_step _ (db_pred conforms)); [by intros w [_ Hc]|].
  intros w w' Hc Hstep. exact (node_step_closed _ _ _ (conforms_closed Hnil) Hc Hstep).
Qed.

(** C7: consensus is final: once a node has stored a consensus response for a
    task, no later run of anything changes or removes it. *)
Theorem node_consensus_final w w' id row (Hrun : rtc node_step w w')
    (Hrow : db_consensus (w_db w) !! id = Some row) : db_consensus (w_db w') !! id = Some row.
Proof.
  induction Hrun as [|w1 w2 w3 Hstep _ IH]; [done|]. apply IH.
  by apply (node_step_closed _ _ _ (consensus_row_closed id row) Hrow).
Qed.

(** ** The task processor inside the node *)

Lemma CreateTask_keys p id b e key value st rc : nil_is_integer ->
  ensures (db_pred (C:=NodeMem) (on_tasks keys_ok)) (CreateTask (new_task p id b e key value st rc))
    (fun t => forall x, t = Some x -> key_ok x).
Proof.
  intros Hnil. set (arg := new_task p id b e key value st rc).
  assert (forall k, numeric_arg (ct_Key arg) = Ok (Some k) -> exists x, represents k x) as Hkey.
  { intros k. unfold numeric_arg. simpl. destruct key as [x|].
    - intros [= <-]. exists x. apply represents_BigIntToNumeric.
    - destruct env_nil_numeric as [m|?|?] eqn:E; simpl; [|done..]. intros [= <-]. by apply Hnil. }
  apply (ensures_bind _ _ _ key_ok).
  2:{ intros row Hrow. apply ensures_ret. intros x [= <-]. by apply key_ok_scan. }
  intros w Hw. unfold pg_call, bind, tick. simpl.
  destruct (sql_createTask arg (env_now (w_step w)) (w_db w)) as [[d row]|e'|m] eqn:E;
    [|destruct (env_pg (w_step w)); by split..].
  assert (key_ok row /\ keys_ok (db_tasks d)) as [Hrow Hd].
  { unfold sql_createTask in E. sql_inv.
    match goal with E : numeric_arg (ct_Key arg) = Ok (Some _) |- _ => apply Hkey in E end.
    split; [done|]. simpl. intros id' t [[<- <-]|[_ Ht]]%lookup_insert_Some; [done|by eapply Hw]. }
  destruct (env_pg (w_step w)); split; try done. by intros ? [= <-].
Qed.

(** An invariant that survives what touches neither the memory, the cache nor
    the three tables, the creation of a task, and the processing of a good one,
    survives a request. *)
Section request.
Variable I : NW -> Prop.
Hypothesis I_calm : forall A (m : M NW A), (forall Q, preserves (mem_pred Q) m) ->
  (forall T, preserves (db_pred (on_tasks T)) m) ->
  (forall R, preserves (db_pred (on_consensus R)) m) ->
  (forall O, preserves (db_pred (on_operators O)) m) ->
  (forall K, preserves (cache_pred K) m) -> preserves I m.
Hypothesis I_created : forall p id b e key value st rc,
  ensures I (CreateTask (new_task p id b e key value st rc)) (fun t => forall x, t = Some x -> key_ok x).
Hypothesis I_processed : forall t, key_ok t -> preserves I (ProcessTask (Some t)).

Lemma create_and_process_keeps p cl id b e key value :
  preserves I (create_and_process h p cl id b e key value).
Proof.
  unfold create_and_process, answer_or. apply preserves_bind; [apply preserves_lift|]. intros rc.
  apply preserves_bind; [apply preserves_try, I_calm; intros; eauto with go_inv|].
  intros [latest|err]; [|apply preserves_ret].
  eapply preserves_bind_ensures; [apply ensures_try, I_created|].
  intros [[t|]|err] Hk; [|apply preserves_ret..].
  destruct (decide _); [apply preserves_ret|]. destruct (decide _); [|apply preserves_ret].
  apply preserves_bind; [|intros [?|?]; apply preserves_ret]. by apply preserves_try, I_processed, Hk.
Qed.

Lemma find_or_create_keeps p cl b e key value : preserves I (find_or_create h p cl b e key value).
Proof.
  unfold find_or_create, answer_or. apply preserves_bind.
  { apply preserves_try, I_calm; intros; eauto with go_inv. }
  intros [[c|]|err]; [apply preserves_ret| |apply preserves_ret]. apply preserves_bind.
  { apply preserves_try, I_calm; intros; eauto with go_inv. }
  intros [[t|]|err]; [apply preserves_ret|apply create_and_process_keeps|apply preserves_ret].
Qed.

Lemma SendRequest_keeps rq : preserves I (SendRequest h rq).
Proof.
  unfold SendRequest, answer_or.
  repeat (first [apply preserves_ret | apply preserves_panic
    | match goal with |- preserves _ (if ?b then _ else _) => destruct b end
    | apply preserves_bind; [apply preserves_try, I_calm; intros;
        first [apply preserves_lift | apply extern_mem | apply extern_db | apply extern_cache
              | apply validateRequest_mem | apply validateRequest_db | apply validateRequest_cache
              | apply request_block_mem | apply request_block_db | apply request_block_cache]
        |intros [?|?]]]).
  apply find_or_create_keeps.
Qed.
End request.

Section invariant.
Hypothesis Hnil : nil_is_integer.
Variable P : string -> string -> taskResponse -> Prop.
Variable good : Tasks -> Prop.
Hypothesis P_verified : forall r sk, verifyResponse r sk = Ok tt -> P (tr_taskID r) sk r.
Hypothesis P_own : forall t key value sig, good t ->
  NumericToBigInt (t_Key t) = Ok key ->
  SignTaskResponse (sign_params (t_TargetAddress t) (t_ChainID t) (t_BlockNumber t) key value)
    = Ok sig ->
  P (t_TaskID t) mySigningKey (own_response t sig value).
Hypothesis good_response : forall r, good (task_of_response r).
Hypothesis good_key : forall t, key_ok t -> good t.

Abbreviation inv := (tp_inv (C:=NodeMem) P).

(** What leaves the memory alone and keeps the tasks' keys. *)
Lemma keeps_inv {A} (m : M NW A) : (forall Q, preserves (mem_pred Q) m) ->
  preserves (db_pred (on_tasks keys_ok)) m -> preserves inv m.
Proof. intros Hm Hd. apply preserves_and; [by apply on_track_of_mem|done]. Qed.

Lemma epoch_mem_track Q cl : preserves (on_track (C:=NodeMem) Q) (epoch_tick cl).
Proof.
  assert (forall m, preserves (on_track (C:=NodeMem) Q) (put_epoch m)) by by intros m w.
  assert (forall m, preserves (mem_pred (C:=NodeMem) (fun c => Q (tm_track (task_mem c)))) (put_epoch m))
    by by intros m w.
  change (on_track Q) with (mem_pred (C:=NodeMem) (fun c => Q (tm_track (task_mem c)))).
  unfold epoch_tick, handleEpochUpdate, update_operators, update_operator, updateEpochState.
  solve_preserves.
Qed.

Lemma SendRequest_inv rq : preserves inv (SendRequest h rq).
Proof.
  apply SendRequest_keeps.
  - intros A m Hm Ht _ _ _. by apply keeps_inv.
  - intros p id b e key value st rc w [Ht Hw].
    destruct (CreateTask_keys p id b e key value st rc Hnil w Hw) as [Hd Hkey].
    split; [split; [|exact Hd]|exact Hkey].
    exact (CreateTask_mem (fun c => track_all P (tm_track (task_mem c))) _ w Ht).
  - intros t Hk. apply preserves_and; [eapply ProcessTask_all; eauto|].
    apply ProcessTask_tasks, keys_ok_completed.
Qed.

Lemma epoch_tick_tasks cl : preserves (db_pred (C:=NodeMem) (on_tasks keys_ok)) (epoch_tick cl).
Proof.
  unfold epoch_tick, handleEpochUpdate, update_operators, update_operator, updateEpochState.
  solve_preserves; apply put_epoch_db.
Qed.

Lemma epoch_tick_consensus R cl : preserves (db_pred (C:=NodeMem) (on_consensus R)) (epoch_tick cl).
Proof.
  unfold epoch_tick, handleEpochUpdate, update_operators, update_operator, updateEpochState.
  solve_preserves; apply put_epoch_db.
Qed.

Lemma node_step_inv w w' : inv w -> node_step w w' -> inv w'.
Proof.
  intros Hi Hstep.
  assert (Htp : forall w w', inv w -> tp_step w w' -> inv w') by (intros; by eapply tp_step_inv).
  destruct Hstep as [rq w|id w|q w|msg w|w|w|w|w|cl w _|e w|e w|p w|params w|p w];
    try (apply (Htp w); [done|by constructor]); revert w Hi;
    match goal with |- forall w, inv w -> inv (?m w).1 => change (preserves inv m) end.
  - apply SendRequest_inv.
  - unfold GetTaskConsensusByTaskID, answer_or, found. apply keeps_inv; intros; solve_preserves.
  - unfold handler_GetConsensusResponseByRequest, answer_or, found.
    apply keeps_inv; intros; solve_preserves.
  - apply preserves_and; [apply epoch_mem_track|apply epoch_tick_tasks].
  - unfold handleOperatorRegistered. apply keeps_inv; intros; solve_preserves.
  - unfold handleOperatorDeregistered. apply keeps_inv; intros; solve_preserves.
  - unfold checkPeerPermission, isBlocked, isActiveOperator. apply keeps_inv; intros; solve_preserves.
  - unfold gater_IncrementViolationCount. apply keeps_inv; intros; solve_preserves.
  - unfold gater_UnblockNode. apply keeps_inv; intros; solve_preserves.
Qed.

Lemma node_reachable_inv w : reachable node_step node_init w -> inv w.
Proof.
  apply reachable_invariant; [|apply node_step_inv]. intros w0 (Ht & _ & Hk). split; [|done].
  unfold on_track. rewrite Ht. apply track_all_empty.
Qed.
End invariant.

(** C5: in every state a node can reach, each response it holds for a task
    belongs to that task and carries a signature that verifies, for exactly
    the address, chain, block, key and value it states, against the signing
    key it is filed under. *)
Theorem node_responses_authenticated (Hsig : signer_ok) (Hnil : nil_is_integer) w
    (Hw : reachable node_step node_init w) t sk r
    (Hr : lookup2 (tk_responses (get_track w)) t sk = Some r) :
  tr_taskID r = t /\
  VerifyTaskResponse
    (mkTaskSignParams (HexToAddress (tr_targetAddress r)) (tr_chainID r) (tr_blockNumber r)
       (StringToBigInt (tr_key r)) (StringToBigInt (tr_value r)))
    (tr_signature r) sk = Ok tt.
Proof.
  set (P := fun t sk r => tr_taskID r = t /\ verifyResponse r sk = Ok tt).
  assert (tp_inv P w) as [[_ Hall] _]; [|by apply Hall].
  eapply (node_reachable_inv Hnil P task_good); [done| |apply task_good_response|apply key_ok_good|done].
  intros. split; [done|]. by eapply own_response_verifies.
Qed.
End node.
