(* ===== verification/Backed.v ===== *)
(** * From a stored consensus back to the signatures

    The rows of the consensus table under all steps of a node: a row is
    written only by [checkConsensus], from responses that were verified when
    they were tracked, against the signing key of an operator that was read
    from the operator table. *)

From S2P Require Import Prelude GoInt GoString Numeric EpochMath Models World.
From S2P Require Import TasksRepo BlacklistRepo OperatorsRepo ConsensusRepo Sql Tables Schema.
From S2P Require Import EthLib Signer Config Chain Watch Task TaskInv TaskProps TaskConsensus.
From S2P Require Import TaskToy Gater Epoch Listener BlockTime Api Sight Node.

(** Whose vote it is: [op] is active and the key is its signing key, or the
    key is the node's own and [op] is what it is registered as (found under
    it, which for a key longer than 64 bytes means under its hash). *)
Definition cast_by `{Env} `{EthLib} `{OperatorSigner} (sk : string) (op : Operators) : Prop :=
  o_IsActive op = true /\ o_SigningKey op = sk \/
  sk = mySigningKey /\ hashIfLong (o_SigningKey op) = hashIfLong sk.

Section backed.
Context `{EnvOk} `{EthLib} `{P2PLib} `{PubSub} `{OperatorSigner} `{CM : ChainManager} `{HttpLib}.
Variable h : Handler.
Hypothesis Hnil : nil_is_integer.
Variable seen : Operators -> Prop.
Variable P : string -> string -> taskResponse -> Prop.
Variable good : Tasks -> Prop.
Hypothesis P_verified : forall r sk op, seen op -> cast_by sk op ->
  verifyResponse r sk = Ok tt -> P (tr_taskID r) sk r.
Hypothesis P_own : forall t key value sig op, good t ->
  NumericToBigInt (t_Key t) = Ok key ->
  SignTaskResponse (sign_params (t_TargetAddress t) (t_ChainID t) (t_BlockNumber t) key value)
    = Ok sig ->
  seen op -> cast_by mySigningKey op ->
  P (t_TaskID t) mySigningKey (own_response t sig value).
Hypothesis good_response : forall r, good (task_of_response r).
Hypothesis good_key : forall t, key_ok t -> good t.
Abbreviation NW := (World NodeMem).

(** [J] relates the responses held, the threshold of the epoch, and the
    consensus table; the hypotheses are its cases. *)
Variable J : TaskResponseTrack -> option Z -> gmap string ConsensusResponse -> Prop.
Hypothesis J_store : forall t sk r op weight k k' th c, P t sk r ->
  seen op -> cast_by sk op -> NumericToBigInt (o_Weight op) = Ok weight ->
  track_shape k -> J k th c -> store_section t sk r weight k = Ok k' -> J k' th c.
Hypothesis J_clear : forall t k th c, J k th c ->
  J (mkTrack (delete t (tk_responses k)) (delete t (tk_weights k))) th c.
Hypothesis J_empty : forall k th c, J k th c -> J empty_track th c.
Hypothesis J_epoch : forall k th th' c cl i, GetMainnetClient the_chains = Ok cl ->
  cc_GetThresholdWeight cl i = Ok th' -> J k th c -> J k th' c.

Abbreviation limit w := (GetThresholdWeight (w_mem w)).
Abbreviation table w := (db_consensus (w_db w)).

Hypothesis J_publish : forall (w : NW) r rs total th row, track_all P (get_track w) ->
  consensus_row w r rs total th row -> table w !! tr_taskID r = None ->
  J (get_track w) (limit w) (table w) -> J (get_track w) (limit w) (<[tr_taskID r := row]> (table w)).

Definition related (w : NW) : Prop := J (get_track w) (limit w) (table w).
Definition inv (w : NW) : Prop := (tp_inv P w /\ related w) /\ sighted seen w.

(** A property of the threshold *)
Definition on_limit (L : option Z -> Prop) (w : NW) : Prop := L (limit w).

Lemma on_limit_of_mem {A} L (m : M NW A) : (forall R, preserves (mem_pred R) m) -> preserves (on_limit L) m.
Proof. intros Hm. apply (Hm (fun c => L (GetThresholdWeight c))). Qed.

(** What leaves the tracker, the threshold and the consensus table alone. *)
Lemma related_frame {A} (m : M NW A) : (forall Q, preserves (on_track Q) m) ->
  (forall L, preserves (on_limit L) m) ->
  (forall R, preserves (db_pred (on_consensus R)) m) -> preserves related m.
Proof.
  intros Ht Hl Hc w Hw.
  pose proof (Ht (eq (get_track w)) w eq_refl) as Et. unfold on_track in Et.
  pose proof (Hl (eq (limit w)) w eq_refl) as El. unfold on_limit in El.
  pose proof (Hc (eq (table w)) w eq_refl) as Ec. unfold db_pred, on_consensus in Ec.
  unfold related. by rewrite <- Et, <- El, <- Ec.
Qed.

Lemma keeps {A} (m : M NW A) : preserves (tp_inv P) m -> (forall Q, preserves (on_track Q) m) ->
  (forall L, preserves (on_limit L) m) -> (forall R, preserves (db_pred (on_consensus R)) m) ->
  preserves (sighted seen) m -> preserves inv m.
Proof. intros Hi Ht Hl Hc Hs. apply preserves_and; [apply preserves_and; [done|by apply related_frame]|done]. Qed.

(** What leaves the memory, the consensus table and the keys of the tasks
    alone. *)
Lemma keeps_mem {A} (m : M NW A) : (forall Q, preserves (mem_pred Q) m) ->
  preserves (db_pred (on_tasks keys_ok)) m -> (forall R, preserves (db_pred (on_consensus R)) m) ->
  preserves (sighted seen) m -> preserves inv m.
Proof.
  intros Hm Ht Hc Hs. apply keeps; try done.
  - by apply keeps_inv.
  - intros Q. by apply on_track_of_mem.
  - intros L. by apply on_limit_of_mem.
Qed.

(** A critical section on the tracker. *)
Lemma locked_inv section :
  (forall k k', track_all P k -> section k = Ok k' -> track_all P k') ->
  (forall k k' th c, track_all P k -> J k th c -> section k = Ok k' -> J k' th c) ->
  preserves inv (locked section).
Proof.
  intros Hs HJ. apply preserves_and; [|apply locked_sighted]. intros w [[Ht Hk] Hw].
  pose proof (locked_track (C:=NodeMem) (track_all P) section ltac:(eauto) w Ht) as Ht'.
  pose proof (locked_db (C:=NodeMem) (on_tasks keys_ok) section w Hk) as Hk'.
  split; [by split|]. destruct (locked section w) as [w' r] eqn:E. simpl.
  apply locked_run in E. destruct (section (get_track w)) as [k|e|s] eqn:Es;
    [|by destruct E as [-> _]..].
  destruct E as [-> _]. unfold related. rewrite get_put_track. exact (HJ _ _ _ _ Ht Hw Es).
Qed.

Ltac calm_step := solve [apply keeps_mem; intros; solve_preserves].

Lemma checkConsensus_inv r : preserves inv (checkConsensus r).
Proof.
  apply preserves_and; [|apply checkConsensus_sighted]. intros w [[Ht Hk] Hb].
  destruct (checkConsensus r w) as [w' out] eqn:E. simpl.
  split; [split|].
  - exact (preserves_run _ _ _ _ _ (on_track_of_mem _ _ (fun R => checkConsensus_mem R r)) E Ht).
  - refine (preserves_run _ _ _ _ _ (checkConsensus_tasks keys_ok _ r) E Hk).
    intros. by apply keys_ok_completed.
  - assert (w_mem w = w_mem w') as Em
      by exact (preserves_run _ _ _ _ _ (checkConsensus_mem (eq (w_mem w)) r) E eq_refl).
    unfold related, get_track. rewrite <- Em.
    apply checkConsensus_table in E as [->|(rs & total & th & row & Hrow & Hnone & ->)]; [done|].
    by eapply J_publish.
Qed.

Lemma store_inv t sk r op weight : P t sk r -> seen op -> cast_by sk op ->
  NumericToBigInt (o_Weight op) = Ok weight ->
  preserves inv (locked (store_section t sk r weight)).
Proof.
  intros HP Hs Hc Hw. apply locked_inv; [by intros; eapply store_section_all|].
  intros k k' th c [Hsh _] HJ Hk. by eapply J_store.
Qed.

Lemma broadcast_limit L r : preserves (on_limit L) (broadcastResponse r).
Proof.
  unfold broadcastResponse. apply preserves_bind; [apply preserves_wrapM, preserves_lift|]. intros data.
  apply preserves_bind; [apply preserves_gets|]. intros m.
  destruct (tm_responseTopic m); [|apply preserves_panic].
  apply preserves_bind; [by intros w|]. intros _. by intros w.
Qed.

Lemma broadcast_inv r : preserves inv (broadcastResponse r).
Proof.
  apply keeps.
  - apply preserves_and; [apply broadcastResponse_track|apply broadcastResponse_db].
  - intros. apply broadcastResponse_track.
  - intros. apply broadcast_limit.
  - intros. apply broadcastResponse_db.
  - apply broadcastResponse_sighted.
Qed.

Lemma processed_inv t sk : preserves inv (alreadyProcessed t sk).
Proof. unfold alreadyProcessed. apply preserves_bind; [apply preserves_gets|intros; apply preserves_ret]. Qed.

(** Looking an operator up, and then working with one that was seen. *)
Lemma lookup_inv (m : M NW (option Operators)) (Q : Operators -> Prop) :
  (forall R, preserves (mem_pred R) m) -> (forall T, preserves (db_pred (on_tasks T)) m) ->
  (forall R, preserves (db_pred (on_consensus R)) m) ->
  ensures (sighted seen) m (fun o => forall x, o = Some x -> Q x) ->
  ensures inv m (fun o => forall x, o = Some x -> Q x).
Proof.
  intros Hm Ht Hc Hs w Hw. split; [|by apply Hs; apply Hw].
  apply (keeps_mem m); try done. exact (ensures_preserves _ _ _ Hs).
Qed.

Lemma ProcessTask_inv t : good t -> preserves inv (ProcessTask (Some t)).
Proof.
  intros Hg. unfold ProcessTask. apply preserves_bind; [apply processed_inv|].
  intros []; [apply preserves_ret|]. eapply preserves_bind_ensures.
  { apply (answer_task_ensures (fun t sk r => forall op, seen op -> cast_by sk op -> P t sk r) good); [| |exact Hg].
    - intros. by eapply P_own.
    - intros. unfold getStateWithRetries. calm_step. }
  intros r [Hid HP]. eapply preserves_bind_ensures.
  { apply ensures_wrapM, lookup_inv; [..|apply GetOperatorBySigningKey_seen]; intros; solve_preserves. }
  intros [op|] Hop; [|apply preserves_panic]. destruct (Hop op eq_refl) as [Hseen Hkey].
  assert (cast_by mySigningKey op) as Hcast by by right.
  eapply preserves_bind_ensures; [apply ensures_wrapM, ensures_lift; intros x Hx; exact Hx|].
  intros weight Hweight. apply preserves_bind; [by eapply store_inv; [apply (HP op)|..]|]. intros _.
  apply preserves_bind; [apply preserves_wrapM, broadcast_inv|]. intros _.
  apply preserves_bind; [apply preserves_try, checkConsensus_inv|]. intros _. apply preserves_ret.
Qed.

Lemma accept_response_inv r op : seen op -> o_IsActive op = true ->
  verifyResponse r (o_SigningKey op) = Ok tt -> preserves inv (accept_response r (o_SigningKey op) op).
Proof.
  intros Hs Ha Hv. assert (cast_by (o_SigningKey op) op) as Hc by by left.
  unfold accept_response.
  eapply preserves_bind_ensures; [apply ensures_wrapM, ensures_lift; intros x Hx; exact Hx|].
  intros weight Hweight.
  apply preserves_bind; [by eapply store_inv; [eapply P_verified|..]|]. intros _.
  apply preserves_bind; [apply preserves_try, checkConsensus_inv|]. intros _.
  apply preserves_bind; [apply processed_inv|]. intros []; [apply preserves_ret|].
  by apply preserves_wrapM, ProcessTask_inv.
Qed.

Lemma processResponse_inv msg : preserves inv (processResponse msg).
Proof.
  unfold processResponse. apply preserves_bind; [solve_preserves|]. intros pb.
  apply preserves_bind; [apply preserves_gets|]. intros ep.
  destruct (negb _); [apply preserves_ret|].
  assert (forall e, preserves inv (incrementPeerViolation (msg_ReceivedFrom msg) e)) as Hviol
    by (intros; calm_step).
  destruct (PeerIDToP2PKey _) as [pk|e|s]; [|done|apply preserves_panic].
  eapply preserves_bind_ensures.
  { apply ensures_try, lookup_inv; [..|apply GetOperatorByP2PKey_seen]; intros; solve_preserves. }
  intros [[op|]|e] Hop; try done. specialize (Hop op eq_refl).
  destruct (negb (o_IsActive op)) eqn:Hact; [done|]. apply negb_false_iff in Hact.
  apply preserves_bind; [apply processed_inv|]. intros []; [apply preserves_ret|].
  apply preserves_bind; [calm_step|].
  intros cons. set (k := match verifyResponse _ _ with Ok _ => _ | Err _ => _ | Panic _ => _ end).
  assert (preserves inv k) as Hk; [|by destruct cons as [[?|]|?]; [apply preserves_ret|..]].
  subst k. destruct (verifyResponse _ _) as [[]|e|s] eqn:Hv; [|done|apply preserves_panic].
  by apply accept_response_inv.
Qed.

Lemma handleResponse_inv msg : preserves inv (handleResponse msg).
Proof.
  apply preserves_recovered, preserves_bind; [|intros; apply preserves_ret].
  apply preserves_try, processResponse_inv.
Qed.

Lemma IncrementRetryCount_inv id : preserves inv (IncrementRetryCount id).
Proof.
  apply keeps_mem; [intros; apply IncrementRetryCount_mem| |intros; apply IncrementRetryCount_consensus|apply IncrementRetryCount_sighted].
 
  unfold IncrementRetryCount. apply preserves_bind; [|solve_preserves]. apply pg_call_db.
  unfold on_tasks. intros now d d' a Hd E. unfold sql_incrementRetryCount in E.
  destruct (db_tasks d !! _) as [x|] eqn:El; [|by injection E as <- <-].
  sql_inv. simpl. by apply keys_ok_retry.
Qed.

Lemma DeleteTaskByID_inv id : preserves inv (DeleteTaskByID id).
Proof.
  apply keeps_mem; [intros; apply DeleteTaskByID_mem| |intros; apply DeleteTaskByID_consensus|apply DeleteTaskByID_sighted].
  apply pg_call_db.
  unfold on_tasks. intros now d d' a Hd E. injection E as <- <-. by apply keys_ok_delete.
Qed.

Lemma UpdateTaskToPending_inv id : preserves inv (UpdateTaskToPending id).
Proof.
  apply keeps_mem; [intros; apply UpdateTaskToPending_mem| |intros; apply UpdateTaskToPending_consensus|apply UpdateTaskToPending_sighted].
  apply pg_call_db.
  unfold on_tasks. intros now d d' a Hd E. injection E as <- <-. by apply keys_ok_pending.
Qed.

Lemma cleanupTask_inv id : preserves inv (cleanupTask id).
Proof.
  apply locked_inv.
  - intros k k' [Hs Ha] [= <-]. split; [by apply delete_shape|].
    intros a b r. simpl. rewrite lookup2_delete. destruct (decide (a = id)); [done|apply Ha].
  - intros k k' th c _ HJ [= <-]. by apply J_clear.
Qed.

Lemma cleanupAllTasks_inv : preserves inv cleanupAllTasks.
Proof.
  apply locked_inv.
  - intros k k' _ [= <-]. apply track_all_empty.
  - intros k k' th c _ HJ [= <-]. by eapply J_empty.
Qed.

Lemma Stop_inv : preserves inv Stop.
Proof.
  apply preserves_bind; [|intros; apply cleanupAllTasks_inv].
  set (close := modify _). assert (forall Q, preserves (on_track (C:=NodeMem) Q) close) as Ht by by intros Q w.
  apply keeps; [apply preserves_and; [apply Ht|by intros w]|exact Ht|by intros L w|by intros R w|by apply mem_sighted].
Qed.

Lemma timeout_task_inv t : good t -> preserves inv (timeout_task t).
Proof.
  intros Hg. unfold timeout_task. apply preserves_bind; [apply preserves_try, IncrementRetryCount_inv|].
  intros [[upd|]|e]; [|apply preserves_panic|apply preserves_ret]. destruct (_ <=? _).
  - apply preserves_bind; [apply preserves_try, DeleteTaskByID_inv|]. intros _. apply cleanupTask_inv.
  - apply preserves_bind; [by apply preserves_try, ProcessTask_inv|]. intros. apply preserves_ret.
Qed.

Lemma confirm_task_inv t : good t -> preserves inv (confirm_task t).
Proof.
  intros Hg. unfold confirm_task. apply preserves_bind; [apply preserves_lift|]. intros cl.
  apply preserves_bind; [calm_step|]. intros latest.
  destruct (_ =? 0); [apply preserves_ret|]. destruct (_ <=? _); [|apply preserves_ret].
  apply preserves_bind; [apply UpdateTaskToPending_inv|]. intros _. by apply ProcessTask_inv.
Qed.

(** A job over listed tasks, which have good keys. *)
Lemma job_backed (list : M NW (list Tasks)) body :
  (forall Q, preserves (mem_pred Q) list) -> (forall R, preserves (db_pred (on_consensus R)) list) ->
  preserves (sighted seen) list ->
  ensures (db_pred (on_tasks keys_ok)) list (fun l => forall t, t ∈ l -> key_ok t) ->
  (forall t, good t -> preserves inv (body t)) ->
  preserves inv (let! r := try list in
                 match r with inr _ => ret tt | inl l => for_each l body end).
Proof.
  intros Hm Hc Hs Hl Hb. eapply preserves_bind_ensures.
  - apply ensures_try. intros w Hw. split; [|exact (proj2 (Hl w (proj2 (proj1 (proj1 Hw)))))].
    apply (keeps_mem list); try done. exact (ensures_preserves _ _ _ Hl).
  - intros [l|e] Hg; [|apply preserves_ret]. apply preserves_for_each_in.
    intros t Ht. by apply Hb, good_key, Hg.
Qed.

Lemma CreateTask_backed p id b e key value st rc :
  ensures inv (CreateTask (new_task p id b e key value st rc)) (fun t => forall x, t = Some x -> key_ok x).
Proof.
  intros w Hw. pose proof (CreateTask_keys p id b e key value st rc Hnil) as Hk.
  split; [|exact (proj2 (Hk w (proj2 (proj1 (proj1 Hw)))))]. apply (keeps_mem (CreateTask _)); [..|apply CreateTask_sighted|done].
  - intros. apply CreateTask_mem.
  - exact (ensures_preserves _ _ _ Hk).
  - intros. apply CreateTask_consensus.
Qed.

Lemma SendRequest_backed rq : preserves inv (SendRequest h rq).
Proof.
  apply SendRequest_keeps.
  - intros A m Hm Ht Hc Ho Hk. apply keeps_mem; try done. by apply sighted_frame.
  - intros. apply CreateTask_backed.
  - intros t Hk. by apply ProcessTask_inv, good_key.
Qed.

Lemma checkTimeouts_inv : preserves inv checkTimeouts.
Proof.
  apply job_backed; eauto using ListPendingTasks_keys, timeout_task_inv;
    intros; solve_preserves.
Qed.

Lemma checkConfirmations_inv : preserves inv checkConfirmations.
Proof.
  apply job_backed; eauto using ListConfirmingTasks_keys, confirm_task_inv;
    intros; solve_preserves.
Qed.

(** *** The epoch, and what writes the operator table *)

(** The rows of the operator table are seen after the step: a premise, since
    a step may write them. *)
Definition seen_after (w : NW) : Prop := db_pred (on_operators (rows_seen seen)) w.

(** After a tick the threshold is the old one or one the contract reported. *)
Lemma epoch_tick_limit cl (L : option Z -> Prop) :
  (forall i th, cc_GetThresholdWeight cl i = Ok th -> L th) -> preserves (on_limit L) (epoch_tick cl).
Proof.
  intros HL.
  assert (forall e, preserves (on_limit L) (updateEpochState cl e)) as Hupd.
  { intros e. unfold updateEpochState. do 2 (apply preserves_bind; [apply preserves_wrapM; by intros w|]; intros ?).
    apply (preserves_bind_ensures _ _ _ L).
    { apply ensures_wrapM. intros w Hw. split; [exact Hw|]. intros th Hth. exact (HL (w_step w) th Hth). }
    intros th Hth. apply preserves_bind; [apply preserves_gets|]. by intros m w Hw. }
  assert (forall A (m : M NW A), (forall R, preserves (mem_pred R) m) -> preserves (on_limit L) m) as Hmem
    by (intros; by apply on_limit_of_mem).
  unfold epoch_tick. apply preserves_bind; [by apply Hmem; intros; solve_preserves|].
  intros [b|e]; [|apply preserves_ret]. apply preserves_bind; [apply preserves_gets|]. intros m.
  destruct (_ <? _); [|apply preserves_ret]. apply preserves_bind.
  - apply preserves_try. unfold handleEpochUpdate. apply preserves_bind; [apply Hmem; intros; solve_preserves|].
    intros block. apply preserves_wrapM. change (on_limit L) with (mem_pred (C:=NodeMem) (fun c => L (GetThresholdWeight c))).
    apply Transact_mem. unfold update_operators. apply preserves_bind; [apply preserves_wrapM, Hupd|]. intros _.
    unfold update_operator. solve_preserves.
  - intros [?|?]; [|apply preserves_ret]. by intros w.
Qed.

Lemma epoch_tick_inv cl w : GetMainnetClient the_chains = Ok cl -> inv w ->
  seen_after (epoch_tick cl w).1 -> inv (epoch_tick cl w).1.
Proof.
  intros Hcl [[[Ht Hk] HJ] [_ Hc]] Hrows.
  pose proof (epoch_mem_track (eq (get_track w)) cl w eq_refl) as Et.
  assert (db_pred (on_consensus (eq (table w))) (epoch_tick cl w).1) as Ec.
  { apply (epoch_tick_consensus (eq (table w)) cl w). done. }
  assert (on_limit (fun th => th = limit w \/ exists i, cc_GetThresholdWeight cl i = Ok th) (epoch_tick cl w).1) as El.
  { apply (epoch_tick_limit cl); [|by left]. intros i th Hth. right. by exists i. }
  unfold on_track, db_pred, on_consensus, on_limit in Et, Ec, El.
  split; [split; [split|]|split; [exact Hrows|]].
  - unfold on_track. by rewrite <- Et.
  - by apply epoch_tick_tasks.
  - unfold related. rewrite <- Et, <- Ec. destruct El as [->|[i Hi]]; [done|]. by eapply J_epoch.
  - by apply epoch_tick_seen.
Qed.

(** A callback that writes the operator table, and neither the memory, the
    tasks nor the consensus table *)
Lemma writer_inv {A} (m : M NW A) w : (forall Q, preserves (mem_pred Q) m) ->
  preserves (db_pred (on_tasks keys_ok)) m -> (forall R, preserves (db_pred (on_consensus R)) m) ->
  cache_pred (cache_seen seen) (m w).1 -> inv w -> seen_after (m w).1 -> inv (m w).1.
Proof.
  intros Hm Ht Hc Hs [[Htp HJ] _] Hrows. split; [split|by split].
  - by apply keeps_inv.
  - apply related_frame; [..|done|done]; intros; [by apply on_track_of_mem|by apply on_limit_of_mem].
Qed.

Lemma node_step_backed w w' : inv w -> node_step h w w' -> seen_after w' -> inv w'.
Proof.
  intros Hi Hstep Hrows.
  destruct Hstep as [rq w|id w|q w|msg w|w|w|w|w|cl w Hcl|e w|e w|p w|params w|p w];
    [by apply SendRequest_backed| | |by apply handleResponse_inv
    |by apply checkTimeouts_inv|by apply checkConfirmations_inv
    |by apply cleanupAllTasks_inv|by apply Stop_inv|by apply epoch_tick_inv|..].
  - revert w Hi Hrows. intros w Hi _. revert w Hi. change (preserves inv (GetTaskConsensusByTaskID id)).
    unfold GetTaskConsensusByTaskID, answer_or, found. apply keeps_mem; intros; solve_preserves.
  - revert w Hi Hrows. intros w Hi _. revert w Hi. change (preserves inv (handler_GetConsensusResponseByRequest q)).
    unfold handler_GetConsensusResponseByRequest, answer_or, found. apply keeps_mem; intros; solve_preserves.
  - apply writer_inv; try done.
    1-3: unfold handleOperatorRegistered; intros; solve_preserves.
    apply handleOperatorRegistered_seen, Hi.
  - apply writer_inv; try done.
    1-3: unfold handleOperatorDeregistered; intros; solve_preserves.
    apply handleOperatorDeregistered_seen, Hi.
  - revert w Hi Hrows. intros w Hi _. revert w Hi. change (preserves inv (checkPeerPermission p)).
    apply keeps_mem; [..|apply checkPeerPermission_sighted];
      unfold checkPeerPermission, isBlocked, isActiveOperator; intros; solve_preserves.
  - revert w Hi Hrows. intros w Hi _. revert w Hi. change (preserves inv (gater_IncrementViolationCount params)).
    unfold gater_IncrementViolationCount. apply keeps_mem; intros; solve_preserves.
  - revert w Hi Hrows. intros w Hi _. revert w Hi. change (preserves inv (gater_UnblockNode p)).
    unfold gater_UnblockNode. apply keeps_mem; intros; solve_preserves.
Qed.
End backed.

(** ** Every signature of a row was a tracked response's *)

Section rows.
Context `{EnvOk} `{EthLib} `{P2PLib} `{PubSub} `{OperatorSigner} `{CM : ChainManager}.
Variable P : string -> string -> taskResponse -> Prop.

Definition row_backed (id : string) (row : ConsensusResponse) : Prop :=
  Forall (fun sig => exists sk r, sig = tr_signature r /\ P id sk r) (c_AggregatedSignatures row).

Definition backed (m : gmap string ConsensusResponse) : Prop := map_Forall row_backed m.

Lemma backed_publish (w : World NodeMem) r rs total th row : track_all P (get_track w) ->
  consensus_row w r rs total th row -> backed (db_consensus (w_db w)) ->
  backed (<[tr_taskID r := row]> (db_consensus (w_db w))).
Proof.
  intros Ht Hrow Hb. apply map_Forall_insert_2; [|done]. destruct Hrow as [Hheld _ _ _ Hs _ _ _].
  unfold row_backed. rewrite Hs. apply Forall_forall.
  intros sig (sk & _ & Hr)%list_elem_of_omap. apply fmap_Some in Hr as (r' & Hr' & ->).
  exists sk, r'. split; [done|]. apply Ht. unfold lookup2. by rewrite Hheld.
Qed.
End rows.

(** ** Properties *)

Section properties.
Context `{EnvOk} `{EthLib} `{P2PLib} `{PubSub} `{OperatorSigner} `{CM : ChainManager} `{HttpLib}.
Variable h : Handler.

(** An operator as the code reads it, from the row that it is in the table of
    one of the states of a run. *)
Definition registered (l : list (World NodeMem)) (op : Operators) : Prop :=
  exists w a o, w ∈ l /\ db_operators (w_db w) !! a = Some o /\ op = scan_Operators o.

(** A node that starts: nothing tracked, and no operators cached but those of
    its table. *)
Definition started (w : World NodeMem) : Prop :=
  node_init w /\ cache_seen (registered [w]) (w_cache w).

(** ... without stored consensus. *)
Definition fresh_node (w : World NodeMem) : Prop := started w /\ db_consensus (w_db w) = ∅.

Lemma registered_rows l w : w ∈ l -> seen_after (registered l) w.
Proof. intros Hw a o Ho. by exists w, a, o. Qed.

Lemma started_sighted l w : w ∈ l -> started w -> sighted (registered l) w.
Proof.
  intros Hin [_ Hc]. split; [by apply registered_rows|]. intros i k o Ho.
  destruct (Hc i k o Ho) as [(w0 & a & o' & ->%list_elem_of_singleton & Hr) Hf]. split; [|done].
  by exists w, a, o'.
Qed.

(** A vote: a response for the task, with a signature that verifies against
    the key it is filed under, cast by an operator of the run. *)
Definition valid_vote (l : list (World NodeMem)) (t sk : string) (r : taskResponse) : Prop :=
  tr_taskID r = t /\ verifyResponse r sk = Ok tt /\ exists op, registered l op /\ cast_by sk op.

Section votes.
Variable l : list (World NodeMem).
Abbreviation P := (valid_vote l).

Lemma vote_verified r sk op : registered l op -> cast_by sk op -> verifyResponse r sk = Ok tt ->
  P (tr_taskID r) sk r.
Proof. intros. split_and!; [done..|by exists op]. Qed.

Lemma vote_own (Hsig : signer_ok) t key value sig op : task_good t -> NumericToBigInt (t_Key t) = Ok key ->
  SignTaskResponse (sign_params (t_TargetAddress t) (t_ChainID t) (t_BlockNumber t) key value) = Ok sig ->
  registered l op -> cast_by mySigningKey op ->
  P (t_TaskID t) mySigningKey (own_response t sig value).
Proof. intros. split_and!; [done|by eapply own_response_verifies|by exists op]. Qed.
End votes.

(** C1: every consensus response a node stores is backed: after every run of
    a node, each aggregated signature of each row is that of a response to
    the row's task, and verifies, for exactly the address, chain, block, key
    and value that response stated, against the signing key of an operator
    that was in the operator table at some moment of the run: one that was
    active there, or the node itself. *)
Theorem stored_consensus_backed (Hsig : signer_ok) (Hnil : nil_is_integer) w l
    (Hrun : history (node_step h) fresh_node (w :: l)) id row
    (Hrow : db_consensus (w_db w) !! id = Some row) :
  c_TaskID row = id /\
  Forall (fun sig => exists sk r w0 a op, sig = tr_signature r /\ tr_taskID r = id /\
      w0 ∈ w :: l /\ db_operators (w_db w0) !! a = Some op /\ cast_by sk op /\
      VerifyTaskResponse
        (mkTaskSignParams (HexToAddress (tr_targetAddress r)) (tr_chainID r) (tr_blockNumber r)
           (StringToBigInt (tr_key r)) (StringToBigInt (tr_value r))) sig sk = Ok tt)
    (c_AggregatedSignatures row).
Proof.
  assert (db_ok (w_db w)) as Hok.
  { refine (history_invariant _ _ (fun w => db_ok (w_db w)) _ Hrun _ _ w (list_elem_of_here _ _)).
    - by intros w0 _ [[(_ & ? & _) _] _].
    - intros w1 w2 _ _. apply node_step_closed, db_ok_closed. }
  split; [by apply (ok_consensus _ Hok)|].
  set (P := valid_vote (w :: l)).
  assert (inv (registered (w :: l)) P (fun _ _ => backed P) w) as [[_ Hb] _].
  { refine (history_invariant _ _ _ _ Hrun _ _ w (list_elem_of_here _ _)).
    - intros w0 Hin [Hst Hempty]. split; [split; [split|]|by apply started_sighted].
      + unfold on_track. destruct Hst as [(-> & _) _]. apply track_all_empty.
      + by destruct Hst as [(_ & _ & ?) _].
      + unfold related. rewrite Hempty. apply map_Forall_empty.
    - intros w1 w2 _ Hin Hi Hstep. pose proof (registered_rows _ _ Hin) as Hrows. revert Hi Hstep Hrows.
      apply (node_step_backed h Hnil _ P task_good); try done;
        [apply vote_verified|by apply vote_own|apply task_good_response|apply key_ok_good|].
      intros. by eapply backed_publish. }
  eapply Forall_impl; [exact (Hb id row Hrow)|].
  intros sig (sk & r & -> & Hid & Hv & op & (w0 & a & o & Hin & Ha & ->) & Hc).
  by exists sk, r, w0, a, o.
Qed.
End properties.

(** ** Example: a node that answers a request *)

Section toy.
#[local] Existing Instance toy_env.
#[local] Existing Instance toy_eth.
#[local] Existing Instance toy_p2p.
#[local] Existing Instance toy_pubsub.
#[local] Existing Instance toy_signer.
#[local] Existing Instance toy_chains.
#[local] Existing Instance toy_http.

Definition toy_start : World NodeMem :=
  toy_world (mkDB ∅ (db_operators toy_db) ∅ ∅)
    (mkNodeMem (mkTaskMem empty_track true []) (mkEpochMem (mkEpochState 8 None None (Some 50)) 8)).

Definition toy_answered : World NodeMem :=
  (SendRequest toy_handler (toy_request (toy_params "3" 7698500)) toy_start).1.

Definition toy_id : string := generateTaskID (toy_params "3" 7698500) "1000".

Lemma toy_init : node_init toy_start.
Proof.
  split; [done|]. split.
  - constructor; simpl; [apply map_Forall_empty|exact toy_operators_keyed|apply map_Forall_empty|].
    split; [apply map_Forall_empty|]. by intros id1 id2 r1 r2 ?%lookup_empty_Some.
  - intros id t Ht. change (db_tasks (w_db toy_start)) with (∅ : gmap string Tasks) in Ht.
    by apply lookup_empty_Some in Ht.
Qed.

Lemma toy_fresh : fresh_node toy_start.
Proof.
  split; [|done]. split; [exact toy_init|]. intros i k o Ho.
  change ((∅ : gmap string CacheVal) !! k = Some (COperator (Some o))) in Ho.
  by apply lookup_empty_Some in Ho.
Qed.

Lemma toy_nil : nil_is_integer.
Proof. by intros m [=]. Qed.

Lemma toy_run : history (node_step toy_handler) fresh_node [toy_answered; toy_start].
Proof. apply history_step; [apply history_init, toy_fresh|apply ns_request]. Qed.

Lemma toy_answered_init : reachable (node_step toy_handler) node_init toy_answered.
Proof. apply (reach_step _ _ toy_start); [apply reach_init, toy_init|apply ns_request]. Qed.

Lemma toy_conforms : conforms (w_db toy_start).
Proof.
  intros []; simpl; rewrite ?fmap_empty; try apply table_ok_empty.
  apply table_ok_rows; [done|]. apply (bool_decide_eq_true_1 _). vm_compute. reflexivity.
Qed.

Lemma toy_stored : exists row, db_consensus (w_db toy_answered) !! toy_id = Some row.
Proof.
  destruct (db_consensus (w_db toy_answered) !! toy_id) as [row|] eqn:E; [by exists row|].
  assert (bool_decide (is_Some (db_consensus (w_db toy_answered) !! toy_id)) = true) as Hs
    by (vm_compute; reflexivity).
  rewrite E in Hs. done.
Qed.

Lemma stored_consensus_backed_witness : exists row,
  db_consensus (w_db toy_answered) !! toy_id = Some row /\ c_TaskID row = toy_id.
Proof.
  destruct toy_stored as [row Hrow]. exists row. split; [exact Hrow|].
  apply (stored_consensus_backed toy_handler toy_signer_ok toy_nil toy_answered
    [toy_start] toy_run toy_id row Hrow).
Defined.

Lemma node_schema_witness : db_ok (w_db toy_answered).
Proof. exact (node_schema toy_handler toy_answered toy_answered_init). Defined.

Lemma node_tables_conform_witness : exists row,
  contents (w_db toy_answered) T_consensus_responses !! toy_id = Some (consensus_cells row) /\
  tuple_ok consensus_responses_Schema (consensus_cells row) = true.
Proof.
  destruct toy_stored as [row Hrow]. exists row.
  assert (contents (w_db toy_answered) T_consensus_responses !! toy_id = Some (consensus_cells row)) as E.
  { unfold contents. by rewrite lookup_fmap, Hrow. }
  split; [exact E|].
  refine (to_rows _ _ (node_tables_conform toy_handler toy_nil toy_answered _ T_consensus_responses)
            toy_id _ E).
  apply (reach_step _ _ toy_start); [|apply ns_request].
  apply reach_init. split; [exact toy_init|exact toy_conforms].
Defined.

Lemma node_consensus_final_witness : exists row,
  db_consensus (w_db (periodicCleanup toy_answered).1) !! toy_id = Some row.
Proof.
  destruct toy_stored as [row Hrow]. exists row.
  exact (node_consensus_final toy_handler toy_answered _ toy_id row
    (rtc_once _ _ (ns_cleanup toy_handler toy_answered)) Hrow).
Defined.

Lemma node_responses_authenticated_witness : exists r,
  lookup2 (tk_responses (get_track toy_answered)) toy_id toy_addr1 = Some r /\ tr_taskID r = toy_id.
Proof.
  destruct (lookup2 (tk_responses (get_track toy_answered)) toy_id toy_addr1) as [r|] eqn:E.
  - exists r. split; [reflexivity|].
    apply (node_responses_authenticated toy_handler toy_signer_ok toy_nil toy_answered
      toy_answered_init toy_id toy_addr1 r E).
  - assert (bool_decide (is_Some (lookup2 (tk_responses (get_track toy_answered)) toy_id toy_addr1))
      = true) as Hs by (vm_compute; reflexivity).
    rewrite E in Hs. discriminate Hs.
Defined.
End toy.
