(* ===== verification/Quorum.v ===== *)
(** * The node as a quorum of votes

    What a node promises to those who read its answers, without messages,
    caches, retries or tasks: it collects valid votes per task, with the
    weights of their operators, it may forget them, the threshold is replaced
    by one that the registry reports, and when the weights of the votes for a
    task reach the threshold it may publish one answer for it, signed by those
    votes, for good.  [Spec] is that state and [spec_step] what may happen to
    it; [spec_step_ok] that every published answer then has a quorum;
    [node_refines_quorum] that a node does nothing else, whatever fails. *)

From S2P Require Import Prelude GoInt GoString Numeric EpochMath Models World.
From S2P Require Import TasksRepo BlacklistRepo OperatorsRepo ConsensusRepo Schema.
From S2P Require Import EthLib Signer Config Chain Watch Task TaskInv TaskProps TaskConsensus.
From S2P Require Import TaskToy Gater Epoch Listener BlockTime Api Sight Node Backed.

(** ** The specification *)

Record Spec := mkSpec {
  sp_votes : string -> gmap string taskResponse;      (** by task, by signing key *)
  sp_weights : string -> gmap string (option Z);
  sp_threshold : option Z;
  sp_published : gmap string ConsensusResponse;       (** by task *)
}.

(** [f] and [g] differ at [t] only. *)
Definition elsewhere {A} (t : string) (f g : string -> A) : Prop :=
  forall t', t' <> t -> g t' = f t'.

Definition total_weight (ws : gmap string (option Z)) : Z :=
  map_fold (fun _ w acc => acc + default 0 w) 0 ws.

Section spec.
(** Which votes count, with which weight, and which thresholds there are *)
Context (valid : string -> string -> taskResponse -> option Z -> Prop).
Context (reported : option Z -> Prop).

Inductive spec_step (s s' : Spec) : Prop :=
  | sp_vote t sk r w :
      valid t sk r w ->
      sp_votes s' t = <[sk := r]> (sp_votes s t) -> elsewhere t (sp_votes s) (sp_votes s') ->
      sp_weights s' t = <[sk := w]> (sp_weights s t) -> elsewhere t (sp_weights s) (sp_weights s') ->
      sp_threshold s' = sp_threshold s -> sp_published s' = sp_published s -> spec_step s s'
  | sp_forget t :
      sp_votes s' t = ∅ -> elsewhere t (sp_votes s) (sp_votes s') ->
      sp_weights s' t = ∅ -> elsewhere t (sp_weights s) (sp_weights s') ->
      sp_threshold s' = sp_threshold s -> sp_published s' = sp_published s -> spec_step s s'
  | sp_forget_all :
      (forall t, sp_votes s' t = ∅) -> (forall t, sp_weights s' t = ∅) ->
      sp_threshold s' = sp_threshold s -> sp_published s' = sp_published s -> spec_step s s'
  | sp_epoch :
      reported (sp_threshold s') ->
      (forall t, sp_votes s' t = sp_votes s t) -> (forall t, sp_weights s' t = sp_weights s t) ->
      sp_published s' = sp_published s -> spec_step s s'
  | sp_publish t row threshold :
      sp_published s !! t = None -> c_TaskID row = t ->
      sp_threshold s = Some threshold -> threshold <= total_weight (sp_weights s t) ->
      c_AggregatedSignatures row = signatures_of (sp_votes s t) (sorted_keys (sp_votes s t)) ->
      sp_votes s' = sp_votes s -> sp_weights s' = sp_weights s ->
      sp_threshold s' = sp_threshold s ->
      sp_published s' = <[t := row]> (sp_published s) -> spec_step s s'.

(** What the specification guarantees of itself: the votes held are valid and
    weighed, and a published answer is signed by valid votes for its task
    whose weights reach a threshold that was reported. *)
Definition ballot_ok (t : string) (votes : gmap string taskResponse) (ws : gmap string (option Z)) : Prop :=
  (forall sk w, ws !! sk = Some w -> exists r, votes !! sk = Some r /\ valid t sk r w) /\
  forall sk, is_Some (votes !! sk) -> is_Some (ws !! sk).

Definition has_quorum (t : string) (row : ConsensusResponse) : Prop :=
  exists votes ws threshold, ballot_ok t votes ws /\ reported (Some threshold) /\
    threshold <= total_weight ws /\
    c_AggregatedSignatures row = signatures_of votes (sorted_keys votes).

Record spec_ok (s : Spec) : Prop := {
  so_ballots : forall t, ballot_ok t (sp_votes s t) (sp_weights s t);
  so_threshold : forall th, sp_threshold s = Some th -> reported (Some th);
  so_published : forall t row, sp_published s !! t = Some row -> c_TaskID row = t /\ has_quorum t row;
}.

Lemma ballot_empty t : ballot_ok t ∅ ∅.
Proof. split; [by intros sk w ?%lookup_empty_Some|]. intros sk. by rewrite lookup_empty. Qed.

Lemma ballot_vote t votes ws sk r w : valid t sk r w -> ballot_ok t votes ws ->
  ballot_ok t (<[sk := r]> votes) (<[sk := w]> ws).
Proof.
  intros Hv [Hw Hr]. split.
  - intros sk' w' [[<- <-]|[Hne Hl]]%lookup_insert_Some; [exists r; by rewrite lookup_insert_eq|].
    rewrite lookup_insert_ne by done. by apply Hw.
  - intros sk'. rewrite !lookup_insert_is_Some'. intros [->|Hl]; [by left|right; by apply Hr].
Qed.

Lemma spec_step_ok s s' : spec_ok s -> spec_step s s' -> spec_ok s'.
Proof.
  intros [Hb Ht Hp] Hstep.
  destruct Hstep as [t sk r w Hv Et He Wt We Eth Ep|t Et He Wt We Eth Ep|Et Wt Eth Ep|Hrep Ev Ew Ep
    |t row th Hnone Hid Hth Hge Hsig Ev Ew Eth Ep]; split; rewrite ?Eth, ?Ep; try done.
  - intros t'. destruct (decide (t' = t)) as [->|Hne]; [|by rewrite He, We by done].
    rewrite Et, Wt. by apply ballot_vote.
  - intros t'. destruct (decide (t' = t)) as [->|Hne]; [|by rewrite He, We by done].
    rewrite Et, Wt. apply ballot_empty.
  - intros t. rewrite Et, Wt. apply ballot_empty.
  - intros t. by rewrite Ev, Ew.
  - intros th Hth. by rewrite <- Hth.
  - intros t'. by rewrite Ev, Ew.
  - intros t' row' [[<- <-]|[_ Hl]]%lookup_insert_Some; [|by apply Hp].
    split; [done|]. by exists (sp_votes s t), (sp_weights s t), th; split_and!; [|apply Ht|..].
Qed.

(** A published answer stays. *)
Lemma spec_step_final s s' t row : spec_step s s' -> sp_published s !! t = Some row ->
  sp_published s' !! t = Some row.
Proof.
  intros Hstep Hrow.
  destruct Hstep as [? ? ? ? ? ? ? ? ? ? ->|? ? ? ? ? ? ->|? ? ? ->|? ? ? ->|t' row' ? Hnone ? ? ? ? ? ? ? ->];
    try done.
  apply lookup_insert_Some. right. split; [|done]. intros ->. by rewrite Hrow in Hnone.
Qed.
End spec.

(** ** The state of the specification in a node *)

Definition spec_of (k : TaskResponseTrack) (th : option Z) (c : gmap string ConsensusResponse) : Spec :=
  mkSpec (fun t => default ∅ (tk_responses k !! t)) (fun t => default ∅ (tk_weights k !! t)) th c.

Lemma default_lookup {A} (m : gmap string (gmap string A)) t b :
  default ∅ (m !! t) !! b = lookup2 m t b.
Proof. unfold lookup2. by destruct (m !! t). Qed.

(** Tables that agree at one place, and away from it. *)
Lemma ballots_insert {A} (m m' : gmap string (gmap string A)) t sk x :
  (forall a b, lookup2 m' a b = if decide (a = t /\ b = sk) then Some x else lookup2 m a b) ->
  default ∅ (m' !! t) = <[sk := x]> (default ∅ (m !! t)) /\
  elsewhere t (fun t => default ∅ (m !! t)) (fun t => default ∅ (m' !! t)).
Proof.
  intros Hl. split.
  - apply map_eq. intros b. rewrite default_lookup, Hl. destruct (decide (b = sk)) as [->|Hne].
    + by rewrite decide_True, lookup_insert_eq.
    + rewrite decide_False by (intros [_ ?]; done). by rewrite lookup_insert_ne, default_lookup.
  - intros t' Hne. apply map_eq. intros b. rewrite !default_lookup, Hl.
    by rewrite decide_False by (intros [? _]; done).
Qed.

Lemma ballots_delete {A} (m : gmap string (gmap string A)) t :
  default ∅ (delete t m !! t) = ∅ /\
  elsewhere t (fun t => default ∅ (m !! t)) (fun t' => default ∅ (delete t m !! t')).
Proof.
  split; [by rewrite lookup_delete_eq|]. intros t' Hne. by rewrite lookup_delete_ne.
Qed.

(** ** The refinement *)

Section refinement.
Context `{EnvOk} `{EthLib} `{P2PLib} `{PubSub} `{OperatorSigner} `{CM : ChainManager} `{HttpLib}.
Variable h : Handler.

Definition spec_state (w : World NodeMem) : Spec :=
  spec_of (get_track w) (GetThresholdWeight (w_mem w)) (db_consensus (w_db w)).

(** A vote that counts: a response for the task, whose signature verifies
    against the key it is filed under, cast by an operator of the run, with
    the weight of that operator. *)
Definition weighed_vote (l : list (World NodeMem)) (t sk : string) (r : taskResponse) (weight : option Z) : Prop :=
  tr_taskID r = t /\ verifyResponse r sk = Ok tt /\
  exists op, registered l op /\ cast_by sk op /\ NumericToBigInt (o_Weight op) = Ok weight.

(** A threshold that the registry's contract reported *)
Definition reported_threshold (th : option Z) : Prop :=
  exists cl i, GetMainnetClient the_chains = Ok cl /\ cc_GetThresholdWeight cl i = Ok th.

Variable l : list (World NodeMem).

(** Getting from [s] to what the node holds, by steps of the specification *)
Definition leads (s : Spec) (k : TaskResponseTrack) (th : option Z)
    (c : gmap string ConsensusResponse) : Prop :=
  rtc (spec_step (weighed_vote l) reported_threshold) s (spec_of k th c).

Lemma leads_store s t sk r op weight k k' th c : valid_vote l t sk r ->
  registered l op -> cast_by sk op -> NumericToBigInt (o_Weight op) = Ok weight ->
  track_shape k -> leads s k th c -> store_section t sk r weight k = Ok k' -> leads s k' th c.
Proof.
  intros (Hid & Hv & _) Hop Hc Hwt Hs Hl Hk.
  destruct (store_section_spec t sk r weight k Hs) as (k1 & E & _ & Hr & Hw).
  rewrite E in Hk. injection Hk as <-.
  apply ballots_insert in Hr as [Hr1 Hr2]. apply ballots_insert in Hw as [Hw1 Hw2].
  eapply rtc_r; [exact Hl|]. apply (sp_vote _ _ _ _ t sk r weight); try done.
  split_and!; [done..|by exists op].
Qed.

Lemma leads_clear s t k th c : leads s k th c ->
  leads s (mkTrack (delete t (tk_responses k)) (delete t (tk_weights k))) th c.
Proof.
  intros Hl. eapply rtc_r; [exact Hl|].
  destruct (ballots_delete (tk_responses k) t), (ballots_delete (tk_weights k) t).
  by apply (sp_forget _ _ _ _ t).
Qed.

Lemma leads_empty s k th c : leads s k th c -> leads s empty_track th c.
Proof.
  intros Hl. eapply rtc_r; [exact Hl|]. apply sp_forget_all; try done; intros t; simpl; by rewrite lookup_empty.
Qed.

Lemma leads_epoch s k th th' c cl i : GetMainnetClient the_chains = Ok cl ->
  cc_GetThresholdWeight cl i = Ok th' -> leads s k th c -> leads s k th' c.
Proof. intros Hcl Hi Hl. eapply rtc_r; [exact Hl|]. apply sp_epoch; try done. by exists cl, i. Qed.

Lemma leads_publish s (w : World NodeMem) r rs total th row :
  consensus_row w r rs total th row -> db_consensus (w_db w) !! tr_taskID r = None ->
  leads s (get_track w) (GetThresholdWeight (w_mem w)) (db_consensus (w_db w)) ->
  leads s (get_track w) (GetThresholdWeight (w_mem w)) (<[tr_taskID r := row]> (db_consensus (w_db w))).
Proof.
  intros [Hheld Hsum Hlimit Hreached Hsigs _ (Hid & _) _] Hnone Hl.
  apply calculateTotalWeight_sum in Hsum as [-> _].
  eapply rtc_r; [exact Hl|]. apply (sp_publish _ _ _ _ (tr_taskID r) row th); try done.
  simpl. rewrite Hheld. exact Hsigs.
Qed.

End refinement.

(** ** Properties *)

Section properties.
Context `{EnvOk} `{EthLib} `{P2PLib} `{PubSub} `{OperatorSigner} `{CM : ChainManager} `{HttpLib}.
Variable h : Handler.

Lemma node_leads (Hsig : signer_ok) (Hnil : nil_is_integer) w w' l
    (Hrun : history (node_step h) started (w' :: l)) (Hw : w ∈ w' :: l) :
  leads (w' :: l) (spec_state w) (get_track w') (GetThresholdWeight (w_mem w')) (db_consensus (w_db w')).
Proof.
  set (L := w' :: l) in *. set (seen := registered L). set (P := valid_vote L).
  assert (inv seen P (fun _ _ _ => True) w) as Hinv.
  { revert w Hw. apply (history_invariant _ _ _ _ Hrun).
    - intros w0 Hin Hst. split; [split; [split|done]|by apply started_sighted].
      + unfold on_track. destruct Hst as [(-> & _) _]. apply track_all_empty.
      + by destruct Hst as [(_ & _ & ?) _].
    - intros w1 w2 _ Hin Hi Hstep. pose proof (registered_rows _ _ Hin) as Hrows. revert Hi Hstep Hrows.
      apply (node_step_backed h Hnil seen P task_good); try done;
        [apply vote_verified|by apply vote_own|apply task_good_response|apply key_ok_good]. }
  apply list_elem_of_split in Hw as (l1 & l2 & E).
  enough (inv seen P (leads L (spec_state w)) w') as [[_ Hl] _] by exact Hl.
  assert (history (node_step h) started (l1 ++ w :: l2)) as Hrun' by by rewrite <- E.
  refine (history_from _ _ _ _ _ _ Hrun' _ _ w' _).
  - destruct Hinv as [[Htp _] Hs]. split; [split; [exact Htp|apply rtc_refl]|exact Hs].
  - intros w1 w2 _ Hin Hi Hstep. rewrite <- E in Hin.
    pose proof (registered_rows _ _ Hin) as Hrows. revert Hi Hstep Hrows.
    apply (node_step_backed h Hnil seen P task_good);
      [apply vote_verified|by apply vote_own|apply task_good_response|apply key_ok_good|..].
    + intros. by eapply leads_store.
    + intros. by apply leads_clear.
    + intros. by eapply leads_empty.
    + intros. by eapply leads_epoch.
    + intros. by eapply leads_publish.
  - destruct l1 as [|x l1]; simplify_eq/=; by left.
Qed.


(** C2: a node refines the specification of a quorum.  Whatever its
    handlers, ticks and callbacks do, in whatever order and with whatever
    failures, from each moment [w] of a run on, what the node does is a run
    of the specification on its votes, weights, threshold and published
    answers: a vote is only taken when it verifies and counts with the weight
    of the operator that cast it, an operator that was in the table during
    the run; the threshold only changes to one that the registry's contract
    reported; and an answer is only published, signed by the votes held, when
    their weights reach the threshold. *)
Theorem node_refines_quorum (Hsig : signer_ok) (Hnil : nil_is_integer) w w' l
    (Hrun : history (node_step h) started (w' :: l)) (Hw : w ∈ w' :: l) :
  rtc (spec_step (weighed_vote (w' :: l)) reported_threshold) (spec_state w) (spec_state w').
Proof. by apply node_leads. Qed.

(** A node that starts without stored consensus, before its first epoch or
    with a threshold that was reported. *)
Definition quorum_start (w : World NodeMem) : Prop :=
  fresh_node w /\ forall th, GetThresholdWeight (w_mem w) = Some th -> reported_threshold (Some th).

Lemma start_spec_ok l w : quorum_start w -> spec_ok (weighed_vote l) reported_threshold (spec_state w).
Proof.
  intros [[[(Ht & _) _] Hc] Hth]. split; simpl; rewrite ?Ht, ?Hc; [|done|].
  - intros t. simpl. rewrite lookup_empty. apply ballot_empty.
  - by intros t row ?%lookup_empty_Some.
Qed.

(** C10: every stored consensus response has a quorum.  After every run of a
    node from a fresh start, each row of the consensus table is signed by
    votes for its task that verify under the keys of operators that were in
    the operator table during the run, each counted once with the weight of
    its operator, and the weights of these votes reach a threshold that the
    registry's contract reported. *)
Theorem stored_consensus_quorum (Hsig : signer_ok) (Hnil : nil_is_integer) w l
    (Hrun : history (node_step h) quorum_start (w :: l)) id row
    (Hrow : db_consensus (w_db w) !! id = Some row) :
  c_TaskID row = id /\ has_quorum (weighed_vote (w :: l)) reported_threshold id row.
Proof.
  destruct (history_start _ _ _ Hrun) as (w0 & Hin & Hst).
  assert (history (node_step h) started (w :: l)) as Hrun'
    by (eapply history_mono; [|exact Hrun]; by intros ? [[? _] _]).
  pose proof (node_leads Hsig Hnil w0 w l Hrun' Hin) as Hl.
  enough (spec_ok (weighed_vote (w :: l)) reported_threshold (spec_state w)) as Hok by by apply Hok.
  revert Hl. change (leads _ _ _ _ _) with
    (rtc (spec_step (weighed_vote (w :: l)) reported_threshold) (spec_state w0) (spec_state w)).
  generalize (start_spec_ok (w :: l) w0 Hst). intros Hok Hl.
  induction Hl as [|s1 s2 s3 Hstep _ IH]; [done|]. by apply IH, (spec_step_ok _ _ s1).
Qed.
End properties.

(** ** Example: the node that answers a request publishes its answer *)

Section toy.
#[local] Existing Instances toy_env toy_eth toy_p2p toy_pubsub toy_signer toy_chains toy_http.

Lemma node_refines_quorum_witness :
  rtc (spec_step (weighed_vote [toy_answered; toy_start]) reported_threshold)
    (spec_state toy_start) (spec_state toy_answered) /\
  sp_published (spec_state toy_start) = ∅ /\
  exists row, sp_published (spec_state toy_answered) !! toy_id = Some row.
Proof.
  split; [|split; [reflexivity|exact toy_stored]].
  apply (node_refines_quorum toy_handler toy_signer_ok toy_nil toy_start toy_answered [toy_start]).
  - apply history_step; [apply history_init, toy_fresh|apply ns_request].
  - by right; left.
Defined.

Lemma toy_quorum_start : quorum_start toy_start.
Proof.
  split; [exact toy_fresh|]. intros th [= <-]. exists toy_chain_client, O. by split; vm_compute.
Qed.

Lemma stored_consensus_quorum_witness : exists row,
  db_consensus (w_db toy_answered) !! toy_id = Some row /\ c_TaskID row = toy_id.
Proof.
  destruct toy_stored as [row Hrow]. exists row. split; [exact Hrow|].
  apply (stored_consensus_quorum toy_handler toy_signer_ok toy_nil toy_answered [toy_start]); [|exact Hrow].
  apply history_step; [apply history_init, toy_quorum_start|apply ns_request].
Defined.
End toy.
