(* ===== verification/Cache.v ===== *)
(** * internal/database/cache/cache.go: the read-through cache over Redis

    A [Get] serves a key from Redis; on a miss the callers of the key compete
    for a lock key ([SETNX] with a time to live), the winner reads the data
    source and fills the cache, the others sleep and look again until their
    waiting time is over.  Many goroutines, in many processes, do this at
    once, so the operations are programs of [Threads], cut at every call.

    Redis, msgpack, the clock and the cancellation of contexts are
    parameters; [RedisOk] states what the commands do to the keys (a server
    that does not evict).  [cw_trace] is the log of what the server and the
    data source were asked. *)

From S2P Require Import Prelude GoInt GoString Threads.

(** What the client sees of one command. *)
Inductive RedisOutcome :=
  | RDone
  | RFailed (e : error)    (** the server did not run it *)
  | RLost (e : error).     (** it ran, its answer is lost *)

Class Redis := {
  rds : Type;
  rds_get : Z -> string -> rds -> option bytes;
  rds_set : Z -> string -> bytes -> Z -> rds -> rds;
  rds_setnx : Z -> string -> bytes -> Z -> rds -> rds * bool;
  rds_del : Z -> list string -> rds -> rds;
  rds_fault : nat -> RedisOutcome;
  rds_delay : nat -> Z;            (** how long a step takes *)
  ctx_Done : nat -> bool;          (** the caller has cancelled *)
  select_tie : nat -> bool;        (** two timers fire together: which is first *)
}.

(** Whether a key set at [t] with a time to live is there at [t']; 0 is
    forever. *)
Definition live (t ttl t' : Z) : bool := (ttl =? 0) || (t' <? t + ttl).

Class RedisOk `{Redis} := {
  rds_delay_nonneg : forall i, 0 <= rds_delay i;
  rds_get_set : forall t t' k v ttl s, t <= t' ->
    rds_get t' k (rds_set t k v ttl s) = if live t ttl t' then Some v else None;
  rds_get_set_ne : forall t t' k k' v ttl s, k <> k' ->
    rds_get t' k' (rds_set t k v ttl s) = rds_get t' k' s;
  rds_setnx_spec : forall t k v ttl s,
    rds_setnx t k v ttl s =
    match rds_get t k s with
    | None => (rds_set t k v ttl s, true)
    | Some _ => (s, false)
    end;
  rds_get_del : forall t t' k ks s,
    rds_get t' k (rds_del t ks s) = if decide (k ∈ ks) then None else rds_get t' k s;
}.

(** msgpack, for the values that are not strings or byte slices *)
Class Msgpack := {
  Obj : Type;
  msgpack_Marshal : Obj -> res bytes;
  msgpack_Unmarshal : bytes -> Obj -> res Obj;
}.

Definition minSleep : Z := 50 * 1000000.

Definition ErrTimeout : error := Errorf "timeout".

Definition store (key : string) : string := "#" +:+ key +:+ "#".
Definition lock (key : string) : string := "#" +:+ key +:+ "#_lock".

(** The log: a lock won, the data source called, lock or store keys deleted,
    an answer missing. *)
Inductive event :=
  | EvAcquired (key : string)
  | EvCall (queryKey : string)
  | EvDel (keys : list string)
  | EvFault.

#[export] Instance event_eq_dec : EqDecision event.
Proof. solve_decision. Defined.

(** A value to cache, and the variable a cached value is read into. *)
Inductive value `{Msgpack} := VNil | VBytes (b : bytes) | VString (s : string) | VObj (o : Obj).
Inductive target `{Msgpack} := TNil | TBytes (b : bytes) | TString (s : string) | TObj (o : Obj).

Section codec.
Context `{Msgpack}.

Definition marshal (v : value) : res bytes :=
  match v with
  | VNil => Ok []
  | VBytes b => Ok b
  | VString s => Ok (string_bytes s)
  | VObj o => msgpack_Marshal o
  end.

(** The variable after the call; an empty value leaves it as it was. *)
Definition unmarshal (b : bytes) (v : target) : res target :=
  match b with
  | [] => Ok v
  | _ =>
    match v with
    | TNil => Ok TNil
    | TBytes _ => Ok (TBytes b)
    | TString _ => Ok (TString (bytes_string b))
    | TObj o => match msgpack_Unmarshal b o with
                | Ok o' => Ok (TObj o')
                | Err e => Err e
                | Panic s => Panic s
                end
    end
  end.
End codec.

Section cache.
Context `{Redis, Msgpack}.

Record Client := mkClient {
  readThroughPerKeyLimit : Z;
  maxWaitingTime : Z;
}.

Definition NewCache (readThroughPerKeyLimit maxWaitingTime : Z) : res Client :=
  Ok (mkClient readThroughPerKeyLimit maxWaitingTime).

Record CacheW := mkCacheW {
  cw_step : nat;
  cw_now : Z;
  cw_redis : rds;
  cw_trace : list event;
}.

Abbreviation CM := (M CacheW).
Abbreviation CP := (prog CacheW).

Definition set_redis s (w : CacheW) := mkCacheW (cw_step w) (cw_now w) s (cw_trace w).
Definition set_now t (w : CacheW) := mkCacheW (cw_step w) t (cw_redis w) (cw_trace w).
Definition log (es : list event) (w : CacheW) :=
  mkCacheW (cw_step w) (cw_now w) (cw_redis w) (cw_trace w ++ es).

(** One step: its index, while the clock moves. *)
Definition pass : CM nat := fun w =>
  (mkCacheW (S (cw_step w)) (cw_now w + rds_delay (cw_step w)) (cw_redis w) (cw_trace w),
   Ok (cw_step w)).

(** A command of the Redis client. *)
Definition command {A} (cmd : Z -> rds -> rds * A) (ev : A -> list event) : CM A :=
  let! i := pass in
  fun w =>
    let '(s, a) := cmd (cw_now w) (cw_redis w) in
    match rds_fault i with
    | RDone => (log (ev a) (set_redis s w), Ok a)
    | RFailed e => (log [EvFault] w, Err e)
    | RLost e => (log (ev a ++ [EvFault]) (set_redis s w), Err e)
    end.

(** [Get(key).Result()]: [redis.Nil] is the answer [None]. *)
Definition redis_Get (key : string) : CM (option bytes) :=
  command (fun t s => (s, rds_get t key s)) (fun _ => []).
Definition redis_Set (key : string) (bs : bytes) (ttl : Z) : CM unit :=
  command (fun t s => (rds_set t key bs ttl s, tt)) (fun _ => []).
Definition redis_SetNX (key : string) (bs : bytes) (ttl : Z) : CM bool :=
  command (fun t s => rds_setnx t key bs ttl s)
    (fun updated => if updated : bool then [EvAcquired key] else []).
Definition redis_Del (keys : list string) : CM unit :=
  command (fun t s => (rds_del t keys s, tt)) (fun _ => [EvDel keys]).

(** A pass-through function: what the data source answers to the [i]-th call,
    and for how long to keep it. *)
Definition PassThroughExpireFunc : Type := nat -> res (value * Z).
Definition PassThroughFunc : Type := nat -> res value.

Definition call_source (queryKey : string) (f : PassThroughExpireFunc) : CM (value * Z) :=
  let! i := pass in
  do! modify (log [EvCall queryKey]) in
  lift (f i).

Definition invalidKey (keys : list string) : CP unit := atom (redis_Del keys).

Definition getNoCache (queryKey : string) (f : PassThroughExpireFunc) (v : target) :
    CP target :=
  let& r := ptry (atom (call_source queryKey f)) in
  match r with
  | inr err =>
      let& _ := ptry (invalidKey [lock queryKey]) in
      Done (Err err)
  | inl (dbres, expire) =>
      let& bs := Done (marshal dbres) in
      let& _ := ptry (atom (redis_Set (store queryKey) bs expire)) in
      Done (unmarshal bs v)
  end.

(** [waitCtx], made at the first wait, and the timer of this one *)
Definition start_wait (c : Client) (waitCtx : option Z) : CM (Z * Z) :=
  let! _ := pass in
  let! now := gets cw_now in
  ret (default (now + maxWaitingTime c) waitCtx, now + minSleep).

(** The [select]: [true] when the timer came first. *)
Definition select_wait (deadline wake : Z) : CM bool :=
  let! i := pass in
  if ctx_Done i then ret false
  else if (wake <? deadline) || ((wake =? deadline) && select_tie i) then
    do! modify (fun w => set_now (Z.max (cw_now w) wake) w) in ret true
  else
    do! modify (fun w => set_now (Z.max (cw_now w) deadline) w) in ret false.

(** The body after the label [retry]; [fuel] bounds the number of jumps. *)
Fixpoint get_retry (fuel : nat) (c : Client) (queryKey : string) (tgt : target)
    (f : PassThroughExpireFunc) (waitCtx : option Z) : CP target :=
  match fuel with
  | O => Done (Panic "out of fuel")
  | S fuel =>
    let& r := ptry (atom (redis_Get (store queryKey))) in
    match r with
    | inl (Some bs) => Done (unmarshal bs tgt)
    | inr _ => getNoCache queryKey f tgt
    | inl None =>
      let& updated := ptry (atom (redis_SetNX (lock queryKey) [] (readThroughPerKeyLimit c))) in
      match updated with
      | inr _ => getNoCache queryKey f tgt
      | inl true => getNoCache queryKey f tgt
      | inl false =>
        let& (deadline, wake) := atom (start_wait c waitCtx) in
        let& woken := atom (select_wait deadline wake) in
        if woken : bool then get_retry fuel c queryKey tgt f (Some deadline)
        else Done (Err ErrTimeout)
      end
    end
  end.

Definition get_fuel (c : Client) : nat := Z.to_nat (maxWaitingTime c / minSleep) + 2.

Definition GetWithExpire (c : Client) (queryKey : string) (tgt : target)
    (f : PassThroughExpireFunc) : CP target :=
  get_retry (get_fuel c) c queryKey tgt f None.

Definition Get (c : Client) (queryKey : string) (tgt : target) (expire : Z)
    (f : PassThroughFunc) : CP target :=
  GetWithExpire c queryKey tgt
    (fun i => let? res := f i in Ok (res, expire)).

Fixpoint Invalidate (keys : list string) : CP unit :=
  match keys with
  | [] => Done (Ok tt)
  | key :: keys' =>
      do& invalidKey [lock key; store key] in Invalidate keys'
  end.

Definition Set_ (key : string) (val : value) (ttl : Z) : CP unit :=
  let& bs := Done (marshal val) in
  atom (redis_Set (store key) bs ttl).
End cache.

(** ** The keys of Redis *)

Lemma string_app_inj_l (p s s' : string) : p +:+ s = p +:+ s' -> s = s'.
Proof. induction p as [|a p IH]; simpl; [done|]. intros [= ?]. auto. Qed.

Lemma string_app_inj_r (s s' p : string) : s +:+ p = s' +:+ p -> s = s'.
Proof.
  intros E%(f_equal chars). rewrite !chars_app in E.
  apply (inj (fun l => l ++ chars p)) in E.
  rewrite <- (of_chars_chars s), <- (of_chars_chars s'). by rewrite E.
Qed.

Lemma store_inj k k' : store k = store k' -> k = k'.
Proof. intros E. by apply string_app_inj_l, string_app_inj_r in E. Qed.

Lemma lock_inj k k' : lock k = lock k' -> k = k'.
Proof. intros E. by apply string_app_inj_l, string_app_inj_r in E. Qed.

(** A key of the data never is a key of a lock, whatever the query keys. *)
Lemma store_lock k k' : store k <> lock k'.
Proof.
  intros E%(f_equal (fun s => last (chars s))). unfold store, lock in E.
  rewrite !chars_app, !last_app in E. done.
Qed.

(** ** What the operations of many callers keep *)

Definition count (p : event -> bool) (tr : list event) : Z := Z.of_nat (length (List.filter p tr)).

Lemma count_app p tr tr' : count p (tr ++ tr') = count p tr + count p tr'.
Proof. unfold count. rewrite List.filter_app, length_app. lia. Qed.

Lemma count_nonneg p tr : 0 <= count p tr.
Proof. unfold count. lia. Qed.

Lemma count_one p e : count p [e] = if p e then 1 else 0.
Proof. unfold count. simpl. by destruct (p e). Qed.

(** Events of one query key in the log. *)
Definition acquired (k : string) : list event -> Z :=
  count (fun e => bool_decide (e = EvAcquired (lock k))).
Definition called (k : string) : list event -> Z :=
  count (fun e => bool_decide (e = EvCall k)).
Definition lock_deleted (k : string) : list event -> Z :=
  count (fun e => match e with EvDel ks => bool_decide (lock k ∈ ks) | _ => false end).
Definition faults : list event -> Z :=
  count (fun e => bool_decide (e = EvFault)).

Section callers.
Context `{RedisOk, Msgpack}.
Context (c : Client) (k : string) (t0 : Z).
Context (P : string -> bytes -> Prop).   (** the bytes a query key may stand for *)
Context (HL : 0 < readThroughPerKeyLimit c).

Abbreviation L := (readThroughPerKeyLimit c).

(** From the start on, a lock that was won is there until [e], and the locks
    won so far have used up the time until [e], a limit each. *)
Definition lock_inv (w : CacheW) : Prop := exists e,
  (forall t, cw_now w <= t < e -> rds_get t (lock k) (cw_redis w) <> None) /\
  acquired k (cw_trace w) * L <= e - t0 + lock_deleted k (cw_trace w) * L /\
  e <= cw_now w + L.

(** What Redis holds for a query key is right for it. *)
Definition prov_inv (w : CacheW) : Prop := forall t k' b, cw_now w <= t ->
  rds_get t (store k') (cw_redis w) = Some b -> P k' b.

Definition cache_inv (w : CacheW) : Prop := lock_inv w /\ prov_inv w.

Definition later (w w' : CacheW) : Prop := cw_now w <= cw_now w'.

#[local] Instance later_preorder : PreOrder later.
Proof. unfold later. split; [intros w; lia | intros w1 w2 w3; lia]. Qed.

(** Locks won and answers missing, less calls of the data source. *)
Definition acct (w : CacheW) : Z :=
  acquired k (cw_trace w) + faults (cw_trace w) - called k (cw_trace w).

(** Going on from [w] to the time [t] and the server [s]. *)
Definition moved (w : CacheW) t s es : CacheW :=
  mkCacheW (S (cw_step w)) t s (cw_trace w ++ es).

(** A step that wins no lock of [k] and takes none away. *)
Lemma cache_inv_moved w t s es :
  cache_inv w -> cw_now w <= t -> acquired k es = 0 ->
  (forall t', t <= t' -> rds_get t' (lock k) s = rds_get t' (lock k) (cw_redis w)) ->
  (forall t' k' b, t <= t' -> rds_get t' (store k') s = Some b ->
     rds_get t' (store k') (cw_redis w) = Some b \/ P k' b) ->
  cache_inv (moved w t s es).
Proof.
  intros [(e & Hl & Ha & He) Hp] Ht Hq Hlock Hstore. split.
  - exists e. simpl. split; [intros t' Ht'; rewrite Hlock by lia; apply Hl; lia|].
    unfold acquired, lock_deleted in *. rewrite !count_app, Hq. split; [|lia].
    pose proof (count_nonneg (fun e => match e with
      EvDel ks => bool_decide (lock k ∈ ks) | _ => false end) es). nia.
  - intros t' k' b Ht'. simpl in *. intros [Hb|Hb]%Hstore; [|done|lia].
    apply (Hp t'); [lia|done].
Qed.

Lemma cache_inv_set w t k' b ttl es :
  cache_inv w -> cw_now w <= t -> P k' b -> acquired k es = 0 ->
  cache_inv (moved w t (rds_set t (store k') b ttl (cw_redis w)) es).
Proof.
  intros Hinv Ht Hb Hq. apply cache_inv_moved; [done..| |].
  - intros t' _. apply rds_get_set_ne, store_lock.
  - intros t' k2 b2 Ht'. destruct (decide (k' = k2)) as [->|Hne].
    + rewrite rds_get_set by done. destruct (live _ _ _); [|done]. intros [= <-]. by right.
    + rewrite rds_get_set_ne; [by left|]. by intros ?%store_inj.
Qed.

Lemma cache_inv_setnx w t k' es :
  cache_inv w -> cw_now w <= t ->
  let '(s, won) := rds_setnx t (lock k') [] L (cw_redis w) in
  acquired k es = (if won && bool_decide (k' = k) then 1 else 0) ->
  cache_inv (moved w t s es).
Proof.
  intros Hinv Ht. rewrite rds_setnx_spec.
  destruct (rds_get t (lock k') (cw_redis w)) eqn:Eget.
  { intros Hq. apply cache_inv_moved; eauto. }
  intros Hq. case_bool_decide as Hk; simpl in Hq.
  - subst k'. destruct Hinv as [(e & Hl & Ha & He) Hp].
    assert (e <= t) as Het.
    { apply Z.nlt_ge. intros Hlt. apply (Hl t); [lia|done]. }
    split.
    + exists (t + L). simpl. split; [|split; [|lia]].
      * intros t' Ht'. rewrite rds_get_set by lia. unfold live.
        replace (t' <? t + L) with true by (symmetry; apply Z.ltb_lt; lia).
        by rewrite orb_true_r.
      * unfold acquired, lock_deleted in *. rewrite !count_app, Hq.
        pose proof (count_nonneg (fun e => match e with
          EvDel ks => bool_decide (lock k ∈ ks) | _ => false end) es). nia.
    + intros t' k' b Ht'. simpl in *. rewrite rds_get_set_ne.
      * intros Hb. apply (Hp t'); [lia|done].
      * intros E. by apply (store_lock k' k).
  - apply cache_inv_moved; [done..| |].
    + intros t' _. apply rds_get_set_ne. by intros ?%lock_inj.
    + intros t' k2 b2 _ Hb. left. rewrite rds_get_set_ne in Hb; [done|].
      intros E. by apply (store_lock k2 k').
Qed.

Lemma cache_inv_del w t ks es :
  cache_inv w -> cw_now w <= t -> acquired k es = 0 ->
  lock_deleted k es = (if bool_decide (lock k ∈ ks) then 1 else 0) ->
  cache_inv (moved w t (rds_del t ks (cw_redis w)) es).
Proof.
  intros Hinv Ht Hq Hd. case_bool_decide as Hk.
  - destruct Hinv as [(e & Hl & Ha & He) Hp]. split.
    + exists t. simpl. split; [lia|]. split; [|lia].
      unfold acquired, lock_deleted in *. rewrite !count_app, Hq, Hd. nia.
    + intros t' k' b Ht'. simpl in *. rewrite rds_get_del. destruct (decide _); [done|].
      intros Hb. apply (Hp t'); [lia|done].
  - apply cache_inv_moved; [done..| |].
    + intros t' _. rewrite rds_get_del. by destruct (decide _).
    + intros t' k' b _. rewrite rds_get_del. destruct (decide _); [done|]. by left.
Qed.

(** ** One step of a caller *)

Abbreviation safe := (psafe cache_inv later acct).

(** An atom pays for what it logs. *)
Lemma safe_atom {A} (m : M CacheW A) Q n w :
  0 <= n ->
  (forall w1, cw_now w <= cw_now w1 -> cache_inv w1 ->
     cache_inv (m w1).1 /\ cw_now w1 <= cw_now (m w1).1 /\
     0 <= n + (acct (m w1).1 - acct w1) /\
     forall w2, cw_now (m w1).1 <= cw_now w2 ->
       Q (n + (acct (m w1).1 - acct w1)) (m w1).2 w2) ->
  safe Q n (atom m) w.
Proof.
  intros Hn Hm. apply psafe_atom; [done|]. intros w1 HR HI.
  destruct (Hm w1 HR HI) as (HI' & HR' & Hpay & HQ).
  exists (n + (acct (m w1).1 - acct w1)). split; [done|]. split; [|exact HQ].
  unfold good_step. split_and!; [done|done|lia].
Qed.

Definition account (es : list event) : Z := acquired k es + faults es - called k es.

Lemma acct_moved w t s es : acct (moved w t s es) = acct w + account es.
Proof.
  unfold acct, account, moved, acquired, faults, called. simpl. rewrite !count_app. lia.
Qed.

(** The three ways a command ends. *)
Lemma safe_command {A} (X : A -> Prop) (cmd : Z -> rds -> rds * A) ev Q n w :
  0 <= n ->
  (forall w1 t, cw_now w <= cw_now w1 -> cw_now w1 <= t -> cache_inv w1 ->
     let '(s, a) := cmd t (cw_redis w1) in
     X a /\
     forall es, acquired k es = acquired k (ev a) -> lock_deleted k es = lock_deleted k (ev a) ->
     cache_inv (moved w1 t s es)) ->
  (forall a, 0 <= account (ev a)) ->
  (forall a w', X a -> Q (n + account (ev a)) (Ok a) w') ->
  (forall n' e w', n + 1 <= n' -> Q n' (Err e) w') ->
  safe Q n (atom (command cmd ev)) w.
Proof.
  intros Hn Hinv Hpay Hok Herr. apply safe_atom; [done|]. intros w1 HR HI.
  pose proof (rds_delay_nonneg (cw_step w1)) as Hd.
  set (t := cw_now w1 + rds_delay (cw_step w1)).
  specialize (Hinv w1 t HR ltac:(lia) HI).
  assert (Hfault : forall es, account (es ++ [EvFault]) = account es + 1 /\
      acquired k (es ++ [EvFault]) = acquired k es /\
      lock_deleted k (es ++ [EvFault]) = lock_deleted k es).
  { intros es. unfold account, acquired, faults, called, lock_deleted. rewrite !count_app.
    rewrite !count_one. repeat case_bool_decide; try done. lia. }
  unfold command, bind, pass. fold t. cbn [cw_now cw_redis cw_step].
  destruct (cmd t (cw_redis w1)) as [s a]. destruct Hinv as [Hx Hinv].
  destruct (rds_fault (cw_step w1)) as [|e|e]; cbn [fst snd].
  - change (log _ _) with (moved w1 t s (ev a)). rewrite acct_moved.
    split; [by apply Hinv|]. split; [simpl; lia|]. split; [specialize (Hpay a); lia|].
    intros w2 _. replace (n + _) with (n + account (ev a)) by lia. by apply Hok.
  - change (log _ _) with (moved w1 t (cw_redis w1) [EvFault]). rewrite acct_moved.
    split; [|split; [simpl; lia|]].
    { apply cache_inv_moved; [done|lia|reflexivity|done|by left]. }
    destruct (Hfault []) as (Ha & _ & _). change ([] ++ [EvFault]) with [EvFault] in Ha.
    rewrite Ha. change (account []) with 0. split; [lia|].
    intros w2 _. apply Herr. lia.
  - change (log _ _) with (moved w1 t s (ev a ++ [EvFault])). rewrite acct_moved.
    destruct (Hfault (ev a)) as (-> & ? & ?).
    split; [by apply Hinv|]. split; [simpl; lia|]. split; [specialize (Hpay a); lia|].
    intros w2 _. apply Herr. specialize (Hpay a). lia.
Qed.

(** What is assumed of a data source: it answers, with a value or an error,
    and a value for [k'] is right for [k']. *)
Definition source_ok (k' : string) (f : PassThroughExpireFunc) : Prop :=
  (forall i why, f i <> Panic why) /\
  forall i v ttl b, f i = Ok (v, ttl) -> marshal v = Ok b -> P k' b.

Definition value_ok (k' : string) (v : value) : Prop := forall b, marshal v = Ok b -> P k' b.

Definition codec_answers : Prop :=
  (forall o why, msgpack_Marshal o <> Panic why) /\
  (forall b o why, msgpack_Unmarshal b o <> Panic why).

Hypothesis Hcodec : codec_answers.

(** What a caller gets: right bytes, decoded, or an error. *)
Definition answered (k' : string) (v : target) (n : Z) (r : res target) (w : CacheW) : Prop :=
  match r with
  | Ok t => exists b, P k' b /\ unmarshal b v = Ok t
  | Err _ => True
  | Panic _ => False
  end.

Lemma unmarshal_answers b v why : unmarshal b v <> Panic why.
Proof.
  destruct b as [|x b]; [done|]. destruct v as [|?|?|o]; try done.
  simpl. destruct (msgpack_Unmarshal (x :: b) o) eqn:E; try done.
  by destruct (proj2 Hcodec _ _ _ E).
Qed.

Lemma unmarshal_answered k' b v n w : P k' b -> answered k' v n (unmarshal b v) w.
Proof.
  intros Hb. destruct (unmarshal b v) as [t|e|why] eqn:E; [|done|].
  - by exists b.
  - by destruct (unmarshal_answers _ _ _ E).
Qed.

Lemma marshal_answers v why : marshal v <> Panic why.
Proof. destruct v; simpl; try done. apply Hcodec. Qed.

Ltac solve_account :=
  unfold account, acquired, faults, called; rewrite ?count_one; simpl;
  repeat case_bool_decide; simplify_eq;
  repeat match goal with H : ?x = ?x -> _ |- _ => specialize (H eq_refl) end;
  unfold count; simpl; lia.

Lemma call_source_safe k' f n w :
  0 <= n -> (k' = k -> 1 <= n) -> source_ok k' f ->
  safe (fun _ r _ => match r with
                     | Ok (v, _) => value_ok k' v
                     | Err _ => True
                     | Panic _ => False
                     end) n (atom (call_source k' f)) w.
Proof.
  intros Hn Hk [Hp Hf]. apply safe_atom; [done|]. intros w1 HR HI.
  pose proof (rds_delay_nonneg (cw_step w1)) as Hd.
  unfold call_source, bind, pass, modify, lift. cbn [fst snd].
  change (log _ _) with (moved w1 (cw_now w1 + rds_delay (cw_step w1)) (cw_redis w1) [EvCall k']).
  rewrite acct_moved. split; [|split; [simpl; lia|]].
  { apply cache_inv_moved; [done|lia|reflexivity|done|by left]. }
  split.
  { solve_account. }
  intros w2 _. destruct (f (cw_step w1)) as [[v ttl]|e|why] eqn:E; [|done|].
  - intros b Hb. by eapply Hf.
  - by destruct (Hp _ _ E).
Qed.

(** Commands on the data and deletions need no credit. *)
Lemma redis_Set_safe k' bs ttl (Q : Z -> res unit -> CacheW -> Prop) n w :
  0 <= n -> P k' bs -> (forall n' r w', n <= n' -> (forall s, r <> Panic s) -> Q n' r w') ->
  safe Q n (atom (redis_Set (store k') bs ttl)) w.
Proof.
  intros Hn Hb HQ. apply (safe_command (fun _ => True)); [done|..].
  - intros w1 t _ Ht HI. split; [done|]. intros es Hq _. by apply cache_inv_set.
  - intros _. solve_account.
  - intros a w' _. apply HQ; [solve_account|done].
  - intros n' e w' Hn'. apply HQ; [lia|done].
Qed.

Lemma redis_Del_safe ks (Q : Z -> res unit -> CacheW -> Prop) n w :
  0 <= n -> (forall n' r w', n <= n' -> (forall s, r <> Panic s) -> Q n' r w') ->
  safe Q n (atom (redis_Del ks)) w.
Proof.
  intros Hn HQ. apply (safe_command (fun _ => True)); [done|..].
  - intros w1 t _ Ht HI. split; [done|]. intros es Hq Hd. apply cache_inv_del; [done..|].
    rewrite Hd. unfold lock_deleted. by rewrite count_one.
  - intros _. solve_account.
  - intros a w' _. apply HQ; [solve_account|done].
  - intros n' e w' Hn'. apply HQ; [lia|done].
Qed.

Lemma redis_Get_safe k' (Q : Z -> res (option bytes) -> CacheW -> Prop) n w :
  0 <= n ->
  (forall w', Q n (Ok None) w') ->
  (forall b w', P k' b -> Q n (Ok (Some b)) w') ->
  (forall n' e w', n + 1 <= n' -> Q n' (Err e) w') ->
  safe Q n (atom (redis_Get (store k'))) w.
Proof.
  intros Hn Hnone Hsome Herr.
  apply (safe_command (fun r => forall b, r = Some b -> P k' b)); [done|..].
  - intros w1 t _ Ht HI. split; [|intros es Hq _; by apply cache_inv_moved; eauto].
    intros b Hb. destruct HI as [_ Hp]. by apply (Hp t).
  - intros _. solve_account.
  - intros a w' Ha. replace (n + _) with n by solve_account.
    destruct a as [b|]; [by apply Hsome, Ha|done].
  - done.
Qed.

Lemma getNoCache_safe k' f v n w :
  0 <= n -> (k' = k -> 1 <= n) -> source_ok k' f ->
  safe (answered k' v) n (getNoCache k' f v) w.
Proof.
  intros Hn Hk Hf. unfold getNoCache. rule psafe_try_bind.
  eapply psafe_weaken; [by apply call_source_safe|].
  intros n1 [[dbres expire]|err|why] w1 Hn1; [|intros _|done].
  - intros Hv. rule psafe_pbind. split; [done|]. intros w2 _.
    destruct (marshal dbres) as [bs|e|why] eqn:Em; [|done|by destruct (marshal_answers _ _ Em)].
    cbn [bind_post]. rule psafe_try_bind. apply (redis_Set_safe k'); [done|by apply Hv|].
    intros n2 r w3 Hn2 Hr.
    assert (safe (answered k' v) n2 (Done (unmarshal bs v)) w3).
    { split; [lia|]. intros w4 _. by apply unmarshal_answered, Hv. }
    destruct r as [u|e|why]; [done|done|by destruct (Hr why)].
  - rule psafe_try_bind. apply redis_Del_safe; [done|].
    intros n2 r w3 Hn2 Hr. destruct r as [u|e|why]; [| |by destruct (Hr why)]; (split; [lia|done]).
Qed.

Lemma redis_SetNX_safe k' (Q : Z -> res bool -> CacheW -> Prop) n w :
  0 <= n ->
  (forall n' w', n <= n' -> Q n' (Ok false) w') ->
  (forall n' w', n <= n' -> (k' = k -> n + 1 <= n') -> Q n' (Ok true) w') ->
  (forall n' e w', n + 1 <= n' -> Q n' (Err e) w') ->
  safe Q n (atom (redis_SetNX (lock k') [] L)) w.
Proof.
  intros Hn Hfalse Htrue Herr. apply (safe_command (fun _ => True)); [done|..].
  - intros w1 t _ Ht HI. pose proof (cache_inv_setnx w1 t k') as Hset.
    destruct (rds_setnx t (lock k') [] L (cw_redis w1)) as [s won].
    split; [done|]. intros es Hq _. apply Hset; [done..|]. rewrite Hq.
    destruct won; [|done]. unfold acquired. rewrite count_one. simpl.
    repeat case_bool_decide; simplify_eq; try done.
    match goal with E : _ +:+ _ = _ |- _ => by apply string_app_inj_r in E end.
  - intros [|]; solve_account.
  - intros [|] w' _.
    + apply Htrue; [|intros ->]; solve_account.
    + apply Hfalse. solve_account.
  - done.
Qed.

(** Waiting costs nothing, and the clock goes on. *)
Lemma wait_safe {A} (m : M CacheW A) (Q : Z -> res A -> CacheW -> Prop) n w :
  0 <= n ->
  (forall w1, cw_redis (m w1).1 = cw_redis w1 /\ cw_trace (m w1).1 = cw_trace w1 /\
     cw_now w1 <= cw_now (m w1).1) ->
  (forall w1 w2, cw_now w <= cw_now w1 -> cw_now (m w1).1 <= cw_now w2 -> Q n (m w1).2 w2) ->
  safe Q n (atom m) w.
Proof.
  intros Hn Hm HQ. apply safe_atom; [done|]. intros w1 HR HI.
  destruct (Hm w1) as (Er & Et & Hnow).
  assert (acct (m w1).1 - acct w1 = 0) as Ha by (unfold acct; rewrite Et; lia).
  rewrite Ha. split; [|split; [done|split; [lia|]]].
  - destruct HI as [(e & Hl & Ha' & He) Hp]. unfold cache_inv, lock_inv, prov_inv.
    rewrite Er, Et. split.
    + exists e. split; [intros t Ht; apply Hl; lia|]. split; [done|lia].
    + intros t k' b Ht. apply Hp. lia.
  - intros w2 Hw2. rewrite Z.add_0_r. by apply HQ.
Qed.

(** The fuel left is more than the naps that fit before the deadline. *)
Definition enough_fuel (fuel : nat) (waitCtx : option Z) (now : Z) : Prop :=
  match waitCtx with
  | None => maxWaitingTime c < minSleep * (Z.of_nat fuel - 1) /\ (1 < fuel)%nat
  | Some deadline => deadline - now < minSleep * Z.of_nat fuel /\ (0 < fuel)%nat
  end.

Lemma start_wait_deadline fuel waitCtx w w' :
  enough_fuel (S fuel) waitCtx (cw_now w) -> cw_now w <= cw_now w' ->
  exists deadline now, (start_wait c waitCtx w').2 = Ok (deadline, now + minSleep) /\
    cw_now (start_wait c waitCtx w').1 = now /\
    deadline - now < minSleep * Z.of_nat (S fuel).
Proof.
  intros Hf Hw. pose proof (rds_delay_nonneg (cw_step w')) as Hd.
  eexists _, _. split; [reflexivity|]. split; [reflexivity|].
  destruct waitCtx as [d|]; cbn [enough_fuel default from_option id cw_now] in *;
    rewrite !Nat2Z.inj_succ in *; unfold minSleep in *; lia.
Qed.

(** A timer that comes first has come before the deadline. *)
Lemma select_wait_woken deadline wake w :
  (select_wait deadline wake w).2 = Ok true ->
  wake <= deadline /\ wake <= cw_now (select_wait deadline wake w).1.
Proof.
  unfold select_wait, bind, pass, modify, ret. cbn [fst snd].
  destruct (ctx_Done (cw_step w)); [done|].
  destruct (wake <? deadline) eqn:E1; [apply Z.ltb_lt in E1; intros _; simpl; lia|].
  destruct (wake =? deadline) eqn:E2; [|done]. destruct (select_tie (cw_step w)); [|done].
  apply Z.eqb_eq in E2. intros _. simpl. lia.
Qed.

Lemma retry_wait_safe fuel waitCtx (Q : Z -> res target -> CacheW -> Prop) k' n w :
  0 <= n -> enough_fuel (S fuel) waitCtx (cw_now w) ->
  (forall d w', enough_fuel fuel (Some d) (cw_now w') -> safe Q n (k' d) w') ->
  (forall e w', Q n (Err e) w') ->
  safe Q n (let& (deadline, wake) := atom (start_wait c waitCtx) in
            let& woken := atom (select_wait deadline wake) in
            if woken : bool then k' deadline else Done (Err ErrTimeout)) w.
Proof.
  intros Hn Hf Hk Herr. rule psafe_pbind. apply wait_safe; [done|..].
  { intros w1. simpl. pose proof (rds_delay_nonneg (cw_step w1)). split_and!; [done..|lia]. }
  intros w1 w2 Hw1 Hw2. destruct (start_wait_deadline fuel waitCtx w w1 Hf Hw1)
    as (deadline & now & -> & Hnow & Hd).
  cbn [bind_post]. rule psafe_pbind. apply wait_safe; [done|..].
  { intros w3. pose proof (rds_delay_nonneg (cw_step w3)).
    unfold select_wait, bind, pass. destruct (ctx_Done _); [|destruct (_ || _)];
      simpl; (split_and!; [done..|lia]). }
  intros w3 w4 Hw3 Hw4. destruct ((select_wait _ _ w3).2) as [[|]|e|why] eqn:E; cbn [bind_post].
  - apply select_wait_woken in E as [Hle Hwake]. apply Hk. simpl. unfold minSleep in *. lia.
  - split; [done|]. intros w5 _. apply Herr.
  - intros w5 _. apply Herr.
  - unfold select_wait, bind, pass in E. destruct (ctx_Done _); [|destruct (_ || _)]; done.
Qed.

Lemma get_retry_safe k' v f : source_ok k' f -> forall fuel waitCtx n w,
  0 <= n -> enough_fuel fuel waitCtx (cw_now w) ->
  safe (answered k' v) n (get_retry fuel c k' v f waitCtx) w.
Proof.
  intros Hf. induction fuel as [|fuel IH]; intros waitCtx n w Hn Hfuel.
  { by destruct waitCtx; destruct Hfuel; lia. }
  cbn [get_retry]. rule psafe_try_bind. rule psafe_rely. apply redis_Get_safe; [done|..].
  - intros w1 Hw1. rule psafe_try_bind. rule psafe_rely. apply redis_SetNX_safe; [done|..].
    + intros n2 w2 Hn2 Hw2. unfold later in Hw1, Hw2.
      assert (enough_fuel (S fuel) waitCtx (cw_now w2)) as Hfuel2.
      { destruct waitCtx; simpl in *; [lia|done]. }
      apply (retry_wait_safe fuel waitCtx _ (fun d => get_retry fuel c k' v f (Some d)));
        [lia|done|by intros; apply IH; [lia|]|done].
    + intros n2 w2 Hn2 Hk Hw2. apply getNoCache_safe; [lia| |done]. intros Ek. specialize (Hk Ek). lia.
    + intros n2 e w2 Hn2 Hw2. apply getNoCache_safe; [lia|intros _; lia|done].
  - intros b w1 Hb _. split; [done|]. intros w2 _. by apply unmarshal_answered.
  - intros n1 e w1 Hn1 _. apply getNoCache_safe; [lia|intros _; lia|done].
Qed.

Lemma GetWithExpire_safe k' v f n w : source_ok k' f -> 0 <= n ->
  safe (answered k' v) n (GetWithExpire c k' v f) w.
Proof.
  intros Hf Hn. apply get_retry_safe; [done..|]. unfold get_fuel, enough_fuel, minSleep.
  change (50 * 1000000) with 50000000.
  pose proof (Z.div_mod (maxWaitingTime c) 50000000 ltac:(done)).
  pose proof (Z.mod_pos_bound (maxWaitingTime c) 50000000 ltac:(done)). lia.
Qed.

Lemma Invalidate_safe ks (Q : Z -> res unit -> CacheW -> Prop) n w :
  0 <= n -> (forall n' r w', 0 <= n' -> (forall s, r <> Panic s) -> Q n' r w') ->
  safe Q n (Invalidate ks) w.
Proof.
  intros Hn HQ. revert n w Hn. induction ks as [|k' ks IH]; intros n w Hn; cbn [Invalidate].
  { split; [done|]. intros. by apply HQ. }
  rule psafe_pbind. apply redis_Del_safe; [done|]. intros n' r w' Hn' Hr.
  destruct r as [u|e|why]; cbn [bind_post].
  - apply IH. lia.
  - intros. apply HQ; [lia|done].
  - by destruct (Hr why).
Qed.

Lemma Set_safe k' v ttl (Q : Z -> res unit -> CacheW -> Prop) n w :
  0 <= n -> value_ok k' v -> (forall n' r w', 0 <= n' -> (forall s, r <> Panic s) -> Q n' r w') ->
  safe Q n (Set_ k' v ttl) w.
Proof.
  intros Hn Hv HQ. unfold Set_. rule psafe_pbind. split; [done|]. intros w' _.
  destruct (marshal v) as [bs|e|why] eqn:E; cbn [bind_post].
  - apply (redis_Set_safe k'); [done|by apply Hv|]. intros. apply HQ; [lia|done].
  - intros. by apply HQ.
  - by destruct (marshal_answers _ _ E).
Qed.

(** ** Any number of callers *)

(** A call, and what it was for. *)
Definition caller (p : prog CacheW target) (k' : string) (v : target) :
    prog CacheW (option (string * target * target)) :=
  let& t := p in Done (Ok (Some (k', v, t))).
Definition silent (p : prog CacheW unit) : prog CacheW (option (string * target * target)) :=
  do& p in Done (Ok None).

Inductive operation : prog CacheW (option (string * target * target)) -> Prop :=
  | op_Get k' v f : source_ok k' f -> operation (caller (GetWithExpire c k' v f) k' v)
  | op_Set k' v ttl : value_ok k' v -> operation (silent (Set_ k' v ttl))
  | op_Invalidate ks : operation (silent (Invalidate ks)).

(** Time passes between the steps. *)
Definition idle (w w' : CacheW) : Prop := exists t, cw_now w <= t /\ w' = set_now t w.

Definition op_answered (r : res (option (string * target * target))) : Prop :=
  match r with
  | Ok (Some (k', v, t)) => exists b, P k' b /\ unmarshal b v = Ok t
  | Ok None | Err _ => True
  | Panic _ => False
  end.

Lemma operation_safe p w : operation p -> safe (fun _ r _ => op_answered r) 0 p w.
Proof.
  intros [k' v f Hf|k' v ttl Hv|ks].
  - unfold caller. rule psafe_pbind. eapply psafe_weaken; [by apply GetWithExpire_safe|].
    intros n [t|e|why] w' Hn; cbn [answered bind_post]; [|done|done].
    intros Ht. by split.
  - unfold silent. rule psafe_pbind. apply Set_safe; [done..|].
    intros n [u|e|why] w' Hn Hr; cbn [bind_post]; [by split|done|by destruct (Hr why)].
  - unfold silent. rule psafe_pbind. apply Invalidate_safe; [done|].
    intros n [u|e|why] w' Hn Hr; cbn [bind_post]; [by split|done|by destruct (Hr why)].
Qed.

Lemma idle_safe w w' : idle w w' -> cache_inv w -> good_step cache_inv later acct 0 0 w w'.
Proof.
  intros (t & Ht & ->) [(e & Hl & Ha & He) Hp].
  split; [split|split; [done|unfold acct; simpl; lia]].
  - exists e. simpl. split; [intros t' Ht'; apply Hl; lia|]. split; [done|lia].
  - intros t' k' b Ht'. apply Hp. simpl in Ht'. lia.
Qed.

Definition cache_start (w : CacheW) : Prop :=
  cw_now w = t0 /\ cw_trace w = [] /\ prov_inv w.

Lemma operations_sound w0 w ps :
  cache_start w0 -> pool_reach operation idle w0 (w, ps) ->
  cache_inv w /\ 0 <= acct w /\ forall r, Done r ∈ ps -> op_answered r.
Proof.
  intros (Hnow & Htr & Hp) Hreach.
  destruct (pool_sound cache_inv later acct (fun _ r _ => op_answered r) operation idle
    (fun p w Hop _ => operation_safe p w Hop) idle_safe w0 w ps) as (Hinv & Hacct & Hans).
  - split; [|done]. exists t0. rewrite Htr, Hnow. split; [intros t; lia|].
    unfold acquired, lock_deleted, count. simpl. lia.
  - unfold acct. rewrite Htr. unfold acquired, faults, called, count. simpl. lia.
  - done.
  - split; [done|]. split; [done|]. intros r Hr. by destruct (Hans r Hr) as (n & _ & ?).
Qed.

(** C28: the cache protects the data source.  Whatever the interleaving of any
    number of callers, setters and invalidations of any keys, the calls of
    the source for one key, not counting one for each answer of Redis that
    was missing and one for each time its lock was deleted (an invalidation,
    or a call that failed), are at most one per [readThroughPerKeyLimit] of
    the time that has passed, and one. *)
Theorem read_through_rate w0 w ps (Hstart : cache_start w0)
    (Hrun : pool_reach operation idle w0 (w, ps)) :
  (called k (cw_trace w) - faults (cw_trace w) - lock_deleted k (cw_trace w) - 1) * L
  <= cw_now w - t0.
Proof.
  destruct (operations_sound w0 w ps Hstart Hrun) as ([(e & _ & Ha & He) _] & Hacct & _).
  unfold acct in Hacct. nia.
Qed.

(** C29: what a caller gets.  In every interleaving a [Get] that has returned
    gives an error or a value decoded from bytes that the source of its own
    key, or a [Set] of that key, has produced; values of other keys and
    lock keys never reach it, and no caller waits beyond its naps: the bound
    on the jumps to [retry] is never used up. *)
Theorem read_through_answers w0 w ps (Hstart : cache_start w0)
    (Hrun : pool_reach operation idle w0 (w, ps)) r (Hr : Done r ∈ ps) :
  match r with
  | Ok (Some (k', v, t)) => exists b, P k' b /\ unmarshal b v = Ok t
  | Ok None | Err _ => True
  | Panic _ => False
  end.
Proof. by apply (operations_sound w0 w ps Hstart Hrun). Qed.
End callers.

(** ** Example: two callers of one key, the second waits for the first *)

Definition toy_redis : Redis := {|
  rds := gmap string (bytes * Z * Z);
  rds_get t k s := match s !! k with
                   | Some (b, t0, ttl) => if live t0 ttl t then Some b else None
                   | None => None
                   end;
  rds_set t k v ttl s := <[k := (v, t, ttl)]> s;
  rds_setnx t k v ttl s :=
    match (match s !! k with
           | Some (b, t0, ttl') => if live t0 ttl' t then Some b else None
           | None => None
           end) with
    | None => (<[k := (v, t, ttl)]> s, true)
    | Some _ => (s, false)
    end;
  rds_del t ks s := foldr delete s ks;
  rds_fault i := RDone;
  rds_delay i := 1;
  ctx_Done i := false;
  select_tie i := false;
|}.

#[export] Instance toy_redis_ok : @RedisOk toy_redis.
Proof.
  constructor; simpl.
  - lia.
  - intros. by rewrite lookup_insert_eq.
  - intros. by rewrite lookup_insert_ne.
  - done.
  - intros t t' k ks s. induction ks as [|k' ks IH]; [done|]. simpl.
    destruct (decide (k = k')) as [->|Hne].
    + rewrite lookup_delete_eq. by rewrite decide_True by set_solver.
    + rewrite lookup_delete_ne by done. rewrite IH. apply decide_ext. set_solver.
Qed.

Definition toy_msgpack : Msgpack := {|
  Obj := bytes;
  msgpack_Marshal o := Ok o;
  msgpack_Unmarshal b o := Ok b;
|}.

Section example.
#[local] Existing Instances toy_redis toy_msgpack.

Definition toy_client : Client := mkClient 1000000000 500000000.
Definition toy_source : PassThroughExpireFunc := fun i => Ok (VString "v", 0).
Definition toy_start : CacheW := mkCacheW 0 0 (∅ : gmap string (bytes * Z * Z)) [].
Definition toy_caller := caller (GetWithExpire toy_client "q" (TString "") toy_source) "q" (TString "").

(** The first caller wins the lock and calls the source, the second finds the
    key locked, naps, and is served from the cache. *)
Definition toy_pool := pool_exec [0; 0; 1; 1; 1; 0; 0; 1; 1]%nat (toy_start, [toy_caller; toy_caller]).

Definition toy_right (k : string) (b : bytes) : Prop := b = string_bytes "v".

Lemma toy_caller_operation : operation toy_client toy_right toy_caller.
Proof. apply op_Get. split; [done|]. by intros i v ttl b [= <- <-] [= <-]. Qed.

Lemma toy_pool_reach :
  pool_reach (operation toy_client toy_right) idle toy_start (toy_pool.1, toy_pool.2).
Proof.
  rewrite <- surjective_pairing. apply pool_exec_reach, pool_spawn_reach.
  constructor; [apply toy_caller_operation|].
  constructor; [apply toy_caller_operation|constructor].
Qed.

Lemma toy_cache_start : cache_start 0 toy_right toy_start.
Proof. by split_and!. Qed.

Lemma toy_codec_answers : codec_answers.
Proof. by split. Qed.

Lemma toy_second_answer : Done (Ok (Some ("q", TString "", TString "v"))) ∈ toy_pool.2.
Proof.
  apply (list_elem_of_lookup_2 _ 1). vm_compute. reflexivity.
Qed.
End example.

Lemma read_through_rate_witness :
  @called "q" (cw_trace toy_pool.1) = 1 /\
  (@called "q" (cw_trace toy_pool.1) - faults (cw_trace toy_pool.1) -
   lock_deleted "q" (cw_trace toy_pool.1) - 1) * 1000000000 <= cw_now toy_pool.1 - 0.
Proof.
  split; [vm_compute; reflexivity|].
  apply (@read_through_rate toy_redis toy_redis_ok toy_msgpack toy_client "q" 0 toy_right
    ltac:(done) toy_codec_answers toy_start toy_pool.1 toy_pool.2 toy_cache_start).
  exact toy_pool_reach.
Defined.

Lemma read_through_answers_witness :
  exists b, toy_right "q" b /\
    @unmarshal toy_msgpack b (@TString toy_msgpack "") = Ok (@TString toy_msgpack "v").
Proof.
  refine (@read_through_answers toy_redis toy_redis_ok toy_msgpack toy_client "q" 0 toy_right
    ltac:(done) toy_codec_answers toy_start toy_pool.1 toy_pool.2 toy_cache_start toy_pool_reach
    (Ok (Some ("q", @TString toy_msgpack "", @TString toy_msgpack "v"))) _).
  exact toy_second_answer.
Defined.
