(* ===== verification/Framing.v ===== *)
(** * pkg/common/utils.go: messages and addresses on a stream

    A [network.Stream] is what has arrived and not been read, what has been
    written, and how many calls were made; [StreamEnv] decides which write
    fails, after how many bytes, and how a read that finds too little ends.
    [msgio] (the varint framing), protobuf and multiaddresses are parameters
    with their documented laws. *)

From S2P Require Import Prelude GoInt.

Class StreamEnv := {
  write_fails : nat -> option (nat * error);  (** accepted bytes, and the error *)
  read_ends : nat -> error;                   (** EOF, a reset, a deadline *)
}.

Record Stream := mkStream {
  st_step : nat;
  st_in : bytes;
  st_out : bytes;
}.

Section framing.
Context `{StreamEnv}.

Abbreviation SM := (M Stream).

(** [stream.Write(p)] *)
Definition stream_Write (p : bytes) : SM unit := fun s =>
  match write_fails (st_step s) with
  | None => (mkStream (S (st_step s)) (st_in s) (st_out s ++ p), Ok tt)
  | Some (n, e) => (mkStream (S (st_step s)) (st_in s) (st_out s ++ take n p), Err e)
  end.

(** [io.ReadFull(stream, buf)] with a buffer of [n] bytes: all of them, or an
    error after what there was. *)
Definition ReadFull (n : nat) : SM bytes := fun s =>
  if Nat.leb n (length (st_in s))
  then (mkStream (S (st_step s)) (drop n (st_in s)) (st_out s), Ok (take n (st_in s)))
  else (mkStream (S (st_step s)) [] (st_out s), Err (read_ends (st_step s))).

(** [length] is a [uint32]. *)
Definition WriteLengthPrefix (length : Z) : SM unit :=
  let lengthBuf := be_bytes 4 length in
  wrapM "failed to write length prefix" (stream_Write lengthBuf).

Definition ReadLengthPrefix : SM Z :=
  let! lengthBuf := wrapM "failed to read length prefix" (ReadFull 4) in
  ret (be_val lengthBuf).

Definition WriteLengthPrefixedData (data : bytes) : SM unit :=
  do! WriteLengthPrefix (u32 (Z.of_nat (length data))) in
  wrapM "failed to write data" (stream_Write data).

(** ** Length prefixes *)

Lemma take_be n x (rest : bytes) : take n (be_bytes n x ++ rest) = be_bytes n x.
Proof. by rewrite take_app_length' by (symmetry; apply be_bytes_length). Qed.

Lemma drop_be n x (rest : bytes) : drop n (be_bytes n x ++ rest) = rest.
Proof. by rewrite drop_app_length' by (symmetry; apply be_bytes_length). Qed.

Lemma ReadLengthPrefix_prefixed x rest s : is_u32 x -> st_in s = be_bytes 4 x ++ rest ->
  ReadLengthPrefix s = (mkStream (S (st_step s)) rest (st_out s), Ok x).
Proof.
  intros Hx Hin. unfold ReadLengthPrefix, bind, wrapM, ReadFull. rewrite Hin.
  rewrite length_app, be_bytes_length, drop_be, take_be.
  replace (Nat.leb 4 (4 + length rest)) with true by (symmetry; apply Nat.leb_le; lia).
  cbn [wrap ret]. rewrite be_bytes_val; [done|]. unfold is_u32 in Hx. simpl. lia.
Qed.

(** A reader in step with the writer: what [WriteLengthPrefixedData] has
    written, followed by whatever else was written, reads back as a prefix
    equal to the length of the data modulo [2 ^ 32], then the data; so data
    of less than 4 GiB is framed exactly, and longer data is announced as
    shorter than it is. *)
Theorem length_prefix_roundtrip data s s' r rest
    (Hsent : WriteLengthPrefixedData data s = (s', Ok tt))
    (Hrecv : st_in r = drop (length (st_out s)) (st_out s') ++ rest) :
  exists r', ReadLengthPrefix r = (r', Ok (Z.of_nat (length data) mod 2 ^ 32)) /\
    st_in r' = data ++ rest /\
    (Z.of_nat (length data) < 2 ^ 32 ->
     ReadFull (Z.to_nat (Z.of_nat (length data) mod 2 ^ 32)) r' =
       (mkStream (S (st_step r')) rest (st_out r'), Ok data)).
Proof.
  unfold WriteLengthPrefixedData, WriteLengthPrefix in Hsent.
  apply bind_Ok in Hsent as (s1 & [] & H1 & H2).
  rewrite wrapM_Ok in H1, H2. unfold stream_Write in H1, H2.
  destruct (write_fails (st_step s)) as [[??]|]; [done|]. injection H1 as <-.
  simpl in H2. destruct (write_fails (S (st_step s))) as [[??]|]; [done|]. injection H2 as <-.
  simpl in Hrecv. rewrite <- app_assoc, drop_app_length, <- app_assoc in Hrecv.
  pose proof (ReadLengthPrefix_prefixed _ _ r (u32_range _) Hrecv) as Hread.
  eexists. split; [exact Hread|]. split; [done|]. intros Hlen. simpl.
  unfold ReadFull. simpl. rewrite Z.mod_small, Nat2Z.id by lia.
  rewrite length_app, take_app_length, drop_app_length.
  by replace (Nat.leb _ _) with true by (symmetry; apply Nat.leb_le; lia).
Qed.
End framing.

(** ** Messages and addresses *)

Class MsgLib := {
  Message : Type;
  proto_Marshal : Message -> res bytes;
  proto_Unmarshal : bytes -> res Message;
  msgio_frame : bytes -> bytes;                       (** what [WriteMsg] sends *)
  msgio_ReadMsg : Z -> bytes -> bytes * res bytes;    (** what it leaves, and a message *)
  Multiaddr : Type;
  multiaddr_String : Multiaddr -> string;
  NewMultiaddr : string -> res Multiaddr;
}.

Class MsgLibOk `{MsgLib} := {
  proto_roundtrip : forall m b, proto_Marshal m = Ok b -> proto_Unmarshal b = Ok m;
  msgio_roundtrip : forall max b rest, Z.of_nat (length b) <= max ->
    msgio_ReadMsg max (msgio_frame b ++ rest) = (rest, Ok b);
  msgio_bounded : forall max s b rest, msgio_ReadMsg max s = (rest, Ok b) ->
    Z.of_nat (length b) <= max;
  multiaddr_roundtrip : forall a, NewMultiaddr (multiaddr_String a) = Ok a;
}.

Section messages.
Context `{StreamEnv, MsgLib}.

Definition MultiaddrsToStrings (multiaddrs : list Multiaddr) : list string :=
  map multiaddr_String multiaddrs.

Fixpoint StringsToMultiaddrs (addrs : list string) : res (list Multiaddr) :=
  match addrs with
  | [] => Ok []
  | addr :: addrs' =>
      let? maddr := wrap ("invalid multiaddr " +:+ addr) (NewMultiaddr addr) in
      let? multiaddrs := StringsToMultiaddrs addrs' in
      Ok (maddr :: multiaddrs)
  end.

Definition ReadStreamMessage (maxMessageSize : Z) : M Stream Message :=
  let! b := (fun s =>
    let '(rest, r) := msgio_ReadMsg maxMessageSize (st_in s) in
    (mkStream (S (st_step s)) rest (st_out s), r)) in
  lift (proto_Unmarshal b).

Definition WriteStreamMessage (msg : Message) : M Stream unit :=
  let! b := lift (proto_Marshal msg) in
  stream_Write (msgio_frame b).

Context `{!MsgLibOk}.

Lemma multiaddrs_roundtrip l : StringsToMultiaddrs (MultiaddrsToStrings l) = Ok l.
Proof.
  induction l as [|a l IH]; [done|]. cbn [MultiaddrsToStrings map StringsToMultiaddrs].
  rewrite multiaddr_roundtrip. cbn [wrap res_bind]. fold (MultiaddrsToStrings l). by rewrite IH.
Qed.

(** A list with an address that does not parse is refused as a whole. *)
Lemma StringsToMultiaddrs_all l : (exists r, StringsToMultiaddrs l = Ok r) <->
  Forall (fun a => exists m, NewMultiaddr a = Ok m) l.
Proof.
  induction l as [|a l IH]; cbn [StringsToMultiaddrs].
  { split; [by constructor|by eexists]. }
  rewrite Forall_cons_iff, <- IH. split.
  - intros (r & Hr). apply res_bind_Ok in Hr as (m & Hm & Hr).
    apply wrap_Ok in Hm. apply res_bind_Ok in Hr as (ms & Hms & _). eauto.
  - intros ((m & ->) & (ms & ->)). by eexists.
Qed.

(** A message written whole and small enough is read back, and what follows
    it is left on the stream. *)
Lemma message_roundtrip m b s s' r rest max :
  proto_Marshal m = Ok b -> Z.of_nat (length b) <= max ->
  WriteStreamMessage m s = (s', Ok tt) ->
  st_in r = drop (length (st_out s)) (st_out s') ++ rest ->
  ReadStreamMessage max r = (mkStream (S (st_step r)) rest (st_out r), Ok m).
Proof.
  intros Hm Hb Hw Hr. unfold WriteStreamMessage in Hw. rewrite Hm in Hw.
  unfold bind, lift, stream_Write in Hw.
  destruct (write_fails (st_step s)) as [[??]|]; [done|]. injection Hw as <-.
  simpl in Hr. rewrite drop_app_length in Hr.
  unfold ReadStreamMessage, bind, lift. rewrite Hr, msgio_roundtrip by done.
  simpl. by rewrite (proto_roundtrip _ _ Hm).
Qed.
End messages.

Definition toy_stream : StreamEnv := {|
  write_fails _ := None;
  read_ends _ := Errorf "EOF";
|}.

Lemma length_prefix_roundtrip_witness :
  let s := mkStream 0 [] [9] in
  let r := mkStream 0 [0; 0; 0; 2; 7; 8; 5] [] in
  exists r', @ReadLengthPrefix toy_stream r = (r', Ok (2 mod 2 ^ 32)) /\ st_in r' = [7; 8] ++ [5].
Proof.
  intros s r.
  destruct (@length_prefix_roundtrip toy_stream [7; 8] s (mkStream 2 [] [9; 0; 0; 0; 2; 7; 8])
    r [5] ltac:(vm_compute; reflexivity) ltac:(vm_compute; reflexivity)) as (r' & Hr & Hin & _).
  by exists r'.
Defined.
