(* ===== verification/Dumps.v ===== *)
(** * pkg/repos/*: Dump and Load of a table

    The four repositories have the same generated pair: [Dump] selects the
    columns it names, in the order of the primary key under the collation of
    the database, scans each row into the fields it names and writes JSON;
    [Load] runs an [INSERT] of the columns it names for each row of such a
    text.  The pair is written once, over the interface [Row] of a table; the
    instances have the column lists, the scanned fields and the arguments of
    the four repositories, and the statements run under the declared tables of
    [Tables].

    JSON and the driver keep the values of a row, not the representation of
    its numbers, so rows are compared by [row_eq]. *)

From S2P Require Import Prelude GoInt GoString Numeric EpochMath Models World.
From S2P Require Import TasksRepo BlacklistRepo OperatorsRepo ConsensusRepo Sql Tables.

(** ** The same number *)

(** Both NULL, or both the same integer, which is what the node stores. *)
Definition num_eq (n m : Numeric) : Prop :=
  (nValid n = false /\ nValid m = false) \/ exists x, represents n x /\ represents m x.

#[export] Instance num_eq_sym : Symmetric num_eq.
Proof. intros n m [[? ?]|(x & ? & ?)]; [by left|right; eauto]. Qed.

Lemma represents_valid n x : represents n x -> nValid n = true.
Proof. by intros [? _]. Qed.

#[export] Instance num_eq_trans : Transitive num_eq.
Proof.
  intros n1 n2 n3 [[H1 H2]|(x & H1 & H2)] [[H3 H4]|(y & H3 & H4)].
  - by left.
  - apply represents_valid in H3. congruence.
  - apply represents_valid in H2. congruence.
  - right. exists x. split; [done|]. by rewrite (represents_inj _ _ _ H2 H3).
Qed.

Lemma scan_num_eq `{EnvOk} n : num_eq n n -> num_eq n (scan_numeric n).
Proof.
  unfold scan_numeric. intros [[Hn _]|(x & Hx & _)].
  - rewrite Hn. by left.
  - rewrite (represents_valid _ _ Hx). right. exists x. split; [done|].
    by apply env_scan_represents.
Qed.

(** A number comes back from a parameter of a statement, as a cell and as a
    field. *)
Lemma stored_number `{Env} n m : num_eq n m -> exists o, numeric_arg m = Ok o /\
  let k := default null_numeric o in
  num_cell k = CNumeric <$> o /\ num_eq n k /\ num_ok k = nValid n /\ nValid k = nValid n.
Proof.
  intros [[Hn Hm]|(x & Hx & Hm)]; unfold numeric_arg.
  - rewrite Hm. exists None. split; [done|]. split_and!; try done. by left.
  - pose proof Hm as (Hv & _ & i & Hi & _). rewrite Hv, Hi. exists (Some m). split; [done|]. cbn zeta.
    unfold num_cell, num_ok. simpl. rewrite Hv, Hi, (represents_valid _ _ Hx).
    split_and!; try done. right. eauto.
Qed.

(** SQL equality is equality of the integers. *)
Lemma numeric_eqb_represents n m x y : represents n x -> represents m y ->
  numeric_eqb n m = (x =? y).
Proof.
  intros (Hv & _ & i & Hi & Hp & Hq) (Hv' & _ & j & Hj & Hp' & Hq').
  unfold numeric_eqb. rewrite Hv, Hi, Hv', Hj.
  assert (Hs : forall a i x e, (0 <= a -> x = i * 10 ^ a) -> (a < 0 -> i = x * 10 ^ (- a)) ->
    e <= a -> e <= 0 -> i * 10 ^ (a - e) = x * 10 ^ (- e)).
  { clear. intros a i x e Hp Hq Ha He. destruct (Z.lt_ge_cases a 0) as [Hn|Hn].
    - rewrite Hq by done. rewrite <- Z.mul_assoc, <- Z.pow_add_r by lia. do 2 f_equal. lia.
    - rewrite Hp, <- Z.mul_assoc, <- Z.pow_add_r by lia. by replace (a - e) with (a + - e) by lia. }
  set (e := Z.min (nExp n) (nExp m)).
  set (e0 := Z.min e 0).
  pose proof (Hs _ _ _ e0 Hp Hq ltac:(lia) ltac:(lia)) as E1.
  pose proof (Hs _ _ _ e0 Hp' Hq' ltac:(lia) ltac:(lia)) as E2.
  replace (nExp n - e0) with ((nExp n - e) + (e - e0)) in E1 by lia.
  replace (nExp m - e0) with ((nExp m - e) + (e - e0)) in E2 by lia.
  rewrite Z.pow_add_r, Z.mul_assoc in E1 by lia.
  rewrite Z.pow_add_r, Z.mul_assoc in E2 by lia.
  pose proof (pow10_pos (e - e0) ltac:(lia)) as HP.
  pose proof (pow10_pos (- e0) ltac:(lia)) as HQ.
  apply eq_true_iff_eq. rewrite !Z.eqb_eq. split.
  - intros E. rewrite E, E2 in E1. apply (Z.mul_reg_r _ _ (10 ^ (- e0))); [lia|done].
  - intros ->. rewrite <- E2 in E1. apply (Z.mul_reg_r _ _ (10 ^ (e - e0))); [lia|done].
Qed.

(** ** Tables *)

Class Row `{Env} (A : Type) := {
  row_name : TableName;
  row_table : DB -> gmap string A;
  row_set_table : gmap string A -> DB -> DB;
  row_cells : A -> Tuple;                        (** the row as the table holds it *)
  row_fields : list (option Cell) -> option A;   (** and back, from its cells in order *)
  dump_columns : list string;                    (** [SELECT <columns>] *)
  row_scan : list (option Cell) -> option A;     (** [rows.Scan(&v.<field>, ...)] *)
  load_columns : list string;                    (** [INSERT INTO ... (<columns>)] *)
  row_args : A -> res (list (option Cell));      (** [VALUES (row.<field>, ...)] *)
  row_eq : A -> A -> Prop;
}.

Definition row_key `{Row A} (r : A) : option string := key_of (schema row_name) (row_cells r).
Definition row_id `{Row A} (r : A) : string := default "" (row_key r).

(** A row of the table: it is as declared, and its numbers are integers. *)
Definition row_ok `{Row A} (r : A) : Prop :=
  row_eq r r /\ tuple_ok (schema row_name) (row_cells r) = true.

(** The [INSERT] of [Load] *)
Definition load_stmt `{Row A} (args : list (option Cell)) : list (string * Expr) :=
  zip load_columns (EValue <$> args).

Class RowOk `{Row A} := {
  row_get_set : forall m d, row_table (row_set_table m d) = m;
  row_set_set : forall m m' d, row_set_table m (row_set_table m' d) = row_set_table m d;
  row_set_get : forall d, row_set_table (row_table d) d = d;
  row_contents : forall d, contents d row_name = row_cells <$> row_table d;
  row_eq_sym :: Symmetric row_eq;
  row_eq_trans :: Transitive row_eq;
  row_key_eq : forall r r', row_eq r r' -> row_key r = row_key r';
  row_dump : forall r, row_eq r r ->
    exists v, row_scan (map (fun c => get c (row_cells r)) dump_columns) = Some v /\ row_eq r v;
  row_load : forall r r', row_ok r -> row_eq r r' -> exists args s, row_args r' = Ok args /\
    (forall now, new_row now (schema row_name) (load_stmt args) = row_cells s) /\
    row_fields (row_cells s).*2 = Some s /\ row_eq r s /\ row_ok s;
  row_clash_eq : forall r1 r1' r2 r2', row_eq r1 r1' -> row_eq r2 r2' ->
    clashes (schema row_name) (row_cells r1) (row_cells r2) =
    clashes (schema row_name) (row_cells r1') (row_cells r2');
}.

(** The collation of the database, and JSON. *)
Class DumpEnv (A : Type) := {
  pg_collate : relation string;
  pg_collate_dec :: forall x y, Decision (pg_collate x y);
  json_text : Type;
  json_MarshalIndent : list A -> res json_text;
  json_Unmarshal : json_text -> res (list A);
}.

Class DumpEnvOk `{Row A, DumpEnv A} := {
  json_roundtrip : forall l b, json_MarshalIndent l = Ok b -> Forall (fun r => row_eq r r) l ->
    exists l', json_Unmarshal b = Ok l' /\ Forall2 row_eq l l';
}.

(** PostgreSQL refuses the row, or a cell cannot be scanned into its field. *)
Definition ErrRefused : error := Errorf "the row is refused".
Definition ErrScan : error := Errorf "cannot scan".

Section dump.
Context {C : Type} `{Row A, DumpEnv A}.

(** [SELECT <columns> ... ORDER BY <primary key>, ...] *)
Definition sql_dump (now : Z) (d : DB) : res (DB * list (list (option Cell))) :=
  Ok (d, (fun r => map (fun c => get c (row_cells r)) dump_columns) <$>
         merge_sort (fun x y => pg_collate (row_id x) (row_id y)) (table_rows (row_table d))).

(** [INSERT INTO ...] of one row, under the table as it is declared *)
Definition sql_load (row : A) (now : Z) (d : DB) : res (DB * unit) :=
  let? args := row_args row in
  let values := load_stmt args in
  match exec (schema row_name) (Insert values None) now (contents d row_name),
        key_of (schema row_name) (new_row now (schema row_name) values) with
  | Some m, Some k =>
      match m !! k ≫= fun tuple => row_fields tuple.*2 with
      | Some s => Ok (row_set_table (<[k := s]> (row_table d)) d, tt)
      | None => Err ErrRefused
      end
  | _, _ => Err ErrRefused
  end.

(** [for rows.Next() { rows.Scan(...); ... }] *)
Fixpoint scan_rows (beforeDump : list (A -> A)) (rows : list (list (option Cell))) : res (list A) :=
  match rows with
  | [] => Ok []
  | row :: rows' =>
      match row_scan row with
      | None => Err ErrScan
      | Some v =>
          let? items := scan_rows beforeDump rows' in
          Ok (foldl (fun v apply => apply v) v beforeDump :: items)
      end
  end.

Definition dump_rows (beforeDump : list (A -> A)) : M (World C) json_text :=
  let! rows := pg_call sql_dump in
  let! items := lift (scan_rows beforeDump rows) in
  lift (json_MarshalIndent items).

Definition load_rows (data : json_text) : M (World C) unit :=
  let! rows := lift (json_Unmarshal data) in
  for_all rows (fun row => pg_call (sql_load row)).
End dump.

Section roundtrip.
Context {C : Type} `{RowOk A, !DumpEnv A, !DumpEnvOk}.

Definition pg_answers : Prop := forall i, env_pg i = PgDone.

Lemma pg_call_done {B} (stmt : Z -> DB -> res (DB * B)) (w : World C) d b :
  pg_answers -> stmt (env_now (w_step w)) (w_db w) = Ok (d, b) ->
  pg_call stmt w = (set_db d (set_step (S (w_step w)) w), Ok b).
Proof. intros Hpg E. unfold pg_call, bind, tick. simpl. by rewrite Hpg, E. Qed.

(** A row that is new, and clashes with none, is inserted. *)
Lemma sql_load_new r r' k now d : row_ok r -> row_eq r r' -> row_key r = Some k ->
  row_table d !! k = None ->
  (forall k' x, row_table d !! k' = Some x -> row_eq x x /\
     clashes (schema row_name) (row_cells r) (row_cells x) = false) ->
  exists s, row_eq r s /\
    sql_load r' now d = Ok (row_set_table (<[k := s]> (row_table d)) d, tt).
Proof.
  intros Hr Heq Hk Hnew Hclash.
  destruct (row_load r r' Hr Heq) as (args & s & Hargs & Hrow & Hfields & Hrs & [_ Hs]).
  exists s. split; [done|]. unfold sql_load. rewrite Hargs. cbn [res_bind].
  assert (key_of (schema row_name) (row_cells s) = Some k) as Hks
    by (rewrite <- Hk; symmetry; by apply row_key_eq).
  unfold exec. rewrite !Hrow, Hs, Hks. cbn [mbind option_bind].
  rewrite row_contents, lookup_fmap, Hnew. cbn [fmap option_fmap option_map]. unfold put.
  rewrite delete_id by by rewrite lookup_fmap, Hnew.
  destruct (existsb _ _) eqn:E.
  - apply existsb_exists in E as (x & Hx & Hc). apply list_elem_of_In, table_rows_fmap in Hx as (y & -> & Hy).
    apply elem_of_table_rows in Hy as [k' Hk']. destruct (Hclash k' y Hk') as [Hyy Hno].
    by rewrite <- (row_clash_eq r s y y), Hno in Hc.
  - rewrite lookup_insert_eq. cbn [mbind option_bind]. by rewrite Hfields.
Qed.

Lemma scan_rows_eq (rows : list A) : Forall (fun r => row_eq r r) rows ->
  exists items, scan_rows [] ((fun r => map (fun c => get c (row_cells r)) dump_columns) <$> rows) = Ok items /\
    Forall2 row_eq rows items.
Proof.
  induction 1 as [|r rows Hr _ (items & E & Hitems)]; [by exists []|].
  destruct (row_dump r Hr) as (v & Hv & Hrv). exists (v :: items). split; [|by constructor].
  rewrite fmap_cons. cbn [scan_rows]. rewrite Hv, E. done.
Qed.

Lemma Forall2_eq_trans (l1 l2 l3 : list A) :
  Forall2 row_eq l1 l2 -> Forall2 row_eq l2 l3 -> Forall2 row_eq l1 l3.
Proof.
  intros Hl. revert l3. induction Hl as [|x y l1 l2 Hxy _ IH]; intros l3 Hl3; inversion Hl3; subst; [done|].
  constructor; [by transitivity y|by apply IH].
Qed.

Lemma Forall2_eq_self (l l' : list A) : Forall2 row_eq l l' -> Forall (fun r => row_eq r r) l'.
Proof.
  induction 1 as [|r v l l' Hrv _ IH]; constructor; [|done]. transitivity r; [by symmetry|done].
Qed.

Context (m : gmap string A).
Hypothesis Hm : map_Forall (fun k r => row_key r = Some k /\ row_ok r) m.
Hypothesis Hunique : forall k1 k2 r1 r2, m !! k1 = Some r1 -> m !! k2 = Some r2 -> k1 <> k2 ->
  clashes (schema row_name) (row_cells r1) (row_cells r2) = false.

(** The keys in [ks] have been loaded from [m], and no others. *)
Definition loaded (ks : list string) (m1 : gmap string A) : Prop := forall k,
  (k ∈ ks -> exists r s, m !! k = Some r /\ m1 !! k = Some s /\ row_eq r s) /\
  (k ∉ ks -> m1 !! k = None).

Lemma loaded_Some ks m1 k s : loaded ks m1 -> m1 !! k = Some s ->
  k ∈ ks /\ exists r, m !! k = Some r /\ row_eq r s.
Proof.
  intros Hl Hs. destruct (decide (k ∈ ks)) as [Hk|Hk].
  - split; [done|]. destruct (proj1 (Hl k) Hk) as (r & s' & Hr & Hs' & Heq). simplify_eq. eauto.
  - rewrite (proj2 (Hl k) Hk) in Hs. done.
Qed.

Lemma loaded_insert ks m1 k r s : loaded ks m1 -> m !! k = Some r -> row_eq r s ->
  loaded (k :: ks) (<[k := s]> m1).
Proof.
  intros Hl Hr Heq k'. destruct (decide (k' = k)) as [->|Hne].
  - split; [|set_solver]. intros _. exists r, s. by rewrite lookup_insert_eq.
  - rewrite lookup_insert_ne by done. split; intros Hk; apply Hl; set_solver.
Qed.

(** Rows with their keys *)
Lemma load_run (l : list (string * A)) l' : Forall2 row_eq l.*2 l' ->
  Forall (fun kr => m !! kr.1 = Some kr.2) l ->
  forall ks (w : World C), pg_answers -> loaded ks (row_table (w_db w)) -> NoDup (l.*1 ++ ks) ->
  exists w', for_all l' (fun row => pg_call (sql_load row)) w = (w', Ok tt) /\
    loaded (reverse l.*1 ++ ks) (row_table (w_db w')) /\
    w_db w' = row_set_table (row_table (w_db w')) (w_db w).
Proof.
  revert l'. induction l as [|[k r] l IH]; intros l' Heq Hl ks w Hpg Hload Hnd.
  { inversion Heq; subst. exists w. split; [done|]. split; [done|]. by rewrite row_set_get. }
  inversion Heq as [|? r' ? l2 Hrr' Heq']; subst. clear Heq.
  apply Forall_cons in Hl as [Hr Hl]. simpl in Hr. cbn [fmap list_fmap app fst] in Hnd.
  apply NoDup_cons in Hnd as [Hnew Hnd]. destruct (Hm _ _ Hr) as [Hkey Hok].
  assert (k ∉ ks) as Hks by set_solver.
  destruct (sql_load_new r r' k (env_now (w_step w)) (w_db w) Hok Hrr' Hkey) as (s & Hrs & Hsql).
  { by apply Hload. }
  { intros k' x (Hk' & r0 & Hr0 & Hx)%(loaded_Some _ _ _ _ Hload).
    split; [transitivity r0; [by symmetry|done]|].
    rewrite <- (row_clash_eq r r r0 x); [|apply Hok|done].
    apply (Hunique k k' r r0 Hr Hr0). by intros ->. }
  set (w1 := set_db (row_set_table (<[k := s]> (row_table (w_db w))) (w_db w))
               (set_step (S (w_step w)) w)).
  destruct (IH l2 Heq' Hl (k :: ks) w1 Hpg) as (w' & Hrun & Hload' & Hdb).
  { simpl. rewrite row_get_set. by eapply loaded_insert. }
  { rewrite <- Permutation_middle. by constructor. }
  exists w'. split.
  { apply for_all_cons_Ok. exists w1. split; [by apply pg_call_done|exact Hrun]. }
  split.
  - cbn [fmap list_fmap fst]. rewrite reverse_cons, <- app_assoc. exact Hload'.
  - simpl in Hdb. by rewrite row_set_set in Hdb.
Qed.
End roundtrip.

(** What is asked of a table that is dumped: that it is as declared, which the
    tables of a node are (C8), and that its numbers are integers. *)
Definition dumpable `{Row A} (d : DB) : Prop :=
  Sql.table_ok (schema row_name) (contents d row_name) /\ map_Forall (fun _ r => row_eq r r) (row_table d).

Lemma dumpable_rows `{RowOk A} d : dumpable d ->
  map_Forall (fun k r => row_key r = Some k /\ row_ok r) (row_table d) /\
  forall k1 k2 r1 r2, row_table d !! k1 = Some r1 -> row_table d !! k2 = Some r2 -> k1 <> k2 ->
    clashes (schema row_name) (row_cells r1) (row_cells r2) = false.
Proof.
  intros [[Hr Hk Hu] Hint]. rewrite row_contents in Hr, Hk, Hu.
  assert (forall k r, row_table d !! k = Some r -> (row_cells <$> row_table d) !! k = Some (row_cells r)) as Hc
    by (intros k r E; by rewrite lookup_fmap, E).
  split.
  - intros k r E. split; [by apply Hk, Hc|]. split; [by eapply Hint|by eapply Hr, Hc].
  - intros k1 k2 r1 r2 E1 E2 Hne. by eapply Hu; [apply Hc, E1|apply Hc, E2|].
Qed.

(** The primary keys of a table are distinct. *)
Lemma keyed_rows `{RowOk A} d : dumpable d ->
  NoDup (row_id <$> table_rows (row_table d)) /\
  forall r, r ∈ table_rows (row_table d) <-> row_table d !! row_id r = Some r.
Proof.
  intros [Hm _]%dumpable_rows. unfold row_id. split.
  - unfold table_rows. rewrite <- list_fmap_compose. rewrite (list_fmap_ext _ fst).
    + apply NoDup_fst_map_to_list.
    + intros i [k r] Hi. simpl. destruct (Hm k r) as [-> _]; [|done].
      by apply elem_of_map_to_list, (list_elem_of_lookup_2 _ i).
  - intros r. rewrite elem_of_table_rows. split; [|eauto].
    intros [k Hk]. by destruct (Hm k r Hk) as [-> _].
Qed.

(** A dump restores the table: loaded into an empty table (of a database that
    answers) the text brings back every row, and nothing else; no other table
    is touched. *)
Definition restores {C A} `{Row A, DumpEnv A} (Dump : list (A -> A) -> M (World C) json_text)
    (Load : json_text -> M (World C) unit) : Prop :=
  forall (w w1 w2 : World C) b, dumpable (w_db w) -> Dump [] w = (w1, Ok b) ->
    row_table (w_db w2) = ∅ ->
    exists w3, Load b w2 = (w3, Ok tt) /\
      (forall k, option_Forall2 row_eq (row_table (w_db w) !! k) (row_table (w_db w3) !! k)) /\
      w_db w3 = row_set_table (row_table (w_db w3)) (w_db w2).

Lemma dump_restores {C : Type} `{RowOk A, !DumpEnv A, !DumpEnvOk} (Hpg : pg_answers) :
  restores (C:=C) dump_rows load_rows.
Proof.
  intros w w1 w2 b Hok Hdump Hempty. destruct (dumpable_rows _ Hok) as [Hm Hunique]. destruct (keyed_rows _ Hok) as [Hnd Hin].
  set (m := row_table (w_db w)) in *.
  set (rows := merge_sort (fun x y => pg_collate (row_id x) (row_id y)) (table_rows m)).
  assert (Hperm : rows ≡ₚ table_rows m) by apply merge_sort_Permutation.
  assert (forall r, r ∈ rows <-> m !! row_id r = Some r) as Hrows by (intros r; by rewrite Hperm).
  destruct (scan_rows_eq rows) as (items & Hscan & Hitems).
  { apply Forall_forall. intros r Hr%Hrows. by eapply (proj2 Hok). }
  unfold dump_rows in Hdump. apply bind_Ok in Hdump as (w' & cells & Hsel & Hdump).
  unfold sql_dump in Hsel. erewrite pg_call_done in Hsel by done. injection Hsel as <- <-.
  apply bind_Ok in Hdump as (w'' & items' & [-> Hs]%lift_Ok & [_ Hjson]%lift_Ok).
  assert (Ok items = Ok items') as [= <-] by (rewrite <- Hscan; exact Hs). clear Hs.
  destruct (json_roundtrip _ _ Hjson) as (l' & Hl' & Heq).
  { by eapply Forall2_eq_self. }
  pose proof (Forall2_eq_trans _ _ _ Hitems Heq) as Hall.
  set (l := (fun r => (row_id r, r)) <$> rows).
  assert (l.*2 = rows) as E2 by (unfold l; rewrite <- list_fmap_compose; by apply list_fmap_id).
  assert (l.*1 = row_id <$> rows) as E1 by (unfold l; by rewrite <- list_fmap_compose).
  assert (loaded m [] (row_table (w_db w2))) as Hnone.
  { intros k. rewrite Hempty. split; [by intros ?%elem_of_nil|done]. }
  destruct (load_run (C:=C) m Hm Hunique l l' ltac:(by rewrite E2)
    ltac:(apply Forall_fmap, Forall_forall; intros r Hr; by apply Hrows) [] w2 Hpg Hnone)
    as (w3 & Hrun & Hload & Hdb).
  { by rewrite E1, app_nil_r, Hperm. }
  exists w3. split; [by unfold load_rows, bind, lift; rewrite Hl'|]. split; [|done].
  intros k. rewrite app_nil_r, E1 in Hload. destruct (Hload k) as [Hk Hout]. fold m.
  destruct (m !! k) as [r|] eqn:Ek.
  - destruct Hk as (r' & s & Hr' & Hs & Heqs).
    { rewrite elem_of_reverse. apply list_elem_of_fmap. exists r.
      destruct (Hm k r Ek) as [Hkey _]. assert (row_id r = k) as Eid by (unfold row_id; by rewrite Hkey).
      split; [done|]. apply Hrows. by rewrite Eid. }
    rewrite Hs. simplify_eq. by constructor.
  - rewrite Hout; [constructor|]. rewrite elem_of_reverse. intros (r & -> & Hr%Hrows)%list_elem_of_fmap.
    congruence.
Qed.

(** ** Cells and fields *)

Definition num_field (c : option Cell) : option Numeric :=
  match c with
  | None => Some null_numeric
  | Some (CNumeric n) => Some n
  | _ => None
  end.

Definition status_of (s : string) : option TaskStatus :=
  if bool_decide (s = "confirming") then Some TaskStatusConfirming
  else if bool_decide (s = "pending") then Some TaskStatusPending
  else if bool_decide (s = "completed") then Some TaskStatusCompleted
  else if bool_decide (s = "") then Some TaskStatusZero
  else None.

Lemma status_of_string s : status_of (TaskStatus_string s) = Some s.
Proof. by destruct s. Qed.

Lemma num_field_cell n : num_field (num_cell n) = Some (if nValid n then n else null_numeric).
Proof. unfold num_cell. by destruct (nValid n). Qed.

Lemma num_field_arg o : num_field (CNumeric <$> o) = Some (default null_numeric o).
Proof. by destruct o. Qed.

(** What a number is scanned as *)
Lemma scanned_number `{EnvOk} n : num_eq n n ->
  num_eq n (scan_numeric (if nValid n then n else null_numeric)).
Proof.
  intros Hn. destruct (nValid n) eqn:Ev; [by apply scan_num_eq|]. left. by split.
Qed.

Lemma num_eq_valid n m : num_eq n m -> nValid n = nValid m.
Proof.
  intros [[-> ->]|(x & H1 & H2)]; [done|].
  by rewrite (represents_valid _ _ H1), (represents_valid _ _ H2).
Qed.

(** ** The four tables *)

Section tables.
Context `{Env}.

(** *** tasks *)

Definition task_with_numbers (k v : Numeric) (t : Tasks) : Tasks :=
  mkTasks (t_TaskID t) (t_ChainID t) (t_TargetAddress t) k (t_BlockNumber t) v (t_Epoch t)
    (t_Status t) (t_RequiredConfirmations t) (t_RetryCount t) (t_CreatedAt t) (t_UpdatedAt t).

Definition task_eq (t t' : Tasks) : Prop :=
  num_eq (t_Key t) (t_Key t') /\ num_eq (t_Value t) (t_Value t') /\
  t' = task_with_numbers (t_Key t') (t_Value t') t.

Definition task_fields (cells : list (option Cell)) : option Tasks :=
  match cells with
  | [Some (CText taskID); Some (CInt chainID); Some (CText targetAddress); key; Some (CInt blockNumber);
     value; Some (CInt epoch); Some (CText status); Some (CInt requiredConfirmations);
     Some (CInt retryCount); Some (CTime createdAt); Some (CTime updatedAt)] =>
      k ← num_field key; v ← num_field value; s ← status_of status;
      Some (mkTasks taskID chainID targetAddress k blockNumber v epoch s requiredConfirmations
              retryCount createdAt updatedAt)
  | _ => None
  end.

Definition tasks_dump_columns : list string :=
  ["task_id"; "chain_id"; "target_address"; "key"; "block_number"; "value"; "epoch"; "status";
   "required_confirmations"; "retry_count"; "created_at"; "updated_at"].

Definition tasks_load_columns : list string :=
  ["task_id"; "chain_id"; "target_address"; "key"; "block_number"; "value"; "epoch"; "status";
   "required_confirmations"; "retry_count"; "created_at"; "updated_at"].

Definition tasks_load_args (row : Tasks) : res (list (option Cell)) :=
  let? key := numeric_arg (t_Key row) in
  let? value := numeric_arg (t_Value row) in
  Ok [Some (CText (t_TaskID row)); Some (CInt (t_ChainID row)); Some (CText (t_TargetAddress row));
      CNumeric <$> key; Some (CInt (t_BlockNumber row)); CNumeric <$> value;
      Some (CInt (t_Epoch row)); Some (CText (TaskStatus_string (t_Status row)));
      Some (CInt (t_RequiredConfirmations row)); Some (CInt (t_RetryCount row));
      Some (CTime (t_CreatedAt row)); Some (CTime (t_UpdatedAt row))].

#[export] Instance tasks_Row : Row Tasks := {|
  row_name := T_tasks;
  row_table := db_tasks;
  row_set_table := db_set_tasks;
  row_cells := task_cells;
  row_fields := task_fields;
  dump_columns := tasks_dump_columns;
  row_scan cells := scan_Tasks <$> task_fields cells;
  load_columns := tasks_load_columns;
  row_args := tasks_load_args;
  row_eq := task_eq;
|}.

(** *** operators *)

Definition operator_with_weight (n : Numeric) (o : Operators) : Operators :=
  mkOperators (o_Address o) (o_SigningKey o) (o_P2pKey o) (o_RegisteredAtBlockNumber o)
    (o_ActiveEpoch o) (o_ExitEpoch o) (o_IsActive o) n (o_CreatedAt o) (o_UpdatedAt o).

Definition operator_eq (o o' : Operators) : Prop :=
  num_eq (o_Weight o) (o_Weight o') /\ o' = operator_with_weight (o_Weight o') o.

Definition operator_fields (cells : list (option Cell)) : option Operators :=
  match cells with
  | [Some (CText address); Some (CText signingKey); Some (CText p2pKey);
     Some (CInt registeredAtBlockNumber); Some (CInt activeEpoch); Some (CInt exitEpoch);
     Some (CBool isActive); weight; Some (CTime createdAt); Some (CTime updatedAt)] =>
      w ← num_field weight;
      Some (mkOperators address signingKey p2pKey registeredAtBlockNumber activeEpoch exitEpoch
              isActive w createdAt updatedAt)
  | _ => None
  end.

Definition operators_dump_columns : list string :=
  ["address"; "signing_key"; "p2p_key"; "registered_at_block_number"; "active_epoch"; "exit_epoch";
   "is_active"; "weight"; "created_at"; "updated_at"].

Definition operators_load_columns : list string :=
  ["address"; "signing_key"; "p2p_key"; "registered_at_block_number"; "active_epoch"; "exit_epoch";
   "is_active"; "weight"; "created_at"; "updated_at"].

Definition operators_load_args (row : Operators) : res (list (option Cell)) :=
  let? weight := numeric_arg (o_Weight row) in
  Ok [Some (CText (o_Address row)); Some (CText (o_SigningKey row)); Some (CText (o_P2pKey row));
      Some (CInt (o_RegisteredAtBlockNumber row)); Some (CInt (o_ActiveEpoch row));
      Some (CInt (o_ExitEpoch row)); Some (CBool (o_IsActive row)); CNumeric <$> weight;
      Some (CTime (o_CreatedAt row)); Some (CTime (o_UpdatedAt row))].

#[export] Instance operators_Row : Row Operators := {|
  row_name := T_operators;
  row_table := db_operators;
  row_set_table := db_set_operators;
  row_cells := operator_cells;
  row_fields := operator_fields;
  dump_columns := operators_dump_columns;
  row_scan cells := scan_Operators <$> operator_fields cells;
  load_columns := operators_load_columns;
  row_args := operators_load_args;
  row_eq := operator_eq;
|}.

(** *** blacklist *)

Definition blacklist_fields (cells : list (option Cell)) : option Blacklist :=
  match cells with
  | [Some (CText peerID); Some (CInt violationCount); Some (CTime createdAt); Some (CTime updatedAt);
     None] => Some (mkBlacklist peerID violationCount createdAt updatedAt None)
  | [Some (CText peerID); Some (CInt violationCount); Some (CTime createdAt); Some (CTime updatedAt);
     Some (CTime expiresAt)] =>
      Some (mkBlacklist peerID violationCount createdAt updatedAt (Some expiresAt))
  | _ => None
  end.

Definition blacklist_dump_columns : list string :=
  ["peer_id"; "violation_count"; "created_at"; "updated_at"; "expires_at"].

Definition blacklist_load_columns : list string :=
  ["peer_id"; "violation_count"; "created_at"; "updated_at"; "expires_at"].

Definition blacklist_load_args (row : Blacklist) : res (list (option Cell)) :=
  Ok [Some (CText (b_PeerID row)); Some (CInt (b_ViolationCount row)); Some (CTime (b_CreatedAt row));
      Some (CTime (b_UpdatedAt row)); CTime <$> b_ExpiresAt row].

#[export] Instance blacklist_Row : Row Blacklist := {|
  row_name := T_blacklist;
  row_table := db_blacklist;
  row_set_table := db_set_blacklist;
  row_cells := blacklist_cells;
  row_fields := blacklist_fields;
  dump_columns := blacklist_dump_columns;
  row_scan := blacklist_fields;
  load_columns := blacklist_load_columns;
  row_args := blacklist_load_args;
  row_eq := eq;
|}.

(** *** consensus_responses *)

Definition consensus_with_numbers (k v : Numeric) (c : ConsensusResponse) : ConsensusResponse :=
  mkConsensusResponse (c_TaskID c) (c_Epoch c) (c_ChainID c) (c_TargetAddress c)
    (c_BlockNumber c) k v (c_AggregatedSignatures c) (c_OperatorAddresses c)
    (c_CreatedAt c) (c_UpdatedAt c).

Definition consensus_eq (c c' : ConsensusResponse) : Prop :=
  num_eq (c_Key c) (c_Key c') /\ num_eq (c_Value c) (c_Value c') /\
  c' = consensus_with_numbers (c_Key c') (c_Value c') c.

Definition consensus_fields (cells : list (option Cell)) : option ConsensusResponse :=
  match cells with
  | [Some (CText taskID); Some (CInt epoch); Some (CInt chainID); Some (CText targetAddress);
     Some (CInt blockNumber); key; value; Some (CBytes aggregatedSignatures);
     Some (CTexts operatorAddresses); Some (CTime createdAt); Some (CTime updatedAt)] =>
      k ← num_field key; v ← num_field value;
      Some (mkConsensusResponse taskID epoch chainID targetAddress blockNumber k v
              aggregatedSignatures operatorAddresses createdAt updatedAt)
  | _ => None
  end.

Definition consensus_dump_columns : list string :=
  ["task_id"; "epoch"; "chain_id"; "target_address"; "block_number"; "key"; "value";
   "aggregated_signatures"; "operator_addresses"; "created_at"; "updated_at"].

Definition consensus_load_columns : list string :=
  ["task_id"; "epoch"; "chain_id"; "target_address"; "block_number"; "key"; "value";
   "aggregated_signatures"; "operator_addresses"; "created_at"; "updated_at"].

Definition consensus_load_args (row : ConsensusResponse) : res (list (option Cell)) :=
  let? key := numeric_arg (c_Key row) in
  let? value := numeric_arg (c_Value row) in
  Ok [Some (CText (c_TaskID row)); Some (CInt (c_Epoch row)); Some (CInt (c_ChainID row));
      Some (CText (c_TargetAddress row)); Some (CInt (c_BlockNumber row)); CNumeric <$> key;
      CNumeric <$> value; Some (CBytes (c_AggregatedSignatures row));
      Some (CTexts (c_OperatorAddresses row)); Some (CTime (c_CreatedAt row));
      Some (CTime (c_UpdatedAt row))].

#[export] Instance consensus_Row : Row ConsensusResponse := {|
  row_name := T_consensus_responses;
  row_table := db_consensus;
  row_set_table := db_set_consensus;
  row_cells := consensus_cells;
  row_fields := consensus_fields;
  dump_columns := consensus_dump_columns;
  row_scan cells := scan_ConsensusResponse <$> consensus_fields cells;
  load_columns := consensus_load_columns;
  row_args := consensus_load_args;
  row_eq := consensus_eq;
|}.

Context {C : Type} `{DumpEnv Tasks, DumpEnv Operators, DumpEnv Blacklist, DumpEnv ConsensusResponse}.

Definition tasks_Dump : list (Tasks -> Tasks) -> M (World C) (@json_text Tasks _) := dump_rows.
Definition tasks_Load : @json_text Tasks _ -> M (World C) unit := load_rows.
Definition operators_Dump : list (Operators -> Operators) -> M (World C) (@json_text Operators _) := dump_rows.
Definition operators_Load : @json_text Operators _ -> M (World C) unit := load_rows.
Definition blacklist_Dump : list (Blacklist -> Blacklist) -> M (World C) (@json_text Blacklist _) := dump_rows.
Definition blacklist_Load : @json_text Blacklist _ -> M (World C) unit := load_rows.
Definition consensus_Dump : list (ConsensusResponse -> ConsensusResponse) ->
    M (World C) (@json_text ConsensusResponse _) := dump_rows.
Definition consensus_Load : @json_text ConsensusResponse _ -> M (World C) unit := load_rows.
End tables.

(** ** The laws of the four tables *)

Section laws.
Context `{EnvOk}.

Lemma num_ok_valid n : num_ok n = true -> nValid n = true.
Proof. unfold num_ok. by intros [? _]%andb_prop. Qed.

Lemma task_dump t : task_eq t t ->
  exists v, scan_Tasks <$> task_fields (map (fun c => get c (task_cells t)) tasks_dump_columns) = Some v /\
    task_eq t v.
Proof.
  intros (Hk & Hv & _). unfold tasks_dump_columns. cbn -[num_field status_of num_cell].
  rewrite !num_field_cell, status_of_string. cbn. eexists. split; [reflexivity|].
  split; [by apply scanned_number|]. split; [by apply scanned_number|done].
Qed.

Lemma task_load r r' : task_row r = true -> task_eq r r -> task_eq r r' ->
  exists args s, tasks_load_args r' = Ok args /\
    (forall now, new_row now tasks_Schema (load_stmt (A:=Tasks) args) = task_cells s) /\
    task_fields (task_cells s).*2 = Some s /\ task_eq r s /\ task_row s = true.
Proof.
  intros Hr _ (Hk & Hv & ->). unfold tasks_load_args. simpl.
  destruct (stored_number _ _ Hk) as (k & -> & Ek & Hrk & Hok & Hvk).
  destruct (stored_number _ _ Hv) as (v & -> & Ev & Hrv & Hov & Hvv). cbn [res_bind].
  eexists _, (task_with_numbers (default null_numeric k) (default null_numeric v) r).
  split; [reflexivity|]. split_and!.
  - intros now. unfold new_row, task_cells. cbn -[num_cell]. by rewrite Ek, Ev.
  - unfold task_cells. cbn -[num_cell num_field status_of]. rewrite Ek, Ev, !num_field_arg, status_of_string. by destruct r.
  - split; [done|]. by split.
  - unfold task_row in *. simpl in *. rewrite !andb_true_iff in *. destruct Hr as (((H1 & Hkey) & _) & H2).
    rewrite Hok, Hov, Hvv, (num_ok_valid _ Hkey). split; [|done]. split; [by split|].
    by destruct (nValid (t_Value r)).
Qed.

#[local] Instance task_eq_sym : Symmetric task_eq.
Proof. intros t t' (Hk & Hv & ->). split; [by symmetry|]. split; [by symmetry|]. by destruct t. Qed.
#[local] Instance task_eq_trans : Transitive task_eq.
Proof.
  intros t1 t2 t3 (Hk & Hv & ->) (Hk' & Hv' & ->). simpl in *.
  split; [by etransitivity|]. split; [by etransitivity|done].
Qed.

#[export] Instance tasks_RowOk : RowOk (A:=Tasks).
Proof.
  constructor; try apply _; try done.
  - by intros [].
  - by intros t t' (_ & _ & ->).
  - exact task_dump.
  - intros r r' [Hr Hok] Heq. simpl in Hok. rewrite task_cells_ok in Hok.
    destruct (task_load r r' Hok Hr Heq) as (args & s & E1 & E2 & E3 & E4 & E5).
    exists args, s. do 4 (split; [assumption|]). split; [change (task_eq s s); by transitivity r|].
    simpl. by rewrite task_cells_ok.
Qed.

(** *** operators *)

Lemma operator_dump o : operator_eq o o ->
  exists v, scan_Operators <$> operator_fields (map (fun c => get c (operator_cells o)) operators_dump_columns) = Some v /\
    operator_eq o v.
Proof.
  intros (Hw & _). unfold operators_dump_columns. cbn -[num_field num_cell].
  rewrite num_field_cell. cbn. eexists. split; [reflexivity|]. by split; [apply scanned_number|].
Qed.

Lemma operator_load r r' : operator_row r = true -> operator_eq r r' ->
  exists args s, operators_load_args r' = Ok args /\
    (forall now, new_row now operators_Schema (load_stmt (A:=Operators) args) = operator_cells s) /\
    operator_fields (operator_cells s).*2 = Some s /\ operator_eq r s /\ operator_row s = true.
Proof.
  intros Hr (Hw & ->). unfold operators_load_args. simpl.
  destruct (stored_number _ _ Hw) as (w & -> & Ew & Hrw & Hok & _). cbn [res_bind].
  eexists _, (operator_with_weight (default null_numeric w) r).
  split; [reflexivity|]. split_and!.
  - intros now. unfold new_row, operator_cells. cbn -[num_cell]. by rewrite Ew.
  - unfold operator_cells. cbn -[num_cell num_field]. rewrite Ew, num_field_arg. by destruct r.
  - by split.
  - unfold operator_row in *. simpl in *. rewrite !andb_true_iff in *.
    destruct Hr as ((((H1 & H2) & Hn) & H3) & H4). rewrite Hok, (num_ok_valid _ Hn). tauto.
Qed.

#[local] Instance operator_eq_sym : Symmetric operator_eq.
Proof. intros o o' (Hw & ->). split; [by symmetry|]. by destruct o. Qed.
#[local] Instance operator_eq_trans : Transitive operator_eq.
Proof. intros o1 o2 o3 (Hw & ->) (Hw' & ->). simpl in *. by split; [etransitivity|]. Qed.

#[export] Instance operators_RowOk : RowOk (A:=Operators).
Proof.
  constructor; try apply _; try done.
  - by intros [].
  - by intros o o' (_ & ->).
  - exact operator_dump.
  - intros r r' [Hr Hok] Heq. simpl in Hok. rewrite operator_cells_ok in Hok.
    destruct (operator_load r r' Hok Heq) as (args & s & E1 & E2 & E3 & E4 & E5).
    exists args, s. do 4 (split; [assumption|]). split; [change (operator_eq s s); by transitivity r|].
    simpl. by rewrite operator_cells_ok.
Qed.

(** *** blacklist *)

#[export] Instance blacklist_RowOk : RowOk (A:=Blacklist).
Proof.
  constructor; try apply _; try done.
  - by intros [].
  - by intros b b' ->.
  - intros b _. exists b. by destruct b as [p n c u [x|]].
  - intros r r' Hr <-. exists [Some (CText (b_PeerID r)); Some (CInt (b_ViolationCount r));
      Some (CTime (b_CreatedAt r)); Some (CTime (b_UpdatedAt r)); CTime <$> b_ExpiresAt r], r.
    split_and!; try done; try apply Hr. by destruct r as [p n c u [x|]].
Qed.

(** *** consensus_responses *)

Lemma consensus_dump c : consensus_eq c c ->
  exists v, scan_ConsensusResponse <$> consensus_fields (map (fun k => get k (consensus_cells c)) consensus_dump_columns) = Some v /\
    consensus_eq c v.
Proof.
  intros (Hk & Hv & _). unfold consensus_dump_columns. cbn -[num_field num_cell].
  rewrite !num_field_cell. cbn. eexists. split; [reflexivity|].
  split; [by apply scanned_number|]. by split; [apply scanned_number|].
Qed.

Lemma consensus_load r r' : consensus_row r = true -> consensus_eq r r' ->
  exists args s, consensus_load_args r' = Ok args /\
    (forall now, new_row now consensus_responses_Schema (load_stmt (A:=ConsensusResponse) args) = consensus_cells s) /\
    consensus_fields (consensus_cells s).*2 = Some s /\ consensus_eq r s /\ consensus_row s = true.
Proof.
  intros Hr (Hk & Hv & ->). unfold consensus_load_args. simpl.
  destruct (stored_number _ _ Hk) as (k & -> & Ek & Hrk & Hok & _).
  destruct (stored_number _ _ Hv) as (v & -> & Ev & Hrv & Hov & _). cbn [res_bind].
  eexists _, (consensus_with_numbers (default null_numeric k) (default null_numeric v) r).
  split; [reflexivity|]. split_and!.
  - intros now. unfold new_row, consensus_cells. cbn -[num_cell]. by rewrite Ek, Ev.
  - unfold consensus_cells. cbn -[num_cell num_field]. rewrite Ek, Ev, !num_field_arg. by destruct r.
  - split; [done|]. by split.
  - unfold consensus_row in *. simpl in *. rewrite !andb_true_iff in *.
    destruct Hr as ((H1 & Hnv) & Hnk). rewrite Hok, Hov, (num_ok_valid _ Hnv), (num_ok_valid _ Hnk). tauto.
Qed.

#[local] Instance consensus_eq_sym : Symmetric consensus_eq.
Proof. intros c c' (Hk & Hv & ->). split; [by symmetry|]. split; [by symmetry|]. by destruct c. Qed.
#[local] Instance consensus_eq_trans : Transitive consensus_eq.
Proof.
  intros c1 c2 c3 (Hk & Hv & ->) (Hk' & Hv' & ->). simpl in *.
  split; [by etransitivity|]. by split; [etransitivity|].
Qed.

(** The same request has the same key, however it is represented. *)
Lemma key_clash k1 k1' k2 k2' : num_eq k1 k1' -> num_eq k2 k2' ->
  match num_cell k1, num_cell k2 with Some v, Some w => cell_eqb v w | _, _ => false end =
  match num_cell k1', num_cell k2' with Some v, Some w => cell_eqb v w | _, _ => false end.
Proof.
  unfold num_cell. intros H1 H2. rewrite <- (num_eq_valid _ _ H1), <- (num_eq_valid _ _ H2).
  destruct (nValid k1) eqn:E1; [|done]. destruct (nValid k2) eqn:E2; [|done]. simpl.
  destruct H1 as [[? _]|(x & Hx & Hx')]; [congruence|]. destruct H2 as [[? _]|(y & Hy & Hy')]; [congruence|].
  by rewrite (numeric_eqb_represents _ _ x y Hx Hy), (numeric_eqb_represents _ _ x y Hx' Hy').
Qed.

#[export] Instance consensus_RowOk : RowOk (A:=ConsensusResponse).
Proof.
  constructor; try apply _; try done.
  - by intros [].
  - by intros c c' (_ & _ & ->).
  - exact consensus_dump.
  - intros r r' [Hr Hok] Heq. simpl in Hok. rewrite consensus_cells_ok in Hok.
    destruct (consensus_load r r' Hok Heq) as (args & s & E1 & E2 & E3 & E4 & E5).
    exists args, s. do 4 (split; [assumption|]). split; [change (consensus_eq s s); by transitivity r|].
    simpl. by rewrite consensus_cells_ok.
  - intros r1 r1' r2 r2' (Hk1 & _ & ->) (Hk2 & _ & ->). unfold clashes, clash, get.
    cbn -[num_cell cell_eqb]. cbn [c_Key consensus_with_numbers].
    do 3 f_equal. do 2 f_equal. by rewrite (key_clash _ _ _ _ Hk1 Hk2).
Qed.
End laws.

(** ** Property *)


(** ** Example: one consensus row *)

Definition toy_dump_env (A : Type) : DumpEnv A := {|
  pg_collate := fun _ _ => True;
  json_text := list A;
  json_MarshalIndent := fun l => Ok l;
  json_Unmarshal := fun l => Ok l;
|}.

Section example.
#[local] Existing Instances toy_env toy_dump_env.

Lemma toy_dump_env_ok `{Row A} : DumpEnvOk (A:=A).
Proof.
  constructor. intros l b [= <-] Hl. exists l. split; [done|].
  by apply Forall_Forall2_diag.
Qed.

Definition toy_consensus : ConsensusResponse :=
  mkConsensusResponse "t" 1 11155111 "0xabc" 7600000 (mkNumeric (Some 3) 1 true)
    (mkNumeric (Some 7) 0 true) [[1; 2]] ["0xop"] 5 5.
Definition toy_dumped : World unit :=
  toy_world (db_set_consensus {[ "t" := toy_consensus ]} empty_db) tt.

Lemma toy_number i e : - 2 ^ 31 < e < 2 ^ 31 -> 0 <= e ->
  num_eq (mkNumeric (Some i) e true) (mkNumeric (Some i) e true).
Proof.
  intros He Hp. right. exists (i * 10 ^ e).
  assert (represents (mkNumeric (Some i) e true) (i * 10 ^ e)); [|done].
  split; [done|]. split; [done|]. exists i. simpl. split; [done|]. split; [done|lia].
Qed.

Lemma toy_dumpable : dumpable (A:=ConsensusResponse) (w_db toy_dumped).
Proof.
  split.
  - assert (contents (w_db toy_dumped) T_consensus_responses = {[ "t" := consensus_cells toy_consensus ]}) as E
      by (unfold contents; simpl; by rewrite map_fmap_singleton).
    simpl row_name. rewrite E. constructor.
    + intros k r [<- <-]%lookup_singleton_Some. by vm_compute.
    + intros k r [<- <-]%lookup_singleton_Some. by vm_compute.
    + by intros k1 k2 r1 r2 [<- _]%lookup_singleton_Some [<- _]%lookup_singleton_Some.
  - intros k r Hr. change (({[ "t" := toy_consensus ]} : gmap string ConsensusResponse) !! k = Some r) in Hr.
    apply lookup_singleton_Some in Hr as [<- <-].
    change (consensus_eq toy_consensus toy_consensus).
    split; [by apply toy_number|]. by split; [apply toy_number|].
Qed.
End example.

