(* ===== verification/P2PNode.v ===== *)
(** * pkg/operator/node: the P2P node over its libp2p host

    Construction, the goroutines that keep the node connected (bootstrap
    peers, discovered peers, the routing table), and what is printed of its
    addresses.  The host, the DHT and the discovery service are the class
    [Swarm]: every call may change the state of the network, and is told by
    its index.  The state also logs the dials, the goroutines that have been
    started, and the clock, which the sleeps and the calls move.  A
    goroutine's loop is modelled by one iteration of its [select]; [false] is
    its return.  Where the context is done and a tick is waiting as well, Go
    takes either: [select_tick] says which. *)

From S2P Require Import Prelude GoInt.

Class Swarm := {
  swarm : Type;
  AddrInfo : Type;
  ai_ID : AddrInfo -> string;
  host_ID : string;
  host_Addrs : swarm -> list (option bytes * string);  (** [manet.ToIP] of an address, its text *)
  ConnsToPeer : string -> swarm -> nat;                (** [len(host.Network().ConnsToPeer(p))] *)
  host_Connect : nat -> AddrInfo -> swarm -> swarm * res unit;
  host_Close : nat -> swarm -> swarm * res unit;
  dht_New : nat -> list AddrInfo -> swarm -> swarm * res unit;
  dht_Bootstrap : nat -> swarm -> swarm * res unit;
  dht_Close : nat -> swarm -> swarm * res unit;
  dht_Refresh : nat -> swarm -> swarm * res unit;
  Advertise : nat -> string -> swarm -> swarm * res unit;
  FindPeers : nat -> string -> swarm -> swarm * res (list AddrInfo);
  call_time : nat -> Z;                                (** how long a call takes *)
  node_cancelled : nat -> bool;                        (** [n.ctx] is done *)
  select_tick : nat -> bool;   (** a tick is waiting too, and [select] takes it *)
}.

Definition second : Z := 1000000000.
Definition maxRetries : nat := 3.
Definition retryInterval : Z := 5 * second.

(** The goroutines of a node: the four loops, which watch [n.ctx], and the one
    each [PrintPeerInfo] starts, which watches nothing and ends after five
    seconds. *)
Inductive routine :=
  | maintain_bootstrap | discover | maintain_routing | print_peer_info | print_new_addresses.
#[export] Instance routine_eq_dec : EqDecision routine.
Proof. solve_decision. Defined.

Definition watches_ctx (g : routine) : bool :=
  match g with print_new_addresses => false | _ => true end.

(** ** pkg/operator/node/state.go: which addresses are external *)

(** [ip.To4()]: four bytes, or the sixteen of a mapped address. *)
Definition To4 (ip : bytes) : option bytes :=
  if Nat.eqb (length ip) 4 then Some ip
  else if Nat.eqb (length ip) 16 && bool_decide (take 12 ip = replicate 10 0 ++ [255; 255])
  then Some (drop 12 ip)
  else None.

(** [ip.IsLoopback()] *)
Definition IsLoopback (ip : bytes) : bool :=
  match To4 ip with
  | Some ip4 => nth 0 ip4 0 =? 127
  | None => bool_decide (ip = replicate 15 0 ++ [1])
  end.

(** [ip.IsPrivate()]: RFC 1918 and RFC 4193 *)
Definition IsPrivate (ip : bytes) : bool :=
  match To4 ip with
  | Some ip4 =>
      (nth 0 ip4 0 =? 10) ||
      ((nth 0 ip4 0 =? 172) && (Z.land (nth 1 ip4 0) 240 =? 16)) ||
      ((nth 0 ip4 0 =? 192) && (nth 1 ip4 0 =? 168))
  | None => Nat.eqb (length ip) 16 && (Z.land (nth 0 ip 0) 254 =? 252)
  end.

(** The local and the external addresses; one without an IP is left out. *)
Fixpoint split_addrs (addrs : list (option bytes * string)) : list string * list string :=
  match addrs with
  | [] => ([], [])
  | (None, _) :: addrs' => split_addrs addrs'
  | (Some ip, addr) :: addrs' =>
      let '(localAddrs, externalAddrs) := split_addrs addrs' in
      if IsLoopback ip || IsPrivate ip then (addr :: localAddrs, externalAddrs)
      else (localAddrs, addr :: externalAddrs)
  end.

Example split_addrs_ex :
  split_addrs [(Some [127; 0; 0; 1], "a"); (Some [172; 31; 0; 2], "b"); (None, "c");
               (Some [172; 32; 0; 2], "d"); (Some (replicate 10 0 ++ [255; 255; 10; 0; 0; 1]), "e")]
  = (["a"; "b"; "e"], ["d"]).
Proof. reflexivity. Qed.

Section node.
Context `{Swarm}.

Record NodeW := mkNodeW {
  nw_step : nat;
  nw_now : Z;
  nw_swarm : swarm;
  nw_dials : list string;
  nw_dht : bool;             (** [n.dht != nil] *)
  nw_stopped : bool;         (** [n.cancel] has been called *)
  nw_routines : list routine;  (** started so far *)
}.

Abbreviation NM := (M NodeW).

Definition set_swarm s (w : NodeW) :=
  mkNodeW (nw_step w) (nw_now w) s (nw_dials w) (nw_dht w) (nw_stopped w) (nw_routines w).
Definition set_dht b (w : NodeW) :=
  mkNodeW (nw_step w) (nw_now w) (nw_swarm w) (nw_dials w) b (nw_stopped w) (nw_routines w).
Definition stopped (w : NodeW) :=
  mkNodeW (nw_step w) (nw_now w) (nw_swarm w) (nw_dials w) (nw_dht w) true (nw_routines w).
Definition dial (p : string) (w : NodeW) :=
  mkNodeW (nw_step w) (nw_now w) (nw_swarm w) (nw_dials w ++ [p]) (nw_dht w) (nw_stopped w)
    (nw_routines w).

Definition go (g : routine) : NM unit := modify (fun w =>
  mkNodeW (nw_step w) (nw_now w) (nw_swarm w) (nw_dials w) (nw_dht w) (nw_stopped w)
    (nw_routines w ++ [g])).

(** A call to libp2p *)
Definition call {A} (f : nat -> swarm -> swarm * res A) : NM A := fun w =>
  let '(s, r) := f (nw_step w) (nw_swarm w) in
  (mkNodeW (S (nw_step w)) (nw_now w + call_time (nw_step w)) s (nw_dials w) (nw_dht w)
     (nw_stopped w) (nw_routines w), r).

Definition Sleep (d : Z) : NM unit := modify (fun w =>
  mkNodeW (nw_step w) (nw_now w + d) (nw_swarm w) (nw_dials w) (nw_dht w) (nw_stopped w)
    (nw_routines w)).

(** [<-n.ctx.Done()] is ready *)
Definition ctx_done : NM bool := fun w =>
  (mkNodeW (S (nw_step w)) (nw_now w) (nw_swarm w) (nw_dials w) (nw_dht w) (nw_stopped w)
     (nw_routines w),
   Ok (nw_stopped w || node_cancelled (nw_step w))).

(** [select] on [n.ctx.Done()] and a ticker: true when it takes a tick. *)
Definition select : NM bool :=
  let! i := gets nw_step in
  let! done := ctx_done in
  ret (negb done || select_tick i).

Definition cancel : NM unit := modify stopped.

(** ** Bootstrap peers *)

Definition Connect (peer : AddrInfo) : NM unit :=
  do! modify (dial (ai_ID peer)) in call (fun i s => host_Connect i peer s).

Definition connected (peer : AddrInfo) : NM bool :=
  gets (fun w => Nat.ltb 0 (ConnsToPeer (ai_ID peer) (nw_swarm w))).

(** The loop that waits for the connection; [retries] are left. *)
Fixpoint await_connection (retries : nat) (deadline : Z) (peer : AddrInfo) : NM unit :=
  match retries with
  | O => throw (Errorf "connection not established after timeout")
  | S retries =>
      let! done := ctx_done in
      let! now := gets nw_now in
      if (done : bool) || (deadline <=? now) then throw (Errorf "context done")
      else
        let! c := connected peer in
        if (c : bool) then ret tt
        else do! Sleep second in await_connection retries deadline peer
  end.

Definition connectWithTimeout (peer : AddrInfo) : NM unit :=
  let! now := gets nw_now in
  let! r := try (Connect peer) in
  match r with
  | inr err =>
      if strings_Contains (Error err) "failed to dial" then throw (Wrapf "failed to dial" err)
      else throw err
  | inl _ => await_connection 5 (now + 10 * second) peer
  end.

(** The attempts [retry < maxRetries], of which [left] remain. *)
Fixpoint connect_attempts (left : nat) (peer : AddrInfo) : NM unit :=
  match left with
  | O => ret tt
  | S left' =>
      let! r := try (connectWithTimeout peer) in
      match r with
      | inl _ => ret tt
      | inr _ =>
          do! (if decide (left' = O) then ret tt else Sleep retryInterval) in
          connect_attempts left' peer
      end
  end.

Definition reconnect (peer : AddrInfo) : NM unit :=
  let! c := connected peer in
  if (c : bool) then ret tt else connect_attempts maxRetries peer.

(** One iteration of [maintainBootstrapConnections]. *)
Definition maintainBootstrapConnections (bootstrapPeers : list AddrInfo) : NM bool :=
  let! tick := select in
  if negb tick then ret false
  else do! for_all bootstrapPeers reconnect in ret true.

(** ** Discovery *)

Definition discover_peer (peer : AddrInfo) : NM unit :=
  if decide (ai_ID peer = host_ID) then ret tt
  else let! _ := try (Connect peer) in ret tt.

Definition discoverPeers (rendezvous : string) : NM bool :=
  let! tick := select in
  if negb tick then ret false
  else
    let! r := try (call (fun i s => FindPeers i rendezvous s)) in
    match r with
    | inr _ => ret true
    | inl peerChan => do! for_all peerChan discover_peer in ret true
    end.

Definition maintainRoutingTable : NM bool :=
  let! tick := select in
  if negb tick then ret false
  else let! _ := try (call dht_Refresh) in ret true.

(** A failure to advertise is expected of the first node. *)
Definition startPeerDiscovery (rendezvous : string) : NM unit :=
  let! _ := try (call (fun i s => Advertise i rendezvous s)) in
  do! go discover in go maintain_routing.

(** ** The printer of addresses *)

(** What it prints, local and external addresses; the goroutine it starts
    prints the external addresses of five seconds later. *)
Definition PrintPeerInfo : NM (list string * list string) :=
  let! addrs := gets (fun w => host_Addrs (nw_swarm w)) in
  do! go print_new_addresses in ret (split_addrs addrs).

(** The body of that goroutine *)
Definition printNewAddresses : NM (list string) :=
  do! Sleep (5 * second) in gets (fun w => (split_addrs (host_Addrs (nw_swarm w))).2).

Definition startPrintPeerInfo : NM unit :=
  let! _ := PrintPeerInfo in go print_peer_info.

(** One iteration of its goroutine *)
Definition peer_info_loop : NM bool :=
  let! tick := select in
  if negb tick then ret false else let! _ := PrintPeerInfo in ret true.

(** ** Construction *)

Record NodeConfig := mkNodeConfig {
  nc_Host : bool;                    (** [cfg.Host != nil] *)
  nc_BootstrapPeers : list AddrInfo;
  nc_RendezvousString : string;
}.

Definition initDHT (bootstrapPeers : list AddrInfo) : NM unit :=
  do! wrapM "failed to create DHT" (call (fun i s => dht_New i bootstrapPeers s)) in
  do! modify (set_dht true) in
  do! wrapM "failed to bootstrap DHT" (call dht_Bootstrap) in
  go maintain_bootstrap.

Definition NewNode (cfg : option NodeConfig) : NM unit :=
  match cfg with
  | None => throw (Errorf "config is required")
  | Some cfg =>
      if negb (nc_Host cfg) then throw (Errorf "host is required")
      else if decide (nc_RendezvousString cfg = "") then
        throw (Errorf "rendezvous string is required")
      else
        let! r := try (initDHT (nc_BootstrapPeers cfg)) in
        match r with
        | inr err => do! cancel in throw (Wrapf "failed to initialize DHT" err)
        | inl _ =>
            let! r := try (startPeerDiscovery (nc_RendezvousString cfg)) in
            match r with
            | inr err => do! cancel in throw (Wrapf "failed to start peer discovery" err)
            | inl _ => let! _ := PrintPeerInfo in startPrintPeerInfo
            end
        end
  end.

Definition Stop : NM unit :=
  do! cancel in
  let! dht := gets nw_dht in
  let! _ := (if dht : bool then try (call dht_Close) else ret (inl tt)) in
  call host_Close.
End node.

(** ** Properties *)

Section properties.
Context `{Swarm}.

(** libp2p answers, within the deadline of the context it is given *)
Definition swarm_answers : Prop :=
  (forall i p s why, (host_Connect i p s).2 <> Panic why) /\
  (forall i, 0 <= call_time i <= 10 * second).

Hypothesis Hans : swarm_answers.

Abbreviation conns p w := (ConnsToPeer (ai_ID p) (nw_swarm w)).

(** Waiting for a connection: it answers, dials nobody, and succeeds only
    when the connection is there. *)
Lemma await_connection_run retries deadline peer w : exists w' r,
  await_connection retries deadline peer w = (w', r) /\ (forall why, r <> Panic why) /\
  nw_dials w' = nw_dials w /\ nw_now w <= nw_now w' <= Z.max (nw_now w) (deadline + second) /\
  (r = Ok tt -> (0 < conns peer w')%nat).
Proof.
  revert w. induction retries as [|n IH]; intros w; cbn [await_connection].
  { eexists _, _. split; [reflexivity|]. split; [done|]. split; [done|]. split; [lia|done]. }
  unfold bind at 1, ctx_done, bind at 1, gets. cbn [nw_now].
  destruct (_ || (deadline <=? nw_now w)) eqn:E.
  { eexists _, _. split; [reflexivity|]. split; [done|]. split; [done|]. split; [simpl; lia|done]. }
  apply orb_false_iff in E as [_ E%Z.leb_gt].
  unfold bind at 1, connected, gets. cbn [nw_swarm].
  destruct (Nat.ltb 0 _) eqn:Ec.
  { eexists _, _. split; [reflexivity|]. split; [done|]. split; [done|]. split; [simpl; lia|].
    intros _. by apply Nat.ltb_lt in Ec. }
  unfold bind, Sleep, modify. set (w1 := mkNodeW _ _ _ _ _ _ _).
  destruct (IH w1) as (w' & r & -> & Hr & Hd & Ht & Hc). eexists _, _. split; [reflexivity|].
  split; [done|]. split; [done|]. split; [|done]. unfold second in *. simpl in *. lia.
Qed.

(** One attempt: one dial, at most eleven seconds. *)
Lemma connectWithTimeout_run peer w : exists w' r,
  connectWithTimeout peer w = (w', r) /\ (forall why, r <> Panic why) /\
  nw_dials w' = nw_dials w ++ [ai_ID peer] /\
  nw_now w <= nw_now w' <= nw_now w + 11 * second /\
  (r = Ok tt -> (0 < conns peer w')%nat).
Proof.
  destruct Hans as [Hc Ht]. unfold connectWithTimeout, bind at 1, gets.
  unfold bind at 1, try, Connect, bind at 1, modify, call. cbn [nw_step nw_swarm nw_now dial nw_dials].
  specialize (Hc (nw_step w) peer (nw_swarm w)). specialize (Ht (nw_step w)).
  destruct (host_Connect (nw_step w) peer (nw_swarm w)) as [s [u|e|why]]; simpl in Hc.
  - set (w1 := mkNodeW _ _ _ _ _ _ _).
    destruct (await_connection_run 5 (nw_now w + 10 * second) peer w1)
      as (w' & r & -> & Hr & Hd & Hn & Hok).
    eexists _, _. split; [reflexivity|]. split; [done|]. split; [done|]. split; [|done].
    unfold second in *. simpl in *. lia.
  - destruct (strings_Contains _ _); (eexists _, _; split; [reflexivity|]); (split; [done|]);
      (split; [done|]); (split; [|done]); unfold second in *; simpl; lia.
  - by destruct (Hc why).
Qed.

Lemma connect_attempts_run left peer w : (0 < left)%nat -> exists w' n,
  connect_attempts left peer w = (w', Ok tt) /\ (1 <= n <= left)%nat /\
  nw_dials w' = nw_dials w ++ replicate n (ai_ID peer) /\
  nw_now w <= nw_now w' <= nw_now w + Z.of_nat left * 11 * second + (Z.of_nat left - 1) * retryInterval /\
  ((0 < conns peer w')%nat \/ n = left).
Proof.
  revert w. induction left as [|left IH]; intros w Hl; [lia|]. cbn [connect_attempts].
  destruct (connectWithTimeout_run peer w) as (w1 & r & Hrun & Hr & Hd & Ht & Hok).
  unfold bind at 1, try. rewrite Hrun. unfold retryInterval, second in *.
  destruct r as [[]|e|why]; [| |by destruct (Hr why)].
  - exists w1, 1%nat. split; [done|]. split; [lia|]. split; [done|]. split; [lia|left; by apply Hok].
  - destruct (decide (left = O)) as [->|Hne].
    { unfold bind, ret. cbn [connect_attempts]. exists w1, 1%nat. split; [done|]. split; [lia|].
      split; [done|]. split; [lia|by right]. }
    unfold bind at 1, Sleep, modify. set (w2 := mkNodeW _ _ _ _ _ _ _).
    destruct (IH w2 ltac:(lia)) as (w' & n & -> & Hn & Hd' & Ht' & Hend).
    exists w', (S n). split; [done|]. split; [lia|].
    split; [|split; [simpl in *; lia|destruct Hend; [by left|right; lia]]].
    rewrite Hd'. simpl. by rewrite Hd, <- app_assoc.
Qed.

Lemma reconnect_run peer w : exists w' n,
  reconnect peer w = (w', Ok tt) /\ (n <= maxRetries)%nat /\
  nw_dials w' = nw_dials w ++ replicate n (ai_ID peer) /\
  nw_now w <= nw_now w' <= nw_now w + 43 * second /\
  ((0 < conns peer w')%nat \/ n = maxRetries) /\
  ((0 < conns peer w)%nat -> n = O /\ w' = w).
Proof.
  unfold reconnect, bind, connected, gets. destruct (Nat.ltb 0 _) eqn:E.
  - apply Nat.ltb_lt in E. exists w, O. split; [done|]. split; [lia|].
    split; [by rewrite app_nil_r|]. split; [unfold second; lia|]. split; [by left|done].
  - apply Nat.ltb_ge in E.
    destruct (connect_attempts_run maxRetries peer w) as (w' & n & -> & Hn & Hd & Ht & Hend);
      [unfold maxRetries; lia|].
    exists w', n. split; [done|]. split; [lia|]. split; [done|].
    split; [unfold maxRetries, retryInterval, second in *; lia|]. split; [done|lia].
Qed.

(** What a round over the bootstrap peers does to one of them. *)
Definition kept (peer : AddrInfo) (w w' : NodeW) : Prop := exists n,
  (n <= maxRetries)%nat /\ nw_dials w' = nw_dials w ++ replicate n (ai_ID peer) /\
  ((0 < conns peer w')%nat \/ n = maxRetries) /\
  ((0 < conns peer w)%nat -> n = O /\ w' = w).

(** The rounds over the peers, one after the other. *)
Inductive rounds : list AddrInfo -> NodeW -> NodeW -> Prop :=
  | rounds_nil w : rounds [] w w
  | rounds_cons p l w w1 w2 : kept p w w1 -> rounds l w1 w2 -> rounds (p :: l) w w2.

Lemma select_run w : exists w', select w =
    (w', Ok (negb (nw_stopped w || node_cancelled (nw_step w)) || select_tick (nw_step w))) /\
  nw_swarm w' = nw_swarm w /\ nw_dials w' = nw_dials w /\ nw_now w' = nw_now w.
Proof. eexists. split; [reflexivity|done]. Qed.

Lemma for_all_reconnect l w : exists w', for_all l reconnect w = (w', Ok tt) /\ rounds l w w' /\
  nw_now w' <= nw_now w + Z.of_nat (length l) * 43 * second.
Proof.
  revert w. induction l as [|p l IH]; intros w.
  { exists w. split; [done|]. split; [constructor|simpl; lia]. }
  destruct (reconnect_run p w) as (w1 & n & Hrun & Hn & Hd & Ht & Hend & Hc).
  destruct (IH w1) as (w2 & Hrun2 & Hr2 & Ht2). exists w2. split.
  { apply for_all_cons_Ok. eauto. }
  split; [|unfold second in *; cbn [length]; lia].
  eapply rounds_cons; [|exact Hr2]. by exists n.
Qed.


Lemma Connect_dials peer w : exists w' r, Connect peer w = (w', r) /\
  (forall why, r <> Panic why) /\ nw_dials w' = nw_dials w ++ [ai_ID peer].
Proof.
  destruct Hans as [Hc _]. unfold Connect, bind, modify, call. simpl.
  specialize (Hc (nw_step w) peer (nw_swarm w)). destruct (host_Connect _ _ _) as [s r].
  by eexists _, r.
Qed.

(** Discovery dials the peers it is told of once each, and never the node
    itself; a peer that cannot be reached does not stop the others. *)
Theorem discover_dials rendezvous w w' peers (Hrun : discoverPeers rendezvous w = (w', Ok true))
    (Hfound : (FindPeers (S (nw_step w)) rendezvous (nw_swarm w)).2 = Ok peers) :
  nw_dials w' = nw_dials w ++ List.filter (fun p => negb (bool_decide (p = host_ID))) (map ai_ID peers).
Proof.
  unfold discoverPeers, bind at 1, select, bind at 1, gets, bind at 1, ctx_done, ret in Hrun.
  destruct (negb _ || _); [|done]. cbn [negb] in Hrun.
  unfold bind at 1, try, call in Hrun. cbn [nw_step nw_swarm nw_now nw_dials nw_dht nw_stopped] in Hrun.
  destruct (FindPeers _ _ _) as [s r]. simpl in Hfound. subst r.
  set (w1 := mkNodeW _ _ _ _ _ _ _) in Hrun.
  assert (nw_dials w1 = nw_dials w) as <- by done. clearbody w1.
  apply bind_Ok in Hrun as (w2 & [] & Hrun & Hret). injection Hret as <-.
  revert w1 Hrun. induction peers as [|p peers IH]; intros w1 Hrun.
  { injection Hrun as <-. by rewrite app_nil_r. }
  apply for_all_cons_Ok in Hrun as (w3 & Hp & Hrun). rewrite (IH w3 Hrun).
  cbn [map List.filter]. unfold discover_peer in Hp.
  destruct (decide (ai_ID p = host_ID)) as [Hself|Hother].
  - rewrite bool_decide_eq_true_2 by done. by injection Hp as <-.
  - rewrite bool_decide_eq_false_2 by done. cbn [negb].
    destruct (Connect_dials p w1) as (w4 & r & Hc & Hr & Hd).
    unfold bind, try in Hp. rewrite Hc in Hp.
    destruct r as [u|e|why]; [| |by destruct (Hr why)]; injection Hp as <-;
      by rewrite Hd, <- app_assoc.
Qed.

(** A node that could not be made has been cancelled; one that was made has
    a DHT, whether or not it could advertise itself. *)
Theorem NewNode_outcome cfg w w' r (Hrun : NewNode cfg w = (w', r)) :
  (r = Ok tt -> nw_dht w' = true /\
     exists c, cfg = Some c /\ nc_Host c = true /\ nc_RendezvousString c <> "") /\
  (forall e c, r = Err e -> cfg = Some c -> nc_Host c = true -> nc_RendezvousString c <> "" ->
     nw_stopped w' = true).
Proof.
  destruct cfg as [c|]; [|by injection Hrun as <- <-]. unfold NewNode in Hrun.
  destruct (nc_Host c) eqn:Eh; [|injection Hrun as <- <-; split; [done|intros ? ? _ [= <-]; congruence]].
  cbn [negb] in Hrun.
  destruct (decide _) as [Hz|Hz];
    [injection Hrun as <- <-; split; [done|by intros ? ? _ [= <-]]|].
  unfold initDHT, startPeerDiscovery, wrapM, bind, try, call, modify, cancel, throw, ret in Hrun.
  destruct (dht_New _ _ _) as [s1 [u1|e1|why1]]; simpl in Hrun.
  - destruct (dht_Bootstrap _ _) as [s2 [u2|e2|why2]]; simpl in Hrun.
    + destruct (Advertise _ _ _) as [s3 [u3|e3|why3]]; injection Hrun as <- <-;
        (split; [|done]); intros; try done; (split; [done|]); by exists c.
    + by injection Hrun as <- <-.
    + by injection Hrun as <- <-.
  - by injection Hrun as <- <-.
  - by injection Hrun as <- <-.
Qed.

(** What [NewNode] has started when it returns, in order. *)
Definition node_routines : list routine :=
  [maintain_bootstrap; discover; maintain_routing; print_new_addresses; print_new_addresses;
   print_peer_info].

Lemma NewNode_routines cfg w w' : NewNode cfg w = (w', Ok tt) ->
  nw_routines w' = nw_routines w ++ node_routines /\ nw_stopped w' = nw_stopped w.
Proof.
  destruct cfg as [c|]; [|done]. unfold NewNode.
  destruct (negb (nc_Host c)); [done|]. destruct (decide _); [done|].
  unfold initDHT, startPeerDiscovery, startPrintPeerInfo, PrintPeerInfo, wrapM, bind, try, call, modify,
    cancel, throw, gets, go, ret.
  destruct (dht_New _ _ _) as [s1 [u1|e1|why1]]; [|done..]. simpl.
  destruct (dht_Bootstrap _ _) as [s2 [u2|e2|why2]]; [|done..]. simpl.
  destruct (Advertise _ _ _) as [s3 [u3|e3|why3]]; [| |done]; intros [= <-]; simpl;
    by rewrite <- !app_assoc.
Qed.

(** Stopping a node ends its context, whatever libp2p answers. *)
Lemma Stop_stops w :
  nw_stopped (Stop w).1 = true /\ nw_routines (Stop w).1 = nw_routines w.
Proof.
  unfold Stop, bind, cancel, modify, gets, try, call, ret. simpl.
  destruct (nw_dht w); simpl.
  - destruct (dht_Close _ _) as [s [u|e|why]]; simpl; [| |done];
      by destruct (host_Close _ _).
  - by destruct (host_Close _ _).
Qed.
End properties.

(** ** Example: a bootstrap peer that is up, one that is down *)

Definition toy_swarm : Swarm := {|
  swarm := gmap string nat;
  AddrInfo := string;
  ai_ID p := p;
  host_ID := "self";
  host_Addrs s := [];
  ConnsToPeer p s := default O (s !! p);
  host_Connect i p s :=
    if decide (p = "up") then (<[p := 1%nat]> s, Ok tt) else (s, Err (Errorf "failed to dial"));
  host_Close i s := (s, Ok tt);
  dht_New i ps s := (s, Ok tt);
  dht_Bootstrap i s := (s, Ok tt);
  dht_Close i s := (s, Ok tt);
  dht_Refresh i s := (s, Ok tt);
  Advertise i r s := (s, Err (Errorf "no peers"));
  FindPeers i r s := (s, Ok ["self"; "up"]);
  call_time i := second;
  node_cancelled i := false;
  select_tick i := Nat.even i;
|}.

Lemma toy_swarm_answers : @swarm_answers toy_swarm.
Proof.
  split; simpl.
  - intros i p s why. by destruct (decide (p = "up")).
  - intros _. unfold second. lia.
Qed.

Definition toy_nodew : @NodeW toy_swarm :=
  @mkNodeW toy_swarm 0 0 (∅ : gmap string nat) [] true false [].

