(* ===== verification/Setup.v ===== *)
(** * internal/database and internal/goodns: the connections a node opens

    [envconfig] fills a configuration from the environment of the process: a
    field is read from one variable, whose name it makes of the prefix and
    the name of the field, or takes the default of its tag; a value that does
    not parse panics.  The Redis client, DNS, the PostgreSQL pool and the
    in-memory cache are parameters.  [log.Fatal] is a panic. *)

From S2P Require Import Prelude GoInt GoString.

Definition upper_ascii (c : ascii) : ascii :=
  let n := nat_of_ascii c in
  if Nat.leb 97 n && Nat.leb n 122 then ascii_of_nat (n - 32) else c.
Definition ToUpper (s : string) : string := of_chars (map upper_ascii (chars s)).

(** The environment of the process *)
Abbreviation environ := (gmap string string).

Class EnvConfig := {
  envconfig_key : string -> string -> string;
  envconfig_int : string -> option Z;
  envconfig_bool : string -> option bool;
  envconfig_duration : string -> option Z;
  envconfig_strings : string -> option (list string);
}.

(** The names and the values that envconfig documents, without a
    [split_words] tag; durations in nanoseconds. *)
Class EnvConfigOk `{EnvConfig} := {
  envconfig_key_spec : forall prefix field,
    envconfig_key prefix field = ToUpper (prefix +:+ "_" +:+ field);
  envconfig_int_spec : forall n, - 2 ^ 63 <= n < 2 ^ 63 -> envconfig_int (big_String n) = Some n;
  envconfig_true : envconfig_bool "true" = Some true;
  envconfig_false : envconfig_bool "false" = Some false;
  envconfig_empty : envconfig_strings "" = Some [];
  envconfig_3s : envconfig_duration "3s" = Some (3 * 1000000000);
}.

Section envconfig.
Context `{EnvConfig}.

(** One field of a structure [MustProcess] fills. *)
Definition env_field {A} (env : environ) (prefix field dflt : string) (parse : string -> option A) :
    res A :=
  match parse (default dflt (env !! envconfig_key prefix field)) with
  | Some a => Ok a
  | None => Panic ("envconfig: " +:+ field)
  end.
End envconfig.

(** ** internal/goodns/goodns.go *)

Inductive RR := RR_A (ip : string) | RR_other.

Class DnsLib := {
  ClientConfigFromFile : res (list string);          (** the servers of /etc/resolv.conf *)
  is_IP : string -> bool;                            (** [net.ParseIP(s) != nil] *)
  JoinHostPort : string -> string -> string;
  dns_Fqdn : string -> string;
  dns_Exchange : bool -> string -> string -> res (option (list RR));  (** tcp, question, server *)
}.

Section dns.
Context `{DnsLib}.

Definition dns_server (dnsServer : option string) : res string :=
  match dnsServer with
  | Some s => Ok (JoinHostPort s "53")
  | None =>
      match ClientConfigFromFile with
      | Err _ => Err (Errorf "failed to parse /etx/resolv.conf, while server is nil")
      | Panic why => Panic why
      | Ok [] => Panic "index out of range"
      | Ok (server :: _) =>
          if is_IP server then Ok (JoinHostPort server "53") else Ok (dns_Fqdn server +:+ ":53")
      end
  end.

Definition ips_of (answer : list RR) : list string :=
  omap (fun rr => match rr with RR_A ip => Some ip | RR_other => None end) answer.

Definition queryA (domain : string) (dnsServer : option string) (useTCP : bool) :
    res (list string) :=
  let? server := dns_server dnsServer in
  let? resp := dns_Exchange useTCP (dns_Fqdn domain) server in
  match resp with
  | None => Err (Errorf "unexpected empty dns response")
  | Some answer => Ok (ips_of answer)
  end.

Definition LookupA (domain : string) (useTCP : bool) : res (list string) :=
  queryA domain None useTCP.
Definition LookupAWithServer (domain dnsServer : string) (useTCP : bool) : res (list string) :=
  queryA domain (Some dnsServer) useTCP.
End dns.

(** ** internal/database/cache/config.go *)

Record RedisEnv := mkRedisEnv {
  re_Host : string;
  re_Port : Z;
  re_Password : string;
  re_IsFailover : bool;
  re_IsElastiCache : bool;
  re_IsClusterMode : bool;
  re_ClusterAddrs : list string;
  re_ClusterMaxRedirects : Z;
  re_ReadTimeout : Z;
  re_PoolSize : Z;
}.

Inductive RedisClient :=
  | ClusterClient (addrs : list string) (maxRedirects readTimeout poolSize : Z) (password : string)
  | SingleClient (addr : string) (readTimeout poolSize : Z) (password : string) (tls : bool)
  | FailoverClient (sentinels : list string) (password : string) (poolSize readTimeout : Z).

Class RedisLib := {
  InstrumentTracing : RedisClient -> res unit;
  InstrumentMetrics : RedisClient -> res unit;
  redis_Ping : RedisClient -> res unit;
}.

(** [log.Fatal] unless the call succeeds. *)
Definition fatal (msg : string) (r : res unit) : res unit :=
  match r with Err e => Panic (msg +:+ ": " +:+ Error e) | _ => r end.

Section redis.
Context `{EnvConfig, DnsLib, RedisLib}.

Definition redis_config (env : environ) (envPrefix : string) : res RedisEnv :=
  let? host := env_field env envPrefix "Host" "127.0.0.1" Some in
  let? port := env_field env envPrefix "Port" "6379" envconfig_int in
  let? password := env_field env envPrefix "Password" "" Some in
  let? failover := env_field env envPrefix "IsFailover" "false" envconfig_bool in
  let? elasti := env_field env envPrefix "IsElastiCache" "false" envconfig_bool in
  let? cluster := env_field env envPrefix "IsClusterMode" "false" envconfig_bool in
  let? addrs := env_field env envPrefix "ClusterAddrs" "" envconfig_strings in
  let? redirects := env_field env envPrefix "ClusterMaxRedirects" "3" envconfig_int in
  let? timeout := env_field env envPrefix "ReadTimeout" "3s" envconfig_duration in
  let? pool := env_field env envPrefix "PoolSize" "50" envconfig_int in
  Ok (mkRedisEnv host port password failover elasti cluster addrs redirects timeout pool).

(** [fmt.Sprintf("%s:%d", host, port)] *)
Definition host_port (host : string) (port : Z) : string := host +:+ ":" +:+ big_String port.

(** The client for a configuration. *)
Definition redis_client (c : RedisEnv) : res RedisClient :=
  if re_IsClusterMode c then
    Ok (ClusterClient (re_ClusterAddrs c) (re_ClusterMaxRedirects c) (re_ReadTimeout c)
          (re_PoolSize c) (re_Password c))
  else if negb (re_IsFailover c) then
    Ok (SingleClient (host_port (re_Host c) (re_Port c)) (re_ReadTimeout c) (re_PoolSize c)
          (re_Password c) (re_IsElastiCache c))
  else
    match LookupA (re_Host c) true with
    | Ok ips => Ok (FailoverClient (map (fun ip => host_port ip (re_Port c)) ips) (re_Password c)
                      (re_PoolSize c) (re_ReadTimeout c))
    | Err err => Panic ("failed to exec goodns.LookupA: " +:+ Error err)
    | Panic why => Panic why
    end.

Definition NewRedisClient (env : environ) (envPrefix : string) : res RedisClient :=
  let? c := redis_config env envPrefix in
  let? redisClient := redis_client c in
  let? _ := fatal "failed to InstrumentTracing to redis" (InstrumentTracing redisClient) in
  let? _ := fatal "failed to InstrumentMetrics to redis" (InstrumentMetrics redisClient) in
  let? _ := fatal "failed to connect to redis" (redis_Ping redisClient) in
  Ok redisClient.
End redis.

(** ** internal/database/cache/dcache.go, init.go *)

Record DCacheConfig := mkDCacheConfig {
  dc_ReadInterval : Z;
  dc_EnableStats : bool;
  dc_EnableTrace : bool;
  dc_InMemCacheSize : Z;
}.

(** The in-memory cache over Redis, and the PostgreSQL pool. *)
Class StoreLib := {
  DCache : Type;
  dcache_NewDCache : string -> RedisClient -> DCacheConfig -> res DCache;
  Pool : Type;
  wpgx_NewPool : environ -> string -> res Pool;         (** configured from a prefix *)
  pool_Ping : Pool -> res unit;
  ReplicaPools : Pool -> list (string * res unit);      (** each with the answer to its ping *)
}.

Section store.
Context `{EnvConfig, DnsLib, RedisLib, StoreLib}.

Definition dcache_config (env : environ) (prefix : string) : res DCacheConfig :=
  let? interval := env_field env prefix "ReadInterval" "500ms" envconfig_duration in
  let? stats := env_field env prefix "EnableStats" "true" envconfig_bool in
  let? trace := env_field env prefix "EnableTrace" "true" envconfig_bool in
  let? size := env_field env prefix "InMemCacheSize" "52428800" envconfig_int in
  Ok (mkDCacheConfig interval stats trace size).

Definition NewDCache (env : environ) (appName dcacheEnvPrefix : string) (redisConn : RedisClient) :
    res DCache :=
  let? c := dcache_config env dcacheEnvPrefix in
  dcache_NewDCache appName redisConn c.

Definition InitCache (env : environ) (appName : string) : res (RedisClient * DCache) :=
  let? redisConn := NewRedisClient env "redis" in
  let? dCache := wrap "failed to create dcache" (NewDCache env appName "dcache" redisConn) in
  Ok (redisConn, dCache).

(** ** internal/database/wpgx *)

Fixpoint ping_all (replicas : list (string * res unit)) : res unit :=
  match replicas with
  | [] => Ok tt
  | (_, ping) :: replicas' => let? _ := ping in ping_all replicas'
  end.

Definition NewWPGXPool (env : environ) (envPrefix : string) : res Pool :=
  let? pool := wpgx_NewPool env envPrefix in
  let? _ := pool_Ping pool in
  let? _ := ping_all (ReplicaPools pool) in
  Ok pool.

Definition InitDB (env : environ) : res Pool :=
  wrap "failed to create db connection pool" (NewWPGXPool env "postgres").

(** A pool is handed out only when the primary and every replica answered. *)
Lemma NewWPGXPool_Ok env prefix pool : NewWPGXPool env prefix = Ok pool <->
  wpgx_NewPool env prefix = Ok pool /\ pool_Ping pool = Ok tt /\
  Forall (fun r => r.2 = Ok tt) (ReplicaPools pool).
Proof.
  assert (forall l, ping_all l = Ok tt <-> Forall (fun r => r.2 = Ok tt) l) as Hall.
  { induction l as [|[n r] l IH]; cbn [ping_all]; [by split; [constructor|]|].
    rewrite Forall_cons_iff, res_bind_Ok, <- IH. simpl. split.
    - by intros ([] & ? & ?).
    - intros [? ?]. by exists tt. }
  unfold NewWPGXPool. rewrite res_bind_Ok. split.
  - intros (p & Hp & (? & Hping & ([] & Hr & [= ->])%res_bind_Ok)%res_bind_Ok).
    split; [done|]. split; [by destruct (pool_Ping pool) as [[]| |]|by apply Hall].
  - intros (Hp & Hping & Hr%Hall). exists pool. split; [done|]. by rewrite Hping, Hr.
Qed.
End store.
