(* ===== verification/Command.v ===== *)
(** * cmd/operator/cmd: the command line

    [start] checks its flags, loads the configuration, hands the database and
    Redis settings to the libraries through environment variables, and runs
    the application ([App]).  The file system and the text of a duration are
    parameters. *)

From S2P Require Import Prelude GoInt GoString Config Setup.

(** ** root.go, start.go: flags *)

Record Flags := mkFlags {
  cfgFile : string;
  signingKeyPath : string;
  signingKeyPriv : string;
  p2pKey : string;
  password : string;
}.

Section flags.
Context (missing : string -> bool).   (** [os.IsNotExist] of [os.Stat] *)

Definition defaultConfig : string := "./config/operator.yaml".

(** [initConfig], which cobra runs before a command; [os.Exit] is a panic. *)
Definition initConfig (f : Flags) : res Flags :=
  if decide (cfgFile f <> "") then
    if missing (cfgFile f) then Panic "exit status 1" else Ok f
  else if missing defaultConfig then Ok f
  else Ok (mkFlags defaultConfig (signingKeyPath f) (signingKeyPriv f) (p2pKey f) (password f)).

Definition validateStartFlags (f : Flags) : res unit :=
  if missing (cfgFile f) then Err (Errorf "config file not found")
  else if decide (signingKeyPath f = "" /\ signingKeyPriv f = "") then
    Err (Errorf "either --signing-key-path or --signing-key-priv must be provided")
  else if decide (signingKeyPath f <> "" /\ signingKeyPriv f <> "") then
    Err (Errorf "cannot use both --signing-key-path and --signing-key-priv at the same time")
  else if decide (signingKeyPath f <> "" /\ password f = "") then
    Err (Errorf "--password is required when using --signing-key-path")
  else if decide (signingKeyPath f <> "" /\ missing (signingKeyPath f) = true) then
    Err (Errorf "signing key file not found")
  else if decide (p2pKey f = "") then Err (Errorf "p2p-key-64 is required")
  else Ok tt.
End flags.

Section flags_ok.
Context (missing : string -> bool).

(** Flags are accepted exactly when the configuration and one kind of signing
    key are there: a keystore that exists, with its password, or a raw key. *)
Lemma validateStartFlags_iff f : validateStartFlags missing f = Ok tt <->
  missing (cfgFile f) = false /\ p2pKey f <> "" /\
  ((signingKeyPath f = "" /\ signingKeyPriv f <> "") \/
   (signingKeyPath f <> "" /\ signingKeyPriv f = "" /\ password f <> "" /\
    missing (signingKeyPath f) = false)).
Proof.
  unfold validateStartFlags.
  rewrite guard_Ok, !guard_decide_Ok, <- !not_true_iff_false.
  destruct (decide (signingKeyPath f = "")), (decide (signingKeyPriv f = "")),
    (decide (password f = "")), (decide (p2pKey f = "")); tauto.
Qed.
End flags_ok.

(** What [runStart] passes to [Run]: whether the key is a path, and the key. *)
Definition run_arguments (f : Flags) : bool * string * string * string :=
  let isKeyPath := bool_decide (signingKeyPath f <> "") in
  let signingKey := if isKeyPath then signingKeyPath f else signingKeyPriv f in
  (isKeyPath, signingKey, p2pKey f, password f).

(** ** start.go: the environment *)

Definition FormatBool (b : bool) : string := if b then "true" else "false".

Section environment.
Context (Duration_String : Z -> string).   (** [time.Duration.String] *)

(** The calls of [os.Setenv], in order. *)
Definition start_env (cfg : Config) : list (string * string) :=
  let dbCfg := cf_Database cfg in
  let redisCfg := cf_Redis cfg in
  [ ("POSTGRES_APPNAME", cd_AppName dbCfg);
    ("POSTGRES_USERNAME", cd_Username dbCfg);
    ("POSTGRES_PASSWORD", cd_Password dbCfg);
    ("POSTGRES_HOST", cd_Host dbCfg);
    ("POSTGRES_PORT", big_String (cd_Port dbCfg));
    ("POSTGRES_DBNAME", cd_DBName dbCfg);
    ("POSTGRES_MAXCONNS", big_String (cd_MaxConns dbCfg));
    ("POSTGRES_MINCONNS", big_String (cd_MinConns dbCfg));
    ("POSTGRES_MAXCONNLIFETIME", Duration_String (cd_MaxConnLifetime dbCfg));
    ("POSTGRES_MAXCONNIDLETIME", Duration_String (cd_MaxConnIdleTime dbCfg));
    ("POSTGRES_ISPROXY", FormatBool (cd_IsProxy dbCfg));
    ("POSTGRES_ENABLEPROMETHEUS", FormatBool (cd_EnablePrometheus dbCfg));
    ("POSTGRES_ENABLETRACING", FormatBool (cd_EnableTracing dbCfg));
    ("REDIS_HOST", cr_Host redisCfg);
    ("REDIS_PORT", big_String (cr_Port redisCfg));
    ("REDIS_PASSWORD", cr_Password redisCfg);
    ("REDIS_IS_FAILOVER", FormatBool (cr_IsFailover redisCfg));
    ("REDIS_IS_ELASTICACHE", FormatBool (cr_IsElasticache redisCfg));
    ("REDIS_IS_CLUSTER_MODE", FormatBool (cr_IsClusterMode redisCfg));
    ("REDIS_CLUSTER_MAX_REDIRECTS", big_String (cr_ClusterMaxRedirects redisCfg));
    ("REDIS_READ_TIMEOUT", Duration_String (cr_ReadTimeout redisCfg));
    ("REDIS_POOL_SIZE", big_String (cr_PoolSize redisCfg));
    ("METRIC_PORT", big_String (cf_MetricPort cfg)) ].

Definition setenv_all (vars : list (string * string)) (env : environ) : environ :=
  foldl (fun env kv => <[kv.1 := kv.2]> env) env vars.

(** The environment [Run] starts in, or the error that ends [runStart]. *)
Definition runStart_env (load : string -> res Config) (f : Flags) (env : environ) : res environ :=
  let? cfg := wrap "failed to load config" (load (cfgFile f)) in
  Ok (setenv_all (start_env cfg) env).

(** A variable that no call sets keeps its value. *)
Lemma setenv_other vars env k : k ∉ vars.*1 -> setenv_all vars env !! k = env !! k.
Proof.
  unfold setenv_all. revert env. induction vars as [|[x v] vars IH]; intros env Hk; [done|]. simpl.
  rewrite IH by set_solver. apply lookup_insert_ne. set_solver.
Qed.

Lemma setenv_set vars env k v : NoDup vars.*1 -> (k, v) ∈ vars ->
  setenv_all vars env !! k = Some v.
Proof.
  unfold setenv_all. revert env. induction vars as [|[x y] vars IH]; intros env Hnd Hk.
  { by apply elem_of_nil in Hk. }
  apply NoDup_cons in Hnd as [Hx Hnd]. simpl. apply elem_of_cons in Hk as [[= <- <-]|Hk]; [|by apply IH].
  pose proof (setenv_other vars (<[k:=v]> env) k Hx) as Ho. unfold setenv_all in Ho.
  rewrite Ho. apply lookup_insert_eq.
Qed.

Context `{EnvConfigOk}.

(** The settings whose variables [runStart] does not set. *)
Definition redis_unset : list string :=
  ["IsFailover"; "IsElastiCache"; "IsClusterMode"; "ClusterAddrs"; "ClusterMaxRedirects";
   "ReadTimeout"; "PoolSize"].

Lemma start_env_NoDup cfg : NoDup (start_env cfg).*1.
Proof. apply (bool_decide_unpack (NoDup (start_env cfg).*1)). vm_compute. exact I. Qed.

(** Most of the [redis] section of the configuration never takes effect.
    [runStart] passes it in variables spelled with underscores, such as
    [REDIS_IS_CLUSTER_MODE]; the client's configuration is read from
    [REDIS_ISCLUSTERMODE] and the like.  Whatever the file says, a node whose
    surrounding environment does not set those gets a single-server client
    without TLS, with the default timeout and pool size; only host, port and
    password are the configured ones. *)
Theorem redis_section_ignored (cfg : Config) (env : environ)
    (Hport : - 2 ^ 63 <= cr_Port (cf_Redis cfg) < 2 ^ 63)
    (Hunset : forall field, field ∈ redis_unset -> env !! envconfig_key "redis" field = None) :
  redis_config (setenv_all (start_env cfg) env) "redis" =
  Ok (mkRedisEnv (cr_Host (cf_Redis cfg)) (cr_Port (cf_Redis cfg)) (cr_Password (cf_Redis cfg))
        false false false [] 3 (3 * 1000000000) 50).
Proof.
  set (env' := setenv_all (start_env cfg) env).
  assert (forall i field, redis_unset !! i = Some field ->
    env' !! envconfig_key "redis" field = None) as Hnone.
  { intros i field Hf%list_elem_of_lookup_2. unfold env'. rewrite setenv_other; [by apply Hunset|].
    rewrite envconfig_key_spec. apply (bool_decide_unpack _). revert field Hf.
    apply Forall_forall. repeat constructor. }
  assert (forall i field v, start_env cfg !! i = Some (ToUpper ("redis_" +:+ field), v) ->
    env' !! envconfig_key "redis" field = Some v) as Hset.
  { intros i field v Hi%list_elem_of_lookup_2. rewrite envconfig_key_spec.
    by apply setenv_set; [apply start_env_NoDup|]. }
  unfold redis_config, env_field.
  rewrite (Hset 13%nat "Host" _ eq_refl), (Hset 14%nat "Port" _ eq_refl),
    (Hset 15%nat "Password" _ eq_refl).
  rewrite (Hnone 0%nat _ eq_refl), (Hnone 1%nat _ eq_refl), (Hnone 2%nat _ eq_refl),
    (Hnone 3%nat _ eq_refl), (Hnone 4%nat _ eq_refl), (Hnone 5%nat _ eq_refl),
    (Hnone 6%nat _ eq_refl).
  cbn [default from_option id]. rewrite envconfig_int_spec by done.
  rewrite envconfig_false, envconfig_empty, envconfig_3s.
  change "3" with (big_String 3). change "50" with (big_String 50).
  by rewrite !envconfig_int_spec by lia.
Qed.
End environment.

(** ** The laws hold of a simple parser *)

Definition toy_envconfig : EnvConfig := {|
  envconfig_key prefix field := ToUpper (prefix +:+ "_" +:+ field);
  envconfig_int s := SetString s 10;
  envconfig_bool s :=
    if decide (s = "true") then Some true else if decide (s = "false") then Some false else None;
  envconfig_duration s :=
    if decide (s = "3s") then Some (3 * 1000000000)
    else if decide (s = "500ms") then Some 500000000 else None;
  envconfig_strings s := Some (if decide (s = "") then [] else [s]);
|}.

Lemma toy_envconfig_ok : @EnvConfigOk toy_envconfig.
Proof.
  split; try done. intros n _. apply SetString_big_String. by left.
Qed.

(** A configuration that asks for a cluster. *)
Definition cluster_config : Config :=
  mkConfig ∅ zero_DatabaseConfig (mkP2PConfig 0 [] "") 0 0
    (mkRedisConfig "redis" 6379 "secret" false true true ["10.0.0.1:6379"] 7 1000000000 200).

Lemma redis_section_ignored_witness :
  @redis_config toy_envconfig (setenv_all (start_env (fun _ => "1s") cluster_config) ∅) "redis" =
  Ok (mkRedisEnv "redis" 6379 "secret" false false false [] 3 (3 * 1000000000) 50) /\
  start_env (fun _ => "1s") cluster_config !! 18%nat = Some ("REDIS_IS_CLUSTER_MODE", "true").
Proof.
  split; [|reflexivity].
  exact (@redis_section_ignored (fun _ => "1s") toy_envconfig toy_envconfig_ok cluster_config ∅
           ltac:(vm_compute; split; congruence)
           (fun field _ => lookup_empty _)).
Defined.
