(* ===== verification/Init.v ===== *)
(** * cmd/operator/cmd/init.go: writing the configuration

    [init] asks for the endpoint of each supported chain, the bootstrap peers
    and the kind of deployment, and writes [config/operator.yaml].  The
    prompts (survey), the file system and YAML are parameters.

    [yaml] is the tree that yaml.Marshal is given and yaml.Unmarshal finds;
    [decode_config] fills the structure [Config] from such a tree by its
    tags: a key without a field is ignored, a field without a key keeps its
    zero value; [None] where a value has not the type of its field.  That
    yaml.v3 reads what yaml.v2 wrote as such a tree is a hypothesis of the
    theorem.  The answers of the prompts are told by the index of the call,
    and so is what is left in a file that could not be written; a log keeps
    every question with the answer it got. *)

From Stdlib Require Import Floats.SpecFloat.
From S2P Require Import Prelude GoInt GoString Config.
From coqutil Require Import Datatypes.RecordSetters.
Import TriangleBracketNotations.

Inductive yaml :=
  | YStr (s : string)
  | YInt (n : Z)
  | YBool (b : bool)
  | YFloat (f : spec_float)
  | YStrs (l : list string)
  | YMap (m : list (string * yaml))
  | YChains (m : list (Z * yaml)).     (** a map with integer keys *)

(** ** Reading a tree by the tags of config.go *)

Fixpoint ylookup (k : string) (m : list (string * yaml)) : option yaml :=
  match m with
  | [] => None
  | (k', v) :: m' => if decide (k = k') then Some v else ylookup k m'
  end.

(** A field: absent, it is zero. *)
Definition yfield {A} (k : string) (zero : A) (dec : yaml -> option A) (m : list (string * yaml)) :
    option A :=
  match ylookup k m with None => Some zero | Some v => dec v end.

Definition y_string (v : yaml) : option string := match v with YStr s => Some s | _ => None end.
(** An integer that fits the width of the field *)
Definition y_range (lo hi : Z) (v : yaml) : option Z :=
  match v with YInt n => if (lo <=? n) && (n <? hi) then Some n else None | _ => None end.
Definition y_int : yaml -> option Z := y_range (- 2 ^ 63) (2 ^ 63).
Definition y_uint16 : yaml -> option Z := y_range 0 (2 ^ 16).
Definition y_bool (v : yaml) : option bool := match v with YBool b => Some b | _ => None end.
Definition y_float (v : yaml) : option spec_float := match v with YFloat f => Some f | _ => None end.
Definition y_strings (v : yaml) : option (list string) := match v with YStrs l => Some l | _ => None end.
Definition y_map {A} (dec : list (string * yaml) -> option A) (v : yaml) : option A :=
  match v with YMap m => dec m | _ => None end.

Section decode.
Context (ParseDuration : string -> option Z).

Definition y_duration (v : yaml) : option Z := match v with YStr s => ParseDuration s | _ => None end.

Definition decode_contracts (m : list (string * yaml)) : option ContractsConfig :=
  registry ← yfield "registry" "" y_string m;
  epochManager ← yfield "epochManager" "" y_string m;
  stateManager ← yfield "stateManager" "" y_string m;
  Some (mkContractsConfig registry epochManager stateManager).

Definition decode_chain (m : list (string * yaml)) : option ChainConfig :=
  rpc ← yfield "rpc" "" y_string m;
  contracts ← yfield "contracts" (mkContractsConfig "" "" "") (y_map decode_contracts) m;
  confirmations ← yfield "required_confirmations" 0 y_uint16 m;
  blockTime ← yfield "average_block_time" (S754_zero false) y_float m;
  Some (mkChainConfig rpc contracts confirmations blockTime).

Definition decode_chains (v : yaml) : option (gmap Z ChainConfig) :=
  match v with
  | YChains l =>
      list_to_map (M := gmap Z ChainConfig) <$>
        mapM (fun kv =>
          if (0 <=? kv.1) && (kv.1 <? 2 ^ 32) then (fun c => (kv.1, c)) <$> y_map decode_chain kv.2
          else None) l
  | _ => None
  end.

Definition decode_database (m : list (string * yaml)) : option DatabaseConfig :=
  appName ← yfield "app_name" "" y_string m;
  username ← yfield "username" "" y_string m;
  password ← yfield "password" "" y_string m;
  host ← yfield "host" "" y_string m;
  port ← yfield "port" 0 y_int m;
  dbname ← yfield "dbname" "" y_string m;
  maxConns ← yfield "max_conns" 0 y_int m;
  minConns ← yfield "min_conns" 0 y_int m;
  lifetime ← yfield "max_conn_lifetime" 0 y_duration m;
  idle ← yfield "max_conn_idle_time" 0 y_duration m;
  isProxy ← yfield "is_proxy" false y_bool m;
  prometheus ← yfield "enable_prometheus" false y_bool m;
  tracing ← yfield "enable_tracing" false y_bool m;
  replicas ← yfield "replica_prefixes" [] y_strings m;
  Some (mkDatabaseConfig appName username password host port dbname maxConns minConns lifetime
          idle isProxy prometheus tracing replicas).

Definition decode_redis (m : list (string * yaml)) : option RedisConfig :=
  host ← yfield "host" "" y_string m;
  port ← yfield "port" 0 y_int m;
  password ← yfield "password" "" y_string m;
  failover ← yfield "is_failover" false y_bool m;
  elasticache ← yfield "is_elasticache" false y_bool m;
  cluster ← yfield "is_cluster_mode" false y_bool m;
  addrs ← yfield "cluster_addrs" [] y_strings m;
  redirects ← yfield "cluster_max_redirects" 0 y_int m;
  timeout ← yfield "read_timeout" 0 y_duration m;
  pool ← yfield "pool_size" 0 y_int m;
  Some (mkRedisConfig host port password failover elasticache cluster addrs redirects timeout pool).

Definition decode_p2p (m : list (string * yaml)) : option P2PConfig :=
  port ← yfield "port" 0 y_int m;
  peers ← yfield "bootstrap_peers" [] y_strings m;
  rendezvous ← yfield "rendezvous" "" y_string m;
  Some (mkP2PConfig port peers rendezvous).

Definition decode_config (v : yaml) : option Config :=
  y_map (fun m =>
    chains ← yfield "chains" ∅ decode_chains m;
    database ← yfield "database" zero_DatabaseConfig (y_map decode_database) m;
    p2p ← yfield "p2p" (mkP2PConfig 0 [] "") (y_map decode_p2p) m;
    http ← yfield "http" 0 (y_map (yfield "port" 0 y_int)) m;
    metric ← yfield "metric" 0 (y_map (yfield "port" 0 y_int)) m;
    redis ← yfield "redis" zero_RedisConfig (y_map decode_redis) m;
    Some (mkConfig chains database p2p http metric redis)) v.
End decode.

(** A structure as yaml.Marshal writes it *)
Definition encode_contracts (c : ContractsConfig) : yaml :=
  YMap [("registry", YStr (cf_Registry c)); ("epochManager", YStr (cf_EpochManager c));
        ("stateManager", YStr (cf_StateManager c))].

Definition encode_chain (c : ChainConfig) : yaml :=
  YMap [("rpc", YStr (cf_RPC c)); ("contracts", encode_contracts (cf_Contracts c));
        ("required_confirmations", YInt (cf_RequiredConfirmations c));
        ("average_block_time", YFloat (cf_AverageBlockTime c))].

Definition encode_chains (m : gmap Z ChainConfig) : yaml :=
  YChains (map (fun kv => (kv.1, encode_chain kv.2)) (map_to_list m)).

(** ** generateConfig *)

Record ConfigAnswers := mkConfigAnswers {
  DeployMode : string;
  ChainConfigs : gmap Z ChainConfig;
  IsFirstNode : bool;
  BootstrapPeers : list string;
  DBHost : string;
  DBPort : Z;
  DBUser : string;
  DBPassword : string;
  DBName : string;
  RedisHost : string;
  RedisPort : Z;
  RedisPassword : string;
}.

Definition generateConfig (answers : ConfigAnswers) : yaml :=
  let '(database, redis) :=
    if decide (DeployMode answers = "docker-compose") then
      (YMap [("host", YStr "postgres"); ("port", YInt 5432); ("username", YStr "spotted");
             ("password", YStr "spotted"); ("dbname", YStr "spotted"); ("max_conns", YInt 100);
             ("min_conns", YInt 0); ("max_conn_life", YStr "6h"); ("max_conn_idle", YStr "1m");
             ("is_proxy", YBool false); ("enable_metrics", YBool true);
             ("enable_tracing", YBool true); ("app_name", YStr "spotted")],
       YMap [("host", YStr "redis"); ("port", YInt 6379); ("password", YStr "");
             ("is_failover", YBool false); ("is_elasticache", YBool false);
             ("is_cluster_mode", YBool false); ("cluster_max_redirects", YInt 3);
             ("read_timeout", YStr "3s"); ("pool_size", YInt 50)])
    else
      (YMap [("host", YStr (DBHost answers)); ("port", YInt (DBPort answers));
             ("username", YStr (DBUser answers)); ("password", YStr (DBPassword answers));
             ("dbname", YStr (DBName answers))],
       YMap [("host", YStr (RedisHost answers)); ("port", YInt (RedisPort answers));
             ("password", YStr (RedisPassword answers))]) in
  YMap [("chains", encode_chains (ChainConfigs answers));
        ("database", database);
        ("redis", redis);
        ("metric", YMap [("port", YInt 4014)]);
        ("http", YMap [("port", YInt 8080)]);
        ("p2p", YMap [("port", YInt 10000); ("rendezvous", YStr "spotted-network");
                      ("bootstrap_peers", YStrs (BootstrapPeers answers))])].

(** ** collectChainConfigs *)

Record ChainDefaults := mkChainDefaults {
  rpcURL : string;
  registryAddr : string;
  epochMgrAddr : string;
  stateMgrAddr : string;
  requiredConfirmations : Z;
  averageBlockTime : spec_float;
}.

(** 12.0 and 2.0 *)
Definition float_12 : spec_float := S754_finite false 6755399441055744 (-49).
Definition float_2 : spec_float := S754_finite false 4503599627370496 (-51).

Definition chainConfigs : list (Z * ChainDefaults) :=
  [ (11155111,
     mkChainDefaults "wss://ethereum-sepolia-rpc.publicnode.com"
       "0xB6dE44d8F1425752CAc1103D99e59eD329F65aCF" "0x5bFB7609a51F8577D90e8576DE6e85BC7fBf08F7"
       "0xcc6Db3c0389128bad36796079aB336B3AfC1cF19" 2 float_12);
    (84532,
     mkChainDefaults "https://base-sepolia-rpc.publicnode.com" "" ""
       "0xe8Cbc41961125A1B0F86465Ff9a6666e39104E9e" 2 float_2);
    (421614,
     mkChainDefaults "https://arbitrum-sepolia.gateway.tenderly.co" "" ""
       "0xe3Ed30610de2914b45d848718d6837eF14361C41" 2 float_2) ].

(** A question about a field of the answers: its name, the message, and the
    default, [None] for a password. *)
Record Question := mkQuestion { q_Name : string; q_Message : string; q_Default : option string }.

Inductive Answer := AText (s : string) | AInt (n : Z) | ABool (b : bool).

Class Survey := {
  ask_Input : nat -> string -> string -> res string;           (** message, default *)
  ask_Confirm : nat -> string -> bool -> res bool;
  ask_Select : nat -> string -> list string -> string -> res string;
  (** [survey.Ask]: the fields it writes, each with its value *)
  survey_Ask : nat -> list Question -> res (list (string * Answer));
  os_MkdirAll : nat -> string -> res unit;
  os_WriteFile : nat -> string -> string -> res unit;
  file_left : nat -> option string;        (** what a failed write leaves in the file *)
  yaml_Marshal : yaml -> res string;
}.

Record InitW := mkInitW {
  iw_step : nat;
  iw_files : gmap string string;
  iw_log : list (string * Answer);   (** the questions, by message or field name, and the answers *)
}.

Section init.
Context `{Survey}.

Abbreviation IM := (M InitW).

Definition sys {A} (f : nat -> res A) : IM A := fun w =>
  (w <| iw_step ::= S |>, f (iw_step w)).

Definition log_answers (l : list (string * Answer)) : IM unit :=
  modify (fun w => w <| iw_log ::= (fun log => log ++ l) |>).

(** [survey.AskOne] with each kind of prompt *)
Definition AskInput (msg dflt : string) : IM string :=
  let! s := sys (fun i => ask_Input i msg dflt) in
  do! log_answers [(msg, AText s)] in ret s.
Definition AskConfirm (msg : string) (dflt : bool) : IM bool :=
  let! b := sys (fun i => ask_Confirm i msg dflt) in
  do! log_answers [(msg, ABool b)] in ret b.
Definition AskSelect (msg : string) (options : list string) (dflt : string) : IM string :=
  let! s := sys (fun i => ask_Select i msg options dflt) in
  do! log_answers [(msg, AText s)] in ret s.

(** A field of the answers, written by its name *)
Definition set_field (answers : ConfigAnswers) (fv : string * Answer) : ConfigAnswers :=
  let '(name, v) := fv in
  match v with
  | AText s =>
      if decide (name = "DBHost") then answers <| DBHost := s |>
      else if decide (name = "DBUser") then answers <| DBUser := s |>
      else if decide (name = "DBPassword") then answers <| DBPassword := s |>
      else if decide (name = "DBName") then answers <| DBName := s |>
      else if decide (name = "RedisHost") then answers <| RedisHost := s |>
      else if decide (name = "RedisPassword") then answers <| RedisPassword := s |>
      else answers
  | AInt n =>
      if decide (name = "DBPort") then answers <| DBPort := n |>
      else if decide (name = "RedisPort") then answers <| RedisPort := n |>
      else answers
  | ABool _ => answers
  end.

Definition Ask (questions : list Question) (answers : ConfigAnswers) : IM ConfigAnswers :=
  let! l := sys (fun i => survey_Ask i questions) in
  do! log_answers l in ret (fold_left set_field l answers).

Definition rpc_message (chainID : Z) : string :=
  "Enter RPC URL for Chain ID " +:+ big_String chainID +:+ ":".
Definition peer_prefix : string := "Enter bootstrap peer #".
Definition more_message : string := "Do you want to add another bootstrap peer?".
Definition first_message : string := "Is this the first node in the network?".
Definition mode_message : string := "Choose deployment mode:".

Definition chain_of (chainID : Z) (chainInfo : ChainDefaults) (rpcURL : string) : ChainConfig :=
  let contracts :=
    if chainID =? 11155111 then
      mkContractsConfig (registryAddr chainInfo) (epochMgrAddr chainInfo) (stateMgrAddr chainInfo)
    else mkContractsConfig "" "" (stateMgrAddr chainInfo) in
  mkChainConfig rpcURL contracts (requiredConfirmations chainInfo) (averageBlockTime chainInfo).

(** The loop over the table, in the order [range] takes. *)
Fixpoint collect_loop (order : list (Z * ChainDefaults)) (configs : gmap Z ChainConfig) :
    IM (gmap Z ChainConfig) :=
  match order with
  | [] => ret configs
  | (chainID, chainInfo) :: order' =>
      let! rpc := AskInput (rpc_message chainID) (rpcURL chainInfo) in
      collect_loop order' (<[chainID := chain_of chainID chainInfo rpc]> configs)
  end.

Definition collectChainConfigs (order : list (Z * ChainDefaults)) : IM (gmap Z ChainConfig) :=
  collect_loop order ∅.

(** ** runInit *)

(** The loop over the bootstrap peers; [None]: it is still asking after
    [fuel] rounds, as it does while the answers are empty. *)
Fixpoint ask_peers (fuel : nat) (bootstrapPeers : list string) (continueAdding : bool) :
    IM (option (list string)) :=
  if Nat.ltb (length bootstrapPeers) 5 && continueAdding then
    match fuel with
    | O => ret None
    | S fuel' =>
        let! peer := wrapM "failed to get bootstrap peer"
          (AskInput (peer_prefix +:+ big_String (Z.of_nat (length bootstrapPeers) + 1) +:+ ":") "") in
        if decide (peer = "") then ask_peers fuel' bootstrapPeers continueAdding
        else
          let bootstrapPeers := bootstrapPeers ++ [peer] in
          if Nat.ltb (length bootstrapPeers) 5 then
            let! addMore := wrapM "failed to confirm adding more peers"
              (AskConfirm more_message false) in
            ask_peers fuel' bootstrapPeers addMore
          else ask_peers fuel' bootstrapPeers continueAdding
    end
  else ret (Some bootstrapPeers).

Definition dbQuestions : list Question :=
  [ mkQuestion "DBHost" "Enter PostgreSQL host:" (Some "localhost");
    mkQuestion "DBPort" "Enter PostgreSQL port:" (Some "5432");
    mkQuestion "DBUser" "Enter PostgreSQL user:" (Some "spotted");
    mkQuestion "DBPassword" "Enter PostgreSQL password:" None;
    mkQuestion "DBName" "Enter PostgreSQL database name:" (Some "spotted") ].

Definition redisQuestions : list Question :=
  [ mkQuestion "RedisHost" "Enter Redis host:" (Some "localhost");
    mkQuestion "RedisPort" "Enter Redis port:" (Some "6379");
    mkQuestion "RedisPassword" "Enter Redis password (optional):" None ].

Definition write_file (path data : string) : IM unit := fun w =>
  let i := iw_step w in
  match os_WriteFile i path data with
  | Ok _ => (w <| iw_step := S i |> <| iw_files ::= <[path := data]> |>, Ok tt)
  | r => (w <| iw_step := S i |>
            <| iw_files ::= partial_alter (fun old => match file_left i with
                                                      | Some s => Some s
                                                      | None => old
                                                      end) path |>, r)
  end.

Definition no_bootstrap : error :=
  Errorf "at least one bootstrap peer is required for non-first nodes".

(** The surrounding services, asked about in docker mode only *)
Definition ask_services (answers : ConfigAnswers) : IM ConfigAnswers :=
  if decide (DeployMode answers = "docker") then
    let! answers := wrapM "failed to get database config" (Ask dbQuestions answers) in
    wrapM "failed to get redis config" (Ask redisQuestions answers)
  else ret answers.

(** The last steps: the directory, the text, the file. *)
Definition write_config (answers : ConfigAnswers) : IM unit :=
  let config := generateConfig answers in
  do! wrapM "failed to create config directory" (sys (fun i => os_MkdirAll i "config")) in
  let! data := wrapM "failed to marshal config" (lift (yaml_Marshal config)) in
  wrapM "failed to write config file" (write_file "config/operator.yaml" data).

(** The bootstrap peers, for a node that is not the first. *)
Definition ask_bootstrap (fuel : nat) (first : bool) : IM (option (list string)) :=
  if first then ret (Some [])
  else
    let! peers := ask_peers fuel [] true in
    match peers with
    | Some [] => throw no_bootstrap
    | _ => ret peers
    end.

Definition zero_ConfigAnswers : ConfigAnswers := mkConfigAnswers "" ∅ false [] "" 0 "" "" "" "" 0 "".

Definition runInit (order : list (Z * ChainDefaults)) (fuel : nat) : IM (option unit) :=
  let answers := zero_ConfigAnswers in
  let! chains := wrapM "failed to collect chain configs" (collectChainConfigs order) in
  let answers := answers <| ChainConfigs := chains |> in
  let! first := wrapM "failed to confirm first node status" (AskConfirm first_message false) in
  let answers := answers <| IsFirstNode := first |> in
  let! peers := ask_bootstrap fuel first in
  match peers with
  | None => ret None
  | Some peers =>
      let answers := answers <| BootstrapPeers := peers |> in
      let! mode := wrapM "failed to get deployment mode"
        (AskSelect mode_message ["docker"; "docker-compose"] "docker-compose") in
      let answers := answers <| DeployMode := mode |> in
      let! answers := ask_services answers in
      do! write_config answers in
      ret (Some tt)
  end.
End init.

(** ** What the file says *)

(** The configuration a node reads back. *)
Definition loaded (answers : ConfigAnswers) : Config :=
  let compose := bool_decide (DeployMode answers = "docker-compose") in
  mkConfig (ChainConfigs answers)
    (if compose then
       mkDatabaseConfig "spotted" "spotted" "spotted" "postgres" 5432 "spotted" 100 0 0 0 false
         false true []
     else
       mkDatabaseConfig "" (DBUser answers) (DBPassword answers) (DBHost answers) (DBPort answers)
         (DBName answers) 0 0 0 0 false false false [])
    (mkP2PConfig 10000 (BootstrapPeers answers) "spotted-network") 8080 4014
    (if compose then mkRedisConfig "redis" 6379 "" false false false [] 3 3000000000 50
     else mkRedisConfig (RedisHost answers) (RedisPort answers) (RedisPassword answers) false false
            false [] 0 0 0).

Definition go_int_range (n : Z) : Prop := - 2 ^ 63 <= n < 2 ^ 63.

(** The chains [init] writes: those of the table, each with its contracts. *)
Record chains_offered (m : gmap Z ChainConfig) : Prop := {
  offered_all : forall id, is_Some (m !! id) <-> id ∈ chainConfigs.*1;
  offered_each : map_Forall (fun id c => exists info,
    (id, info) ∈ chainConfigs /\ c = chain_of id info (cf_RPC c)) m;
}.

Record answers_ok (a : ConfigAnswers) : Prop := {
  answers_chains : chains_offered (ChainConfigs a);
  answers_first : IsFirstNode a = true -> BootstrapPeers a = [];
  answers_peers : IsFirstNode a = false -> (1 <= length (BootstrapPeers a) <= 5)%nat;
  answers_nonempty : Forall (fun p => p <> "") (BootstrapPeers a);
  answers_db : go_int_range (DBPort a);
  answers_redis : go_int_range (RedisPort a);
}.

(** All the answers to a question; the peers that were named *)
Definition answers_to (key : string) (log : list (string * Answer)) : list Answer :=
  (List.filter (fun kv => bool_decide (kv.1 = key)) log).*2.

Definition peer_named (kv : string * Answer) : option string :=
  if String.prefix peer_prefix kv.1 then
    match kv.2 with AText p => if decide (p = "") then None else Some p | _ => None end
  else None.
Definition peers_named (log : list (string * Answer)) : list string := omap peer_named log.

(** The answers are those of the log: each question about a chain, a mode or
    a service was asked once, and its answer is in the field it is about. *)
Record answered (log : list (string * Answer)) (a : ConfigAnswers) : Prop := {
  answered_chains : forall id info, (id, info) ∈ chainConfigs -> exists rpc,
    answers_to (rpc_message id) log = [AText rpc] /\
    ChainConfigs a !! id = Some (chain_of id info rpc);
  answered_first : answers_to first_message log = [ABool (IsFirstNode a)];
  answered_peers : BootstrapPeers a = peers_named log;
  answered_mode : answers_to mode_message log = [AText (DeployMode a)];
  answered_services : DeployMode a = "docker" ->
    answers_to "DBHost" log = [AText (DBHost a)] /\
    answers_to "DBPort" log = [AInt (DBPort a)] /\
    answers_to "DBUser" log = [AText (DBUser a)] /\
    answers_to "DBPassword" log = [AText (DBPassword a)] /\
    answers_to "DBName" log = [AText (DBName a)] /\
    answers_to "RedisHost" log = [AText (RedisHost a)] /\
    answers_to "RedisPort" log = [AInt (RedisPort a)] /\
    answers_to "RedisPassword" log = [AText (RedisPassword a)];
}.

(** The value [survey.Ask] writes in a field has the type of the field. *)
Definition fits_field (name : string) (v : Answer) : Prop :=
  if String.eqb name "DBPort" || String.eqb name "RedisPort"
  then exists n, v = AInt n /\ go_int_range n
  else exists s, v = AText s.

(** [survey.Ask] writes the answer to each question in the field it names. *)
Class SurveyOk `{Survey} := {
  survey_Ask_fields : forall i qs l, survey_Ask i qs = Ok l ->
    map fst l = map q_Name qs /\ Forall (fun fv => fits_field fv.1 fv.2) l;
}.

Section decode_generate.
Context (ParseDuration : string -> option Z) (H3s : ParseDuration "3s" = Some 3000000000).

Lemma y_int_ok n : go_int_range n -> y_int (YInt n) = Some n.
Proof.
  intros [Hlo Hhi]. unfold y_int, y_range. apply Z.leb_le in Hlo as ->. by apply Z.ltb_lt in Hhi as ->.
Qed.

Lemma decode_encode_chain c : 0 <= cf_RequiredConfirmations c < 2 ^ 16 ->
  y_map decode_chain (encode_chain c) = Some c.
Proof.
  intros [Hlo Hhi]. apply Z.leb_le in Hlo. apply Z.ltb_lt in Hhi.
  unfold encode_chain, y_map, decode_chain, yfield, y_uint16, y_range. simpl.
  rewrite Hlo, Hhi. by destruct c as [? [] ? ?].
Qed.

Lemma decode_encode_chains m :
  map_Forall (fun id c => is_u32 id /\ 0 <= cf_RequiredConfirmations c < 2 ^ 16) m ->
  decode_chains (encode_chains m) = Some m.
Proof.
  intros Hm. unfold decode_chains, encode_chains.
  assert (forall l : list (Z * ChainConfig), Forall (fun kv => is_u32 kv.1 /\ 0 <= cf_RequiredConfirmations kv.2 < 2 ^ 16) l ->
    mapM (fun kv =>
          if (0 <=? kv.1) && (kv.1 <? 2 ^ 32) then (fun c => (kv.1, c)) <$> y_map decode_chain kv.2
          else None) (map (fun kv => (kv.1, encode_chain kv.2)) l) = Some l) as ->.
  { intros l Hl. apply mapM_Some. induction Hl as [|[id c] l [[Hlo Hhi] Hc] _ IH]; constructor; [|done].
    apply Z.leb_le in Hlo. apply Z.ltb_lt in Hhi. cbn [fst snd] in *.
    rewrite Hlo, Hhi. cbn [andb]. by rewrite decode_encode_chain. }
  - simpl. by rewrite list_to_map_to_list.
  - apply map_Forall_to_list in Hm. eapply Forall_impl; [exact Hm|]. by intros [].
Qed.

Lemma offered_in_range m : chains_offered m ->
  map_Forall (fun id c => is_u32 id /\ 0 <= cf_RequiredConfirmations c < 2 ^ 16) m.
Proof.
  intros [_ He] id c Hc. destruct (He id c Hc) as (info & Hin & ->). simpl.
  assert (Forall (fun p => is_u32 p.1 /\ 0 <= requiredConfirmations p.2 < 2 ^ 16) chainConfigs) as Hall.
  { repeat constructor; vm_compute; congruence. }
  by apply (proj1 (Forall_forall _ _) Hall) in Hin.
Qed.

#[local] Arguments y_int : simpl never.

(** What is written is read back, the misspelled settings apart. *)
Lemma decode_generateConfig a : answers_ok a ->
  decode_config ParseDuration (generateConfig a) = Some (loaded a).
Proof.
  intros [Hch _ _ _ Hdb Hredis].
  pose proof (decode_encode_chains _ (offered_in_range _ Hch)) as Hdec.
  unfold generateConfig, loaded. revert Hdec. generalize (encode_chains (ChainConfigs a)).
  intros chains Hdec. case_bool_decide as Hmode;
    [rewrite (decide_True _ _ Hmode) | rewrite (decide_False _ _ Hmode)];
    unfold decode_config, y_map, yfield; simpl; rewrite Hdec; simpl.
  - unfold decode_database, decode_redis, yfield, y_duration. simpl. by rewrite H3s.
  - unfold decode_database, decode_redis, yfield. simpl.
    by rewrite !y_int_ok by (done || (split; lia)).
Qed.
End decode_generate.

Lemma offered_validates {AddrInfo} (parse : string -> res AddrInfo) a : answers_ok a ->
  (config_ok AddrInfo parse (loaded a) <->
   map_Forall (fun _ c => cf_RPC c <> "") (ChainConfigs a) /\
   Forall (fun p => exists pi, parse p = Ok pi) (BootstrapPeers a)).
Proof.
  intros [[Hall He] _ _ Hne _ _]. unfold config_ok. cbn [loaded cf_Chains cf_P2P cf_P2PPort cf_Rendezvous cf_BootstrapPeers].
  split.
  - intros (_ & Hch & _ & _ & Hp). split.
    + intros id c Hc. by apply Hch in Hc as [].
    + apply Forall_forall. intros p Hin. pose proof (proj1 (Forall_forall _ _) Hp p Hin) as [->|?]; [|done].
      by apply (proj1 (Forall_forall _ _) Hne) in Hin.
  - intros (Hrpc & Hp). split_and!; [| |lia|done|].
    + intros E. rewrite E in Hall. destruct (proj2 (Hall 84532)) as [? [=]].
      apply (bool_decide_unpack _). by vm_compute.
    + intros id c Hc. pose proof (Hrpc id c Hc) as Hr.
      destruct (He id c Hc) as (info & Hin & ->). cbn [chain_of cf_RPC] in *.
      revert Hin. generalize (cf_RPC c), Hr. clear. intros rpc Hr Hin.
      cbv [chainConfigs] in Hin. set_unfold in Hin.
      destruct Hin as [[= -> ->]|[[= -> ->]|[[= -> ->]|[]]]]; by split.
    + eapply Forall_impl; [exact Hp|]. by right.
Qed.

(** ** What the prompts give *)

Section runInit.
Context `{SurveyOk}.

Lemma answers_to_app key l1 l2 :
  answers_to key (l1 ++ l2) = answers_to key l1 ++ answers_to key l2.
Proof. unfold answers_to. by rewrite List.filter_app, fmap_app. Qed.

Lemma answers_to_cons key k v l :
  answers_to key ((k, v) :: l) = if bool_decide (k = key) then v :: answers_to key l else answers_to key l.
Proof. unfold answers_to. simpl. by case_bool_decide. Qed.

Lemma answers_to_none key l : Forall (fun kv => kv.1 <> key) l -> answers_to key l = [].
Proof.
  induction 1 as [|[k v] l Hk _ IH]; [done|]. rewrite answers_to_cons.
  by rewrite bool_decide_eq_false_2.
Qed.

Lemma peers_named_app l1 l2 : peers_named (l1 ++ l2) = peers_named l1 ++ peers_named l2.
Proof. apply omap_app. Qed.

#[local] Arguments peers_named : simpl never.

(** A question that is not about a peer *)
Definition not_peer (kv : string * Answer) : Prop := String.prefix peer_prefix kv.1 = false.

Lemma peers_named_none l : Forall not_peer l -> peers_named l = [].
Proof.
  induction 1 as [|kv l Hk _ IH]; [done|]. unfold peers_named in *. cbn [omap list_omap].
  unfold peer_named at 1. by rewrite Hk.
Qed.

(** After a prompt *)
Definition asked (key : string) (a : Answer) (w : InitW) : InitW :=
  mkInitW (S (iw_step w)) (iw_files w) (iw_log w ++ [(key, a)]).

Lemma AskInput_Ok msg dflt w w' a : AskInput msg dflt w = (w', Ok a) <->
  ask_Input (iw_step w) msg dflt = Ok a /\
  w' = asked msg (AText a) w.
Proof.
  unfold AskInput, sys, bind, log_answers, modify, ret. destruct (ask_Input _ _ _); naive_solver.
Qed.

Lemma AskConfirm_Ok msg dflt w w' a : AskConfirm msg dflt w = (w', Ok a) <->
  ask_Confirm (iw_step w) msg dflt = Ok a /\
  w' = asked msg (ABool a) w.
Proof.
  unfold AskConfirm, sys, bind, log_answers, modify, ret. destruct (ask_Confirm _ _ _); naive_solver.
Qed.

Lemma AskSelect_Ok msg options dflt w w' a : AskSelect msg options dflt w = (w', Ok a) <->
  ask_Select (iw_step w) msg options dflt = Ok a /\
  w' = asked msg (AText a) w.
Proof.
  unfold AskSelect, sys, bind, log_answers, modify, ret. destruct (ask_Select _ _ _ _); naive_solver.
Qed.

(** The part of the log that asks for the endpoints *)
Lemma collect_loop_Ok order configs w w' m : NoDup (rpc_message <$> order.*1) ->
  collect_loop order configs w = (w', Ok m) ->
  exists seg, iw_log w' = iw_log w ++ seg /\
    Forall (fun kv => kv.1 ∈ (rpc_message <$> order.*1)) seg /\
    (forall id info, (id, info) ∈ order -> exists rpc,
       answers_to (rpc_message id) seg = [AText rpc] /\ m !! id = Some (chain_of id info rpc)) /\
    (forall id, id ∉ order.*1 -> m !! id = configs !! id).
Proof.
  revert configs w. induction order as [|[id0 info0] order IH]; intros configs w Hnd; cbn [collect_loop].
  { intros [= <- <-]. exists []. rewrite app_nil_r. split; [done|]. split; [constructor|].
    split; [|done]. intros id info Hin. by apply not_elem_of_nil in Hin. }
  intros (w1 & rpc & [_ ->]%AskInput_Ok & Hl)%bind_Ok.
  cbn [fmap list_fmap fst] in Hnd. apply NoDup_cons in Hnd as [Hnew Hnd].
  apply IH in Hl as (seg & Hlog & Hkeys & Heach & Hrest); [|done].
  exists ((rpc_message id0, AText rpc) :: seg). split; [by rewrite Hlog; simpl; rewrite <- app_assoc|].
  split. { constructor; [by left|]. eapply Forall_impl; [exact Hkeys|]. intros kv Hk. by right. }
  assert (id0 ∉ order.*1) as Hid0. { intros Hin. apply Hnew. by apply list_elem_of_fmap_2. }
  split.
  - intros id info [[= -> ->]|Hin]%elem_of_cons.
    + exists rpc. rewrite answers_to_cons, bool_decide_eq_true_2 by done.
      rewrite answers_to_none, Hrest, lookup_insert_eq; [done|done|].
      eapply Forall_impl; [exact Hkeys|]. intros kv Hk E. apply Hnew. by rewrite <- E.
    + destruct (Heach id info Hin) as (rpc' & Ha & Hm). exists rpc'. split; [|done].
      rewrite answers_to_cons, bool_decide_eq_false_2; [done|]. intros E. apply Hnew. rewrite E.
      apply list_elem_of_fmap_2. by apply (list_elem_of_fmap_2 fst order (id, info)).
  - intros id Hid. cbn [fmap list_fmap fst] in Hid. apply not_elem_of_cons in Hid as [Hne Hid].
    by rewrite Hrest, lookup_insert_ne.
Qed.

Lemma collectChainConfigs_Ok order w w' m : order ≡ₚ chainConfigs ->
  collectChainConfigs order w = (w', Ok m) ->
  chains_offered m /\ exists seg, iw_log w' = iw_log w ++ seg /\
    Forall (fun kv => kv.1 ∈ (rpc_message <$> chainConfigs.*1)) seg /\
    (forall id info, (id, info) ∈ chainConfigs -> exists rpc,
       answers_to (rpc_message id) seg = [AText rpc] /\ m !! id = Some (chain_of id info rpc)).
Proof.
  intros Hp Hc. apply collect_loop_Ok in Hc as (seg & Hlog & Hkeys & Heach & Hrest).
  2:{ rewrite Hp. apply (bool_decide_unpack _). by vm_compute. }
  setoid_rewrite Hp in Hkeys. setoid_rewrite Hp in Heach. setoid_rewrite Hp in Hrest.
  split; [|by exists seg]. split.
  - intros id. destruct (decide (id ∈ chainConfigs.*1)) as [Hin|Hno].
    + split; [done|]. intros _. apply list_elem_of_fmap in Hin as ([id' info] & -> & Hin).
      destruct (Heach _ _ Hin) as (rpc & _ & Hm). simpl. by rewrite Hm.
    + rewrite Hrest, lookup_empty by done. split; [by intros [? [=]]|done].
  - intros id c Hc. destruct (decide (id ∈ chainConfigs.*1)) as [Hin|Hno].
    + apply list_elem_of_fmap in Hin as ([id' info] & -> & Hin). exists info. split; [done|].
      destruct (Heach _ _ Hin) as (rpc & _ & Hm). simpl in Hc. rewrite Hm in Hc. by injection Hc as <-.
    + by rewrite Hrest, lookup_empty in Hc.
Qed.

Lemma peer_prefix_app n : String.prefix peer_prefix (peer_prefix +:+ n) = true.
Proof. by destruct n. Qed.

(** The questions of the loop over the peers *)
Definition about_peers (kv : string * Answer) : Prop :=
  kv.1 = more_message \/ exists n, kv.1 = peer_prefix +:+ n.

Lemma ask_peers_Ok fuel peers more w w' peers' :
  (length peers <= 5)%nat -> Forall (fun p => p <> "") peers -> (peers = [] -> more = true) ->
  ask_peers fuel peers more w = (w', Ok (Some peers')) ->
  (1 <= length peers' <= 5)%nat /\ Forall (fun p => p <> "") peers' /\
  exists seg, iw_log w' = iw_log w ++ seg /\ Forall about_peers seg /\ peers' = peers ++ peers_named seg.
Proof.
  revert peers more w. induction fuel as [|fuel IH]; intros peers more w Hlen Hne Hmore;
    cbn [ask_peers]; (destruct (Nat.ltb (length peers) 5 && more) eqn:E;
      [|intros [= <- <-]; split; [destruct peers as [|p ps];
        [by rewrite Hmore in E|simpl in *; lia]|split; [done|]; exists []; by rewrite !app_nil_r]]).
  { done. }
  intros (w1 & peer & [_ ->]%wrapM_Ok%AskInput_Ok & Hk)%bind_Ok.
  set (msg := peer_prefix +:+ _) in Hk.
  set (given := (msg, AText peer)).
  assert (about_peers given) as Habout by (right; by eexists).
  assert (peer_named given = if decide (peer = "") then None else Some peer) as Hnamed
    by (unfold peer_named; cbn [fst snd given]; unfold msg; by rewrite peer_prefix_app).
  destruct (decide (peer = "")) as [_|Hp].
  { apply IH in Hk as (? & ? & seg & Hlog & Habs & ->); [|done..]. split; [done|]. split; [done|].
    exists (given :: seg). rewrite Hlog. simpl. rewrite <- app_assoc. split; [done|].
    split; [by constructor|]. unfold peers_named. cbn [omap list_omap]. by rewrite Hnamed. }
  assert (Forall (fun p => p <> "") (peers ++ [peer])) as Hne'
    by (apply Forall_app; by split; [|repeat constructor]).
  assert (peers ++ [peer] <> []) as Hnil by by destruct peers.
  assert (length (peers ++ [peer]) <= 5)%nat as Hlen'.
  { apply andb_prop in E as [E%Nat.ltb_lt _]. rewrite length_app. simpl. lia. }
  assert (forall seg, peers_named (given :: seg) = peer :: peers_named seg) as Hcons.
  { intros seg. unfold peers_named. cbn [omap list_omap]. by rewrite Hnamed. }
  destruct (Nat.ltb (length (peers ++ [peer])) 5).
  - apply bind_Ok in Hk as (w2 & more' & [_ ->]%wrapM_Ok%AskConfirm_Ok & Hk).
    apply IH in Hk as (? & ? & seg & Hlog & Habs & ->); [|done..]. split; [done|]. split; [done|].
    exists (given :: (more_message, ABool more') :: seg). rewrite Hlog. simpl. rewrite <- !app_assoc.
    split; [done|]. split; [constructor; [done|constructor; [by left|done]]|].
    rewrite Hcons. change (peers_named ((more_message, ABool more') :: seg)) with (peers_named seg).
    done.
  - apply IH in Hk as (? & ? & seg & Hlog & Habs & ->); [|done..]. split; [done|]. split; [done|].
    exists (given :: seg). rewrite Hlog. simpl. rewrite <- !app_assoc.
    split; [done|]. split; [by constructor|]. by rewrite Hcons.
Qed.

(** While the prompts are answered, the loop ends: from call [m] on no answer
    is empty, and [fuel] covers the rounds before it and five more. *)
Lemma ask_peers_ends (m fuel : nat) peers more w w' :
  (forall i msg dflt, (m <= i)%nat -> ask_Input i msg dflt <> Ok "") ->
  (length peers <= 5)%nat -> (m - iw_step w + (5 - length peers) <= fuel)%nat ->
  ask_peers fuel peers more w <> (w', Ok None).
Proof.
  intros Hans. revert peers more w. induction fuel as [|fuel IH]; intros peers more w Hlen Hfuel;
    cbn [ask_peers]; (destruct (Nat.ltb_spec (length peers) 5) as [Hlt|Hge]; [|done]);
    (destruct more; [|done]); simpl.
  { lia. }
  intros (w1 & peer & [Hp ->]%wrapM_Ok%AskInput_Ok & Hk)%bind_Ok.
  destruct (decide (peer = "")) as [->|Hne].
  - destruct (decide (m <= iw_step w)%nat) as [Hm|Hm]; [by eapply Hans in Hp|].
    eapply IH; [..|exact Hk]; simpl; lia.
  - destruct (Nat.ltb (length (peers ++ [peer])) 5).
    + apply bind_Ok in Hk as (w2 & more' & [_ ->]%wrapM_Ok%AskConfirm_Ok & Hk).
      eapply IH; [..|exact Hk]; rewrite ?length_app; simpl; lia.
    + eapply IH; [..|exact Hk]; rewrite ?length_app; simpl; lia.
Qed.

(** What is written by [survey.Ask] for the two lists of questions *)
Lemma Ask_db answers w w' a : Ask dbQuestions answers w = (w', Ok a) ->
  exists h p u pw n, go_int_range p /\
    a = answers <| DBHost := h |> <| DBPort := p |> <| DBUser := u |> <| DBPassword := pw |> <| DBName := n |> /\
    iw_log w' = iw_log w ++ [("DBHost", AText h); ("DBPort", AInt p); ("DBUser", AText u);
                             ("DBPassword", AText pw); ("DBName", AText n)].
Proof.
  unfold Ask. intros (w1 & l & Hl & Hk)%bind_Ok. unfold sys in Hl. injection Hl as <- Hl.
  apply survey_Ask_fields in Hl as [Hn Hf]. injection Hk as <- <-. cbn [map dbQuestions q_Name] in Hn.
  destruct l as [|[k1 v1] [|[k2 v2] [|[k3 v3] [|[k4 v4] [|[k5 v5] [|? ?]]]]]]; try discriminate Hn.
  cbn [map fst] in Hn. injection Hn as -> -> -> -> ->.
  rewrite !Forall_cons in Hf. unfold fits_field in Hf. simpl in Hf. destruct Hf as ([h ->] & (p & -> & Hp) & [u ->] & [pw ->] & [n ->] & _).
  by exists h, p, u, pw, n.
Qed.

Lemma Ask_redis answers w w' a : Ask redisQuestions answers w = (w', Ok a) ->
  exists h p pw, go_int_range p /\
    a = answers <| RedisHost := h |> <| RedisPort := p |> <| RedisPassword := pw |> /\
    iw_log w' = iw_log w ++ [("RedisHost", AText h); ("RedisPort", AInt p); ("RedisPassword", AText pw)].
Proof.
  unfold Ask. intros (w1 & l & Hl & Hk)%bind_Ok. unfold sys in Hl. injection Hl as <- Hl.
  apply survey_Ask_fields in Hl as [Hn Hf]. injection Hk as <- <-. cbn [map redisQuestions q_Name] in Hn.
  destruct l as [|[k1 v1] [|[k2 v2] [|[k3 v3] [|? ?]]]]; try discriminate Hn.
  cbn [map fst] in Hn. injection Hn as -> -> ->.
  rewrite !Forall_cons in Hf. unfold fits_field in Hf. simpl in Hf. destruct Hf as ([h ->] & (p & -> & Hp) & [pw ->] & _).
  by exists h, p, pw.
Qed.

(** What [survey.Ask] is answered, when the mode asks for it *)
Definition service_answers (a : ConfigAnswers) : list (string * Answer) :=
  if decide (DeployMode a = "docker") then
    [("DBHost", AText (DBHost a)); ("DBPort", AInt (DBPort a)); ("DBUser", AText (DBUser a));
     ("DBPassword", AText (DBPassword a)); ("DBName", AText (DBName a));
     ("RedisHost", AText (RedisHost a)); ("RedisPort", AInt (RedisPort a));
     ("RedisPassword", AText (RedisPassword a))]
  else [].

Lemma ask_services_Ok answers w w' a : ask_services answers w = (w', Ok a) ->
  DBPort answers = 0 -> RedisPort answers = 0 ->
  (ChainConfigs a, IsFirstNode a, BootstrapPeers a, DeployMode a) =
    (ChainConfigs answers, IsFirstNode answers, BootstrapPeers answers, DeployMode answers) /\
  go_int_range (DBPort a) /\ go_int_range (RedisPort a) /\
  iw_log w' = iw_log w ++ service_answers a.
Proof.
  unfold ask_services. destruct (decide _).
  - intros (w1 & a1 & Hdb%wrapM_Ok%Ask_db & Hr%wrapM_Ok%Ask_redis)%bind_Ok _ _.
    destruct Hdb as (h & p & u & pw & n & Hp & -> & Hl1), Hr as (rh & rp & rpw & Hrp & -> & Hl2).
    split; [done|]. split; [done|]. split; [done|]. rewrite Hl2, Hl1, <- app_assoc.
    unfold service_answers. by rewrite decide_True.
  - intros [= <- <-] Hp Hrp. split; [done|]. rewrite Hp, Hrp. unfold go_int_range. split; [lia|].
    split; [lia|]. unfold service_answers. by rewrite decide_False, app_nil_r.
Qed.

Lemma write_config_Ok answers w w' : write_config answers w = (w', Ok tt) ->
  exists data, yaml_Marshal (generateConfig answers) = Ok data /\
    iw_files w' !! "config/operator.yaml" = Some data /\ iw_log w' = iw_log w.
Proof.
  unfold write_config.
  intros (w1 & u & Hdir%wrapM_Ok & (w2 & data & Hm%wrapM_Ok & Hw%wrapM_Ok)%bind_Ok)%bind_Ok.
  injection Hdir as <- _. apply lift_Ok in Hm as [-> Hm]. exists data. split; [done|].
  unfold write_file in Hw. destruct (os_WriteFile _ _ _); injection Hw as <-; [|done..].
  split; [apply lookup_insert_eq|done].
Qed.

(** ** The log of a run *)

Definition rpc_part (seg : list (string * Answer)) : Prop :=
  Forall (fun kv => kv.1 ∈ (rpc_message <$> chainConfigs.*1)) seg.

Lemma rpc_part_none key seg : rpc_part seg -> key ∉ (rpc_message <$> chainConfigs.*1) ->
  answers_to key seg = [].
Proof.
  intros Hs Hk. apply answers_to_none. eapply Forall_impl; [exact Hs|]. intros kv Hin E. apply Hk.
  by rewrite <- E.
Qed.

Lemma peers_part_none key seg : Forall about_peers seg -> key <> more_message ->
  String.prefix peer_prefix key = false -> answers_to key seg = [].
Proof.
  intros Hs Hm Hp. apply answers_to_none. eapply Forall_impl; [exact Hs|].
  intros kv [E|[n E]] <-; [done|]. by rewrite E, peer_prefix_app in Hp.
Qed.

Lemma services_part_none key a : key ∉ map q_Name (dbQuestions ++ redisQuestions) ->
  answers_to key (service_answers a) = [].
Proof.
  intros Hk. apply answers_to_none. unfold service_answers. destruct (decide _); [|constructor].
  repeat constructor; intros <-; apply Hk; apply (bool_decide_unpack _); by vm_compute.
Qed.

Lemma rpc_keys id : id ∈ chainConfigs.*1 ->
  rpc_message id <> first_message /\ rpc_message id <> mode_message /\
  rpc_message id <> more_message /\ String.prefix peer_prefix (rpc_message id) = false /\
  rpc_message id ∉ map q_Name (dbQuestions ++ redisQuestions).
Proof.
  intros Hin. revert id Hin. apply Forall_forall. apply (bool_decide_unpack _). by vm_compute.
Qed.

Lemma rpc_part_not_peer seg : rpc_part seg -> Forall not_peer seg.
Proof.
  intros Hs. eapply Forall_impl; [exact Hs|]. intros kv Hin. unfold not_peer.
  apply list_elem_of_fmap in Hin as (id & -> & Hid). by apply rpc_keys.
Qed.

Lemma answered_intro a segc segp : rpc_part segc -> Forall about_peers segp ->
  (forall id info, (id, info) ∈ chainConfigs -> exists rpc,
     answers_to (rpc_message id) segc = [AText rpc] /\
     ChainConfigs a !! id = Some (chain_of id info rpc)) ->
  BootstrapPeers a = peers_named segp ->
  answered (segc ++ [(first_message, ABool (IsFirstNode a))] ++ segp ++
            [(mode_message, AText (DeployMode a))] ++ service_answers a) a.
Proof.
  intros Hsc Hsp Hchains Hpeers.
  assert (forall key, key ∉ (rpc_message <$> chainConfigs.*1) -> key <> more_message ->
    String.prefix peer_prefix key = false -> forall l1 l2,
    answers_to key (segc ++ l1 ++ segp ++ l2) = answers_to key l1 ++ answers_to key l2) as Hother.
  { intros key Hk Hm Hpre l1 l2. rewrite !answers_to_app, (rpc_part_none key segc), (peers_part_none key segp);
      done. }
  constructor.
  - intros id info Hin. destruct (Hchains id info Hin) as (rpc & Ha & Hm). exists rpc. split; [|done].
    destruct (rpc_keys id) as (H1 & H2 & H3 & H4 & H5); [by apply (list_elem_of_fmap_2 fst _ (id, info))|].
    rewrite !answers_to_app, Ha, (peers_part_none _ segp), services_part_none by done.
    by rewrite !answers_to_cons, !bool_decide_eq_false_2.
  - rewrite Hother by (try done; apply (bool_decide_unpack _); by vm_compute).
    rewrite answers_to_app, services_part_none by (apply (bool_decide_unpack _); by vm_compute). done.
  - rewrite !peers_named_app, Hpeers, (peers_named_none segc) by by apply rpc_part_not_peer.
    rewrite (peers_named_none (service_answers a)); [cbn; by rewrite app_nil_r|].
    unfold service_answers. destruct (decide _); by repeat constructor.
  - rewrite Hother by (try done; apply (bool_decide_unpack _); by vm_compute).
    rewrite answers_to_app, services_part_none by (apply (bool_decide_unpack _); by vm_compute). done.
  - intros Hd. unfold service_answers. rewrite (decide_True _ _ Hd).
    by split_and!; (rewrite Hother by (try done; apply (bool_decide_unpack _); by vm_compute)).
Qed.

(** A run that ends well has written the answers it was given. *)
Lemma runInit_Ok order fuel w w' : order ≡ₚ chainConfigs -> iw_log w = [] ->
  runInit order fuel w = (w', Ok (Some tt)) ->
  exists answers data, answers_ok answers /\ answered (iw_log w') answers /\
    yaml_Marshal (generateConfig answers) = Ok data /\
    iw_files w' !! "config/operator.yaml" = Some data.
Proof.
  intros Hp Hlog0. unfold runInit.
  intros (w1 & chains & Hc%wrapM_Ok & (w2 & first & [_ ->]%wrapM_Ok%AskConfirm_Ok &
    (w3 & peers & Hpeers & Hrest)%bind_Ok)%bind_Ok)%bind_Ok.
  apply collectChainConfigs_Ok in Hc as (Hoff & segc & Hl1 & Hsc & Hchains); [|done].
  rewrite Hlog0 in Hl1. simpl in Hl1.
  destruct peers as [peers|]; [|by injection Hrest].
  apply bind_Ok in Hrest as (w4 & mode & [_ ->]%wrapM_Ok%AskSelect_Ok & (w5 & a & Hsvc & Hrest)%bind_Ok).
  apply bind_Ok in Hrest as (w6 & [] & Hwrite & Hret). injection Hret as <-.
  apply write_config_Ok in Hwrite as (data & Hm & Hf & Hl6). exists a, data.
  apply ask_services_Ok in Hsvc as (Hsame & Hdb & Hr & Hl5); [|done..].
  change ((ChainConfigs a, IsFirstNode a, BootstrapPeers a, DeployMode a) =
          (chains, first, peers, mode)) in Hsame.
  injection Hsame as Ec Ef Eb Ed.
  assert (exists segp, iw_log w3 = segc ++ [(first_message, ABool first)] ++ segp /\
    Forall about_peers segp /\ peers = peers_named segp /\ Forall (fun p => p <> "") peers /\
    if first then peers = [] else (1 <= length peers <= 5)%nat) as (segp & Hl3 & Hsp & Epeers & Hne & Hlen).
  { unfold ask_bootstrap in Hpeers. destruct first.
    { injection Hpeers as <- <-. exists []. simpl. by rewrite Hl1. }
    apply bind_Ok in Hpeers as (w7 & r & Ha & Hr').
    destruct r as [[|x l]|]; [done| |done]. injection Hr' as <- <-.
    apply ask_peers_Ok in Ha as (Hlen & Hne & segp & Hl3 & Hsp & E); [|simpl; lia|constructor|done].
    exists segp. rewrite Hl3. simpl. by rewrite Hl1, <- app_assoc. }
  split; [|split; [|by split]].
  - split; rewrite ?Ec, ?Ef, ?Eb; try done; intros ->; done.
  - assert (iw_log w6 = segc ++ [(first_message, ABool (IsFirstNode a))] ++ segp ++
      [(mode_message, AText (DeployMode a))] ++ service_answers a) as ->.
    { rewrite Hl6, Hl5, Ef, Ed. cbn [asked iw_log]. rewrite Hl3.
      by rewrite <- !app_assoc. }
    apply answered_intro; [done|done|by rewrite Ec|by rewrite Eb].
Qed.

(** Reading the file back *)
Variable AddrInfo : Type.
Variable AddrInfoFromString : string -> res AddrInfo.
Variable os_ExpandEnv : string -> string.
Variable yaml_Unmarshal : string -> res Config.
Variable ParseDuration : string -> option Z.

(** C30: what [init] writes, [start] reads back.  A run of [init] that ends
    well leaves in config/operator.yaml a text that loads if and only if
    every endpoint given is non-empty and every bootstrap peer parses
    ([init] itself checks neither).  The configuration loaded is then made of
    the answers, each in the field its question was about (every endpoint,
    database and Redis question is asked once; the peers are the non-empty
    answers, in order, one to five unless the node is the first), with the
    contracts of the table, and without the connection lifetimes and the
    metrics switch of docker-compose mode, whose keys are spelled otherwise
    than the fields.  This is for answers in which [os.ExpandEnv] finds
    nothing to expand: a "$" in an endpoint or a password is replaced when
    the file is loaded.  And yaml.v3, which loads, is taken to read the trees
    of [generateConfig] as yaml.v2 wrote them. *)
Theorem init_then_load order map_order fuel w w'
    (Horder : order ≡ₚ chainConfigs) (Hmap : forall c, map_order c ≡ₚ map_to_list (cf_Chains c))
    (H3s : ParseDuration "3s" = Some 3000000000)
    (Hyaml : forall a cfg data, yaml_Marshal (generateConfig a) = Ok data ->
       decode_config ParseDuration (generateConfig a) = Some cfg -> yaml_Unmarshal data = Ok cfg)
    (Hexpand : forall data, iw_files w' !! "config/operator.yaml" = Some data ->
       os_ExpandEnv data = data)
    (Hlog : iw_log w = []) (Hrun : runInit order fuel w = (w', Ok (Some tt))) :
  exists answers, answers_ok answers /\ answered (iw_log w') answers /\
    let load := LoadConfig AddrInfo AddrInfoFromString
      (fun path => default (Err (Errorf "no such file")) (Ok <$> iw_files w' !! path))
      os_ExpandEnv yaml_Unmarshal map_order "config/operator.yaml" in
    (load = Ok (loaded answers) <->
     map_Forall (fun _ c => cf_RPC c <> "") (ChainConfigs answers) /\
     Forall (fun p => exists pi, AddrInfoFromString p = Ok pi) (BootstrapPeers answers)) /\
    (is_ok load = true -> load = Ok (loaded answers)).
Proof.
  destruct (runInit_Ok _ _ _ _ Horder Hlog Hrun) as (a & data & Ha & Hlogged & Hm & Hf).
  exists a. split; [done|]. split; [done|]. unfold LoadConfig. rewrite Hf. simpl.
  rewrite (Hexpand _ Hf), (Hyaml _ _ _ Hm (decode_generateConfig _ H3s a Ha)). simpl.
  rewrite <- (offered_validates AddrInfoFromString a Ha).
  rewrite <- (validate_spec AddrInfo AddrInfoFromString (map_order (loaded a)) _ (Hmap _)).
  destruct (validate _ _ (map_order (loaded a)) (loaded a)) as [[]|e|s]; simpl; done.
Qed.
End runInit.

(** ** A run with the defaults, and one bootstrap peer *)

#[export] Instance P2PConfig_eq_dec : EqDecision P2PConfig.
Proof. solve_decision. Defined.
#[export] Instance DatabaseConfig_eq_dec : EqDecision DatabaseConfig.
Proof. solve_decision. Defined.
#[export] Instance RedisConfig_eq_dec : EqDecision RedisConfig.
Proof. solve_decision. Defined.
#[export] Instance Config_eq_dec : EqDecision Config.
Proof. solve_decision. Defined.

Definition toy_duration (s : string) : option Z :=
  if decide (s = "3s") then Some 3000000000 else None.

Definition toy_answers : ConfigAnswers :=
  mkConfigAnswers "docker-compose"
    (list_to_map (map (fun p => (p.1, chain_of p.1 p.2 (rpcURL p.2))) chainConfigs))
    false ["/ip4/1.2.3.4/tcp/10000/p2p/Qm"] "" 0 "" "" "" "" 0 "".

(** The text of one configuration, the only one this YAML can write. *)
Definition toy_survey : Survey := {|
  ask_Input i msg dflt := Ok (if decide (dflt = "") then "/ip4/1.2.3.4/tcp/10000/p2p/Qm" else dflt);
  ask_Confirm i msg dflt := Ok dflt;
  ask_Select i msg options dflt := Ok dflt;
  survey_Ask i qs := Ok (map (fun q => (q_Name q,
    if String.eqb (q_Name q) "DBPort" then AInt 5432
    else if String.eqb (q_Name q) "RedisPort" then AInt 6379
    else AText (default "" (q_Default q)))) qs);
  os_MkdirAll i path := Ok tt;
  os_WriteFile i path data := Ok tt;
  file_left i := None;
  yaml_Marshal t :=
    match decode_config toy_duration t with
    | Some cfg => if decide (cfg = loaded toy_answers) then Ok "the defaults" else Err (Errorf "yaml")
    | None => Err (Errorf "yaml")
    end;
|}.

Lemma toy_survey_ok : @SurveyOk toy_survey.
Proof.
  split. intros i qs l [= <-]. split; [by rewrite map_map|].
  apply Forall_forall. intros fv (q & -> & _)%list_elem_of_fmap. unfold fits_field. cbn [fst snd].
  destruct (String.eqb (q_Name q) "DBPort"); [eexists; split; [done|split; lia]|].
  destruct (String.eqb (q_Name q) "RedisPort"); [eexists; split; [done|split; lia]|by eexists].
Qed.

Definition toy_files : InitW := (@runInit toy_survey chainConfigs 1 (mkInitW 0 ∅ [])).1.

Definition toy_load : res Config :=
  LoadConfig string (fun a => Ok a)
    (fun path => default (Err (Errorf "no such file")) (Ok <$> iw_files toy_files !! path))
    (fun s => s) (fun _ => Ok (loaded toy_answers)) (fun c => map_to_list (cf_Chains c))
    "config/operator.yaml".

Lemma toy_marshal (a : ConfigAnswers) cfg data :
  @yaml_Marshal toy_survey (generateConfig a) = Ok data ->
  decode_config toy_duration (generateConfig a) = Some cfg -> Ok (loaded toy_answers) = Ok cfg.
Proof. cbn [yaml_Marshal toy_survey]. intros Hm Hd. rewrite Hd in Hm. by case_decide; simplify_eq. Qed.

Lemma init_then_load_witness :
  @runInit toy_survey chainConfigs 1 (mkInitW 0 ∅ []) = (toy_files, Ok (Some tt)) /\
  (exists answers, toy_load = Ok (loaded answers)) /\
  exists answers, answers_ok answers /\ BootstrapPeers answers = ["/ip4/1.2.3.4/tcp/10000/p2p/Qm"] /\
    (is_ok toy_load = true -> toy_load = Ok (loaded answers)).
Proof.
  assert (@runInit toy_survey chainConfigs 1 (mkInitW 0 ∅ []) = (toy_files, Ok (Some tt))) as Hrun
    by (vm_compute; reflexivity).
  split; [exact Hrun|]. split; [exists toy_answers; vm_compute; reflexivity|].
  destruct (@init_then_load toy_survey toy_survey_ok string (fun a => Ok a) (fun s => s)
    (fun _ => Ok (loaded toy_answers)) toy_duration chainConfigs (fun c => map_to_list (cf_Chains c))
    1 (mkInitW 0 ∅ []) toy_files (reflexivity _) (fun _ => reflexivity _) eq_refl
    toy_marshal (fun _ _ => eq_refl) eq_refl Hrun) as (answers & Ha & Hlog & _ & Hload).
  exists answers. split; [exact Ha|]. split; [|exact Hload].
  rewrite (answered_peers _ _ Hlog). vm_compute. reflexivity.
Defined.
