(* ===== verification/App.v ===== *)
(** * cmd/operator/app: how a node is put together

    [Run] builds the components in a fixed order, each from those before it,
    starts their goroutines, and waits forever; [Shutdown] closes what the
    application holds.  [App] is the structure of the same name, with
    [Option]s for what may still be nil; the components' own constructors do
    the work.  [Ok] of [Run] is its final [select {}].

    The state [AppW] adds what the constructors act on: the environment of
    the process, the world the chain manager is made in, the libp2p node, the
    goroutines that have been started, the contexts that have been cancelled,
    and what has been closed.  A failed [Run] does not stop the goroutines it
    started.  Goroutines that one call starts and awaits (the cached reads,
    the closing of a connection) are not listed. *)

From S2P Require Import Prelude GoInt GoString Models World EthLib Signer Config Chain.
From S2P Require Import Task Gater Epoch Listener Api Network P2PNode Setup Command.
From coqutil Require Import Datatypes.RecordSetters.
Import TriangleBracketNotations.

(** ** The goroutines and the resources of a node *)

Inductive goroutine :=
  | g_metrics | g_listener | g_watch_registered | g_watch_deregistered | g_epoch
  | g_responses | g_timeouts | g_confirmations | g_cleanup | g_api | g_health
  | g_node (g : routine).
#[export] Instance goroutine_eq_dec : EqDecision goroutine.
Proof. solve_decision. Defined.

(** The cancellable contexts, each made by the constructor of its component *)
Inductive ctx := ctx_listener | ctx_epoch | ctx_processor | ctx_health | ctx_node.
#[export] Instance ctx_eq_dec : EqDecision ctx.
Proof. solve_decision. Defined.

(** The context whose end ends a goroutine: the watchers end with the
    listener, which unsubscribes; the two servers watch none. *)
Definition watches (g : goroutine) : option ctx :=
  match g with
  | g_metrics | g_api => None
  | g_listener | g_watch_registered | g_watch_deregistered => Some ctx_listener
  | g_epoch => Some ctx_epoch
  | g_responses | g_timeouts | g_confirmations | g_cleanup => Some ctx_processor
  | g_health => Some ctx_health
  | g_node g => if watches_ctx g then Some ctx_node else None
  end.

Inductive resource := r_db | r_redis | r_node | r_chains.
#[export] Instance resource_eq_dec : EqDecision resource.
Proof. solve_decision. Defined.

(** ** A sub-state *)

Definition zoom {W V A} (get : W -> V) (put : V -> W -> W) (m : M V A) : M W A :=
  fun w => let '(v, r) := m (get w) in (put v w, r).

Class AppLib `{EthLib, Swarm, Host} := {
  os_ReadFile : string -> res string;
  os_ExpandEnv : environ -> string -> string;
  yaml_Unmarshal : string -> res Config;
  map_order : Config -> list (Z * ChainConfig);
  key_ReadFile : string -> res bytes;
  DecryptKey : bytes -> string -> res PrivateKey;
  ToECDSA : bytes -> res PrivateKey;
  p2p_PrivKey : Type;
  ConfigDecodeKey : string -> res bytes;
  UnmarshalPrivateKey : bytes -> res p2p_PrivKey;
  AddrInfoFromString : string -> res AddrInfo;
  libp2p_New : nat -> string -> p2p_PrivKey -> res swarm;
  NewGossipSub : nat -> res unit;
  ps_Join : nat -> string -> res unit;
  topic_Subscribe : nat -> res unit;
  (** the connections of the host, as the health checker sees them *)
  net_of : swarm -> net_state;
  put_net : net_state -> swarm -> swarm;
  (** the listener subscribes in its own time: whether it has by the end of [Run] *)
  listener_subscribed : bool;
}.

Definition TaskResponseTopic : string := "/spotted/task-response".

Section app.
Context `{EnvConfig, DnsLib, RedisLib, StoreLib, Env, EthNode, AppLib}.

Record App := mkApp {
  a_isKeyPath : bool;
  a_signingKeyPath : string;
  a_signingKeyPriv : string;
  a_p2pKey : string;
  a_password : string;
  a_cfg : option Config;
  a_signer : option localSigner;
  a_chainManager : option chainManager;
  a_mainnetClient : option ChainClient;
  a_db : option Pool;
  a_redisConn : option RedisClient;
  a_dCache : option DCache;
  a_metricServer : option Z;                  (** its port *)
  a_host : bool;
  a_node : bool;
  a_apiServer : option (Handler * Z);
  a_repos : bool;
  a_gater : bool;
  a_taskProcessor : option (TaskProcessorConfig * TaskMem);  (** what it was made from, its state *)
  a_epochUpdator : option EpochMem;
}.

Definition New : App :=
  mkApp false "" "" "" "" None None None None None None None None false false None false false
    None None.

Record AppW := mkAppW {
  aw_step : nat;
  aw_env : environ;
  aw_app : App;
  aw_world : World chainManager;
  aw_node : NodeW;
  aw_started : list goroutine;    (** those of the node apart *)
  aw_cancelled : list ctx;        (** that of the node apart *)
  aw_closed : list resource;
}.

Abbreviation AM := (M AppW).

Definition cancelled (w : AppW) (c : ctx) : bool :=
  match c with
  | ctx_node => nw_stopped (aw_node w)
  | _ => bool_decide (c ∈ aw_cancelled w)
  end.

Definition told_to_end (w : AppW) (g : goroutine) : bool :=
  match watches g with Some c => cancelled w c | None => false end.

(** The goroutines that have been started and not been told to end *)
Definition aw_running (w : AppW) : list goroutine :=
  List.filter (fun g => negb (told_to_end w g))
    (aw_started w ++ map g_node (nw_routines (aw_node w))).

Definition update (f : App -> App) : AM unit := modify (fun w => w <| aw_app ::= f |>).
Definition go (gs : list goroutine) : AM unit :=
  modify (fun w => w <| aw_started ::= (fun rs => rs ++ gs) |>).
Definition cancel_ctx (c : ctx) : AM unit :=
  modify (fun w => w <| aw_cancelled ::= (fun cs => cs ++ [c]) |>).
Definition closed (r : resource) : AM unit :=
  modify (fun w => w <| aw_closed ::= (fun rs => rs ++ [r]) |>).

(** A call to code outside the repository *)
Definition sys {A} (f : nat -> res A) : AM A := fun w =>
  (w <| aw_step ::= S |>, f (aw_step w)).

(** A field that is dereferenced. *)
Definition need {A} (field : App -> option A) : AM A := fun w =>
  (w, match field (aw_app w) with Some a => Ok a | None => Panic "nil pointer dereference" end).

Definition in_world {A} (m : M (World chainManager) A) : AM A :=
  zoom aw_world (fun v w => w <| aw_world := v |>) m.
Definition in_node {A} (m : M NodeW A) : AM A :=
  zoom aw_node (fun v w => w <| aw_node := v |>) m.

(** ** The initialisations *)

Definition load (path : string) : AM Config := fun w =>
  (w, LoadConfig AddrInfo AddrInfoFromString os_ReadFile (os_ExpandEnv (aw_env w))
        yaml_Unmarshal map_order path).

Definition initConfig : AM unit :=
  let! cfg := wrapM "failed to load config" (load "config/operator.yaml") in
  update (fun a => a <| a_cfg := Some cfg |>).

Definition initMetrics : AM unit :=
  let! cfg := need a_cfg in
  do! update (fun a => a <| a_metricServer := Some (cf_MetricPort cfg) |>) in
  go [g_metrics].

Definition signer_config (a : App) : SignerConfig :=
  if a_isKeyPath a then mkSignerConfig (a_signingKeyPath a) "" (a_password a)
  else mkSignerConfig "" (a_signingKeyPriv a) "".

Definition initSigner : AM unit :=
  let! a := gets aw_app in
  let! s := wrapM "failed to initialize signer"
              (lift (NewLocalSigner key_ReadFile DecryptKey ToECDSA (Some (signer_config a)))) in
  update (fun a => a <| a_signer := Some s |>).

Definition initDatabase : AM unit :=
  let! env := gets aw_env in
  let! db := wrapM "failed to connect to database" (lift (NewWPGXPool env "POSTGRES")) in
  do! update (fun a => a <| a_db := Some db |>) in
  let! conns := wrapM "failed to initialize cache" (lift (InitCache env "operator")) in
  do! update (fun a => a <| a_redisConn := Some conns.1 |> <| a_dCache := Some conns.2 |>) in
  update (fun a => a <| a_repos := true |>).

Definition initChainManagerAndMainnetClient : AM unit :=
  let! cfg := need a_cfg in
  do! wrapM "failed to initialize chain manager" (in_world (NewManager (map_order cfg))) in
  let! chainManager := gets (fun w => w_mem (aw_world w)) in
  let! mainnetClient := wrapM "failed to create mainnet client" (lift (GetMainnetClient chainManager)) in
  update (fun a => a <| a_chainManager := Some chainManager |> <| a_mainnetClient := Some mainnetClient |>).

(** [a.repos.F]: a nil [a.repos] panics. *)
Definition need_repos : AM unit :=
  need (fun a => if a_repos a then Some tt else None).

(** The listener, and its watchers once it has subscribed *)
Definition listener_goroutines : list goroutine :=
  [g_listener] ++ if listener_subscribed then [g_watch_registered; g_watch_deregistered] else [].

Definition initEventListener : AM unit :=
  do! need_repos in
  let! a := gets aw_app in
  do! wrapM "failed to create event listener"
    (lift (NewEventListener (Some (mkListenerConfig (bool_decide (is_Some (a_mainnetClient a))) true)))) in
  go listener_goroutines.

Definition initGater : AM unit :=
  do! need_repos in
  do! wrapM "failed to create gater" (lift (NewConnectionGater (Some (mkGaterConfig true true)))) in
  update (fun a => a <| a_gater := true |>).

Definition new_nodew (host : swarm) : NodeW := mkNodeW 0 0 host [] false false [].

(** [NewNode] starts the goroutines of the node. *)
Definition initNode : AM unit :=
  let! a := gets aw_app in
  let! privKey := wrapM "failed to load P2P key"
    (lift (Base64ToPrivKey p2p_PrivKey ConfigDecodeKey UnmarshalPrivateKey (a_p2pKey a))) in
  let! cfg := need a_cfg in
  let! host := wrapM "failed to create host" (sys (fun i =>
    libp2p_New i ("/ip4/0.0.0.0/tcp/" +:+ big_String (cf_P2PPort (cf_P2P cfg))) privKey)) in
  do! update (fun a => a <| a_host := true |>) in
  let! bootstrapPeers := wrapM "failed to create bootstrap peers"
    (lift (GetBootstrapPeers AddrInfo AddrInfoFromString (cf_P2P cfg))) in
  do! modify (fun w => w <| aw_node := new_nodew host |>) in
  do! wrapM "failed to create operator node" (in_node (NewNode
    (Some (mkNodeConfig true bootstrapPeers (cf_Rendezvous (cf_P2P cfg)))))) in
  update (fun a => a <| a_node := true |>).

Definition initEpochUpdator : AM unit :=
  do! need_repos in
  let! a := gets aw_app in
  let! e := wrapM "failed to create epoch updator"
    (lift (NewEpochUpdator (Some (mkEpochConfig true (a_mainnetClient a)
                                    (bool_decide (is_Some (a_db a))))))) in
  do! update (fun a => a <| a_epochUpdator := Some e |>) in
  go [g_epoch].

(** [log.Fatalf] unless the call succeeds. *)
Definition fatalM (msg : string) (m : AM unit) : AM unit :=
  fun w => let '(w', r) := m w in (w', fatal msg r).

(** [taskProcessor.Start]: the goroutines of the processor; the error is
    always nil. *)
Definition processor_Start : AM unit := go [g_responses; g_timeouts; g_confirmations; g_cleanup].

Definition processor_config (a : App) : TaskProcessorConfig := {|
  tc_Signer := localSigner_OperatorSigner <$> a_signer a;
  tc_EpochStateQuerier := bool_decide (is_Some (a_epochUpdator a));
  tc_ConsensusResponseRepo := true;
  tc_BlacklistRepo := true;
  tc_TaskRepo := true;
  tc_OperatorRepo := true;
  tc_ChainManager := Build_ChainManager <$> a_chainManager a;
  tc_ResponseTopic := true;
|}.

Definition initTaskProcessor : AM unit :=
  do! wrapM "failed to create gossipsub" (sys NewGossipSub) in
  do! fatalM "failed to join response topic" (sys (fun i => ps_Join i TaskResponseTopic)) in
  do! fatalM "failed to subscribe to response topic" (sys topic_Subscribe) in
  do! need_repos in
  let! a := gets aw_app in
  let cfg := processor_config a in
  let! tp := wrapM "failed to create task processor" (lift (NewTaskProcessor (Some cfg))) in
  do! processor_Start in
  update (fun a => a <| a_taskProcessor := Some (cfg, tp) |>).

Definition initAPI : AM unit :=
  do! need_repos in
  let! a := gets aw_app in
  let! apiHandler := wrapM "failed to create API handler" (lift (NewHandler {|
    hc_ChainManager := bool_decide (is_Some (a_chainManager a));
    hc_TaskRepo := true;
    hc_ConsensusResponseRepo := true;
    hc_TaskProcessor := bool_decide (is_Some (a_taskProcessor a));
    hc_Config := a_cfg a |})) in
  let! cfg := need a_cfg in
  do! update (fun a => a <| a_apiServer := Some (apiHandler, cf_HTTPPort cfg) |>) in
  go [g_api].

(** The connections of the node, through the health checker. *)
Definition in_health {A} (hc : healthChecker) (m : M healthChecker A) : AM A := fun w =>
  let '(hc', r) := m hc in
  (w <| aw_node ::= (fun n => set_swarm (put_net (hc_net hc') (nw_swarm n)) n) |>, r).

(** [defer healthService.Stop()] cancels the checker on the way out. *)
Definition deferred {A} (m : AM A) (d : AM unit) : AM A := fun w =>
  let '(w', r) := m w in ((d w').1, r).

Definition initHealthChecker : AM unit :=
  let! a := gets aw_app in
  let! s := gets (fun w => net_of (nw_swarm (aw_node w))) in
  let! hc := wrapM "failed to create health checker" (lift (NewHealthChecker (a_node a) true s)) in
  do! go [g_health] in
  deferred
    (in_health hc (do! SetCheckInterval (30 * 1000000000) in do! try TriggerCheck in ret tt))
    (cancel_ctx ctx_health).

(** ** Run, Shutdown *)

Definition store_parameters (isKeyPath : bool) (signingKey p2pKey password : string) (a : App) : App :=
  let a := a <| a_isKeyPath := isKeyPath |> <| a_p2pKey := p2pKey |> in
  if isKeyPath then a <| a_signingKeyPath := signingKey |> <| a_password := password |>
  else a <| a_signingKeyPriv := signingKey |>.

Definition Run (isKeyPath : bool) (signingKey p2pKey password : string) : AM unit :=
  do! update (store_parameters isKeyPath signingKey p2pKey password) in
  do! wrapM "failed to load config" initConfig in
  do! wrapM "failed to initialize metrics" initMetrics in
  do! wrapM "failed to initialize signer" initSigner in
  do! wrapM "failed to initialize database" initDatabase in
  do! wrapM "failed to initialize chain manager and mainnet client" initChainManagerAndMainnetClient in
  do! wrapM "failed to initialize event listener" initEventListener in
  do! wrapM "failed to initialize gater" initGater in
  do! wrapM "failed to initialize node" initNode in
  do! wrapM "failed to initialize epoch updator" initEpochUpdator in
  do! wrapM "failed to initialize task processor" initTaskProcessor in
  do! wrapM "failed to initialize API" initAPI in
  wrapM "failed to initialize health checker" initHealthChecker.

Definition when {A} (o : option A) (m : AM unit) : AM unit :=
  match o with Some _ => m | None => ret tt end.

(** The outcomes of the last two calls are dropped. *)
Definition Shutdown : AM unit :=
  let! a := gets aw_app in
  do! when (a_db a) (closed r_db) in
  do! when (a_redisConn a) (closed r_redis) in
  do! when (if a_node a then Some tt else None)
        (do! try (in_node P2PNode.Stop) in closed r_node) in
  when (a_chainManager a) (do! try (in_world Chain.Close) in closed r_chains).

(** ** start.go: runStart

    [interrupted]: the signal has arrived when [Run] returns an error, and the
    [select] takes it.  A [Run] that waits is ended by a signal only. *)
Context (Duration_String : Z -> string).

Definition runStart (f : Flags) (interrupted : bool) : AM unit :=
  let! cfg := wrapM "failed to load config" (load (cfgFile f)) in
  do! modify (fun w => w <| aw_env ::= setenv_all (start_env Duration_String cfg) |>) in
  do! update (fun _ => New) in
  let '(isKeyPath, signingKey, p2pKey, password) := run_arguments f in
  let! r := try (Run isKeyPath signingKey p2pKey password) in
  match r with
  | inr err =>
      if interrupted then do! Shutdown in ret tt
      else throw (Wrapf "application error" err)
  | inl _ => do! Shutdown in ret tt
  end.
End app.

(** ** What each initialisation does when it succeeds *)

Section steps.
Context `{EnvConfig, DnsLib, RedisLib, StoreLib, Env, EthNode, AppLib}.
Implicit Types w : AppW.

(** The configuration a process with environment [env] loads. *)
Definition loads (env : environ) (path : string) : res Config :=
  LoadConfig AddrInfo AddrInfoFromString os_ReadFile (os_ExpandEnv env) yaml_Unmarshal map_order path.

Lemma bind_run {W A B} (m : M W A) (k : A -> M W B) (w w1 : W) a :
  m w = (w1, Ok a) -> bind m k w = k a w1.
Proof. unfold bind. by intros ->. Qed.

Lemma update_bind {A} f (k : unit -> M AppW A) w :
  bind (update f) k w = k tt (w <| aw_app ::= f |>).
Proof. done. Qed.

Lemma modify_Ok {W} f (w w' : W) : modify f w = (w', Ok tt) <-> w' = f w.
Proof. split; [by intros [= <-]|by intros ->]. Qed.

Lemma gets_bind {W A B} (f : W -> A) (k : A -> M W B) (w : W) : bind (gets f) k w = k (f w) w.
Proof. done. Qed.

Lemma need_Ok {A} (field : App -> option A) w w' a :
  need field w = (w', Ok a) <-> w' = w /\ field (aw_app w) = Some a.
Proof. unfold need. destruct (field (aw_app w)); naive_solver. Qed.

Lemma initConfig_Ok w w' : initConfig w = (w', Ok tt) <->
  exists cfg, loads (aw_env w) "config/operator.yaml" = Ok cfg /\
    w' = w <| aw_app ::= (fun a => a <| a_cfg := Some cfg |>) |>.
Proof.
  unfold initConfig, load. rewrite bind_Ok. fold (loads (aw_env w) "config/operator.yaml").
  setoid_rewrite wrapM_Ok. split.
  - intros (w1 & cfg & [= <- Hl] & ->%modify_Ok). by exists cfg.
  - intros (cfg & Hl & ->). exists w, cfg. by rewrite <- Hl.
Qed.

Lemma initMetrics_Ok w w' : initMetrics w = (w', Ok tt) <->
  exists cfg, a_cfg (aw_app w) = Some cfg /\
    w' = w <| aw_app ::= (fun a => a <| a_metricServer := Some (cf_MetricPort cfg) |>) |>
           <| aw_started ::= (fun rs => rs ++ [g_metrics]) |>.
Proof.
  unfold initMetrics. rewrite bind_Ok. setoid_rewrite need_Ok. split.
  - intros (w1 & cfg & [-> Hc] & Hk). rewrite update_bind in Hk. apply modify_Ok in Hk as ->. by exists cfg.
  - intros (cfg & Hc & ->). by exists w, cfg.
Qed.

Lemma initSigner_Ok w w' : initSigner w = (w', Ok tt) <->
  exists s, NewLocalSigner key_ReadFile DecryptKey ToECDSA (Some (signer_config (aw_app w))) = Ok s /\
    w' = w <| aw_app ::= (fun a => a <| a_signer := Some s |>) |>.
Proof.
  unfold initSigner. rewrite gets_bind.
  rewrite bind_Ok. split.
  - intros (w1 & s & [-> Hs]%wrapM_Ok%lift_Ok & ->%modify_Ok). by exists s.
  - intros (s & Hs & ->). exists w, s. by rewrite wrapM_Ok, lift_Ok.
Qed.

Lemma initDatabase_Ok w w' : initDatabase w = (w', Ok tt) <->
  exists db conns, NewWPGXPool (aw_env w) "POSTGRES" = Ok db /\
    InitCache (aw_env w) "operator" = Ok conns /\
    w' = w <| aw_app ::= (fun a => a <| a_db := Some db |> <| a_redisConn := Some conns.1 |>
                                     <| a_dCache := Some conns.2 |> <| a_repos := true |>) |>.
Proof.
  unfold initDatabase. rewrite gets_bind.
  rewrite bind_Ok. split.
  - intros (w1 & db & [-> Hdb]%wrapM_Ok%lift_Ok & Hk). exists db.
    rewrite update_bind in Hk.
    apply bind_Ok in Hk as (w2 & conns & Hc%wrapM_Ok & Hk).
    apply lift_Ok in Hc as [-> Hc]. do 2 rewrite ?update_bind in Hk. apply modify_Ok in Hk as ->. by exists conns.
  - intros (db & conns & Hdb & Hc & ->). exists w, db. rewrite wrapM_Ok, lift_Ok. split; [done|].
    rewrite update_bind.
    rewrite bind_Ok. eexists _, conns. rewrite wrapM_Ok, lift_Ok. by split.
Qed.

Lemma initChain_Ok w w' : initChainManagerAndMainnetClient w = (w', Ok tt) <->
  exists cfg v c, a_cfg (aw_app w) = Some cfg /\
    NewManager (map_order cfg) (aw_world w) = (v, Ok tt) /\
    GetMainnetClient (w_mem v) = Ok c /\
    w' = w <| aw_world := v |>
           <| aw_app ::= (fun a => a <| a_chainManager := Some (w_mem v) |>
                                     <| a_mainnetClient := Some c |>) |>.
Proof.
  unfold initChainManagerAndMainnetClient, in_world, zoom. rewrite bind_Ok. setoid_rewrite need_Ok. split.
  - intros (w1 & cfg & [-> Hc] & Hk). exists cfg.
    apply bind_Ok in Hk as (w2 & [] & Hm%wrapM_Ok & Hk).
    destruct (NewManager (map_order cfg) (aw_world w)) as [v r]. injection Hm as <- ->. exists v.
    rewrite gets_bind in Hk.
    apply bind_Ok in Hk as (w3 & c & Hg%wrapM_Ok & Hk).
    apply lift_Ok in Hg as [-> Hg]. apply modify_Ok in Hk as ->. by exists c.
  - intros (cfg & v & c & Hc & Hm & Hg & ->). exists w, cfg. split; [done|].
    rewrite (bind_run _ _ _ (w <| aw_world := v |>) tt) by (unfold wrapM; by rewrite Hm).
    rewrite gets_bind.
    rewrite bind_Ok. eexists _, c. by rewrite wrapM_Ok, lift_Ok.
Qed.

Lemma need_repos_Ok w w' : need_repos w = (w', Ok tt) <-> w' = w /\ a_repos (aw_app w) = true.
Proof. unfold need_repos. rewrite need_Ok. destruct (a_repos (aw_app w)); naive_solver. Qed.

(** [need_repos], where the repositories are there. *)
Lemma need_repos_bind {A} (k : unit -> M AppW A) w :
  a_repos (aw_app w) = true -> bind need_repos k w = k tt w.
Proof. intros E. apply bind_run, need_repos_Ok. by split. Qed.

(** The constructors that only check what they are given. *)
Lemma initEventListener_run w :
  a_repos (aw_app w) = true -> is_Some (a_mainnetClient (aw_app w)) ->
  initEventListener w = (w <| aw_started ::= (fun rs => rs ++ listener_goroutines) |>, Ok tt).
Proof.
  intros Hr Hm. unfold initEventListener. rewrite need_repos_bind, gets_bind by done.
  by rewrite bool_decide_eq_true_2.
Qed.

Lemma initGater_run w : a_repos (aw_app w) = true ->
  initGater w = (w <| aw_app ::= (fun a => a <| a_gater := true |>) |>, Ok tt).
Proof. intros Hr. unfold initGater. by rewrite need_repos_bind. Qed.

Definition fresh_epoch : EpochMem := mkEpochMem (mkEpochState 0 None None None) 0.

Lemma initEpochUpdator_run w :
  a_repos (aw_app w) = true -> is_Some (a_mainnetClient (aw_app w)) -> is_Some (a_db (aw_app w)) ->
  initEpochUpdator w =
    (w <| aw_app ::= (fun a => a <| a_epochUpdator := Some fresh_epoch |>) |>
       <| aw_started ::= (fun rs => rs ++ [g_epoch]) |>, Ok tt).
Proof.
  intros Hr [c Hc] Hdb. unfold initEpochUpdator. rewrite need_repos_bind, gets_bind by done.
  by rewrite Hc, bool_decide_eq_true_2.
Qed.

Lemma initAPI_run w cfg : a_repos (aw_app w) = true -> a_cfg (aw_app w) = Some cfg ->
  is_Some (a_chainManager (aw_app w)) -> is_Some (a_taskProcessor (aw_app w)) ->
  initAPI w =
    (w <| aw_app ::= (fun a => a <| a_apiServer := Some (mkHandler (Some cfg), cf_HTTPPort cfg) |>) |>
       <| aw_started ::= (fun rs => rs ++ [g_api]) |>, Ok tt).
Proof.
  intros Hr Hc Hm Ht. unfold initAPI. rewrite need_repos_bind, gets_bind by done.
  rewrite !bool_decide_eq_true_2 by done. unfold NewHandler. cbn [negb hc_TaskProcessor hc_ChainManager hc_TaskRepo hc_ConsensusResponseRepo hc_Config].
  rewrite (bind_run _ _ w w (mkHandler (a_cfg (aw_app w)))) by done.
  rewrite (bind_run _ _ w w cfg) by (by apply need_Ok). by rewrite Hc.
Qed.

Lemma sys_bind {A B} (f : nat -> res A) msg (k : A -> M AppW B) w a : f (aw_step w) = Ok a ->
  bind (wrapM msg (sys f)) k w = k a (w <| aw_step ::= S |>).
Proof. intros E. apply bind_run. unfold wrapM, sys. by rewrite E. Qed.

Lemma sys_wrapM_Ok {A} (f : nat -> res A) msg w w' a :
  wrapM msg (sys f) w = (w', Ok a) <-> w' = w <| aw_step ::= S |> /\ f (aw_step w) = Ok a.
Proof. rewrite wrapM_Ok. unfold sys. split; [by intros [= <- ->]|by intros [-> ->]]. Qed.

Lemma initNode_Ok w w' : initNode w = (w', Ok tt) <->
  exists key cfg host peers n,
    Base64ToPrivKey p2p_PrivKey ConfigDecodeKey UnmarshalPrivateKey (a_p2pKey (aw_app w)) = Ok key /\
    a_cfg (aw_app w) = Some cfg /\
    libp2p_New (aw_step w) ("/ip4/0.0.0.0/tcp/" +:+ big_String (cf_P2PPort (cf_P2P cfg))) key = Ok host /\
    GetBootstrapPeers AddrInfo AddrInfoFromString (cf_P2P cfg) = Ok peers /\
    NewNode (Some (mkNodeConfig true peers (cf_Rendezvous (cf_P2P cfg))))
      (new_nodew host) = (n, Ok tt) /\
    w' = w <| aw_step ::= S |>
           <| aw_app ::= (fun a => a <| a_host := true |> <| a_node := true |>) |>
           <| aw_node := n |>.
Proof.
  unfold initNode, in_node, zoom. rewrite gets_bind. rewrite bind_Ok. split.
  - intros (w1 & key & [-> Hkey]%wrapM_Ok%lift_Ok & (w2 & cfg & [-> Hc]%need_Ok &
      (w3 & host & [-> Hh]%sys_wrapM_Ok & Hk)%bind_Ok)%bind_Ok).
    rewrite update_bind in Hk.
    apply bind_Ok in Hk as (w4 & peers & [-> Hp]%wrapM_Ok%lift_Ok & Hk).
    apply bind_Ok in Hk as (w5 & [] & ->%modify_Ok & Hk).
    apply bind_Ok in Hk as (w6 & [] & Hn%wrapM_Ok & Hk).
    cbn [aw_node apply_update constant] in Hn. destruct (NewNode _ _) as [n r] eqn:En.
    injection Hn as <- ->. apply modify_Ok in Hk as ->. by exists key, cfg, host, peers, n.
  - intros (key & cfg & host & peers & n & Hkey & Hc & Hh & Hp & Hn & ->).
    exists w, key. rewrite wrapM_Ok, lift_Ok. split; [done|].
    rewrite (bind_run _ _ w w cfg) by (by apply need_Ok).
    rewrite (sys_bind _ _ _ _ host Hh), update_bind.
    rewrite (bind_run _ _ _ _ peers) by (apply wrapM_Ok, lift_Ok; split; [reflexivity|done]).
    rewrite bind_Ok. eexists _, tt. rewrite modify_Ok. split; [reflexivity|].
    rewrite bind_Ok. eexists _, tt. rewrite wrapM_Ok.
    split; [change (aw_node _) with (new_nodew host); by rewrite Hn|].
    by apply modify_Ok.
Qed.

Lemma fatal_Ok msg (r : res unit) : fatal msg r = Ok tt <-> r = Ok tt.
Proof. by destruct r as [[]|e|why]. Qed.

Lemma fatal_sys_Ok f msg w w' : fatalM msg (sys f) w = (w', Ok tt) <->
  w' = w <| aw_step ::= S |> /\ f (aw_step w) = Ok tt.
Proof.
  unfold fatalM, sys. split.
  - intros [= <- Hf]. by apply fatal_Ok in Hf.
  - intros [-> Hf]. by rewrite Hf.
Qed.

Definition fresh_task : TaskMem := mkTaskMem empty_track true [].

Lemma processor_config_ok a : is_Some (a_signer a) -> is_Some (a_chainManager a) ->
  is_Some (a_epochUpdator a) -> NewTaskProcessor (Some (processor_config a)) = Ok fresh_task.
Proof.
  intros [s Hs] [m Hm] He. unfold processor_config. by rewrite Hs, Hm, (bool_decide_eq_true_2 _ He).
Qed.

Lemma initTaskProcessor_Ok w w' : a_repos (aw_app w) = true ->
  is_Some (a_signer (aw_app w)) -> is_Some (a_chainManager (aw_app w)) ->
  is_Some (a_epochUpdator (aw_app w)) ->
  initTaskProcessor w = (w', Ok tt) <->
  NewGossipSub (aw_step w) = Ok tt /\ ps_Join (S (aw_step w)) TaskResponseTopic = Ok tt /\
  topic_Subscribe (S (S (aw_step w))) = Ok tt /\
  w' = w <| aw_step ::= (fun n => S (S (S n))) |>
         <| aw_started ::= (fun rs => rs ++ [g_responses; g_timeouts; g_confirmations; g_cleanup]) |>
         <| aw_app ::= (fun a => a <| a_taskProcessor := Some (processor_config a, fresh_task) |>) |>.
Proof.
  intros Hr Hs Hm He. pose proof (processor_config_ok _ Hs Hm He) as Hnew. unfold initTaskProcessor.
  set (w3 := w <| aw_step ::= S |> <| aw_step ::= S |> <| aw_step ::= S |>).
  assert (forall k : unit -> M AppW unit, bind need_repos k w3 = k tt w3) as Hneed
    by (intros k; by apply need_repos_bind).
  rewrite bind_Ok. split.
  - intros (w1 & [] & [-> Hg]%sys_wrapM_Ok & (w2 & [] & [-> Hj]%fatal_sys_Ok &
      (w4 & [] & [-> Hb]%fatal_sys_Ok & Hk)%bind_Ok)%bind_Ok).
    fold w3 in Hk. rewrite Hneed, gets_bind in Hk.
    change (aw_app w3) with (aw_app w) in Hk. rewrite Hnew in Hk.
    split; [done|]. split; [done|]. split; [done|]. symmetry. by injection Hk.
  - intros (Hg & Hj & Hb & ->). eexists _, tt. rewrite sys_wrapM_Ok. split; [done|].
    rewrite bind_Ok. eexists _, tt. rewrite fatal_sys_Ok. split; [done|].
    rewrite bind_Ok. eexists _, tt. rewrite fatal_sys_Ok. split; [done|].
    fold w3. rewrite Hneed, gets_bind.
    change (aw_app w3) with (aw_app w). by rewrite Hnew.
Qed.

(** However the check ends, the checker has been cancelled when the
    initialisation returns. *)
Lemma initHealthChecker_run w : a_node (aw_app w) = true -> exists s r,
  initHealthChecker w =
    (w <| aw_node ::= set_swarm s |> <| aw_started ::= (fun rs => rs ++ [g_health]) |>
       <| aw_cancelled ::= (fun cs => cs ++ [ctx_health]) |>, r).
Proof.
  intros Hn. unfold initHealthChecker. rewrite !gets_bind, Hn. cbn [NewHealthChecker negb].
  rewrite (bind_run _ _ w w (mkHealthChecker 0 (net_of (nw_swarm (aw_node w))) ∅ HealthCheckInterval false))
    by done.
  rewrite (bind_run _ _ w (w <| aw_started ::= (fun rs => rs ++ [g_health]) |>) tt) by done.
  unfold deferred, in_health. destruct (bind _ _ _) as [hc r]. by eexists _, r.
Qed.

Lemma initHealthChecker_Ok `{!HostOk} w : a_node (aw_app w) = true -> Network.answers ->
  NoDup (Network_Peers (net_of (nw_swarm (aw_node w)))) ->
  exists s, initHealthChecker w =
    (w <| aw_node ::= set_swarm s |> <| aw_started ::= (fun rs => rs ++ [g_health]) |>
       <| aw_cancelled ::= (fun cs => cs ++ [ctx_health]) |>, Ok tt).
Proof.
  intros Hn Hans Hnd. unfold initHealthChecker. rewrite !gets_bind, Hn. cbn [NewHealthChecker negb].
  set (s := net_of _).
  rewrite (bind_run _ _ w w (mkHealthChecker 0 s ∅ HealthCheckInterval false)) by done.
  rewrite (bind_run _ _ w (w <| aw_started ::= (fun rs => rs ++ [g_health]) |>) tt) by done.
  set (hc := mkHealthChecker 0 s ∅ (30 * 1000000000) false).
  destruct (check_all_run (Network_Peers s) Hnd Hans hc) as (hc' & Hrun & _).
  unfold deferred, in_health. rewrite (bind_run _ _ _ hc tt) by done.
  rewrite (bind_run _ _ _ hc' (inl tt)); [by eexists|].
  unfold TriggerCheck, checkPeers, try, GetConnectedPeers, bind, gets. simpl. by rewrite Hrun.
Qed.
End steps.

(** ** A node that runs *)

Section run.
Context `{EnvConfig, DnsLib, RedisLib, StoreLib, Env, EthNode, AppLib}.
Hypothesis map_order_perm : forall c, map_order c ≡ₚ map_to_list (cf_Chains c).

(** What [Run] starts and does not end *)
Definition running_goroutines : list goroutine :=
  [g_metrics] ++ listener_goroutines ++
  [g_epoch; g_responses; g_timeouts; g_confirmations; g_cleanup; g_api] ++ map g_node node_routines.

(** The goroutines that [Shutdown] does not tell to end *)
Definition left_running : list goroutine :=
  [g_metrics] ++ listener_goroutines ++
  [g_epoch; g_responses; g_timeouts; g_confirmations; g_cleanup; g_api;
   g_node print_new_addresses; g_node print_new_addresses].

(** All that a [Run] has started, and the contexts that have ended *)
Record started_all (node_stopped : bool) (w : AppW) : Prop := {
  sa_started : aw_started w = [g_metrics] ++ listener_goroutines ++
    [g_epoch; g_responses; g_timeouts; g_confirmations; g_cleanup; g_api; g_health];
  sa_node : nw_routines (aw_node w) = node_routines;
  sa_cancelled : aw_cancelled w = [ctx_health];
  sa_stopped : nw_stopped (aw_node w) = node_stopped;
}.

Lemma started_all_running node_stopped w : started_all node_stopped w ->
  aw_running w = if node_stopped then left_running else running_goroutines.
Proof.
  intros [Hs Hn Hc Hst]. unfold aw_running. rewrite Hs, Hn.
  transitivity (List.filter (fun g => negb match watches g with
      | None => false
      | Some ctx_node => node_stopped
      | Some c => bool_decide (c ∈ [ctx_health])
      end) (([g_metrics] ++ listener_goroutines ++
             [g_epoch; g_responses; g_timeouts; g_confirmations; g_cleanup; g_api; g_health]) ++
            map g_node node_routines)).
  - apply List.filter_ext. intros g. unfold told_to_end, cancelled. rewrite Hst, Hc.
    by destruct (watches g) as [[]|].
  - unfold left_running, running_goroutines, listener_goroutines.
    by destruct node_stopped, listener_subscribed.
Qed.

(** A process in which nothing has been started. *)
Definition fresh (w : AppW) : Prop :=
  aw_app w = New /\ aw_started w = [] /\ aw_cancelled w = [] /\ nw_routines (aw_node w) = [].

(** The application when [Run] has got to its [select {}]: every component
    made from those before it, and nothing nil. *)
Definition assembled (isKeyPath : bool) (signingKey p2pKey password : string) (w w' : AppW) : Prop :=
  let params := store_parameters isKeyPath signingKey p2pKey password New in
  exists cfg s m c db redisConn dCache,
    loads (aw_env w) "config/operator.yaml" = Ok cfg /\
    NewLocalSigner key_ReadFile DecryptKey ToECDSA (Some (signer_config params)) = Ok s /\
    NewWPGXPool (aw_env w) "POSTGRES" = Ok db /\
    InitCache (aw_env w) "operator" = Ok (redisConn, dCache) /\
    config_ok AddrInfo AddrInfoFromString cfg /\
    (forall id, match cf_Chains cfg !! id, m !! id with
                | Some chainCfg, Some client => made_from chainCfg id client
                | None, None => True
                | _, _ => False
                end) /\
    is_Some (cf_Chains cfg !! MainnetChainID) /\ m !! MainnetChainID = Some c /\
    aw_app w' = mkApp isKeyPath (a_signingKeyPath params) (a_signingKeyPriv params) p2pKey
      (a_password params) (Some cfg) (Some s) (Some m) (Some c) (Some db) (Some redisConn)
      (Some dCache) (Some (cf_MetricPort cfg)) true true
      (Some (mkHandler (Some cfg), cf_HTTPPort cfg)) true true
      (Some (mkTaskProcessorConfig (Some (localSigner_OperatorSigner s)) true true true true true
               (Some (Build_ChainManager m)) true, fresh_task)) (Some fresh_epoch) /\
    started_all false w' /\ aw_closed w' = aw_closed w /\ w_mem (aw_world w') = m.

Lemma loads_valid env path cfg : loads env path = Ok cfg -> config_ok AddrInfo AddrInfoFromString cfg.
Proof.
  unfold loads, LoadConfig. intros (d & _ & (c & _ & ([] & Hv & Hok)%res_bind_Ok)%res_bind_Ok)%res_bind_Ok.
  injection Hok as ->. apply wrap_Ok in Hv. by apply (validate_spec _ _ _ _ (map_order_perm cfg)).
Qed.

Lemma manager_chains cfg v v' : NewManager (map_order cfg) v = (v', Ok tt) ->
  forall id, match cf_Chains cfg !! id, w_mem v' !! id with
             | Some chainCfg, Some client => made_from chainCfg id client
             | None, None => True
             | _, _ => False
             end.
Proof.
  intros Hm id. pose proof (NewManager_ok _ _ _ _ (map_order_perm cfg) Hm id) as Hall.
  unfold GetClientByChainId in Hall.
  by destruct (cf_Chains cfg !! id), (w_mem v' !! id).
Qed.

Ltac next_step H w1 Hs := apply bind_Ok in H as (w1 & [] & Hs%wrapM_Ok & H).

Lemma Run_Ok isKeyPath signingKey p2pKey password w w' (Hfresh : fresh w)
    (Hrun : Run isKeyPath signingKey p2pKey password w = (w', Ok tt)) :
  assembled isKeyPath signingKey p2pKey password w w'.
Proof.
  destruct w as [step env app world node gs cs cl]. destruct Hfresh as (Happ & Hg & Hcs & _).
  simpl in Happ, Hg, Hcs. subst app gs cs. unfold Run in Hrun. rewrite update_bind in Hrun.
  next_step Hrun w1 Hs. apply initConfig_Ok in Hs as (cfg & Hcfg & ->).
  next_step Hrun w1 Hs. apply initMetrics_Ok in Hs as (cfg' & Hc & ->). injection Hc as <-.
  next_step Hrun w1 Hs. apply initSigner_Ok in Hs as (s & Hs & ->).
  next_step Hrun w1 Hd. apply initDatabase_Ok in Hd as (db & [rc dc] & Hdb & Hcache & ->).
  next_step Hrun w1 Hm. apply initChain_Ok in Hm as (cfg' & v & c & Hc & Hm & Hmain & ->).
  assert (cfg' = cfg) as -> by (by destruct isKeyPath; injection Hc).
  erewrite bind_run in Hrun; [|apply wrapM_Ok, initEventListener_run; [done|by eexists]].
  erewrite bind_run in Hrun; [|by apply wrapM_Ok, initGater_run].
  next_step Hrun w1 Hn. apply initNode_Ok in Hn as (key & cfg' & host & peers & n & _ & _ & _ & _ & Hn & ->).
  apply NewNode_routines in Hn as [Hroutines Hnotyet].
  erewrite bind_run in Hrun; [|apply wrapM_Ok, initEpochUpdator_run; [done|by eexists..]].
  next_step Hrun w1 Ht. apply initTaskProcessor_Ok in Ht as (_ & _ & _ & ->); [|done|by eexists..].
  erewrite bind_run in Hrun; [|apply wrapM_Ok, (initAPI_run _ cfg); [done|by destruct isKeyPath|by eexists..]].
  apply wrapM_Ok in Hrun.
  match type of Hrun with initHealthChecker ?x = _ => destruct (initHealthChecker_run x eq_refl) as (n' & r & Hh) end.
  rewrite Hh in Hrun. injection Hrun as <- ->.
  pose proof (manager_chains cfg _ _ Hm) as Hall.
  unfold GetMainnetClient, GetClientByChainId in Hmain.
  destruct (w_mem v !! MainnetChainID) as [c'|] eqn:Ec; [|done]. injection Hmain as ->.
  exists cfg, s, (w_mem v), c, db, rc, dc.
  split; [exact Hcfg|]. split; [by destruct isKeyPath|]. split; [exact Hdb|]. split; [exact Hcache|].
  split; [by eapply loads_valid|]. split; [exact Hall|].
  split. { specialize (Hall MainnetChainID). rewrite Ec in Hall.
           by destruct (cf_Chains cfg !! MainnetChainID). }
  split; [exact Ec|]. split; [by destruct isKeyPath|]. split; [|done].
  constructor; [|exact Hroutines|done|exact Hnotyet]. cbn. by rewrite <- !app_assoc.
Qed.

(** C13: a node that starts is complete.  When [Run] gets to its wait, every
    field of the application is set: the configuration that was loaded, the
    signer of the key given, the pool, the cache, one client per configured
    chain, the node, the processor, made from that signer and those clients,
    and the handler.  Chain 11155111 is among the chains, though validation
    asks only for some chain.  Fourteen goroutines have been started and not
    told to end (the two servers, the listener, the epoch updator, four of
    the processor, and six of the node, of which two end by themselves five
    seconds later), and the two watchers once the listener has subscribed;
    the health checker's is not one of them. *)
Theorem Run_assembles isKeyPath signingKey p2pKey password w w' (Hfresh : fresh w)
    (Hrun : Run isKeyPath signingKey p2pKey password w = (w', Ok tt)) :
  assembled isKeyPath signingKey p2pKey password w w' /\
  aw_running w' = running_goroutines /\ g_health ∉ aw_running w'.
Proof.
  pose proof (Run_Ok _ _ _ _ _ _ Hfresh Hrun) as Ha. split; [exact Ha|].
  destruct Ha as (? & ? & ? & ? & ? & ? & ? & _ & _ & _ & _ & _ & _ & _ & _ & _ & Hs & _).
  apply started_all_running in Hs as ->. split; [done|].
  apply (bool_decide_unpack (g_health ∉ running_goroutines)).
  unfold running_goroutines, listener_goroutines. by destruct listener_subscribed.
Qed.

(** The calls of [Shutdown] to libp2p, which may fail but answer *)
Definition node_closes : Prop :=
  (forall i s why, (dht_Close i s).2 <> Panic why) /\
  (forall i s why, (host_Close i s).2 <> Panic why).

Lemma try_answers {W A} (m : M W A) (w : W) :
  (forall why, (m w).2 <> Panic why) -> exists r, try m w = ((m w).1, Ok r).
Proof. unfold try. destruct (m w) as [w1 [a|e|why]]; simpl; intros Hm; [by eexists..|by destruct (Hm why)]. Qed.

Lemma Stop_answers n : node_closes -> forall why, (P2PNode.Stop n).2 <> Panic why.
Proof.
  intros [Hd Hh] why. unfold P2PNode.Stop, bind, cancel, modify, gets.
  cbn [nw_dht stopped]. destruct (nw_dht n); unfold try, ret, call; cbn [nw_step nw_swarm stopped].
  - specialize (Hd (nw_step n) (nw_swarm n)).
    destruct (dht_Close _ _) as [s [u|e|why']]; simpl in *; [| |by destruct (Hd why')].
    all: specialize (Hh (S (nw_step n)) s why); by destruct (host_Close _ _).
  - specialize (Hh (nw_step n) (nw_swarm n) why). by destruct (host_Close _ _).
Qed.

(** Clients that were made from a configuration close without an error. *)
Lemma close_chains_answers l : Forall (fun c => exists cl, c = as_ChainClient cl) l ->
  forall v : World chainManager, exists v', close_chains l v = (v', Ok []) /\ w_mem v' = w_mem v.
Proof.
  induction 1 as [|c l [cl ->] _ IH]; intros v; cbn [close_chains]; [by eexists|].
  unfold bind at 1, try, extern, bind at 1, tick, lift. simpl.
  match goal with |- context [bind _ _ ?x] => destruct (IH x) as (v' & Hc & Hm) end.
  exists v'. unfold bind, ret. rewrite Hc. by rewrite Hm.
Qed.

Lemma Close_answers (m : chainManager) v : w_mem v = m ->
  (forall id c, m !! id = Some c -> exists cl, c = as_ChainClient cl) ->
  exists v', Chain.Close v = (v', Ok tt).
Proof.
  intros <- Hm. unfold Chain.Close. rewrite gets_bind.
  destruct (close_chains_answers (map_to_list (w_mem v)).*2) with (v := v) as (v' & Hc & _).
  - apply Forall_fmap, Forall_forall. intros [id c] Hin%elem_of_map_to_list. by apply (Hm id).
  - exists v'. by rewrite (bind_run _ _ _ _ _ Hc).
Qed.

(** C32: what an orderly shutdown stops.  After a [Run] that got to its wait,
    [Shutdown] returns, and has closed the pool, Redis, the node and the
    chain clients, in that order, whatever libp2p answers.  Through the
    node's [cancel] it tells the four loops of the node to end, and no other
    goroutine: the processor's, the epoch updator's, the listener's and its
    watchers', the two servers' go on, over a pool and clients that are
    closed, and the printers of addresses may outlive the host: nothing
    cancels their contexts. *)
Theorem Shutdown_leaves_running isKeyPath signingKey p2pKey password w w' (Hfresh : fresh w)
    (Hcloses : node_closes)
    (Hrun : Run isKeyPath signingKey p2pKey password w = (w', Ok tt)) :
  exists w'', Shutdown w' = (w'', Ok tt) /\
    aw_closed w'' = aw_closed w ++ [r_db; r_redis; r_node; r_chains] /\
    aw_running w'' = left_running.
Proof.
  apply Run_Ok in Hrun as (cfg & s & m & c & db & rc & dc & _ & _ & _ & _ & _ & Hm & _ & _ &
    Happ & Hgo & Hcl & Hmem); [|done].
  unfold Shutdown. rewrite gets_bind, Happ. cbn [a_db a_redisConn a_node a_chainManager when].
  set (w1 := w' <| aw_closed ::= (fun rs => rs ++ [r_db]) |>).
  rewrite (bind_run _ _ w' w1 tt) by done.
  set (w2 := w1 <| aw_closed ::= (fun rs => rs ++ [r_redis]) |>).
  rewrite (bind_run _ _ w1 w2 tt) by done.
  destruct (P2PNode.Stop (aw_node w2)) as [n r] eqn:Es.
  assert (forall why, r <> Panic why) as Hr.
  { pose proof (Stop_answers (aw_node w2) Hcloses) as Ha. by rewrite Es in Ha. }
  destruct (try_answers (in_node P2PNode.Stop) w2) as (r' & Hstop).
  { unfold in_node, zoom. by rewrite Es. }
  destruct (Close_answers m (aw_world w2)) as (v & Hclose); [done| |].
  { intros id cl Hid. specialize (Hm id). rewrite Hid in Hm.
    destruct (cf_Chains cfg !! id); [|done]. destruct Hm as (i & k & _ & ->). by eexists. }
  set (w3 := (in_node P2PNode.Stop w2).1
               <| aw_closed ::= (fun rs => rs ++ [r_node]) |>).
  rewrite (bind_run _ _ w2 w3 tt) by (by rewrite (bind_run _ _ _ _ _ Hstop)).
  exists (w3 <| aw_world := v |> <| aw_closed ::= (fun rs => rs ++ [r_chains]) |>).
  assert (aw_world w3 = aw_world w2) as Hw by (unfold w3, in_node, zoom; by rewrite Es).
  split; [|split].
  - rewrite (bind_run _ _ w3 (w3 <| aw_world := v |>) (inl tt)); [done|].
    unfold try, in_world, zoom. by rewrite Hw, Hclose.
  - unfold w3, in_node, zoom. rewrite Es, <- Hcl. simpl. by rewrite <- !app_assoc.
  - apply (started_all_running true). destruct Hgo as [Hs Hn Hc _].
    pose proof (Stop_stops (aw_node w2)) as [Hst Hrs]. rewrite Es in Hst, Hrs.
    unfold w3, in_node, zoom. rewrite Es. constructor; [done|by rewrite <- Hn|done|done].
Qed.

(** ** When it starts *)

(** Every call outside the repository succeeds. *)
Record all_answer (isKeyPath : bool) (signingKey p2pKey password : string) (w : AppW)
    (cfg : Config) : Prop := {
  aa_cfg : loads (aw_env w) "config/operator.yaml" = Ok cfg;
  aa_signer : is_ok (NewLocalSigner key_ReadFile DecryptKey ToECDSA
    (Some (signer_config (store_parameters isKeyPath signingKey p2pKey password New)))) = true;
  aa_db : is_ok (NewWPGXPool (aw_env w) "POSTGRES") = true;
  aa_cache : is_ok (InitCache (aw_env w) "operator") = true;
  aa_clients : forall i id chainCfg, is_ok (NewChainClient i (client_config id chainCfg)) = true;
  aa_key : is_ok (Base64ToPrivKey p2p_PrivKey ConfigDecodeKey UnmarshalPrivateKey p2pKey) = true;
  aa_host : forall i addr key, is_ok (libp2p_New i addr key) = true;
  aa_dht : forall i peers s, (dht_New i peers s).2 = Ok tt;
  aa_bootstrap : forall i s, (dht_Bootstrap i s).2 = Ok tt;
  aa_advertise : forall i r s why, (Advertise i r s).2 <> Panic why;
  aa_gossip : forall i, NewGossipSub i = Ok tt /\ ps_Join i TaskResponseTopic = Ok tt /\
    topic_Subscribe i = Ok tt;
  aa_peers : forall s, NoDup (Network_Peers s);
}.

Lemma is_ok_inv {A} (r : res A) : is_ok r = true -> exists a, r = Ok a.
Proof. destruct r; [by eexists|done|done]. Qed.

(** Advertising may fail, as it does for the first node. *)
Lemma NewNode_runs peers rendezvous n : rendezvous <> "" ->
  (forall i ps s, (dht_New i ps s).2 = Ok tt) -> (forall i s, (dht_Bootstrap i s).2 = Ok tt) ->
  (forall i r s why, (Advertise i r s).2 <> Panic why) ->
  exists n', NewNode (Some (mkNodeConfig true peers rendezvous)) n = (n', Ok tt).
Proof.
  intros Hr Hnew Hboot Hadv. unfold NewNode. cbn [nc_Host nc_RendezvousString nc_BootstrapPeers negb].
  rewrite decide_False by done.
  unfold initDHT, startPeerDiscovery, startPrintPeerInfo, PrintPeerInfo, wrapM, bind, try, call, modify,
    P2PNode.go, gets, ret.
  specialize (Hnew (nw_step n) peers (nw_swarm n)).
  destruct (dht_New _ _ _) as [s1 r1]. simpl in Hnew. subst r1. cbn [wrap nw_step nw_swarm set_dht].
  specialize (Hboot (S (nw_step n)) s1). destruct (dht_Bootstrap _ _) as [s2 r2]. simpl in Hboot. subst r2.
  simpl. specialize (Hadv (S (S (nw_step n))) rendezvous s2).
  destruct (Advertise _ _ _) as [s3 [u|e|why]]; [by eexists|by eexists|by destruct (Hadv why)].
Qed.

(** [Run] without a client for the chain the registry is on *)
Definition no_mainnet : error :=
  Wrapf "failed to initialize chain manager and mainnet client"
    (Wrapf "failed to create mainnet client" (Errorf "chain not found")).

Lemma initChain_missing w cfg v : a_cfg (aw_app w) = Some cfg ->
  NewManager (map_order cfg) (aw_world w) = (v, Ok tt) -> w_mem v !! MainnetChainID = None ->
  initChainManagerAndMainnetClient w =
    (w <| aw_world := v |>, Err (Wrapf "failed to create mainnet client" (Errorf "chain not found"))).
Proof.
  intros Hc Hm Hnone. unfold initChainManagerAndMainnetClient, in_world, zoom.
  rewrite (bind_run _ _ w w cfg) by (by apply need_Ok).
  rewrite (bind_run _ _ w (w <| aw_world := v |>) tt) by (unfold wrapM; by rewrite Hm).
  rewrite gets_bind. unfold bind, wrapM, lift, GetMainnetClient, GetClientByChainId.
  change (aw_world (_ <| aw_world := v |>)) with v. by rewrite Hnone.
Qed.

Lemma bind_Err {W A B} (m : M W A) (k : A -> M W B) (w w1 : W) e :
  m w = (w1, Err e) -> bind m k w = (w1, Err e).
Proof. unfold bind. by intros ->. Qed.

(** The rest of a run, from the clients on. *)
Definition run_components : M AppW unit :=
  do! wrapM "failed to initialize event listener" initEventListener in
  do! wrapM "failed to initialize gater" initGater in
  do! wrapM "failed to initialize node" initNode in
  do! wrapM "failed to initialize epoch updator" initEpochUpdator in
  do! wrapM "failed to initialize task processor" initTaskProcessor in
  do! wrapM "failed to initialize API" initAPI in
  wrapM "failed to initialize health checker" initHealthChecker.

Tactic Notation "run_step" uconstr(L) := erewrite bind_run; [|apply wrapM_Ok, L].

Lemma run_components_Ok `{!HostOk} isKeyPath signingKey p2pKey password w0 w cfg :
  all_answer isKeyPath signingKey p2pKey password w0 cfg -> Network.answers ->
  config_ok AddrInfo AddrInfoFromString cfg ->
  a_p2pKey (aw_app w) = p2pKey -> a_cfg (aw_app w) = Some cfg -> a_repos (aw_app w) = true ->
  is_Some (a_signer (aw_app w)) -> is_Some (a_db (aw_app w)) ->
  is_Some (a_chainManager (aw_app w)) -> is_Some (a_mainnetClient (aw_app w)) ->
  exists w', run_components w = (w', Ok tt).
Proof.
  intros [_ _ _ _ _ Hkey Hhost Hnew Hboot Hadv Hgossip Hpeers] Hans (_ & _ & _ & Hrv & Haddrs)
    Hp Hc Hr Hs Hdb Hm Hmain.
  unfold run_components. run_step initEventListener_run; [|done..]. run_step initGater_run; [|done].
  apply is_ok_inv in Hkey as [key Hkey].
  destruct (is_ok_inv _ (Hhost (aw_step w)
    ("/ip4/0.0.0.0/tcp/" +:+ big_String (cf_P2PPort (cf_P2P cfg))) key)) as [host Hh].
  destruct (proj2 (bootstrap_peers_ok _ _ _) Haddrs) as [peers Hpe].
  destruct (NewNode_runs peers (cf_Rendezvous (cf_P2P cfg)) (new_nodew host))
    as [n Hn]; [done..|].
  run_step initNode_Ok.
  2:{ exists key, cfg, host, peers, n. rewrite <- Hp in Hkey.
      split; [exact Hkey|]. split; [exact Hc|]. split; [exact Hh|]. split; [exact Hpe|].
      split; [exact Hn|reflexivity]. }
  run_step initEpochUpdator_run; [|done..].
  run_step initTaskProcessor_Ok; [|done|done|done|by eexists|].
  2:{ split; [apply Hgossip|]. split; [apply Hgossip|]. split; [apply Hgossip|reflexivity]. }
  run_step (initAPI_run _ cfg); [|done..|by eexists].
  match goal with |- context [wrapM _ initHealthChecker ?x] =>
    destruct (initHealthChecker_Ok x eq_refl Hans (Hpeers _)) as (n' & Hrun) end.
  eexists. by apply wrapM_Ok.
Qed.

(** C14: what it takes to start.  When every call outside the repository
    succeeds, and with them the constructors of the signer, the pool, the
    cache and the clients, and the configuration is valid, [Run] gets to its wait exactly
    when chain 11155111 is configured.  Validation does not ask for it, so a
    valid configuration without it ends in an error, with the metrics server
    already running and the database connected; nothing is closed. *)
Theorem Run_starts_iff `{!HostOk} isKeyPath signingKey p2pKey password w cfg (Hfresh : fresh w)
    (Hall : all_answer isKeyPath signingKey p2pKey password w cfg) (Hans : Network.answers) :
  exists w' r, Run isKeyPath signingKey p2pKey password w = (w', r) /\
    match cf_Chains cfg !! MainnetChainID with
    | Some _ => r = Ok tt
    | None => r = Err no_mainnet /\ aw_running w' = [g_metrics] /\ is_Some (a_db (aw_app w')) /\
        aw_closed w' = aw_closed w
    end.
Proof.
  pose proof (loads_valid _ _ _ (aa_cfg _ _ _ _ _ _ Hall)) as Hvalid.
  destruct w as [step env app world node gs cs cl]. destruct Hfresh as (Happ & Hg & Hcs & Hrs).
  simpl in Happ, Hg, Hcs, Hrs. subst app gs cs.
  pose proof Hall as [Hcfg Hs Hdb Hcache Hcl _ _ _ _ _ _ _]. cbn [aw_env] in *.
  apply is_ok_inv in Hs as [s Hs]. apply is_ok_inv in Hdb as [db Hdb].
  apply is_ok_inv in Hcache as [conns Hcache].
  destruct (NewManager_runs (map_order cfg) world Hcl) as [v Hm].
  pose proof (manager_chains cfg world v Hm MainnetChainID) as Hmain.
  unfold Run. rewrite update_bind.
  run_step initConfig_Ok; [|exists cfg; split; [exact Hcfg|reflexivity]].
  run_step initMetrics_Ok; [|exists cfg; split; [reflexivity|reflexivity]].
  run_step initSigner_Ok; [|exists s; split; [by destruct isKeyPath|reflexivity]].
  run_step initDatabase_Ok; [|exists db, conns; split; [exact Hdb|split; [exact Hcache|reflexivity]]].
  destruct (cf_Chains cfg !! MainnetChainID), (w_mem v !! MainnetChainID) as [mc|] eqn:Ec; try done.
  - run_step initChain_Ok.
    2:{ exists cfg, v, mc. split; [by destruct isKeyPath|]. split; [exact Hm|].
        split; [unfold GetMainnetClient, GetClientByChainId; by rewrite Ec|reflexivity]. }
    fold run_components.
    match goal with |- context [run_components ?x] =>
      destruct (run_components_Ok _ _ _ _ _ x cfg Hall Hans Hvalid) as [w' Hrun] end;
      [by destruct isKeyPath|by destruct isKeyPath|done|by eexists..|].
    exists w', (Ok tt). by split.
  - erewrite bind_Err; [|unfold wrapM; erewrite initChain_missing; [reflexivity|by destruct isKeyPath|exact Hm|exact Ec]].
    eexists _, _. split; [reflexivity|]. split; [done|].
    split; [unfold aw_running; cbn; by rewrite Hrs|]. split; [by eexists|done].
Qed.
End run.

(** ** A node on which every call succeeds *)

Definition toy_dns : DnsLib := {|
  ClientConfigFromFile := Ok ["10.0.0.2"];
  is_IP s := true;
  JoinHostPort h p := h +:+ ":" +:+ p;
  dns_Fqdn s := s +:+ ".";
  dns_Exchange tcp q server := Ok (Some [RR_A "10.0.0.3"]);
|}.

Definition toy_redis : RedisLib := {|
  InstrumentTracing c := Ok tt; InstrumentMetrics c := Ok tt; redis_Ping c := Ok tt;
|}.

Definition toy_store : StoreLib := {|
  DCache := string;
  dcache_NewDCache name c cfg := Ok name;
  Pool := string;
  wpgx_NewPool env prefix := Ok prefix;
  pool_Ping p := Ok tt;
  ReplicaPools p := [];
|}.

(** A configuration with the chain of the registry, or with another one. *)
Definition toy_node_config (chainID : Z) : Config :=
  mkConfig {[ chainID := toy_chain ]} zero_DatabaseConfig
    (mkP2PConfig 10000 ["up"] "spotted-network") 8080 4014 zero_RedisConfig.

Definition toy_app (chainID : Z) : @AppLib toy_eth toy_swarm toy_host := {|
  os_ReadFile path := Ok path;
  os_ExpandEnv env s := s;
  yaml_Unmarshal s := Ok (toy_node_config chainID);
  map_order c := map_to_list (cf_Chains c);
  key_ReadFile path := Ok [];
  DecryptKey b p := Ok toy_key;
  ToECDSA b := Ok toy_key;
  p2p_PrivKey := bytes;
  ConfigDecodeKey s := Ok (string_bytes s);
  UnmarshalPrivateKey b := Ok b;
  AddrInfoFromString a := Ok (a : @AddrInfo toy_swarm);
  libp2p_New i addr key := Ok (∅ : @swarm toy_swarm);
  NewGossipSub i := Ok tt;
  ps_Join i topic := Ok tt;
  topic_Subscribe i := Ok tt;
  net_of s := (∅ : @net_state toy_host);
  put_net n s := s;
  listener_subscribed := true;
|}.

Section toy.
Context (chainID : Z).
#[local] Existing Instances toy_envconfig toy_dns toy_redis toy_store toy_env toy_eth toy_node
  toy_host toy_swarm.
#[local] Instance toy_app_lib : AppLib := toy_app chainID.

Definition toy_process : AppW := mkAppW 0 ∅ New (toy_world empty_db ∅) toy_nodew [] [] [].

Definition toy_Run : AppW * res unit := Run false "0x0102" "key" "" toy_process.

Lemma toy_process_fresh : fresh toy_process.
Proof. by split_and!. Qed.

Lemma toy_map_order c : map_order c ≡ₚ map_to_list (cf_Chains c).
Proof. done. Qed.

Lemma toy_all_answer : loads ∅ "config/operator.yaml" = Ok (toy_node_config chainID) ->
  all_answer false "0x0102" "key" "" toy_process (toy_node_config chainID).
Proof.
  intros Hl. split; try done.
  - intros i id c. unfold NewChainClient. simpl. by destruct (id =? MainnetChainID).
  - intros s. simpl. repeat constructor; set_solver.
Qed.

Lemma toy_host_answers : @Network.answers toy_host.
Proof. split; intros; simpl; [done|]. by destruct (decide (p = "q")). Qed.

Lemma toy_closes : @node_closes toy_swarm.
Proof. by split. Qed.
End toy.

Lemma Run_starts_iff_witness :
  (toy_Run 11155111).2 = Ok tt /\ (toy_Run 84532).2 = Err no_mainnet.
Proof.
  split.
  - destruct (@Run_starts_iff toy_envconfig toy_dns toy_redis toy_store toy_env toy_node toy_eth
      toy_swarm toy_host (toy_app 11155111) (toy_map_order 11155111) toy_host_ok false "0x0102" "key" ""
      toy_process (toy_node_config 11155111) toy_process_fresh
      (toy_all_answer 11155111 ltac:(vm_compute; reflexivity)) toy_host_answers) as (w' & r & Hrun & Hr).
    transitivity r; [exact (f_equal snd Hrun) | exact Hr].
  - destruct (@Run_starts_iff toy_envconfig toy_dns toy_redis toy_store toy_env toy_node toy_eth
      toy_swarm toy_host (toy_app 84532) (toy_map_order 84532) toy_host_ok false "0x0102" "key" ""
      toy_process (toy_node_config 84532) toy_process_fresh
      (toy_all_answer 84532 ltac:(vm_compute; reflexivity)) toy_host_answers) as (w' & r & Hrun & Hr).
    transitivity r; [exact (f_equal snd Hrun) | exact (proj1 Hr)].
Defined.

Lemma toy_Run_Ok : @Run toy_envconfig toy_dns toy_redis toy_store toy_env toy_node toy_eth
    toy_swarm toy_host (toy_app 11155111) false "0x0102" "key" "" toy_process =
  ((toy_Run 11155111).1, Ok tt).
Proof.
  assert ((toy_Run 11155111).2 = Ok tt) as <- by (vm_compute; reflexivity).
  by rewrite <- surjective_pairing.
Qed.

Lemma Run_assembles_witness :
  g_health ∉ aw_running (toy_Run 11155111).1 /\ length (aw_running (toy_Run 11155111).1) = 16%nat.
Proof.
  split; [|vm_compute; reflexivity].
  exact (proj2 (proj2 (@Run_assembles toy_envconfig toy_dns toy_redis toy_store toy_env toy_node toy_eth
    toy_swarm toy_host (toy_app 11155111) (toy_map_order 11155111) false "0x0102" "key" ""
    toy_process _ toy_process_fresh toy_Run_Ok))).
Defined.

Lemma Shutdown_leaves_running_witness : exists w'',
  @Shutdown toy_store toy_env toy_eth toy_swarm (toy_Run 11155111).1 = (w'', Ok tt) /\
  @aw_running toy_store toy_env toy_eth toy_swarm w'' =
    @left_running toy_eth toy_swarm toy_host (toy_app 11155111) /\
  length (@aw_running toy_store toy_env toy_eth toy_swarm w'') = 12%nat.
Proof.
  destruct (@Shutdown_leaves_running toy_envconfig toy_dns toy_redis toy_store toy_env toy_node
    toy_eth toy_swarm toy_host (toy_app 11155111) (toy_map_order 11155111) false "0x0102" "key" ""
    toy_process _ toy_process_fresh toy_closes toy_Run_Ok) as (w'' & Hs & _ & Hr).
  exists w''. split; [exact Hs|]. split; [exact Hr|]. rewrite Hr. reflexivity.
Defined.
